(** * xlsximport / xlsxexport: a shallow embedding of the converter core

    The repository holds several independent C implementations of the same
    two SQLite extensions (the file headers name them "opus", "copilot"
    and "gemini").  Each module below embeds the functions of one
    implementation, keeping the C names.

    Conventions of the embedding
    - a NUL-terminated C string is a [list ascii] (its bytes before the
      terminator); [strcmp(a,b) == 0] is equality of the two lists;
    - a C [int] is a [Z].  What the C library hands back as an [int]
      ([atoi], [sqlite3_value_int]) is reduced to 32 bits with [to_int],
      as the library does; the arithmetic of the sources themselves is
      written without wrap-around (signed overflow is undefined in C),
      the places where it could overflow are pointed out, and the
      statements about them are restricted to values that fit an [int];
    - [malloc]/[realloc]/[strdup] always succeed;
    - a C array with its element count is a [list]; out-of-range accesses
      are written out where the source can reach them;
    - the expat parser is the sequence of handler calls it makes
      ([xml_event]); SQLite is an abstract storage interface. *)

From Stdlib Require Import ZArith Ascii String.
From stdpp Require Import base list strings.

Local Open Scope Z_scope.

(** ** The C library functions the sources call *)

Module CStr.

Abbreviation cstring := (list ascii).

(** A string literal of the source. *)
Definition lit (s : string) : cstring := list_ascii_of_string s.
Global Arguments lit : simpl never.

(** The value of an [unsigned char]. *)
Definition code (c : ascii) : Z := Z.of_nat (nat_of_ascii c).

Definition chr (z : Z) : ascii := ascii_of_nat (Z.to_nat z).

Definition isdigit (c : ascii) : bool := (48 <=? code c) && (code c <=? 57).
Definition isupper (c : ascii) : bool := (65 <=? code c) && (code c <=? 90).
Definition islower (c : ascii) : bool := (97 <=? code c) && (code c <=? 122).
Definition isalpha (c : ascii) : bool := isupper c || islower c.

(** [isspace] in the C locale: space, \t, \n, \v, \f, \r. *)
Definition isspace (c : ascii) : bool :=
  (code c =? 32) || ((9 <=? code c) && (code c <=? 13)).

Definition toupper (c : ascii) : Z :=
  if islower c then code c - 32 else code c.

Definition ch_eqb (a b : ascii) : bool := Ascii.eqb a b.

(** [strcmp(a, b) == 0] *)
Definition streq (a b : cstring) : bool := bool_decide (a = b).

Fixpoint take_while (p : ascii -> bool) (s : cstring) : cstring :=
  match s with
  | [] => []
  | c :: r => if p c then c :: take_while p r else []
  end.

Fixpoint drop_while (p : ascii -> bool) (s : cstring) : cstring :=
  match s with
  | [] => []
  | c :: r => if p c then drop_while p r else s
  end.

(** The digit loop of [atoi]: accumulate decimal digits, stop at the
    first other character. *)
Fixpoint atoi_digits (acc : Z) (s : cstring) : Z :=
  match s with
  | [] => acc
  | c :: r => if isdigit c then atoi_digits (acc * 10 + (code c - 48)) r else acc
  end.

(** The number a string denotes for [strtol] in base 10: skip white
    space, read an optional sign, then the digits. *)
Definition strtol_value (s : cstring) : Z :=
  match drop_while isspace s with
  | [] => 0
  | c :: r =>
      if ch_eqb c "-" then - atoi_digits 0 r
      else if ch_eqb c "+" then atoi_digits 0 r
      else atoi_digits 0 (c :: r)
  end.

(** [strtol(s, NULL, 10)] with a 64-bit [long]: a number outside the
    range of [long] is replaced by [LONG_MIN] or [LONG_MAX]. *)
Definition strtol (s : cstring) : Z :=
  Z.max (-9223372036854775808) (Z.min 9223372036854775807 (strtol_value s)).

(** The [int] that holds the low 32 bits of [z] (two's complement): the
    conversion of a wider integer to [int]. *)
Definition to_int (z : Z) : Z := (z + 2147483648) mod 4294967296 - 2147483648.

(** [atoi(s)] is [(int) strtol(s, NULL, 10)] in the C library (glibc):
    a number that fits an [int] is read as it is, a larger one is
    reduced to 32 bits, so [atoi("4294967297")] is 1. *)
Definition atoi (s : cstring) : Z := to_int (strtol s).

(** [strncpy(dst, src, n)] into a buffer that is read back as a string:
    the first [n] bytes of [src]. *)
Definition strncpy (n : nat) (src : cstring) : cstring := take n src.

(** [printf("%d", n)] for a non-negative [n], most significant digit
    first; [fuel] bounds the number of digits. *)
Fixpoint dec_digits (fuel : nat) (n : Z) (acc : cstring) : cstring :=
  match fuel with
  | O => acc
  | S f =>
      let acc' := chr (48 + n mod 10) :: acc in
      if n <? 10 then acc' else dec_digits f (n / 10) acc'
  end.

Definition fmt_d (n : Z) : cstring :=
  if n <? 0 then "-"%char :: dec_digits 20 (- n) [] else dec_digits 20 n [].

End CStr.

(** ** Column letters *)

Module ColLetters.
Import CStr.

(** opus/xlsximport.c, [col_to_num]: letters to a 1-based column number.
    [num] is the accumulator of the while loop.  (From seven letters on
    the C [int] can overflow; Excel columns have at most three.) *)
Fixpoint col_to_num_from (num : Z) (col : cstring) : Z :=
  match col with
  | [] => num
  | c :: rest =>
      if isalpha c
      then col_to_num_from (num * 26 + (toupper c - 65 + 1)) rest
      else num
  end.

Definition col_to_num (col : cstring) : Z := col_to_num_from 0 col.

(** copilot xlsximport.c, [colname_to_index]: letters to a 0-based index;
    [-1] when the string does not start with a letter.  (The same remark
    on seven letters and more applies.) *)
Fixpoint colname_to_index_from (idx : Z) (col : cstring) : Z :=
  match col with
  | [] => idx
  | c :: rest =>
      if isupper c then colname_to_index_from (idx * 26 + (code c - 65 + 1)) rest
      else if islower c then colname_to_index_from (idx * 26 + (code c - 97 + 1)) rest
      else idx
  end.

Definition colname_to_index (col : cstring) : Z := colname_to_index_from 0 col - 1.

(** copilot/xlsxexport.c, [col_to_letters]: the while loop fills [buf]
    least significant letter first; [room] is the number of bytes left in
    [buf] ([sizeof(buf)-1 - pos]). *)
Fixpoint letters_buf (room : nat) (v : Z) : cstring :=
  match room with
  | O => []
  | S room' =>
      if 0 <? v
      then chr (65 + Z.rem (v - 1) 26) :: letters_buf room' (Z.quot (v - 1) 26)
      else []
  end.

(** The second loop copies [buf] backwards into [out], at most
    [outsz - 1] bytes. *)
Definition col_to_letters (col : Z) (outsz : nat) : cstring :=
  take (outsz - 1)%nat (rev (letters_buf 15 (col + 1))).

(** opus xlsxexport.c, [col_to_letter] (no bound on [temp]; an [int]
    needs at most 7 letters, [fuel] is the size of [temp]). *)
Fixpoint letter_temp (fuel : nat) (col : Z) : cstring :=
  match fuel with
  | O => []
  | S f =>
      if 0 <? col
      then let col' := col - 1 in
           chr (65 + Z.rem col' 26) :: letter_temp f (Z.quot col' 26)
      else []
  end.

Definition col_to_letter (col : Z) : cstring := rev (letter_temp 16 (col + 1)).

(** The largest column number that fits in [room] letters. *)
Fixpoint capacity (room : nat) : Z :=
  match room with
  | O => 0
  | S r => 26 * capacity r + 26
  end.

End ColLetters.

(** ** The shared-string table of the exporter (copilot/xlsxexport.c) *)

Module Sst.
Import CStr.

(** [typedef struct { char **items; int count; int cap; } sst;] the
    [count] items in order. *)
Abbreviation sst := (list cstring).

Definition sst_init : sst := [].

(** The search loop of [sst_index]: the first [i >= from] with
    [strcmp(s->items[i], txt) == 0]. *)
Fixpoint sst_find (items : list cstring) (txt : cstring) (from : nat) : option nat :=
  match items with
  | [] => None
  | it :: rest => if streq it txt then Some from else sst_find rest txt (S from)
  end.

(** [sst_index(s, txt)]: the index of [txt], appended when absent.  A
    NULL [txt] stands for the empty string.  Returns the table after the
    call and the index. *)
Definition sst_index (s : sst) (txt : option cstring) : sst * nat :=
  let txt := default [] txt in
  match sst_find s txt 0 with
  | Some i => (s, i)
  | None => (s ++ [txt], length s)
  end.

End Sst.

(** ** Sheet names of the exporters *)

Module SheetName.
Import CStr.

Definition EXCEL_SHEETNAME_MAX : nat := 31.

(** The characters [: \ / ? * [ ]]. *)
Definition forbidden (c : ascii) : bool :=
  ch_eqb c ":" || (code c =? 92) || ch_eqb c "/" || ch_eqb c "?" ||
  ch_eqb c "*" || ch_eqb c "[" || ch_eqb c "]".

Definition apostrophe : ascii := "'"%char.

(** Drop the trailing characters that satisfy [p] (the [len--] loop). *)
Definition trim_right (p : ascii -> bool) (s : cstring) : cstring :=
  rev (drop_while p (rev s)).

(** [if(w - tmp > 0 && tmp[0] == '\'') memmove(tmp, tmp+1, strlen(tmp));] *)
Definition strip_leading_quote (tmp : cstring) : cstring :=
  match tmp with
  | c :: rest => if ch_eqb c apostrophe then rest else tmp
  | [] => []
  end.

(** [if(tlen > 0 && tmp[tlen-1] == '\'') tmp[tlen-1] = '\0';] *)
Definition strip_trailing_quote (tmp : cstring) : cstring :=
  match rev tmp with
  | c :: rest => if ch_eqb c apostrophe then rev rest else tmp
  | [] => []
  end.

(** [snprintf(buf, sizeof(buf), "%s (%d)", tmp, suffix)] with
    [char buf[128]], then cut at 31 characters. *)
Definition with_suffix (tmp : cstring) (suffix : Z) : cstring :=
  take EXCEL_SHEETNAME_MAX
    (take 127 (tmp ++ lit " (" ++ fmt_d suffix ++ lit ")")).

(** The [while(1)] loop that makes the name unique among [existing].
    [None]: no result within [fuel] iterations. *)
Fixpoint ensure_unique (fuel : nat) (existing : list cstring)
    (tmp : cstring) (suffix : Z) : option cstring :=
  match fuel with
  | O => None
  | S fuel' =>
      if existsb (fun e => streq e tmp) existing
      then ensure_unique fuel' existing (with_suffix tmp suffix) (suffix + 1)
      else Some tmp
  end.

(** The part of [sanitize_sheet_name] before the uniqueness loop. *)
Definition sanitize_base (name : cstring) (idx : Z) : cstring :=
  let name := drop_while isspace name in
  let tmp := trim_right isspace name in
  let tmp := List.filter (fun c => negb (forbidden c)) tmp in
  let tmp := strip_leading_quote tmp in
  let tmp := strip_trailing_quote tmp in
  let tmp := match tmp with
             | [] => lit "Sheet" ++ fmt_d (idx + 1)
             | _ => tmp
             end in
  take EXCEL_SHEETNAME_MAX tmp.

(** copilot/xlsxexport.c,
    [sanitize_sheet_name(name, idx, existing, existing_count)]. *)
Definition sanitize_sheet_name (fuel : nat) (name : cstring) (idx : Z)
    (existing : list cstring) : option cstring :=
  ensure_unique fuel existing (sanitize_base name idx) 1.

(** The loop of [xlsx_export_func] that fills [sheet_names]:
    [sheet_names[i] = sanitize_sheet_name(raw_table_names[i], i,
    sheet_names, i)].  [done] holds the names computed so far. *)
Fixpoint sheet_names_from (fuel : nat) (raw : list cstring) (done : list cstring)
    : option (list cstring) :=
  match raw with
  | [] => Some done
  | r :: rest =>
      match sanitize_sheet_name fuel r (Z.of_nat (length done)) done with
      | Some n => sheet_names_from fuel rest (done ++ [n])
      | None => None
      end
  end.

Definition sheet_names (fuel : nat) (raw : list cstring) : option (list cstring) :=
  sheet_names_from fuel raw [].

(** The gemini exporter's [sanitize_sheet_name(name)]: strip the
    forbidden characters, cut at 31. *)
Definition gemini_sanitize_sheet_name (name : cstring) : cstring :=
  let sanitized := List.filter (fun c => negb (forbidden c)) name in
  if (31 <? length sanitized)%nat then take 31 sanitized else sanitized.

End SheetName.

(** ** The calls of the expat parser *)

Module Xml.
Import CStr.

(** One call of a handler: [XML_SetElementHandler]'s start and end
    handlers and the character-data handler.  [atts] are the
    name/value pairs of the NULL-terminated [atts] array. *)
Inductive xml_event :=
  | StartElement (name : cstring) (atts : list (cstring * cstring))
  | EndElement (name : cstring)
  | CharacterData (s : cstring).

(** [for(i=0; atts[i]; i+=2) if(strcmp(atts[i], key)==0) v = atts[i+1];]
    the value of the last attribute called [key], [dflt] when there is
    none. *)
Definition last_att {A} (key : cstring) (f : cstring -> A) (dflt : A)
    (atts : list (cstring * cstring)) : A :=
  fold_left (fun acc kv => if streq (fst kv) key then f (snd kv) else acc) atts dflt.

End Xml.

(** ** What a reconstructed row should be *)

Module GridSpec.

(** A row is declared by a sequence of cells, each a 0-based column and
    a value, in document order.  These definitions follow the design
    text, not the code: the reconstructed row has one cell for every
    column below the largest declared one; a declared column holds its
    last declaration, every other column holds the null cell. *)
Section Row.
Context {V W : Type}.
Variable null : W.
Variable mk : V -> W.

Definition row_width (ds : list (nat * V)) : nat :=
  fold_right (fun d acc => Nat.max (S (fst d)) acc) 0%nat ds.

Definition last_decl (c : nat) (ds : list (nat * V)) : option V :=
  fold_left (fun acc d => if (fst d =? c)%nat then Some (snd d) else acc) ds None.

Definition declared_cell (ds : list (nat * V)) (c : nat) : W :=
  match last_decl c ds with
  | Some v => mk v
  | None => null
  end.

Definition declared_row (ds : list (nat * V)) : list W :=
  map (declared_cell ds) (seq 0 (row_width ds)).

End Row.

(** The declarations of a sheet carry a 0-based row too. *)
Definition in_row {V} (r : nat) (ds : list (nat * nat * V)) : list (nat * V) :=
  omap (fun d => if (fst (fst d) =? r)%nat then Some (snd (fst d), snd d) else None) ds.

Definition sheet_height {V} (ds : list (nat * nat * V)) : nat :=
  fold_right (fun d acc => Nat.max (S (fst (fst d))) acc) 0%nat ds.

Definition declared_sheet {V W} (null : W) (mk : V -> W) (ds : list (nat * nat * V))
    : list (list W) :=
  map (fun r => declared_row null mk (in_row r ds)) (seq 0 (sheet_height ds)).

End GridSpec.

(** ** The copilot importer (xlsximport.c, quoting variant) *)

Module CopilotImport.
Import CStr ColLetters Xml.

(** [sstrings]: the [n] items of the shared-string container. *)
Abbreviation sstrings := (list cstring).

(** *** Parser for sharedStrings.xml *)

Record ss_parser_ctx := {
  ss : sstrings;
  in_si : bool;
  ss_in_t : bool;
  cur : cstring;
}.

Definition ss_start (ctx : ss_parser_ctx) (name : cstring) : ss_parser_ctx :=
  if streq name (lit "si") then
    {| ss := ss ctx; in_si := true; ss_in_t := ss_in_t ctx; cur := [] |}
  else if streq name (lit "t") && in_si ctx then
    {| ss := ss ctx; in_si := in_si ctx; ss_in_t := true; cur := cur ctx |}
  else ctx.

Definition ss_end (ctx : ss_parser_ctx) (name : cstring) : ss_parser_ctx :=
  if streq name (lit "si") then
    {| ss := ss ctx ++ [cur ctx]; in_si := false; ss_in_t := ss_in_t ctx; cur := cur ctx |}
  else if streq name (lit "t") then
    {| ss := ss ctx; in_si := in_si ctx; ss_in_t := false; cur := cur ctx |}
  else ctx.

Definition ss_char (ctx : ss_parser_ctx) (s : cstring) : ss_parser_ctx :=
  if in_si ctx && ss_in_t ctx then
    {| ss := ss ctx; in_si := in_si ctx; ss_in_t := ss_in_t ctx; cur := cur ctx ++ s |}
  else ctx.

Definition ss_step (ctx : ss_parser_ctx) (e : xml_event) : ss_parser_ctx :=
  match e with
  | StartElement name _ => ss_start ctx name
  | EndElement name => ss_end ctx name
  | CharacterData s => ss_char ctx s
  end.

Definition parse_shared_strings (doc : list xml_event) : sstrings :=
  ss (fold_left ss_step doc {| ss := []; in_si := false; ss_in_t := false; cur := [] |}).

(** *** Parser for workbook.xml *)

(** [wb_parser_ctx]: the parallel arrays [names] and [sheetIds]. *)
Record wb_parser_ctx := {
  names : list cstring;
  sheetIds : list Z;
}.

Definition wb_start (ctx : wb_parser_ctx) (name : cstring)
    (atts : list (cstring * cstring)) : wb_parser_ctx :=
  if streq name (lit "sheet") then
    let nm := fold_left (fun acc kv =>
                if streq (fst kv) (lit "name") then Some (snd kv) else acc) atts None in
    let sid := fold_left (fun acc kv =>
                if streq (fst kv) (lit "name") then acc
                else if streq (fst kv) (lit "sheetId") then Some (snd kv) else acc) atts None in
    match nm with
    | Some nm =>
        {| names := names ctx ++ [nm];
           sheetIds := sheetIds ctx ++
             [match sid with
              | Some sid => atoi sid
              | None => to_int (Z.of_nat (length (names ctx)) + 1)
              end] |}
    | None => ctx
    end
  else ctx.

Definition wb_step (ctx : wb_parser_ctx) (e : xml_event) : wb_parser_ctx :=
  match e with
  | StartElement name atts => wb_start ctx name atts
  | EndElement _ => ctx
  | CharacterData _ => ctx
  end.

Definition parse_workbook (doc : list xml_event) : wb_parser_ctx :=
  fold_left wb_step doc {| names := []; sheetIds := [] |}.

(** *** Parser for a worksheet *)

(** [sheet_row]: [cols] has [ncols] entries, NULL is [None]. *)
Record sheet_row := {
  rownum : Z;
  cols : list (option cstring);
}.

(** [sheet_parser_ctx].  [rowbuf] is the array of [rowcap] pointers
    ([rowcap] is its length, NULL buffer = empty list); [emitted] is the
    [sheet_rows] collector that [emit_row] = [sheet_rows_emit] fills. *)
Record sheet_parser_ctx := {
  shared : sstrings;
  in_v : bool;
  in_t : bool;
  in_is : bool;
  in_c : bool;
  cur_cell_ref : cstring;
  cur_cell_type : cstring;
  cur_text : cstring;
  current_row : Z;
  rowbuf : list (option cstring);
  maxcol : nat;
  emitted : list sheet_row;
}.

Definition rowcap (ctx : sheet_parser_ctx) : nat := length (rowbuf ctx).

(** [while(newcap < cols) newcap *= 2;] it runs at most [cols] times
    from a non-zero [newcap]. *)
Fixpoint grow_cap (fuel : nat) (newcap cols : nat) : nat :=
  match fuel with
  | O => newcap
  | S f => if (newcap <? cols)%nat then grow_cap f (newcap * 2)%nat cols else newcap
  end.

(** [ensure_rowcap(ctx, cols)], on the row buffer. *)
Definition ensure_rowcap (buf : list (option cstring)) (cols : nat) : list (option cstring) :=
  if (cols <=? length buf)%nat then buf
  else
    let newcap := grow_cap cols (if (length buf =? 0)%nat then 16%nat else length buf) cols in
    buf ++ replicate (newcap - length buf) None.

(** The loop that frees and clears every entry of [rowbuf]. *)
Definition clear_rowbuf (buf : list (option cstring)) : list (option cstring) :=
  replicate (length buf) None.

Definition sheet_start (ctx : sheet_parser_ctx) (name : cstring)
    (atts : list (cstring * cstring)) : sheet_parser_ctx :=
  if streq name (lit "row") then
    {| shared := shared ctx; in_v := in_v ctx; in_t := in_t ctx; in_is := in_is ctx;
       in_c := in_c ctx; cur_cell_ref := cur_cell_ref ctx;
       cur_cell_type := cur_cell_type ctx; cur_text := cur_text ctx;
       current_row := last_att (lit "r") atoi 0 atts;
       rowbuf := clear_rowbuf (rowbuf ctx);
       maxcol := 0;
       emitted := emitted ctx |}
  else if streq name (lit "c") then
    {| shared := shared ctx; in_v := in_v ctx; in_t := in_t ctx; in_is := in_is ctx;
       in_c := true;
       cur_cell_ref :=
         fold_left (fun acc kv =>
           if streq (fst kv) (lit "r") then strncpy 63 (snd kv) else acc) atts [];
       cur_cell_type :=
         fold_left (fun acc kv =>
           if streq (fst kv) (lit "r") then acc
           else if streq (fst kv) (lit "t") then strncpy 31 (snd kv) else acc) atts [];
       cur_text := [];
       current_row := current_row ctx; rowbuf := rowbuf ctx; maxcol := maxcol ctx;
       emitted := emitted ctx |}
  else if streq name (lit "v") then
    {| shared := shared ctx; in_v := true; in_t := in_t ctx; in_is := in_is ctx;
       in_c := in_c ctx; cur_cell_ref := cur_cell_ref ctx;
       cur_cell_type := cur_cell_type ctx; cur_text := cur_text ctx;
       current_row := current_row ctx; rowbuf := rowbuf ctx; maxcol := maxcol ctx;
       emitted := emitted ctx |}
  else if streq name (lit "is") then
    {| shared := shared ctx; in_v := in_v ctx; in_t := in_t ctx; in_is := true;
       in_c := in_c ctx; cur_cell_ref := cur_cell_ref ctx;
       cur_cell_type := cur_cell_type ctx; cur_text := cur_text ctx;
       current_row := current_row ctx; rowbuf := rowbuf ctx; maxcol := maxcol ctx;
       emitted := emitted ctx |}
  else if streq name (lit "t") then
    {| shared := shared ctx; in_v := in_v ctx; in_t := true; in_is := in_is ctx;
       in_c := in_c ctx; cur_cell_ref := cur_cell_ref ctx;
       cur_cell_type := cur_cell_type ctx; cur_text := cur_text ctx;
       current_row := current_row ctx; rowbuf := rowbuf ctx; maxcol := maxcol ctx;
       emitted := emitted ctx |}
  else ctx.

(** The letters loop of [sheet_end]: copy the reference up to its first
    digit, at most [sizeof(colletters)-1 = 31] characters. *)
Definition colletters_of (ref : cstring) : cstring :=
  take 31 (take_while (fun c => negb (isdigit c)) ref).

(** [int colidx = colname_to_index(colletters); if(colidx < 0) colidx = 0;] *)
Definition colidx_of (ref : cstring) : Z :=
  let colidx := colname_to_index (colletters_of ref) in
  if colidx <? 0 then 0 else colidx.

(** The value a closing [c] stores: a shared-string cell ([t] attribute
    starting with [s], non-empty text) resolves its index, to the empty
    string when the index is not in the table; every other branch
    duplicates the accumulated text. *)
Definition cell_value (shared : sstrings) (ty text : cstring) : cstring :=
  match ty with
  | c :: _ =>
      if ch_eqb c "s" && (0 <? length text)%nat then
        let idx := atoi text in
        if (0 <=? idx) && (idx <? Z.of_nat (length shared))
        then default [] (shared !! Z.to_nat idx)
        else []
      else text
  | [] => text
  end.

(** [sheet_rows_emit]: append a copy of the first [ncols] entries. *)
Definition sheet_rows_emit (rows : list sheet_row) (rownum : Z)
    (cols : list (option cstring)) (ncols : nat) : list sheet_row :=
  rows ++ [{| rownum := rownum; cols := take ncols cols |}].

Definition sheet_end (ctx : sheet_parser_ctx) (name : cstring) : sheet_parser_ctx :=
  if streq name (lit "c") then
    let colidx := Z.to_nat (colidx_of (cur_cell_ref ctx)) in
    let buf := ensure_rowcap (rowbuf ctx) (colidx + 1) in
    let val := cell_value (shared ctx) (cur_cell_type ctx) (cur_text ctx) in
    {| shared := shared ctx; in_v := false; in_t := in_t ctx; in_is := false;
       in_c := false; cur_cell_ref := cur_cell_ref ctx;
       cur_cell_type := cur_cell_type ctx; cur_text := [];
       current_row := current_row ctx;
       rowbuf := <[colidx := Some val]> buf;
       maxcol := if (maxcol ctx <? colidx + 1)%nat then (colidx + 1)%nat else maxcol ctx;
       emitted := emitted ctx |}
  else if streq name (lit "row") then
    {| shared := shared ctx; in_v := in_v ctx; in_t := in_t ctx; in_is := in_is ctx;
       in_c := in_c ctx; cur_cell_ref := cur_cell_ref ctx;
       cur_cell_type := cur_cell_type ctx; cur_text := cur_text ctx;
       current_row := current_row ctx;
       rowbuf := clear_rowbuf (rowbuf ctx);
       maxcol := 0;
       emitted := sheet_rows_emit (emitted ctx) (current_row ctx) (rowbuf ctx) (maxcol ctx) |}
  else if streq name (lit "v") then
    {| shared := shared ctx; in_v := false; in_t := in_t ctx; in_is := in_is ctx;
       in_c := in_c ctx; cur_cell_ref := cur_cell_ref ctx;
       cur_cell_type := cur_cell_type ctx; cur_text := cur_text ctx;
       current_row := current_row ctx; rowbuf := rowbuf ctx; maxcol := maxcol ctx;
       emitted := emitted ctx |}
  else if streq name (lit "t") then
    {| shared := shared ctx; in_v := in_v ctx; in_t := false; in_is := in_is ctx;
       in_c := in_c ctx; cur_cell_ref := cur_cell_ref ctx;
       cur_cell_type := cur_cell_type ctx; cur_text := cur_text ctx;
       current_row := current_row ctx; rowbuf := rowbuf ctx; maxcol := maxcol ctx;
       emitted := emitted ctx |}
  else if streq name (lit "is") then
    {| shared := shared ctx; in_v := in_v ctx; in_t := in_t ctx; in_is := false;
       in_c := in_c ctx; cur_cell_ref := cur_cell_ref ctx;
       cur_cell_type := cur_cell_type ctx; cur_text := cur_text ctx;
       current_row := current_row ctx; rowbuf := rowbuf ctx; maxcol := maxcol ctx;
       emitted := emitted ctx |}
  else ctx.

Definition sheet_char (ctx : sheet_parser_ctx) (s : cstring) : sheet_parser_ctx :=
  if in_v ctx || in_t ctx then
    {| shared := shared ctx; in_v := in_v ctx; in_t := in_t ctx; in_is := in_is ctx;
       in_c := in_c ctx; cur_cell_ref := cur_cell_ref ctx;
       cur_cell_type := cur_cell_type ctx; cur_text := cur_text ctx ++ s;
       current_row := current_row ctx; rowbuf := rowbuf ctx; maxcol := maxcol ctx;
       emitted := emitted ctx |}
  else ctx.

Definition sheet_step (ctx : sheet_parser_ctx) (e : xml_event) : sheet_parser_ctx :=
  match e with
  | StartElement name atts => sheet_start ctx name atts
  | EndElement name => sheet_end ctx name
  | CharacterData s => sheet_char ctx s
  end.

(** The parser state [import_xlsx_to_db] sets up for one sheet. *)
Definition sheet_parser_init (ss : sstrings) : sheet_parser_ctx :=
  {| shared := ss; in_v := false; in_t := false; in_is := false; in_c := false;
     cur_cell_ref := []; cur_cell_type := []; cur_text := [];
     current_row := 0; rowbuf := []; maxcol := 0; emitted := [] |}.

Definition parse_sheet (ss : sstrings) (doc : list xml_event) : list sheet_row :=
  emitted (fold_left sheet_step doc (sheet_parser_init ss)).

(** *** Sheet selection *)

(** [is_integer_string]: an optional sign followed by one or more
    digits and nothing else. *)
Definition is_integer_string (s : cstring) : bool :=
  match s with
  | [] => false
  | c :: r =>
      let p := if ch_eqb c "+" || ch_eqb c "-" then r else s in
      match p with
      | [] => false
      | _ => forallb isdigit p
      end
  end.

(** One turn of the selector loop of [should_import_sheet]: does this
    selector make the function return 1?  A NULL selector is skipped.
    The three numbers compared are C [int]s: [atoi(sel)], [sheetId] and
    [(int)(si + 1)]. *)
Definition selector_matches (wb : wb_parser_ctx) (si : nat) (sheetId : Z)
    (sel : option cstring) : bool :=
  match sel with
  | None => false
  | Some sel =>
      if is_integer_string sel then
        let val := atoi sel in
        (val =? sheetId) || (val =? to_int (Z.of_nat si + 1))
      else
        match names wb !! si with
        | Some nm => streq nm sel
        | None => false
        end
  end.

(** [should_import_sheet(wb, si, sheetId, selectors, selector_count)] *)
Definition should_import_sheet (wb : wb_parser_ctx) (si : nat) (sheetId : Z)
    (selectors : list (option cstring)) : bool :=
  match selectors with
  | [] => true
  | _ => existsb (selector_matches wb si sheetId) selectors
  end.

(** *** The import driver *)

Inductive import_result :=
  | ImportError (msg : cstring)     (* sqlite3_result_error, SQLITE_ERROR *)
  | ImportCount (tables_created : Z). (* sqlite3_result_int, SQLITE_OK *)

(** The loop that makes one header name unique among the names already
    chosen: [snprintf(tmp, sizeof(tmp), "%s_%d", candidate, suffix++)]
    with [char tmp[1024]].  [None]: no result within [fuel] turns. *)
Fixpoint unique_colname (fuel : nat) (prev : list cstring) (candidate : cstring)
    (suffix : Z) : option cstring :=
  match fuel with
  | O => None
  | S f =>
      if existsb (fun p => streq p candidate) prev
      then unique_colname f prev
             (take 1023 (candidate ++ lit "_" ++ fmt_d suffix)) (suffix + 1)
      else Some candidate
  end.

Fixpoint colnames_from (fuel : nat) (header : list (option cstring))
    (colnames : list cstring) : option (list cstring) :=
  match header with
  | [] => Some colnames
  | raw :: rest =>
      match unique_colname fuel colnames (default [] raw) 1 with
      | Some candidate => colnames_from fuel rest (colnames ++ [candidate])
      | None => None
      end
  end.

Definition sheet_path (n : Z) : cstring :=
  lit "xl/worksheets/sheet" ++ fmt_d n ++ lit ".xml".

Section Driver.

(** The database the extension writes to, through four statements:
    - [CREATE TABLE IF NOT EXISTS t (rowid INTEGER PRIMARY KEY)],
    - [CREATE TABLE IF NOT EXISTS t (c1 TEXT, ...)],
    - preparing [INSERT INTO t (c1, ...) VALUES (?, ...)],
    - one step of that statement with its bound values.
    [None] and [false] are the failures the code tests for; the result
    of a step is ignored by the code. *)
Variable db : Type.
Variable create_empty_table : db -> cstring -> option db.
Variable create_table : db -> cstring -> list cstring -> option db.
Variable prepare_insert : db -> cstring -> list cstring -> bool.
Variable insert_row : db -> cstring -> list cstring -> list (option cstring) -> db.

(** The archive: for an entry name, the handler calls expat makes on the
    bytes [read_zip_file_sqlite] returns, [None] when it returns NULL
    (entry not found, or the zipfile query cannot be prepared). *)
Variable archive : cstring -> option (list xml_event).

Definition min_rownum (first : sheet_row) (rest : list sheet_row) : Z :=
  fold_left (fun m r => if rownum r <? m then rownum r else m) rest (rownum first).

(** The values bound for one data row: column [c] of the row, NULL past
    its end. *)
Definition row_values (ncols : nat) (r : sheet_row) : list (option cstring) :=
  map (fun c => mjoin (cols r !! c)) (seq 0 ncols).

(** The body of the sheet loop once the sheet is selected and its
    stream is read.  Returns the database and whether [tables_created]
    is incremented. *)
Definition import_rows (fuel : nat) (d : db) (sheet_name_raw : cstring)
    (rows : list sheet_row) : option (db * bool) :=
  match rows with
  | [] =>
      match create_empty_table d sheet_name_raw with
      | Some d' => Some (d', true)
      | None => Some (d, false)
      end
  | first :: rest =>
      let min := min_rownum first rest in
      let header := default first (List.find (fun r => rownum r =? min) rows) in
      let ncols := length (cols header) in
      match colnames_from fuel (cols header) [] with
      | None => None
      | Some colnames =>
          match create_table d sheet_name_raw colnames with
          | None => Some (d, false)
          | Some d1 =>
              if prepare_insert d1 sheet_name_raw colnames then
                let d2 := fold_left (fun acc r =>
                            if rownum r =? min then acc
                            else insert_row acc sheet_name_raw colnames (row_values ncols r))
                          rows d1 in
                Some (d2, true)
              else Some (d1, false)
          end
      end
  end.

(** One turn of the sheet loop of [import_xlsx_to_db]. *)
Definition import_sheet (fuel : nat) (ss : sstrings) (wb : wb_parser_ctx)
    (selectors : list (option cstring)) (d : db) (si : nat)
    (sheet_name_raw : cstring) (sheetId : Z) : option (db * bool) :=
  if negb (should_import_sheet wb si sheetId selectors) then Some (d, false)
  else
    match archive (sheet_path sheetId) with
    | Some doc => import_rows fuel d sheet_name_raw (parse_sheet ss doc)
    | None =>
        (* fallback to sequential index *)
        match archive (sheet_path (Z.of_nat si + 1)) with
        | Some doc => import_rows fuel d sheet_name_raw (parse_sheet ss doc)
        | None => Some (d, false) (* skip missing sheet *)
        end
    end.

(** [for(size_t si = 0; si < wb.n; ++si)] from index [si] on; [sheets]
    are the remaining (name, sheetId) pairs. *)
Fixpoint import_loop (fuel : nat) (ss : sstrings) (wb : wb_parser_ctx)
    (selectors : list (option cstring)) (sheets : list (cstring * Z))
    (si : nat) (d : db) (tables_created : Z) : option (db * Z) :=
  match sheets with
  | [] => Some (d, tables_created)
  | (nm, sid) :: rest =>
      match import_sheet fuel ss wb selectors d si nm sid with
      | None => None
      | Some (d', created) =>
          import_loop fuel ss wb selectors rest (S si) d'
            (if created then tables_created + 1 else tables_created)
      end
  end.

(** [import_xlsx_to_db(db, filename, selectors, selector_count, ctx)]:
    the result handed to SQLite and the database after the call.
    [None]: a header-naming loop did not finish within [fuel] turns. *)
Definition import_xlsx_to_db (fuel : nat) (d : db)
    (selectors : list (option cstring)) : option (import_result * db) :=
  let ss := match archive (lit "xl/sharedStrings.xml") with
            | Some doc => parse_shared_strings doc
            | None => []
            end in
  match archive (lit "xl/workbook.xml") with
  | None => Some (ImportError (lit "xl/workbook.xml not found in archive (zipfile)"), d)
  | Some doc =>
      let wb := parse_workbook doc in
      match import_loop fuel ss wb selectors (combine (names wb) (sheetIds wb)) 0 d 0 with
      | None => None
      | Some (d', n) => Some (ImportCount n, d')
      end
  end.

End Driver.

(** *** The cells a run of handler calls declares *)

Definition is_row_event (e : xml_event) : bool :=
  match e with
  | StartElement name _ => streq name (lit "row")
  | EndElement name => streq name (lit "row")
  | CharacterData _ => false
  end.

(** The (column, value) a closing [c] stores, in the state it is
    handled in. *)
Definition declared_by (ctx : sheet_parser_ctx) (e : xml_event) : list (nat * cstring) :=
  match e with
  | EndElement name =>
      if streq name (lit "c")
      then [(Z.to_nat (colidx_of (cur_cell_ref ctx)),
             cell_value (shared ctx) (cur_cell_type ctx) (cur_text ctx))]
      else []
  | _ => []
  end.

Fixpoint row_decls (ctx : sheet_parser_ctx) (evs : list xml_event) : list (nat * cstring) :=
  match evs with
  | [] => []
  | e :: rest => declared_by ctx e ++ row_decls (sheet_step ctx e) rest
  end.

(** The state of the row buffer after the cells [ds] of a row were
    stored: [maxcol] is the width of the row, the buffer is at least that
    long, and each entry holds the last value declared for it, NULL when
    there is none. *)
Definition row_inv (ctx : sheet_parser_ctx) (ds : list (nat * cstring)) : Prop :=
  maxcol ctx = GridSpec.row_width ds /\
  (GridSpec.row_width ds <= length (rowbuf ctx))%nat /\
  forall i, (i < length (rowbuf ctx))%nat ->
            rowbuf ctx !! i = Some (GridSpec.last_decl i ds).

End CopilotImport.

(** ** The opus importer (opus/xlsximport.c) *)

Module OpusImport.
Import CStr ColLetters Xml.

(** [parse_cell_ref(ref, &row)]: the column number of the leading
    letters and [atoi] of what follows them. *)
Definition parse_cell_ref (ref : cstring) : Z * Z :=
  (col_to_num ref, atoi (drop_while isalpha ref)).

Record CellValue := {
  value : option cstring;  (* NULL is [None] *)
  is_null : bool;
}.

(** The cell the padding loop of [ws_set_cell] writes. *)
Definition null_cell : CellValue := {| value := None; is_null := true |}.

(** [Row]: the [count] cells. *)
Abbreviation Row := (list CellValue).

Record Worksheet := {
  rows : list Row;
  max_col : Z;
}.

Definition ws_init : Worksheet := {| rows := []; max_col := 0 |}.

(** [ws_get_row]: the [while (ws->count < row_num)] loop appends empty
    rows. *)
Definition ws_get_row (rs : list Row) (row_num : Z) : list Row :=
  rs ++ replicate (Z.to_nat row_num - length rs) [].

(** [ws_set_cell(ws, row_num, col_num, value)].  With [row_num <= 0] or
    [col_num <= 0] the C code indexes before the start of an array:
    [None].  Its only caller tests both. *)
Definition ws_set_cell (ws : Worksheet) (row_num col_num : Z)
    (v : option cstring) : option Worksheet :=
  if (row_num <=? 0) || (col_num <=? 0) then None
  else
    let rs := ws_get_row (rows ws) row_num in
    let r := (Z.to_nat row_num - 1)%nat in
    let c := (Z.to_nat col_num - 1)%nat in
    let row := default [] (rs !! r) in
    let row := row ++ replicate (Z.to_nat col_num - length row) null_cell in
    let row := <[c := {| value := v; is_null := bool_decide (v = None) |}]> row in
    Some {| rows := <[r := row]> rs;
            max_col := if max_col ws <? col_num then col_num else max_col ws |}.

(** [SharedStrings]: the [count] strings. *)
Abbreviation SharedStrings := (list cstring).

(** [WorksheetParser].  [text] is the accumulation buffer, [None] while
    it is still the NULL pointer. *)
Record WorksheetParser := {
  ws : Worksheet;
  ss : SharedStrings;
  cur_row : Z;
  cur_col : Z;
  cur_type : ascii;
  in_v : bool;
  in_t : bool;
  in_is : bool;
  text : option cstring;
}.

Definition wsp_init (w : Worksheet) (s : SharedStrings) : WorksheetParser :=
  {| ws := w; ss := s; cur_row := 0; cur_col := 0; cur_type := "n";
     in_v := false; in_t := false; in_is := false; text := None |}.

(** [wsp->text_len = 0; if (wsp->text) wsp->text[0] = '\0';] *)
Definition reset_text (t : option cstring) : option cstring :=
  match t with
  | Some _ => Some []
  | None => None
  end.

Definition wsp_append_text (t : option cstring) (s : cstring) : option cstring :=
  Some (default [] t ++ s).

(** The attribute loop of a [c] element, on (cur_col, cur_row, cur_type). *)
Definition cell_atts (atts : list (cstring * cstring)) : Z * Z * ascii :=
  fold_left (fun acc kv =>
    let '(col, row, ty) := acc in
    if streq (fst kv) (lit "r") then
      let '(c, r) := parse_cell_ref (snd kv) in (c, r, ty)
    else if streq (fst kv) (lit "t") then
      if streq (snd kv) (lit "s") then (col, row, "s"%char)
      else if streq (snd kv) (lit "inlineStr") then (col, row, "i"%char)
      else if streq (snd kv) (lit "b") then (col, row, "b"%char)
      else if streq (snd kv) (lit "str") then (col, row, "f"%char)
      else acc
    else acc) atts (0, 0, "n"%char).

Definition ws_start_element (wsp : WorksheetParser) (name : cstring)
    (atts : list (cstring * cstring)) : WorksheetParser :=
  if streq name (lit "c") then
    let '(col, row, ty) := cell_atts atts in
    {| ws := ws wsp; ss := ss wsp; cur_row := row; cur_col := col; cur_type := ty;
       in_v := in_v wsp; in_t := in_t wsp; in_is := in_is wsp;
       text := reset_text (text wsp) |}
  else if streq name (lit "v") then
    {| ws := ws wsp; ss := ss wsp; cur_row := cur_row wsp; cur_col := cur_col wsp;
       cur_type := cur_type wsp;
       in_v := true; in_t := in_t wsp; in_is := in_is wsp;
       text := reset_text (text wsp) |}
  else if streq name (lit "is") then
    {| ws := ws wsp; ss := ss wsp; cur_row := cur_row wsp; cur_col := cur_col wsp;
       cur_type := cur_type wsp;
       in_v := in_v wsp; in_t := in_t wsp; in_is := true;
       text := text wsp |}
  else if streq name (lit "t") && in_is wsp then
    {| ws := ws wsp; ss := ss wsp; cur_row := cur_row wsp; cur_col := cur_col wsp;
       cur_type := cur_type wsp;
       in_v := in_v wsp; in_t := true; in_is := in_is wsp;
       text := reset_text (text wsp) |}
  else wsp.

(** The value a closing [c] passes to [ws_set_cell]; [None] is the NULL
    pointer. *)
Definition cell_value (wsp : WorksheetParser) : option cstring :=
  match text wsp with
  | Some t =>
      if ch_eqb (cur_type wsp) "s" then
        let idx := atoi t in
        if (0 <=? idx) && (idx <? Z.of_nat (length (ss wsp)))
        then ss wsp !! Z.to_nat idx
        else None
      else if ch_eqb (cur_type wsp) "i" then Some t
      else if (0 <? length t)%nat then Some t
      else None
  | None => None
  end.

Definition ws_end_element (wsp : WorksheetParser) (name : cstring) : WorksheetParser :=
  if streq name (lit "c") then
    if (0 <? cur_row wsp) && (0 <? cur_col wsp) then
      match ws_set_cell (ws wsp) (cur_row wsp) (cur_col wsp) (cell_value wsp) with
      | Some w =>
          {| ws := w; ss := ss wsp; cur_row := cur_row wsp; cur_col := cur_col wsp;
             cur_type := cur_type wsp;
             in_v := in_v wsp; in_t := in_t wsp; in_is := in_is wsp;
             text := text wsp |}
      | None => wsp
      end
    else wsp
  else if streq name (lit "v") then
    {| ws := ws wsp; ss := ss wsp; cur_row := cur_row wsp; cur_col := cur_col wsp;
       cur_type := cur_type wsp;
       in_v := false; in_t := in_t wsp; in_is := in_is wsp;
       text := text wsp |}
  else if streq name (lit "is") then
    {| ws := ws wsp; ss := ss wsp; cur_row := cur_row wsp; cur_col := cur_col wsp;
       cur_type := cur_type wsp;
       in_v := in_v wsp; in_t := in_t wsp; in_is := false;
       text := text wsp |}
  else if streq name (lit "t") && in_is wsp then
    {| ws := ws wsp; ss := ss wsp; cur_row := cur_row wsp; cur_col := cur_col wsp;
       cur_type := cur_type wsp;
       in_v := in_v wsp; in_t := false; in_is := in_is wsp;
       text := text wsp |}
  else wsp.

Definition ws_char_data (wsp : WorksheetParser) (s : cstring) : WorksheetParser :=
  if in_v wsp || in_t wsp then
    {| ws := ws wsp; ss := ss wsp; cur_row := cur_row wsp; cur_col := cur_col wsp;
       cur_type := cur_type wsp;
       in_v := in_v wsp; in_t := in_t wsp; in_is := in_is wsp;
       text := wsp_append_text (text wsp) s |}
  else wsp.

Definition ws_step (wsp : WorksheetParser) (e : xml_event) : WorksheetParser :=
  match e with
  | StartElement name atts => ws_start_element wsp name atts
  | EndElement name => ws_end_element wsp name
  | CharacterData s => ws_char_data wsp s
  end.

(** [parse_worksheet] on a stream expat accepts: the worksheet built. *)
Definition parse_worksheet (doc : list xml_event) (s : SharedStrings) : Worksheet :=
  ws (fold_left ws_step doc (wsp_init ws_init s)).

(** *** The cells a run of handler calls declares *)

(** The cell [ws_set_cell] builds from the value pointer. *)
Definition mk_cell (v : option cstring) : CellValue :=
  {| value := v; is_null := bool_decide (v = None) |}.

(** The (row, column, value), 0-based, a closing [c] stores in the state
    it is handled in; nothing when the reference gave no row or column. *)
Definition declared_by (wsp : WorksheetParser) (e : xml_event)
    : list (nat * nat * option cstring) :=
  match e with
  | EndElement name =>
      if streq name (lit "c") && ((0 <? cur_row wsp) && (0 <? cur_col wsp))
      then [((Z.to_nat (cur_row wsp) - 1)%nat, (Z.to_nat (cur_col wsp) - 1)%nat,
             cell_value wsp)]
      else []
  | _ => []
  end.

Fixpoint sheet_decls (wsp : WorksheetParser) (evs : list xml_event)
    : list (nat * nat * option cstring) :=
  match evs with
  | [] => []
  | e :: rest => declared_by wsp e ++ sheet_decls (ws_step wsp e) rest
  end.

End OpusImport.

(** ** Sheet selection of the gemini importer *)

Module GeminiImport.
Import CStr.

(** The [sqlite3_value] arguments, by [sqlite3_value_type]; an SQL
    integer has 64 bits. *)
Inductive sqlite3_value :=
  | ValInteger (i : Z)
  | ValText (t : cstring)
  | ValOther.   (* SQLITE_FLOAT, SQLITE_BLOB, SQLITE_NULL *)

(** [sqlite3_value_int] of an SQL integer: the 64-bit value converted
    to [int], that is its low 32 bits. *)
Definition sqlite3_value_int (i : Z) : Z := to_int i.

(** [should_import(argc, argv, sheet_idx, sheet_name)]; [selectors] are
    [argv[1..argc-1]]. *)
Definition should_import (selectors : list sqlite3_value) (sheet_idx : Z)
    (sheet_name : cstring) : bool :=
  match selectors with
  | [] => true
  | _ =>
      existsb (fun v =>
        match v with
        | ValInteger i => let req_idx := sqlite3_value_int i in req_idx =? sheet_idx + 1
        | ValText req_name => streq req_name sheet_name
        | ValOther => false
        end) selectors
  end.

(** [SheetInfo]: the [id] is "r:id or sheetId" in the source, but
    [workbook_start] never reads either attribute. *)
Record SheetInfo := {
  name : cstring;
  id : Z;
}.

(** [workbook_start]: every [sheet] element adds an entry, named after
    its [name] attribute (empty when there is none), with the next
    position as its id. *)
Definition workbook_start (wb : list SheetInfo) (elt : cstring)
    (atts : list (cstring * cstring)) : list SheetInfo :=
  if streq elt (lit "sheet") then
    wb ++ [{| name := default [] (Xml.last_att (lit "name") Some None atts);
              id := Z.of_nat (length wb) + 1 |}]
  else wb.

Definition workbook_step (wb : list SheetInfo) (e : Xml.xml_event) : list SheetInfo :=
  match e with
  | Xml.StartElement elt atts => workbook_start wb elt atts
  | _ => wb
  end.

Section Driver.

Variable db : Type.
(** [get_zip_content] followed by the parse of the entry: the handler
    calls, [None] when the entry cannot be read. *)
Variable archive : cstring -> option (list Xml.xml_event).
(** The parse of one worksheet with [sheet_start], [sheet_end] and
    [sheet_char], which create the table and insert its rows; its
    arguments are the table name, the stream of the shared strings and
    the stream of the sheet. *)
Variable run_sheet : db -> cstring -> option (list Xml.xml_event) -> list Xml.xml_event -> db.

(** The sheet loop of [xlsx_import_func], from index [i] on. *)
Fixpoint import_loop (selectors : list sqlite3_value) (sheets : list SheetInfo)
    (i : Z) (d : db) (sheets_imported : Z) : db * Z :=
  match sheets with
  | [] => (d, sheets_imported)
  | sh :: rest =>
      if should_import selectors i (name sh) then
        match archive (lit "xl/worksheets/sheet" ++ fmt_d (i + 1) ++ lit ".xml") with
        | Some doc =>
            import_loop selectors rest (i + 1)
              (run_sheet d (name sh) (archive (lit "xl/sharedStrings.xml")) doc)
              (sheets_imported + 1)
        | None => import_loop selectors rest (i + 1) d sheets_imported
        end
      else import_loop selectors rest (i + 1) d sheets_imported
  end.

(** [xlsx_import_func]: the database after the call and the integer
    returned. *)
Definition xlsx_import_func (selectors : list sqlite3_value) (d : db) : db * Z :=
  let wb := match archive (lit "xl/workbook.xml") with
            | Some doc => fold_left workbook_step doc []
            | None => []
            end in
  import_loop selectors wb 0 d 0.

End Driver.

End GeminiImport.

(** ** The opus exporter (xlsxexport.c, zipfile variant) *)

Module OpusExport.
Import CStr ColLetters.

(** Excel maximum cell size (32,767 characters) *)
Definition EXCEL_MAX_CELL_SIZE : Z := 32767.

Record ExportWarnings := {
  cells_truncated : Z;
  first_truncated_row : Z;
  first_truncated_col : Z;
  first_truncated_table : option cstring;
}.

(** [ExportWarnings warnings = {0, 0, 0, NULL};] *)
Definition no_warnings : ExportWarnings :=
  {| cells_truncated := 0; first_truncated_row := 0; first_truncated_col := 0;
     first_truncated_table := None |}.

(** [warnings->cells_truncated++] and the record of the first
    occurrence. *)
Definition track_warning (w : ExportWarnings) (table_name : cstring)
    (row_num col : Z) : ExportWarnings :=
  let n := cells_truncated w + 1 in
  if n =? 1 then
    {| cells_truncated := n; first_truncated_row := row_num;
       first_truncated_col := col + 1; first_truncated_table := Some table_name |}
  else
    {| cells_truncated := n; first_truncated_row := first_truncated_row w;
       first_truncated_col := first_truncated_col w;
       first_truncated_table := first_truncated_table w |}.

(** [xml_escape]: the five entities; control characters other than tab,
    line feed and carriage return are dropped. *)
Fixpoint xml_escape (s : cstring) : cstring :=
  match s with
  | [] => []
  | c :: r =>
      (if ch_eqb c "&" then lit "&amp;"
       else if ch_eqb c "<" then lit "&lt;"
       else if ch_eqb c ">" then lit "&gt;"
       else if code c =? 34 then lit "&quot;"
       else if ch_eqb c "'" then lit "&apos;"
       else if (code c <? 32) && negb (code c =? 9) && negb (code c =? 10)
               && negb (code c =? 13) then []
       else [c]) ++ xml_escape r
  end.

(** A column value of a result row, by [sqlite3_column_type].  A float
    is kept as the text [%.15g] prints for it. *)
Inductive sql_value :=
  | SqlInteger (i : Z)
  | SqlFloat (printed : cstring)
  | SqlText (text : cstring)
  | SqlBlob (blob : list ascii)
  | SqlNull.

(** The cells the generator writes:
    [<c r="REF"><v>V</v></c>] and
    [<c r="REF" t="inlineStr" (s="1")><is><t>T</t></is></c>],
    with [T] the text as it stands in the file. *)
Inductive cell :=
  | NumberCell (ref : cstring) (v : cstring)
  | InlineStrCell (ref : cstring) (bold : bool) (t : cstring).

(** The worksheet part: the header row, the data rows with their row
    numbers, and the [ref] of the autoFilter element. *)
Record worksheet := {
  header_row : list cell;
  data_rows : list (Z * list cell);
  autofilter : option cstring;
}.

(** What [SELECT * FROM "table"] delivers: the column names, the rows
    stepped through, and whether the last step was [SQLITE_DONE]. *)
Record table_scan := {
  column_names : list cstring;
  scan_rows : list (list sql_value);
  scan_done : bool;
}.

Definition cell_ref (col row : Z) : cstring := col_to_letter col ++ fmt_d row.

(** The header loop: one bold inline-string cell per column name. *)
Fixpoint gen_header (col : Z) (names : list cstring) : list cell :=
  match names with
  | [] => []
  | col_name :: rest =>
      InlineStrCell (cell_ref col 1) true (xml_escape col_name) :: gen_header (col + 1) rest
  end.

Definition hex_digit (n : Z) : ascii :=
  if n <? 10 then chr (48 + n) else chr (55 + n).

(** [sprintf(hex + i * 2, "%02X", blob[i])] over the blob. *)
Definition hex_of (blob : list ascii) : cstring :=
  flat_map (fun b => [hex_digit (code b / 16); hex_digit (code b mod 16)]) blob.

(** The column loop of one data row, from column [col] on. *)
Fixpoint gen_cells (table_name : cstring) (row_num col : Z) (vals : list sql_value)
    (w : ExportWarnings) : list cell * ExportWarnings :=
  match vals with
  | [] => ([], w)
  | v :: rest =>
      let '(cs, w1) :=
        match v with
        | SqlInteger i => ([NumberCell (cell_ref col row_num) (fmt_d i)], w)
        | SqlFloat printed => ([NumberCell (cell_ref col row_num) printed], w)
        | SqlText text =>
            if EXCEL_MAX_CELL_SIZE <? Z.of_nat (length text) then
              ([InlineStrCell (cell_ref col row_num) false
                  (xml_escape (take (Z.to_nat EXCEL_MAX_CELL_SIZE) text))],
               track_warning w table_name row_num col)
            else
              ([InlineStrCell (cell_ref col row_num) false (xml_escape text)], w)
        | SqlBlob blob =>
            if EXCEL_MAX_CELL_SIZE <? Z.of_nat (length blob) * 2 then
              ([InlineStrCell (cell_ref col row_num) false
                  (hex_of (take (Z.to_nat (EXCEL_MAX_CELL_SIZE / 2)) blob))],
               track_warning w table_name row_num col)
            else
              ([InlineStrCell (cell_ref col row_num) false (hex_of blob)], w)
        | SqlNull => ([], w)
        end in
      let '(cs', w2) := gen_cells table_name row_num (col + 1) rest w1 in
      (cs ++ cs', w2)
  end.

(** The [while (sqlite3_step(stmt) == SQLITE_ROW)] loop. *)
Fixpoint gen_rows (table_name : cstring) (row_num : Z) (rs : list (list sql_value))
    (w : ExportWarnings) : list (Z * list cell) * ExportWarnings :=
  match rs with
  | [] => ([], w)
  | r :: rest =>
      let '(cs, w1) := gen_cells table_name row_num 0 r w in
      let '(more, w2) := gen_rows table_name (row_num + 1) rest w1 in
      ((row_num, cs) :: more, w2)
  end.

(** Would the column loop truncate this value? *)
Definition oversized (v : sql_value) : bool :=
  match v with
  | SqlText text => EXCEL_MAX_CELL_SIZE <? Z.of_nat (length text)
  | SqlBlob blob => EXCEL_MAX_CELL_SIZE <? Z.of_nat (length blob) * 2
  | _ => false
  end.

Inductive export_error :=
  | ErrUsage          (* fewer than two arguments *)
  | ErrFilename       (* first argument is not text *)
  | ErrTableName      (* a table name is not text *)
  | ErrPrepare (table : cstring)
  | ErrRead (table : cstring)
  | ErrZip.

Section ExportCall.

(** The database read: [None] when the SELECT cannot be prepared. *)
Variable database : cstring -> option table_scan.
(** Writing the archive with the zipfile aggregate: did the statement
    step without error? *)
Variable write_zip : cstring -> list worksheet -> bool.

(** [gen_worksheet(db, table_name, &err_msg, warnings)]: the part or
    the error, and the warnings after the call. *)
Definition gen_worksheet (table_name : cstring) (w : ExportWarnings)
    : (export_error + worksheet) * ExportWarnings :=
  match database table_name with
  | None => (inl (ErrPrepare table_name), w)
  | Some scan =>
      let col_count := Z.of_nat (length (column_names scan)) in
      let hdr := gen_header 0 (column_names scan) in
      let '(rs, w') := gen_rows table_name 2 (scan_rows scan) w in
      let last_row := 2 + Z.of_nat (length (scan_rows scan)) - 1 in
      if scan_done scan then
        (inr {| header_row := hdr; data_rows := rs;
                autofilter :=
                  if 0 <? col_count
                  then Some (lit "A1:" ++ col_to_letter (col_count - 1) ++ fmt_d last_row)
                  else None |}, w')
      else (inl (ErrRead table_name), w')
  end.

(** The loop of [xlsx_export_func] that generates all worksheets. *)
Fixpoint gen_all (tables : list cstring) (w : ExportWarnings)
    : (export_error + list worksheet) * ExportWarnings :=
  match tables with
  | [] => (inr [], w)
  | t :: rest =>
      match gen_worksheet t w with
      | (inl e, w1) => (inl e, w1)
      | (inr sheet, w1) =>
          match gen_all rest w1 with
          | (inl e, w2) => (inl e, w2)
          | (inr sheets, w2) => (inr (sheet :: sheets), w2)
          end
      end
  end.

(** The text the function returns on success: the file name, followed
    by the warning when cells were truncated. *)
Definition result_text (filename : cstring) (w : ExportWarnings) : cstring :=
  if 0 <? cells_truncated w then
    filename ++ lit " (WARNING: " ++ fmt_d (cells_truncated w) ++
    lit " cell(s) exceeded Excel's " ++ fmt_d EXCEL_MAX_CELL_SIZE ++
    lit " character limit and were truncated. First occurrence: table '" ++
    default [] (first_truncated_table w) ++ lit "', row " ++
    fmt_d (first_truncated_row w) ++ lit ", column " ++
    fmt_d (first_truncated_col w) ++ lit ")"
  else filename.

Fixpoint all_text (args : list (option cstring)) : option (list cstring) :=
  match args with
  | [] => Some []
  | Some t :: rest => option_map (cons t) (all_text rest)
  | None :: _ => None
  end.

(** [xlsx_export_func]: [args] are the SQL arguments, [None] for one
    that is not of type TEXT.  The result is an SQL error or the text
    returned. *)
Definition xlsx_export_func (args : list (option cstring)) : export_error + cstring :=
  match args with
  | [] => inl ErrUsage
  | [_] => inl ErrUsage
  | None :: _ => inl ErrFilename
  | Some filename :: tables =>
      match all_text tables with
      | None => inl ErrTableName
      | Some sheet_names =>
          match gen_all sheet_names no_warnings with
          | (inl e, _) => inl e
          | (inr sheets, warnings) =>
              if write_zip filename sheets
              then inr (result_text filename warnings)
              else inl ErrZip
          end
      end
  end.

End ExportCall.

End OpusExport.

(** ** Worksheet fixtures *)

Module Fixtures.
Import CStr Xml.

(** [<c r="REF" t="TY"><v>TEXT</v></c>] as handler calls; [ty] is
    [None] for a cell without a [t] attribute. *)
Definition cell_events (ref : string) (ty : option string) (text : string)
    : list xml_event :=
  [StartElement (lit "c")
     (match ty with
      | None => [(lit "r", lit ref)]
      | Some ty => [(lit "r", lit ref); (lit "t", lit ty)]
      end);
   StartElement (lit "v") [];
   CharacterData (lit text);
   EndElement (lit "v");
   EndElement (lit "c")].

(** [<row r="R"> cells </row>] *)
Definition row_events (r : string) (cells : list (list xml_event)) : list xml_event :=
  StartElement (lit "row") [(lit "r", lit r)] :: concat cells ++ [EndElement (lit "row")].

(** A row that declares only columns 1 (A) and 4 (D). *)
Definition row_A_D : list xml_event :=
  row_events "1" [cell_events "A1" None "10"; cell_events "D1" None "40"].

(** A row that declares column B twice. *)
Definition row_B_twice : list xml_event :=
  row_events "1" [cell_events "B1" None "first"; cell_events "B1" None "second"].

(** A shared-string cell whose index 7 is outside a two-entry table. *)
Definition row_bad_index : list xml_event :=
  row_events "1" [cell_events "A1" (Some "s") "7"].

Definition two_strings : list cstring := [lit "zero"; lit "one"].

(** A cell whose reference has no column letters. *)
Definition row_no_letters : list xml_event :=
  row_events "1" [cell_events "17" None "x"].

(** The same cell, followed by a row with a valid index. *)
Definition sheet_bad_then_good : list xml_event :=
  row_events "1" [cell_events "A1" (Some "s") "7"] ++
  row_events "2" [cell_events "A2" (Some "s") "1"].

(** A workbook with the single sheet "Data", declared id 5, whose
    worksheet stream is not in the archive. *)
Definition workbook_one_sheet : list xml_event :=
  [StartElement (lit "workbook") [];
   StartElement (lit "sheet") [(lit "name", lit "Data"); (lit "sheetId", lit "5")];
   EndElement (lit "sheet");
   EndElement (lit "workbook")].

Definition archive_without_sheets (entry : cstring) : option (list xml_event) :=
  if streq entry (lit "xl/workbook.xml") then Some workbook_one_sheet else None.


(** A workbook with the sheets "First" (declared id 2) and "Second"
    (declared id 1), and an archive that holds it with the two worksheet
    streams [sheet1.xml] and [sheet2.xml], of one row each. *)
Definition workbook_two_sheets : list xml_event :=
  [StartElement (lit "workbook") [];
   StartElement (lit "sheet") [(lit "name", lit "First"); (lit "sheetId", lit "2")];
   EndElement (lit "sheet");
   StartElement (lit "sheet") [(lit "name", lit "Second"); (lit "sheetId", lit "1")];
   EndElement (lit "sheet");
   EndElement (lit "workbook")].

Definition sheet_one_cell (text : string) : list xml_event :=
  row_events "1" [cell_events "A1" None text].

Definition archive_two_sheets (entry : cstring) : option (list xml_event) :=
  if streq entry (lit "xl/workbook.xml") then Some workbook_two_sheets
  else if streq entry (lit "xl/worksheets/sheet1.xml") then Some (sheet_one_cell "one")
  else if streq entry (lit "xl/worksheets/sheet2.xml") then Some (sheet_one_cell "two")
  else None.

(** A database that records the name and the columns of each table
    created, in the order of creation. *)
Definition tables_db : Type := list (cstring * list cstring).
Definition tables_create_empty (d : tables_db) (t : cstring) : option tables_db :=
  Some (d ++ [(t, [])]).
Definition tables_create (d : tables_db) (t : cstring) (c : list cstring)
    : option tables_db := Some (d ++ [(t, c)]).
Definition tables_prepare (d : tables_db) (t : cstring) (c : list cstring) : bool := true.
Definition tables_insert (d : tables_db) (t : cstring) (c : list cstring)
    (v : list (option cstring)) : tables_db := d.

(** A database that records nothing. *)
Definition no_db : Type := unit.
Definition no_create_empty (d : no_db) (t : cstring) : option no_db := Some d.
Definition no_create (d : no_db) (t : cstring) (c : list cstring) : option no_db := Some d.
Definition no_prepare (d : no_db) (t : cstring) (c : list cstring) : bool := true.
Definition no_insert (d : no_db) (t : cstring) (c : list cstring)
    (v : list (option cstring)) : no_db := d.
Definition no_run (d : no_db) (t : cstring) (s : option (list xml_event))
    (doc : list xml_event) : no_db := d.

(** A text of 40,000 characters [a]. *)
Definition long_text : cstring := replicate (Z.to_nat 40000) "a"%char.

(** A database whose only table, [t], has one column and the given
    rows. *)
Definition db_one_column (name : cstring) (rows : list (list OpusExport.sql_value))
    (table : cstring) : option OpusExport.table_scan :=
  if streq table (lit "t")
  then Some {| OpusExport.column_names := [name];
               OpusExport.scan_rows := rows;
               OpusExport.scan_done := true |}
  else None.

(** Table [t] has one column, named by [long_text], and no rows. *)
Definition db_long_header : cstring -> option OpusExport.table_scan :=
  db_one_column long_text [].

(** Table [t] has the column [note] and one row, whose value is
    [long_text]. *)
Definition db_long_value : cstring -> option OpusExport.table_scan :=
  db_one_column (lit "note") [[OpusExport.SqlText long_text]].

(** An archive write that succeeds. *)
Definition zip_ok (filename : cstring) (sheets : list OpusExport.worksheet) : bool := true.

(** A table name of exactly 31 characters. *)
Definition name31 : cstring := replicate 31 "a"%char.

(** Thirty characters, an apostrophe, one more character. *)
Definition name_quote_at_31 : cstring := replicate 30 "a"%char ++ lit "'b".

End Fixtures.

(** ** Column letters of the gemini extensions *)

Module GeminiLetters.
Import CStr ColLetters.

(** gemini xlsxexport.c, [int_to_col]: the loop of the opus
    [col_to_letter], on a [temp] of 16 bytes. *)
Definition int_to_col (n : Z) : cstring := rev (letter_temp 16 (n + 1)).

(** gemini xlsximport.c, [col_to_int]. *)
Fixpoint col_to_int_from (res : Z) (col : cstring) : Z :=
  match col with
  | [] => res
  | c :: rest =>
      if isalpha c
      then col_to_int_from (res * 26 + (toupper c - 65 + 1)) rest
      else res
  end.

Definition col_to_int (col : cstring) : Z := col_to_int_from 0 col.

(** [extract_col_row(ref, &col, &row)]: the leading letters, at most 15
    of them copied into [c_part], and [atoi] of what follows all of the
    letters. *)
Definition extract_col_row (ref : cstring) : Z * Z :=
  let p := drop_while isalpha ref in
  let len := (length ref - length p)%nat in
  let len := if (16 <=? len)%nat then 15%nat else len in
  (col_to_int (take len ref), atoi p).

End GeminiLetters.

(** ** The shared-string parsers of the opus and gemini importers *)

Module OpusStrings.
Import CStr Xml.

(** opus/xlsximport.c, [SharedStrings]: the [strings] array, the [in_t]
    flag and the [current] buffer (NULL before the first text; every
    reader takes NULL for the empty string). *)
Record SharedStrings := {
  strings : list cstring;
  in_t : bool;
  current : cstring;
}.

Definition ss_init : SharedStrings := {| strings := []; in_t := false; current := [] |}.

Definition ss_add_string (ss : SharedStrings) (str : cstring) : SharedStrings :=
  {| strings := strings ss ++ [str]; in_t := in_t ss; current := current ss |}.

Definition ss_append_text (ss : SharedStrings) (text : cstring) : SharedStrings :=
  {| strings := strings ss; in_t := in_t ss; current := current ss ++ text |}.

Definition ss_start_element (ss : SharedStrings) (name : cstring) : SharedStrings :=
  if streq name (lit "t") then
    {| strings := strings ss; in_t := true; current := [] |}
  else ss.

Definition ss_end_element (ss : SharedStrings) (name : cstring) : SharedStrings :=
  if streq name (lit "si") then
    let ss := ss_add_string ss (current ss) in
    {| strings := strings ss; in_t := in_t ss; current := [] |}
  else if streq name (lit "t") then
    {| strings := strings ss; in_t := false; current := current ss |}
  else ss.

Definition ss_char_data (ss : SharedStrings) (s : cstring) : SharedStrings :=
  if in_t ss then ss_append_text ss s else ss.

Definition ss_step (ss : SharedStrings) (e : xml_event) : SharedStrings :=
  match e with
  | StartElement name _ => ss_start_element ss name
  | EndElement name => ss_end_element ss name
  | CharacterData s => ss_char_data ss s
  end.

Definition parse_shared_strings (doc : list xml_event) : list cstring :=
  strings (fold_left ss_step doc ss_init).

End OpusStrings.

Module GeminiStrings.
Import CStr Xml.

(** gemini xlsximport.c, [SharedStrings]: an entry of [strings] is the
    [data] pointer of a [StrBuf], NULL ([None]) when nothing was
    appended to it. *)
Record SharedStrings := {
  strings : list (option cstring);
  in_t_tag : bool;
  current_str : option cstring;
}.

Definition ss_zero : SharedStrings :=
  {| strings := []; in_t_tag := false; current_str := None |}.

(** [strbuf_append] allocates on the first call, also for no bytes. *)
Definition strbuf_append (sb : option cstring) (s : cstring) : option cstring :=
  Some (default [] sb ++ s).

Definition shared_strings_start (ss : SharedStrings) (name : cstring) : SharedStrings :=
  if streq name (lit "t") then
    {| strings := strings ss; in_t_tag := true; current_str := None |}
  else ss.

Definition shared_strings_end (ss : SharedStrings) (name : cstring) : SharedStrings :=
  if streq name (lit "t") then
    {| strings := strings ss ++ [current_str ss]; in_t_tag := false;
       current_str := current_str ss |}
  else ss.

Definition shared_strings_char (ss : SharedStrings) (s : cstring) : SharedStrings :=
  if in_t_tag ss then
    {| strings := strings ss; in_t_tag := in_t_tag ss;
       current_str := strbuf_append (current_str ss) s |}
  else ss.

Definition shared_strings_step (ss : SharedStrings) (e : xml_event) : SharedStrings :=
  match e with
  | StartElement name _ => shared_strings_start ss name
  | EndElement name => shared_strings_end ss name
  | CharacterData s => shared_strings_char ss s
  end.

(** Part 1 of [xlsx_import_func]: the table after the parse. *)
Definition parse_shared_strings (doc : list xml_event) : list (option cstring) :=
  strings (fold_left shared_strings_step doc ss_zero).

(** The shared-string branch of [sheet_end]: the entry at [atoi(val)],
    the empty string when the index is out of range or the entry NULL. *)
Definition shared_value (ss : list (option cstring)) (val : cstring) : cstring :=
  let idx := atoi val in
  let final_val :=
    if (0 <=? idx) && (idx <? Z.of_nat (length ss))
    then default None (ss !! Z.to_nat idx) else None in
  default [] final_val.

End GeminiStrings.

(** ** Documents *)

Module Documents.
Import CStr Xml.

(** The handler calls for a [t] element whose text arrives in
    [chunks], for a string item [si] made of such runs, and for a
    shared-string part. *)
Definition t_events (chunks : list cstring) : list xml_event :=
  StartElement (lit "t") [] :: map CharacterData chunks ++ [EndElement (lit "t")].

Definition si_events (runs : list (list cstring)) : list xml_event :=
  StartElement (lit "si") [] :: concat (map t_events runs) ++ [EndElement (lit "si")].

Definition sst_events (items : list (list (list cstring))) : list xml_event :=
  StartElement (lit "sst") [] :: concat (map si_events items) ++ [EndElement (lit "sst")].

(** The text of the last run of an item, and the entry of a run in a
    table that holds NULL for a run without character data. *)
Definition last_run (runs : list (list cstring)) : cstring :=
  concat (default [] (last runs)).

Definition run_entry (chunks : list cstring) : option cstring :=
  match chunks with [] => None | _ => Some (concat chunks) end.

End Documents.

(** ** Escaping and quoting *)

Module Escapes.
Import CStr.

(** The character [0x22]. *)
Definition dquote : ascii := chr 34.

(** C0 control characters other than tab, line feed, carriage return. *)
Definition is_control (c : ascii) : bool :=
  (code c <? 32) && negb (code c =? 9) && negb (code c =? 10) && negb (code c =? 13).

(** copilot/xlsxexport.c, [xml_escape]: the five entities; a control
    character is replaced by a space.  ([out] has [len * 6 + 1] bytes.) *)
Fixpoint copilot_xml_escape (s : cstring) : cstring :=
  match s with
  | [] => []
  | q :: r =>
      (if ch_eqb q "&" then lit "&amp;"
       else if ch_eqb q "<" then lit "&lt;"
       else if ch_eqb q ">" then lit "&gt;"
       else if code q =? 34 then lit "&quot;"
       else if ch_eqb q "'" then lit "&apos;"
       else if (code q <? 32) && negb (code q =? 9) && negb (code q =? 10)
               && negb (code q =? 13) then [" "%char]
       else [q]) ++ copilot_xml_escape r
  end.

(** gemini xlsxexport.c, [strbuf_append_xml_escaped]: the five entities,
    every other byte as it is. *)
Fixpoint strbuf_append_xml_escaped (sb : cstring) (s : cstring) : cstring :=
  match s with
  | [] => sb
  | c :: r =>
      strbuf_append_xml_escaped
        (sb ++ (if ch_eqb c "<" then lit "&lt;"
                else if ch_eqb c ">" then lit "&gt;"
                else if ch_eqb c "&" then lit "&amp;"
                else if code c =? 34 then lit "&quot;"
                else if ch_eqb c "'" then lit "&apos;"
                else [c])) r
  end.

(** The text one turn of that loop appends. *)
Definition gemini_piece (c : ascii) : cstring :=
  if ch_eqb c "<" then lit "&lt;"
  else if ch_eqb c ">" then lit "&gt;"
  else if ch_eqb c "&" then lit "&amp;"
  else if code c =? 34 then lit "&quot;"
  else if ch_eqb c "'" then lit "&apos;"
  else [c].

(** copilot xlsximport.c, [quote_identifier]: wrap in double quotes,
    double every double quote inside.  NULL stands for the empty
    string.  ([out] has [len * 2 + 3] bytes.) *)
Definition quote_identifier (s : option cstring) : cstring :=
  dquote :: flat_map (fun q => if code q =? 34 then [dquote; dquote] else [q]) (default [] s)
  ++ [dquote].

(** opus/xlsximport.c, [escape_identifier]: the same, but NULL and the
    empty name become the identifier [unnamed]. *)
Definition escape_identifier (name : option cstring) : cstring :=
  match name with
  | None | Some [] => dquote :: lit "unnamed" ++ [dquote]
  | Some name =>
      dquote :: flat_map (fun s => if code s =? 34 then [dquote; s] else [s]) name
      ++ [dquote]
  end.

(** The identifier characters [sanitize_identifier] keeps. *)
Definition is_ident_char (c : ascii) : bool :=
  isupper c || islower c || isdigit c || ch_eqb c "_".

(** The first loop of [sanitize_identifier]; [out] is the text written
    so far, kept in reverse so that [*(p-1)] is its head. *)
Fixpoint sanitize_loop (s : cstring) (out_rev : cstring) : cstring :=
  match s with
  | [] => out_rev
  | c :: r =>
      if is_ident_char c then sanitize_loop r (c :: out_rev)
      else
        match out_rev with
        | last :: _ =>
            if ch_eqb last "_" then sanitize_loop r out_rev
            else sanitize_loop r ("_"%char :: out_rev)
        | [] => sanitize_loop r ["_"%char]
        end
  end.

(** copilot xlsximport.c (the sanitizing variant), [sanitize_identifier]. *)
Definition sanitize_identifier (s : option cstring) : cstring :=
  match s with
  | None => lit "col"
  | Some s =>
      let out := rev (sanitize_loop s []) in
      let out := match out with [] => ["_"%char] | _ => out end in
      match out with
      | c :: _ => if isdigit c then lit "c_" ++ out else out
      | [] => out
      end
  end.

(** What an XML parser makes of character data: the five predefined
    entity references stand for their characters. *)
Fixpoint entity_decode (s : cstring) : cstring :=
  match s with
  | [] => []
  | c :: r =>
      if ch_eqb c "&" then
        match r with
        | c1 :: c2 :: c3 :: r3 =>
            if streq [c1; c2; c3] (lit "lt;") then "<"%char :: entity_decode r3
            else if streq [c1; c2; c3] (lit "gt;") then ">"%char :: entity_decode r3
            else
              match r3 with
              | c4 :: r4 =>
                  if streq [c1; c2; c3; c4] (lit "amp;") then "&"%char :: entity_decode r4
                  else
                    match r4 with
                    | c5 :: r5 =>
                        if streq [c1; c2; c3; c4; c5] (lit "quot;")
                        then dquote :: entity_decode r5
                        else if streq [c1; c2; c3; c4; c5] (lit "apos;")
                        then "'"%char :: entity_decode r5
                        else c :: entity_decode r
                    | [] => c :: entity_decode r
                    end
              | [] => c :: entity_decode r
              end
        | _ => c :: entity_decode r
        end
      else c :: entity_decode r
  end.

(** What an XML parser makes of the line ends of its input, before
    anything else: a carriage return becomes a line feed, and a line
    feed that follows a carriage return is dropped. *)
Fixpoint line_ends_from (after_cr : bool) (s : cstring) : cstring :=
  match s with
  | [] => []
  | c :: r =>
      if code c =? 13 then chr 10 :: line_ends_from true r
      else if (code c =? 10) && after_cr then line_ends_from false r
      else c :: line_ends_from false r
  end.

Definition line_ends (s : cstring) : cstring := line_ends_from false s.

(** The character data a parser delivers for the text [t] of an
    element, when [t] is well-formed content without markup. *)
Definition chardata (t : cstring) : cstring := entity_decode (line_ends t).

(** The text the copilot [xml_escape] writes for one character. *)
Definition copilot_piece (c : ascii) : cstring :=
  if ch_eqb c "&" then lit "&amp;"
  else if ch_eqb c "<" then lit "&lt;"
  else if ch_eqb c ">" then lit "&gt;"
  else if code c =? 34 then lit "&quot;"
  else if ch_eqb c "'" then lit "&apos;"
  else if is_control c then [" "%char] else [c].

(** *** The bytes an XML parser accepts in a text *)

(** A continuation byte of UTF-8, [0x80] to [0xBF]. *)
Definition is_trail (c : ascii) : bool := (128 <=? code c) && (code c <=? 191).

(** Is [s] a sequence of characters of XML 1.0, encoded in UTF-8?  The
    parser goes through the bytes of a text one character at a time,
    one to four bytes each, and stops with an error at a control
    character other than tab, line feed and carriage return, at a byte
    that cannot start a character, and at a character that is cut
    short, written with more bytes than it needs, a surrogate, U+FFFE,
    U+FFFF or beyond U+10FFFF. *)
Fixpoint xml_chars (s : cstring) : bool :=
  match s with
  | [] => true
  | a :: r =>
      let x := code a in
      if x <? 128 then negb (is_control a) && xml_chars r
      else if x <? 194 then false
      else if x <? 224 then
        match r with
        | b :: r2 => is_trail b && xml_chars r2
        | [] => false
        end
      else if x <? 240 then
        match r with
        | b :: c :: r3 =>
            is_trail b && is_trail c
            && (if x =? 224 then 160 <=? code b else true)
            && (if x =? 237 then code b <=? 159 else true)
            && negb ((x =? 239) && (code b =? 191) && (189 <? code c))
            && xml_chars r3
        | _ => false
        end
      else if x <? 245 then
        match r with
        | b :: c :: d :: r4 =>
            is_trail b && is_trail c && is_trail d
            && (if x =? 240 then 144 <=? code b else true)
            && (if x =? 244 then code b <=? 143 else true)
            && xml_chars r4
        | _ => false
        end
      else false
  end.

(** A text of printable ASCII characters without markup, as [printf]
    writes it for a number. *)
Definition plain (v : cstring) : bool :=
  forallb (fun c => (32 <=? code c) && (code c <? 127)
                    && negb (ch_eqb c "<") && negb (ch_eqb c "&")) v.


(** No markup character is left in a text. *)
Definition markup_free (s : cstring) : Prop :=
  Forall (fun c => c <> "<"%char /\ c <> ">"%char /\ c <> dquote /\ c <> "'"%char) s.

(** What SQLite reads as a double-quoted identifier at the start of
    [s]: the identifier and the text after its closing quote. *)
Fixpoint quoted_body (s : cstring) : option (cstring * cstring) :=
  match s with
  | [] => None
  | c :: r =>
      if code c =? 34 then
        match r with
        | c' :: r' =>
            if code c' =? 34
            then match quoted_body r' with
                 | Some (name, rest) => Some (c :: name, rest)
                 | None => None
                 end
            else Some ([], r)
        | [] => Some ([], [])
        end
      else match quoted_body r with
           | Some (name, rest) => Some (c :: name, rest)
           | None => None
           end
  end.

Definition quoted_identifier (s : cstring) : option (cstring * cstring) :=
  match s with
  | c :: r => if code c =? 34 then quoted_body r else None
  | [] => None
  end.

End Escapes.

(** ** Sheet names of the opus exporter (xlsxexport.c, zipfile variant) *)

Module OpusSheetName.
Import CStr SheetName.

Definition EXCEL_MAX_SHEET_NAME_LEN : nat := 31.

(** [if (result[0] == '\'') result[0] = '_';] *)
Definition fix_leading (result : cstring) : cstring :=
  match result with
  | c :: rest => if ch_eqb c apostrophe then "_"%char :: rest else result
  | [] => []
  end.

(** [if (j > 0 && result[j - 1] == '\'') result[j - 1] = '_';] *)
Definition fix_trailing (result : cstring) : cstring :=
  match rev result with
  | c :: rest => if ch_eqb c apostrophe then rev ("_"%char :: rest) else result
  | [] => []
  end.

(** The test for the reserved name, letter by letter in either case. *)
Definition is_history (result : cstring) : bool :=
  match result with
  | [h; i; s; t; o; r; y] =>
      (ch_eqb h "H" || ch_eqb h "h") && (ch_eqb i "I" || ch_eqb i "i") &&
      (ch_eqb s "S" || ch_eqb s "s") && (ch_eqb t "T" || ch_eqb t "t") &&
      (ch_eqb o "O" || ch_eqb o "o") && (ch_eqb r "R" || ch_eqb r "r") &&
      (ch_eqb y "Y" || ch_eqb y "y")
  | _ => false
  end.

(** [sanitize_sheet_name(name)] *)
Definition sanitize_sheet_name (name : option cstring) : cstring :=
  match name with
  | None | Some [] => lit "Sheet"
  | Some name =>
      let result :=
        map (fun c => if forbidden c then "_"%char else c)
            (take EXCEL_MAX_SHEET_NAME_LEN name) in
      let result := fix_leading result in
      let result := fix_trailing result in
      match result with
      | [] => lit "Sheet"
      | _ => if is_history result then lit "History_" else result
      end
  end.

(** The five restrictions the comment of [sanitize_sheet_name] lists. *)
Definition conforms (r : cstring) : Prop :=
  r <> [] /\ (length r <= 31)%nat /\
  Forall (fun c => forbidden c = false) r /\
  head r <> Some apostrophe /\ last r <> Some apostrophe /\
  map toupper r <> map code (lit "HISTORY").

End OpusSheetName.

(** ** Sheet names of the copilot exporter (libxlsxwriter variant) *)

Module CopilotLxw.
Import CStr SheetName.

(** [sanitize_sheet_name(name_in, index)] *)
Definition sanitize_sheet_name (name_in : option cstring) (index : Z) : cstring :=
  let name_in := default [] name_in in
  let tmp := List.filter (fun c => negb (forbidden c) && negb (code c <? 32)) name_in in
  let start := drop_while isspace tmp in
  let out := trim_right isspace start in
  let out := drop_while (fun c => ch_eqb c apostrophe) out in
  let out := trim_right (fun c => ch_eqb c apostrophe) out in
  let out := take 31 out in
  match out with
  | [] => lit "Sheet" ++ fmt_d (index + 1)
  | _ => out
  end.

(** [snprintf(buf, sizeof(buf), "%s(%d)", candidate, suffix)] with
    [char buf[64]]. *)
Definition suffixed (candidate : cstring) (suffix : Z) : cstring :=
  take 63 (candidate ++ lit "(" ++ fmt_d suffix ++ lit ")").

(** The [while (1)] loop of [ensure_unique_name].  [None]: no result
    within [fuel] turns. *)
Fixpoint unique_loop (fuel : nat) (existing : list cstring) (candidate : cstring)
    (suffix : Z) : option cstring :=
  match fuel with
  | O => None
  | S f =>
      let buf := suffixed candidate suffix in
      if existsb (fun e => streq e buf) existing
      then unique_loop f existing candidate (suffix + 1)
      else Some buf
  end.

(** [ensure_unique_name(existing, existing_count, candidate)] *)
Definition ensure_unique_name (fuel : nat) (existing : list cstring)
    (candidate : cstring) : option cstring :=
  if existsb (fun e => streq e candidate) existing
  then unique_loop fuel existing candidate 1
  else Some candidate.

(** The naming loop of [xlsx_export_func]:
    [sheet_names[i] = ensure_unique_name(sheet_names, i,
    sanitize_sheet_name(tables[i], i))]. *)
Fixpoint sheet_names_from (fuel : nat) (tables : list cstring) (done : list cstring)
    : option (list cstring) :=
  match tables with
  | [] => Some done
  | t :: rest =>
      let san := sanitize_sheet_name (Some t) (Z.of_nat (length done)) in
      match ensure_unique_name fuel done san with
      | Some unique => sheet_names_from fuel rest (done ++ [unique])
      | None => None
      end
  end.

Definition sheet_names (fuel : nat) (tables : list cstring) : option (list cstring) :=
  sheet_names_from fuel tables [].

End CopilotLxw.

(** ** The worksheet builder of the copilot exporter (zipfile variant) *)

Module CopilotExport.
Import CStr ColLetters Sst Xml.

Definition EXCEL_CELL_CHAR_LIMIT : Z := 32767.

(** The copy of a text that is interned: its first 32767 bytes when it
    is longer ([memcpy(hdr, raw, EXCEL_CELL_CHAR_LIMIT)]). *)
Definition truncated (raw : cstring) : cstring :=
  if EXCEL_CELL_CHAR_LIMIT <? Z.of_nat (length raw)
  then take (Z.to_nat EXCEL_CELL_CHAR_LIMIT) raw
  else raw.

(** [sqlite3_column_text] of a column that is neither INTEGER, FLOAT nor
    NULL: the text, or the bytes of a blob up to its first zero byte. *)
Definition column_text (v : OpusExport.sql_value) : cstring :=
  match v with
  | OpusExport.SqlText text => text
  | OpusExport.SqlBlob blob => take_while (fun c => negb (code c =? 0)) blob
  | _ => []
  end.

(** The three cells the builder writes:
    [<c r="REF" (s="S") t="s"><v>IDX</v></c>],
    [<c r="REF"><v>V</v></c>] and [<c r="REF"/>]. *)
Inductive cell :=
  | SharedCell (ref : cstring) (style : option Z) (idx : nat)
  | NumberCell (ref : cstring) (v : cstring)
  | EmptyCell (ref : cstring).

(** [snprintf(cellref, sizeof(cellref), "%s...", collet, ...)] with
    [char collet[8]] and [char cellref[32]]. *)
Definition cellref (c : Z) (row : cstring) : cstring :=
  take 31 (col_to_letters c 8 ++ row).

(** The header loop, from column [c] on. *)
Fixpoint header_cells (header_style_index : Z) (c : Z) (colnames : list cstring)
    (sstp : sst) : list cell * sst :=
  match colnames with
  | [] => ([], sstp)
  | raw :: rest =>
      let hdr := truncated raw in
      let '(s1, idx) := sst_index sstp (Some hdr) in
      let '(cs, s2) := header_cells header_style_index (c + 1) rest s1 in
      (SharedCell (cellref c (lit "1")) (Some header_style_index) idx :: cs, s2)
  end.

(** The column loop of one data row, from column [c] on. *)
Fixpoint data_cells (rownum : Z) (c : Z) (vals : list OpusExport.sql_value)
    (sstp : sst) : list cell * sst :=
  match vals with
  | [] => ([], sstp)
  | v :: rest =>
      let ref := cellref c (fmt_d rownum) in
      let '(cl, s1) :=
        match v with
        | OpusExport.SqlInteger i => (NumberCell ref (fmt_d i), sstp)
        | OpusExport.SqlFloat printed => (NumberCell ref printed, sstp)
        | OpusExport.SqlNull => (EmptyCell ref, sstp)
        | _ =>
            let rawtxt := truncated (column_text v) in
            let '(s1, idx) := sst_index sstp (Some rawtxt) in
            (SharedCell ref None idx, s1)
        end in
      let '(cs, s2) := data_cells rownum (c + 1) rest s1 in
      (cl :: cs, s2)
  end.

(** The [while((rc = sqlite3_step(pStmt)) == SQLITE_ROW)] loop. *)
Fixpoint data_rows_from (rownum : Z) (rows : list (list OpusExport.sql_value))
    (sstp : sst) : list (Z * list cell) * sst :=
  match rows with
  | [] => ([], sstp)
  | r :: rest =>
      let '(cs, s1) := data_cells rownum 0 r sstp in
      let '(more, s2) := data_rows_from (rownum + 1) rest s1 in
      ((rownum, cs) :: more, s2)
  end.

(** The worksheet part: the header row (row 1), the [ref] of the
    autoFilter element written after it, and the data rows with their
    row numbers. *)
Record worksheet := {
  header_row : list cell;
  autofilter : cstring;
  data_rows : list (Z * list cell);
}.

(** The part of [build_worksheet_xml_with_sst] that writes, once both
    statements are prepared: the header row for [colnames], the
    autoFilter element and one row for each entry of [rows], the column
    values of the rows the SELECT statement steps through.  [None] is
    the part with an empty [sheetData], written for a table without
    columns. *)
Definition write_sheet (colnames : list cstring)
    (rows : list (list OpusExport.sql_value)) (header_style_index : Z) (sstp : sst)
    : option worksheet * sst :=
  match colnames with
  | [] => (None, sstp)
  | _ =>
      let '(hdr, s1) := header_cells header_style_index 0 colnames sstp in
      let lastcol := col_to_letters (Z.of_nat (length colnames) - 1) 8 in
      let '(rs, s2) := data_rows_from 2 rows s1 in
      (Some {| header_row := hdr;
               autofilter := lit "A1:" ++ lastcol ++ lit "1";
               data_rows := rs |}, s2)
  end.

(** *** The two statements of the builder *)

(** The [%Q] of [sqlite3_snprintf] for a string: an SQL string literal,
    in single quotes, every single quote doubled. *)
Definition fmt_Q (s : cstring) : cstring :=
  "'"%char :: flat_map (fun c => if ch_eqb c "'" then [c; c] else [c]) s ++ ["'"%char].

(** [sqlite3_snprintf(sizeof(pragma_sql), pragma_sql,
    "PRAGMA table_info(%Q);", table)] with [char pragma_sql[256]]. *)
Definition pragma_sql (table : cstring) : cstring :=
  take 255 (lit "PRAGMA table_info(" ++ fmt_Q table ++ lit ");").

(** [strncat(sql, part, qcap - strlen(sql) - 1)] *)
Definition strncat_sql (qcap : nat) (sql part : cstring) : cstring :=
  sql ++ take (qcap - length sql - 1) part.

(** The loop that appends the columns, from column [i] on:
    [sqlite3_snprintf(sizeof(part), part, "%s%Q", sep, colnames[i])]
    with [char part[256]], where [sep] is empty for the first column
    and a comma and a space for the others.  Every column is written
    as the string literal of its name. *)
Fixpoint select_columns (qcap : nat) (i : nat) (colnames : list cstring)
    (sql : cstring) : cstring :=
  match colnames with
  | [] => sql
  | name :: rest =>
      let part := take 255 ((match i with O => [] | S _ => lit ", " end) ++ fmt_Q name) in
      select_columns qcap (S i) rest (strncat_sql qcap sql part)
  end.

(** The text of the SELECT statement, built in [qcap = 256 + colcount *
    64] bytes; the table name is appended as it is. *)
Definition select_sql (table : cstring) (colnames : list cstring) : cstring :=
  let qcap := (256 + length colnames * 64)%nat in
  let sql := select_columns qcap 0 colnames (lit "SELECT ") in
  strncat_sql qcap (strncat_sql qcap sql (lit " FROM ")) table.

(** [sqlite3_column_type(pStmt, c)] and the value of column [c] for the
    [colcount] columns the data loop reads; a column the statement does
    not have reads as NULL. *)
Definition column_values (colcount : nat) (row : list OpusExport.sql_value)
    : list OpusExport.sql_value :=
  map (fun c => default OpusExport.SqlNull (row !! c)) (seq 0 colcount).

Section Db.

(** SQLite, through the two statements the builder prepares, by the
    text of the statement.
    [table_info]: [None] when [sqlite3_prepare_v2] fails; otherwise the
    texts [sqlite3_column_text] gives for column 1 (the column name) of
    the rows stepped through, and whether the loop ended with
    [SQLITE_DONE].
    [select]: [None] when [sqlite3_prepare_v2] fails; otherwise the
    rows stepped through while [sqlite3_step] returns [SQLITE_ROW],
    each with the values of its result columns. *)
Variable table_info : cstring -> option (list cstring * bool).
Variable select : cstring -> option (list (list OpusExport.sql_value)).

(** [build_worksheet_xml_with_sst(db, table, header_style_index, sstp,
    out, pzErrMsg)]: [None] when it returns an error code (a statement
    that cannot be prepared, a PRAGMA loop that does not end with
    [SQLITE_DONE]); the shared-string table is not touched then. *)
Definition build_worksheet_xml_with_sst (table : cstring) (header_style_index : Z)
    (sstp : sst) : option (option worksheet * sst) :=
  match table_info (pragma_sql table) with
  | None => None
  | Some (colnames, done) =>
      if negb done then None
      else
        match colnames with
        | [] => Some (None, sstp)
        | _ =>
            match select (select_sql table colnames) with
            | None => None
            | Some rows =>
                Some (write_sheet colnames
                        (map (column_values (length colnames)) rows)
                        header_style_index sstp)
            end
        end
  end.

(** The worksheet loop of [xlsx_export_func]: every table is built with
    the same [shared] table and style index 1; the first table that
    fails ends the export with an error ([None]). *)
Fixpoint build_worksheets (tables : list cstring) (shared : sst)
    : option (list (option worksheet) * sst) :=
  match tables with
  | [] => Some ([], shared)
  | table :: rest =>
      match build_worksheet_xml_with_sst table 1 shared with
      | None => None
      | Some (ws, s1) =>
          match build_worksheets rest s1 with
          | None => None
          | Some (more, s2) => Some (ws :: more, s2)
          end
      end
  end.

(** What the two statements return for a table: the column names, and
    the column values of the rows of the SELECT statement. *)
Definition statement_rows (table : cstring)
    : list cstring * list (list OpusExport.sql_value) :=
  match table_info (pragma_sql table) with
  | Some (colnames, _) =>
      (colnames,
       match select (select_sql table colnames) with
       | Some rows => map (column_values (length colnames)) rows
       | None => []
       end)
  | None => ([], [])
  end.

End Db.

(** *** The written text as handler calls *)

Definition nl : cstring := [chr 10].

Definition cell_events (c : cell) : list xml_event :=
  match c with
  | SharedCell ref style idx =>
      [StartElement (lit "c")
         ((lit "r", ref) ::
          match style with
          | Some s => [(lit "s", fmt_d s); (lit "t", lit "s")]
          | None => [(lit "t", lit "s")]
          end);
       StartElement (lit "v") []; CharacterData (fmt_d (Z.of_nat idx));
       EndElement (lit "v"); EndElement (lit "c")]
  | NumberCell ref v =>
      [StartElement (lit "c") [(lit "r", ref)];
       StartElement (lit "v") []; CharacterData v;
       EndElement (lit "v"); EndElement (lit "c")]
  | EmptyCell ref =>
      [StartElement (lit "c") [(lit "r", ref)]; EndElement (lit "c")]
  end.

Definition data_row_events (r : Z * list cell) : list xml_event :=
  StartElement (lit "row") [(lit "r", fmt_d (fst r))]
  :: concat (map cell_events (snd r))
  ++ [EndElement (lit "row"); CharacterData nl].

(** The handler calls for the worksheet part, in the order of the
    [mw_append] calls; the line feeds written between elements arrive as
    character data. *)
Definition worksheet_events (ws : worksheet) : list xml_event :=
  [StartElement (lit "worksheet") []; CharacterData nl;
   StartElement (lit "sheetData") []; CharacterData nl;
   StartElement (lit "row") [(lit "r", lit "1")]; CharacterData nl]
  ++ concat (map cell_events (header_row ws))
  ++ [CharacterData nl; EndElement (lit "row"); CharacterData nl;
      StartElement (lit "autoFilter") [(lit "ref", autofilter ws)];
      EndElement (lit "autoFilter"); CharacterData nl]
  ++ concat (map data_row_events (data_rows ws))
  ++ [EndElement (lit "sheetData"); CharacterData nl; EndElement (lit "worksheet")].

(** *** What a cell stands for *)

(** The text a reader of the workbook finds in a cell, given the
    shared-string table. *)
Definition cell_denotes (shared : sst) (c : cell) (txt : cstring) : Prop :=
  match c with
  | SharedCell _ _ idx => shared !! idx = Some txt
  | NumberCell _ v => v = txt
  | EmptyCell _ => txt = []
  end.

(** The text a column value is exported as. *)
Definition value_text (v : OpusExport.sql_value) : cstring :=
  match v with
  | OpusExport.SqlInteger i => fmt_d i
  | OpusExport.SqlFloat printed => printed
  | OpusExport.SqlNull => []
  | _ => truncated (column_text v)
  end.

Definition sheet_denotes (shared : sst) (ws : option worksheet)
    (table : list cstring * list (list OpusExport.sql_value)) : Prop :=
  match ws with
  | None => fst table = []
  | Some w =>
      Forall2 (cell_denotes shared) (header_row w) (map truncated (fst table)) /\
      Forall2 (fun r vals => Forall2 (cell_denotes shared) (snd r) (map value_text vals))
              (data_rows w) (snd table)
  end.

(** How the table grows: entries are only appended, it stays free of
    duplicates, and no entry is longer than the limit. *)
Definition grows (s s' : sst) : Prop :=
  (exists ext, s' = s ++ ext) /\
  (NoDup s -> NoDup s') /\
  (Forall (fun t => Z.of_nat (length t) <= EXCEL_CELL_CHAR_LIMIT) s ->
   Forall (fun t => Z.of_nat (length t) <= EXCEL_CELL_CHAR_LIMIT) s').

(** *** A database for the examples *)

(** SQLite with the table [t (id, name)] of two rows, [(7, 'x')] and
    [(NULL, 'x')], as it answers the two statements the builder
    prepares for [t]: the SELECT statement names two string literals,
    so each of its two rows holds the two literals. *)
Definition table_t_info (sql : cstring) : option (list cstring * bool) :=
  if streq sql (lit "PRAGMA table_info('t');")
  then Some ([lit "id"; lit "name"], true) else None.

Definition table_t_select (sql : cstring) : option (list (list OpusExport.sql_value)) :=
  if streq sql (lit "SELECT 'id', 'name' FROM t")
  then Some [[OpusExport.SqlText (lit "id"); OpusExport.SqlText (lit "name")];
             [OpusExport.SqlText (lit "id"); OpusExport.SqlText (lit "name")]]
  else None.

End CopilotExport.

(** ** Reading back an exported worksheet *)

Module RoundTrip.
Import CStr ColLetters Sst Xml CopilotExport.

Definition cell_ref_of (c : cell) : cstring :=
  match c with
  | SharedCell ref _ _ => ref
  | NumberCell ref _ => ref
  | EmptyCell ref => ref
  end.

(** The cells of a row carry the references of consecutive columns,
    from column [c] on. *)
Fixpoint refs_from (row : cstring) (c : Z) (cells : list cell) : Prop :=
  match cells with
  | [] => True
  | x :: rest => cell_ref_of x = cellref c row /\ refs_from row (c + 1) rest
  end.

(** The rows an importer should find for the data rows of a table:
    consecutive row numbers, every value as its text. *)
Fixpoint imported_rows_from (rownum : Z) (rows : list (list OpusExport.sql_value))
    : list CopilotImport.sheet_row :=
  match rows with
  | [] => []
  | vals :: rest =>
      {| CopilotImport.rownum := rownum;
         CopilotImport.cols := map (fun v => Some (value_text v)) vals |}
      :: imported_rows_from (rownum + 1) rest
  end.

End RoundTrip.

(** ** Tables as the opus exporter reads them *)

Module OpusTables.
Import CStr OpusExport.

(** A table whose SELECT is prepared and stepped to its end. *)
Definition readable (database : cstring -> option table_scan)
    (t : cstring) (scan : table_scan) : Prop :=
  database t = Some scan /\ scan_done scan = true.

(** The number of values of the tables that exceed the cell-size limit. *)
Definition oversized_count (scans : list table_scan) : Z :=
  Z.of_nat (length (List.filter oversized (concat (flat_map scan_rows scans)))).

End OpusTables.

(** ** The table the opus importer creates from a worksheet *)

Module OpusTable.
Import CStr Escapes OpusImport.

Section Db.

(** The database, through the three calls the function makes:
    [sqlite3_exec] of a statement ([None] when it does not return
    [SQLITE_OK]), [sqlite3_prepare_v2] (does it return [SQLITE_OK]?),
    and one reset, bind and step of the prepared INSERT with the bound
    values ([None] when the step does not return [SQLITE_DONE]). *)
Variable db : Type.
Variable exec : db -> cstring -> option db.
Variable prepare : db -> cstring -> bool.
Variable step : db -> cstring -> list (option cstring) -> option db.

(** The name of column [col] in the CREATE TABLE statement: the header
    cell when it has a non-empty value, [colN] otherwise. *)
Definition column_sql (first_row : Row) (col : nat) : cstring :=
  match first_row !! col with
  | Some {| value := Some (c :: n) |} => escape_identifier (Some (c :: n))
  | _ => dquote :: lit "col" ++ fmt_d (Z.of_nat col + 1) ++ [dquote]
  end.

(** [if (col > 0) sqlite3_str_appendall(sql, ", ");] before each part. *)
Fixpoint comma_list (col : nat) (parts : list cstring) : cstring :=
  match parts with
  | [] => []
  | p :: rest =>
      (match col with O => [] | S _ => lit ", " end) ++ p ++ comma_list (S col) rest
  end.

Definition create_sql (table_name : cstring) (first_row : Row) (max_col : nat) : cstring :=
  lit "CREATE TABLE IF NOT EXISTS " ++ escape_identifier (Some table_name) ++ lit " (" ++
  comma_list 0 (map (column_sql first_row) (seq 0 max_col)) ++ lit ")".

Definition insert_sql (table_name : cstring) (max_col : nat) : cstring :=
  lit "INSERT INTO " ++ escape_identifier (Some table_name) ++ lit " VALUES (" ++
  comma_list 0 (replicate max_col (lit "?")) ++ lit ")".

(** The values bound for one row: the cell's text, NULL for a null
    cell, a cell without value, and every column past the row's end. *)
Definition bound_values (max_col : nat) (row : Row) : list (option cstring) :=
  map (fun col =>
         match row !! col with
         | Some cell => if is_null cell then None else value cell
         | None => None
         end) (seq 0 max_col).

(** The row loop, over the rows after the first.  A row without cells
    is skipped.  The result is whether the loop ran to its end and the
    database at that point. *)
Fixpoint insert_rows (d : db) (sql : cstring) (max_col : nat) (rs : list Row)
    : bool * db :=
  match rs with
  | [] => (true, d)
  | row :: rest =>
      let has_data := existsb (fun cell => negb (is_null cell)) row in
      if negb has_data && (length row =? 0)%nat then insert_rows d sql max_col rest
      else
        match step d sql (bound_values max_col row) with
        | Some d' => insert_rows d' sql max_col rest
        | None => (false, d)
        end
  end.

(** [create_table_from_worksheet(db, table_name, ws, pzErrMsg)]: did it
    return [SQLITE_OK], and the database after the call. *)
Definition create_table_from_worksheet (d : db) (table_name : cstring) (w : Worksheet)
    : bool * db :=
  if (length (rows w) =? 0)%nat || (max_col w =? 0) then (true, d)
  else
    let first_row := default [] (rows w !! 0%nat) in
    let n := Z.to_nat (max_col w) in
    match exec d (create_sql table_name first_row n) with
    | None => (false, d)
    | Some d1 =>
        if prepare d1 (insert_sql table_name n)
        then insert_rows d1 (insert_sql table_name n) n (tail (rows w))
        else (false, d1)
    end.

End Db.

End OpusTable.

(** ** The opus exporter's worksheet as handler calls *)

Module OpusDocument.
Import CStr Xml Escapes OpusExport.

Section Chunks.

(** How the parser cuts a text into calls of the character-data
    handler. *)
Variable split : cstring -> list cstring.

(** Character data, for a text the parser accepts. *)
Definition text_events (t : cstring) : list xml_event := map CharacterData (split t).

(** [<c r="REF"><v>V</v></c>] and
    [<c r="REF" t="inlineStr" (s="1")><is><t>T</t></is></c>].  The text
    of a number has no markup and no line end; the text of an inline
    string arrives with its line ends normalised and its entity
    references replaced. *)
Definition cell_events (c : cell) : list xml_event :=
  match c with
  | NumberCell ref v =>
      [StartElement (lit "c") [(lit "r", ref)]; StartElement (lit "v") []]
      ++ text_events v ++ [EndElement (lit "v"); EndElement (lit "c")]
  | InlineStrCell ref bold t =>
      [StartElement (lit "c")
         ((lit "r", ref) :: (lit "t", lit "inlineStr")
          :: if bold then [(lit "s", lit "1")] else []);
       StartElement (lit "is") []; StartElement (lit "t") []]
      ++ text_events (chardata t)
      ++ [EndElement (lit "t"); EndElement (lit "is"); EndElement (lit "c")]
  end.

Definition row_events (row_num : Z) (cells : list cell) : list xml_event :=
  StartElement (lit "row") [(lit "r", fmt_d row_num)]
  :: concat (map cell_events cells) ++ [EndElement (lit "row")].

Definition worksheet_events (w : worksheet) : list xml_event :=
  [StartElement (lit "worksheet")
     [(lit "xmlns", lit "http://schemas.openxmlformats.org/spreadsheetml/2006/main");
      (lit "xmlns:r",
       lit "http://schemas.openxmlformats.org/officeDocument/2006/relationships")];
   StartElement (lit "sheetData") []]
  ++ row_events 1 (header_row w)
  ++ concat (map (fun r => row_events (fst r) (snd r)) (data_rows w))
  ++ [EndElement (lit "sheetData")]
  ++ match autofilter w with
     | Some ref => [StartElement (lit "autoFilter") [(lit "ref", ref)];
                    EndElement (lit "autoFilter")]
     | None => []
     end
  ++ [EndElement (lit "worksheet")].

(** The part has the tags the generator writes and, between them, the
    texts of its cells: a number as printed, an inline string as
    [xml_escape] left it (its markup characters are entity references
    then).  The parser accepts the part when these texts are made of
    characters it accepts. *)
Definition cell_accepted (c : cell) : bool :=
  match c with
  | NumberCell _ v => plain v
  | InlineStrCell _ _ t => xml_chars t
  end.

Definition well_formed (w : worksheet) : bool :=
  forallb cell_accepted (header_row w)
  && forallb (fun r => forallb cell_accepted (snd r)) (data_rows w).

(** [XML_Parse] on the worksheet part: the handler calls for the whole
    part, [None] when the parser stops with [XML_STATUS_ERROR]. *)
Definition XML_Parse (w : worksheet) : option (list xml_event) :=
  if well_formed w then Some (worksheet_events w) else None.

End Chunks.

(** *** What should come back *)

(** The text of a value after the export and the import: integers and
    floats as printed, a text cut at the limit, without its control
    characters and with its line ends as line feeds, a blob in
    hexadecimal; [None] for NULL. *)
Definition read_back (v : sql_value) : option cstring :=
  match v with
  | SqlInteger i => Some (fmt_d i)
  | SqlFloat printed => match printed with [] => None | _ => Some printed end
  | SqlText text =>
      Some (line_ends
              (List.filter (fun c => negb (is_control c))
                 (if EXCEL_MAX_CELL_SIZE <? Z.of_nat (length text)
                  then take (Z.to_nat EXCEL_MAX_CELL_SIZE) text else text)))
  | SqlBlob blob =>
      Some (hex_of (if EXCEL_MAX_CELL_SIZE <? Z.of_nat (length blob) * 2
                    then take (Z.to_nat (EXCEL_MAX_CELL_SIZE / 2)) blob else blob))
  | SqlNull => None
  end.


End OpusDocument.

(** ** What the opus exporter writes, as a function of the table *)

Module OpusSheet.
Import CStr ColLetters Xml Escapes OpusExport.

(** The text a reader finds in a written cell: the number as printed
    (nothing when no digit was printed), the character data of the
    inline string. *)
Definition cell_back (c : cell) : option cstring :=
  match c with
  | NumberCell _ v => match v with [] => None | _ => Some v end
  | InlineStrCell _ _ t => Some (chardata t)
  end.

Definition cell_ref_of (c : cell) : cstring :=
  match c with
  | NumberCell ref _ => ref
  | InlineStrCell ref _ _ => ref
  end.

(** The character data of a written cell. *)
Definition payload (c : cell) : cstring :=
  match c with
  | NumberCell _ v => v
  | InlineStrCell _ _ t => chardata t
  end.



Section Back.

(** What comes back for a value and for a column name. *)
Variable back : sql_value -> option cstring.
Variable head : cstring -> cstring.

(** The cells a data row declares to the importer, at 0-based row [r]
    from 0-based column [c] on: one for every value but NULL. *)
Fixpoint value_decls (r c : nat) (vals : list sql_value)
    : list (nat * nat * option cstring) :=
  match vals with
  | [] => []
  | v :: rest =>
      match v with
      | SqlNull => []
      | _ => [(r, c, back v)]
      end ++ value_decls r (S c) rest
  end.

(** The same declarations within their row: column and value. *)
Fixpoint value_cols (c : nat) (vals : list sql_value) : list (nat * option cstring) :=
  match vals with
  | [] => []
  | v :: rest =>
      match v with
      | SqlNull => []
      | _ => [(c, back v)]
      end ++ value_cols (S c) rest
  end.

Fixpoint header_decls (c : nat) (names : list cstring)
    : list (nat * nat * option cstring) :=
  match names with
  | [] => []
  | n :: rest => (0%nat, c, Some (head n)) :: header_decls (S c) rest
  end.

Fixpoint data_decls (r : nat) (rs : list (list sql_value))
    : list (nat * nat * option cstring) :=
  match rs with
  | [] => []
  | vals :: rest => value_decls r 0 vals ++ data_decls (S r) rest
  end.

End Back.

(** Is a cell written for the value? *)
Definition written (v : sql_value) : bool :=
  match v with
  | SqlNull => false
  | _ => true
  end.

End OpusSheet.

(** ** A database that records what is inserted *)

Module TableFixtures.
Import CStr OpusExport.

(** The inserted rows, oldest first; every statement is accepted. *)
Abbreviation log := (list (list (option cstring))).

Definition log_exec (d : log) (sql : cstring) : option log := Some d.
Definition log_prepare (d : log) (sql : cstring) : bool := true.
Definition log_ins (d : log) (vals : list (option cstring)) : log := d ++ [vals].
Definition log_step (d : log) (sql : cstring) (vals : list (option cstring)) : option log :=
  Some (log_ins d vals).



(** A text in double quotes. *)
Definition quoted (s : cstring) : cstring := chr 34 :: s ++ [chr 34].

(** The parser hands over one character at a time. *)
Definition letters (t : cstring) : list cstring := map (fun c => [c]) t.

(** The parser hands over every text in one piece. *)
Definition whole (t : cstring) : list cstring := [t].

(** Rows with the NULLs after the values. *)
Definition rows_nulls_last : list (list sql_value) :=
  [[SqlInteger 1; SqlText (lit "it's")]; [SqlFloat (lit "2.5"); SqlNull]].

(** A NULL before a value, and a row of NULLs. *)
Definition rows_null_first : list (list sql_value) :=
  [[SqlNull; SqlText (lit "x")]; [SqlNull; SqlNull]].

End TableFixtures.

(** ** The sheet handlers of the gemini importer *)

Module GeminiSheet.
Import CStr Xml GeminiLetters GeminiStrings.

(** gemini xlsximport.c, [SheetCtx].  [ss] is the table of shared
    strings the context points to; [executed] are the statements given
    to [sqlite3_exec], oldest first (their results are not looked at).
    The unused [col_ref] is left out. *)
Record SheetCtx := {
  table_name : cstring;
  ss : list (option cstring);
  current_row : Z;
  current_col : Z;
  in_row : bool;
  in_c : bool;
  in_v : bool;
  in_t : bool;
  cell_type : cstring;
  cell_val : option cstring;
  sql_buf : option cstring;
  header_row_processed : bool;
  header_cols : option cstring;
  num_cols : Z;
  executed : list cstring;
}.

(** [SheetCtx ctx = {0}; ctx.table_name = ...; ctx.ss = &ss;] *)
Definition ctx_init (name : cstring) (shared : list (option cstring)) : SheetCtx :=
  {| table_name := name; ss := shared; current_row := 0; current_col := 0;
     in_row := false; in_c := false; in_v := false; in_t := false;
     cell_type := []; cell_val := None; sql_buf := None;
     header_row_processed := false; header_cols := None; num_cols := 0;
     executed := [] |}.

Definition set_row (ctx : SheetCtx) (flag : bool) (row col : Z) (sb : option cstring)
    : SheetCtx :=
  {| table_name := table_name ctx; ss := ss ctx; current_row := row; current_col := col;
     in_row := flag; in_c := in_c ctx; in_v := in_v ctx; in_t := in_t ctx;
     cell_type := cell_type ctx; cell_val := cell_val ctx; sql_buf := sb;
     header_row_processed := header_row_processed ctx; header_cols := header_cols ctx;
     num_cols := num_cols ctx; executed := executed ctx |}.

Definition set_col (ctx : SheetCtx) (col : Z) (sb : option cstring) : SheetCtx :=
  {| table_name := table_name ctx; ss := ss ctx; current_row := current_row ctx;
     current_col := col;
     in_row := in_row ctx; in_c := in_c ctx; in_v := in_v ctx; in_t := in_t ctx;
     cell_type := cell_type ctx; cell_val := cell_val ctx; sql_buf := sb;
     header_row_processed := header_row_processed ctx; header_cols := header_cols ctx;
     num_cols := num_cols ctx; executed := executed ctx |}.

Definition set_cell (ctx : SheetCtx) (flag : bool) (type : cstring) (val : option cstring)
    : SheetCtx :=
  {| table_name := table_name ctx; ss := ss ctx; current_row := current_row ctx;
     current_col := current_col ctx;
     in_row := in_row ctx; in_c := flag; in_v := in_v ctx; in_t := in_t ctx;
     cell_type := type; cell_val := val; sql_buf := sql_buf ctx;
     header_row_processed := header_row_processed ctx; header_cols := header_cols ctx;
     num_cols := num_cols ctx; executed := executed ctx |}.

Definition set_in (ctx : SheetCtx) (v t : bool) : SheetCtx :=
  {| table_name := table_name ctx; ss := ss ctx; current_row := current_row ctx;
     current_col := current_col ctx;
     in_row := in_row ctx; in_c := in_c ctx; in_v := v; in_t := t;
     cell_type := cell_type ctx; cell_val := cell_val ctx; sql_buf := sql_buf ctx;
     header_row_processed := header_row_processed ctx; header_cols := header_cols ctx;
     num_cols := num_cols ctx; executed := executed ctx |}.

Definition set_header (ctx : SheetCtx) (cols : option cstring) (n : Z) : SheetCtx :=
  {| table_name := table_name ctx; ss := ss ctx; current_row := current_row ctx;
     current_col := current_col ctx;
     in_row := in_row ctx; in_c := in_c ctx; in_v := in_v ctx; in_t := in_t ctx;
     cell_type := cell_type ctx; cell_val := cell_val ctx; sql_buf := sql_buf ctx;
     header_row_processed := header_row_processed ctx; header_cols := cols;
     num_cols := n; executed := executed ctx |}.

Definition set_sql (ctx : SheetCtx) (sb : option cstring) : SheetCtx :=
  set_col ctx (current_col ctx) sb.

(** The end of a row: [in_row = 0], the statement executed, the header
    flag and the statement buffer after it. *)
Definition row_done (ctx : SheetCtx) (sql : cstring) (sb : option cstring) : SheetCtx :=
  {| table_name := table_name ctx; ss := ss ctx; current_row := current_row ctx;
     current_col := current_col ctx;
     in_row := false; in_c := in_c ctx; in_v := in_v ctx; in_t := in_t ctx;
     cell_type := cell_type ctx; cell_val := cell_val ctx; sql_buf := sb;
     header_row_processed := true; header_cols := header_cols ctx;
     num_cols := num_cols ctx; executed := executed ctx ++ [sql] |}.

(** [sqlite3_mprintf("%Q", s)] for a string: in single quotes, every
    single quote doubled. *)
Definition sql_quote (s : cstring) : cstring :=
  "'"%char :: flat_map (fun c => if ch_eqb c "'" then [c; c] else [c]) s ++ ["'"%char].

(** The [%w] of [sqlite3_mprintf]: every double quote doubled. *)
Definition w_escape (s : cstring) : cstring :=
  flat_map (fun c => if code c =? 34 then [c; c] else [c]) s.

(** The gap loop of [sheet_start]: [gaps] times, ["NULL, "] while the
    column is one of the table. *)
Definition fill_gaps (col ncols c : Z) (sb : option cstring) : option cstring :=
  let gaps := if col =? 0 then c - 1 else c - col - 1 in
  fold_left (fun sb k => if col + Z.of_nat k + 1 <=? ncols
                         then strbuf_append sb (lit "NULL, ") else sb)
            (seq 0 (Z.to_nat gaps)) sb.

(** One turn of the attribute loop of a [c] element. *)
Definition cell_att (ctx : SheetCtx) (kv : cstring * cstring) : SheetCtx :=
  let ctx1 :=
    if streq (fst kv) (lit "r") then
      let c := fst (extract_col_row (snd kv)) in
      set_col ctx c
        (if header_row_processed ctx
         then fill_gaps (current_col ctx) (num_cols ctx) c (sql_buf ctx)
         else sql_buf ctx)
    else ctx in
  if streq (fst kv) (lit "t")
  then set_cell ctx1 (in_c ctx1) (strncpy 15 (snd kv)) (cell_val ctx1)
  else ctx1.

Definition sheet_start (ctx : SheetCtx) (name : cstring) (atts : list (cstring * cstring))
    : SheetCtx :=
  if streq name (lit "row") then
    set_row ctx true
      (last_att (lit "r") atoi (current_row ctx) atts) 0
      (if header_row_processed ctx
       then Some (lit "INSERT INTO " ++ chr 34 :: table_name ctx ++ chr 34 :: lit " VALUES (")
       else sql_buf ctx)
  else if streq name (lit "c") then
    let ctx1 := fold_left cell_att atts (set_cell ctx true [] (cell_val ctx)) in
    set_cell ctx1 (in_c ctx1) (cell_type ctx1) None
  else if streq name (lit "v") || streq name (lit "t") then
    set_in ctx
      (if streq name (lit "v") then true else in_v ctx)
      (if streq name (lit "t") && streq (cell_type ctx) (lit "inlineStr")
       then true else in_t ctx)
  else ctx.

Definition sheet_char (ctx : SheetCtx) (s : cstring) : SheetCtx :=
  if in_v ctx || in_t ctx
  then set_cell ctx (in_c ctx) (cell_type ctx) (strbuf_append (cell_val ctx) s)
  else ctx.

(** The value of the cell that ends: the shared string for type [s],
    the collected text otherwise, the empty string when there is
    none. *)
Definition final_val (ctx : SheetCtx) : cstring :=
  match cell_val ctx with
  | Some val => if streq (cell_type ctx) (lit "s") then shared_value (ss ctx) val else val
  | None => []
  end.

(** [sql_buf.len > 0 && sql_buf.data[sql_buf.len-1] != '('] *)
Definition wants_comma (sb : option cstring) : bool :=
  match last (default [] sb) with
  | Some c => negb (ch_eqb c "(")
  | None => false
  end.

Definition sheet_end (ctx : SheetCtx) (name : cstring) : SheetCtx :=
  if streq name (lit "v") then set_in ctx false (in_t ctx)
  else if streq name (lit "t") then set_in ctx (in_v ctx) false
  else if streq name (lit "c") then
    let val := final_val ctx in
    let ctx1 :=
      if negb (header_row_processed ctx) then
        let cols :=
          match header_cols ctx with
          | Some (c :: r) => strbuf_append (header_cols ctx) (lit ", ")
          | _ => header_cols ctx
          end in
        set_header ctx
          (strbuf_append (strbuf_append (strbuf_append cols [chr 34]) val) [chr 34])
          (num_cols ctx + 1)
      else
        let sb := if wants_comma (sql_buf ctx)
                  then strbuf_append (sql_buf ctx) (lit ", ") else sql_buf ctx in
        set_sql ctx (strbuf_append sb (sql_quote val)) in
    set_cell ctx1 false (cell_type ctx1) None
  else if streq name (lit "row") then
    if negb (header_row_processed ctx) then
      row_done ctx
        (lit "CREATE TABLE " ++ chr 34 :: w_escape (table_name ctx) ++ chr 34 :: lit " ("
         ++ default [] (header_cols ctx) ++ lit ");")
        (sql_buf ctx)
    else
      let sb := fold_left (fun sb _ => strbuf_append sb (lit ", NULL"))
                          (seq 0 (Z.to_nat (num_cols ctx - current_col ctx)))
                          (sql_buf ctx) in
      row_done ctx (default [] (strbuf_append sb (lit ");"))) None
  else ctx.

Definition sheet_step (ctx : SheetCtx) (e : xml_event) : SheetCtx :=
  match e with
  | StartElement name atts => sheet_start ctx name atts
  | EndElement name => sheet_end ctx name
  | CharacterData s => sheet_char ctx s
  end.

(** The parse of one worksheet in [xlsx_import_func]: the statements
    executed. *)
Definition run_sheet (name : cstring) (shared : list (option cstring))
    (doc : list xml_event) : list cstring :=
  executed (fold_left sheet_step doc (ctx_init name shared)).

End GeminiSheet.

(** ** The worksheets of the gemini exporter *)

Module GeminiExport.
Import CStr Xml Escapes GeminiLetters.
Import OpusExport (sql_value, SqlInteger, SqlFloat, SqlText, SqlBlob, SqlNull).

(** The cells [xlsx_export] writes:
    [<c r="REF" t="inlineStr" s="1"><is><t>T</t></is></c>] in the header,
    [<c r="REF" t="n"><v>V</v></c>] for an integer or a float and
    [<c r="REF" t="inlineStr"><is><t>T</t></is></c>] for a text or a
    blob, with [T] the text as it stands in the file.  (The buffers of
    64 bytes hold the opening tag for every column and row number of an
    [int].) *)
Inductive cell :=
  | HeaderCell (ref : cstring) (t : cstring)
  | NumberCell (ref : cstring) (v : cstring)
  | TextCell (ref : cstring) (t : cstring).

(** The header loop over the rows of [PRAGMA table_info], from column
    [col_count] on. *)
Fixpoint header_cells (col_count : Z) (cnames : list cstring) : list cell :=
  match cnames with
  | [] => []
  | cname :: rest =>
      HeaderCell (int_to_col col_count ++ lit "1") (strbuf_append_xml_escaped [] cname)
      :: header_cells (col_count + 1) rest
  end.

(** The column loop of one row, from column [c] on; a NULL writes
    nothing, and a text longer than [MAX_CELL_LEN] is written in full
    (the warning goes to the log). *)
Fixpoint data_cells (r_idx c : Z) (vals : list sql_value) : list cell :=
  match vals with
  | [] => []
  | v :: rest =>
      match v with
      | SqlNull => []
      | SqlInteger i => [NumberCell (int_to_col c ++ fmt_d r_idx) (fmt_d i)]
      | SqlFloat printed => [NumberCell (int_to_col c ++ fmt_d r_idx) printed]
      | _ => [TextCell (int_to_col c ++ fmt_d r_idx)
                (strbuf_append_xml_escaped [] (CopilotExport.column_text v))]
      end ++ data_cells r_idx (c + 1) rest
  end.

(** The row loop; the columns read are those of the header. *)
Fixpoint data_rows (col_count : nat) (r_idx : Z) (rows : list (list sql_value))
    : list (Z * list cell) :=
  match rows with
  | [] => []
  | vals :: rest =>
      (r_idx, data_cells r_idx 0 (take col_count vals))
      :: data_rows col_count (r_idx + 1) rest
  end.

(** The worksheet part: the header row and the data rows, and the [ref]
    of the autoFilter element when there is a column. *)
Record worksheet := {
  header_row : list cell;
  rows_written : list (Z * list cell);
  autofilter : option cstring;
}.

(** Step 6 of [xlsx_export] for one table, when [PRAGMA table_info] is
    prepared: [cnames] are the names it gives, [rows] the rows
    [SELECT *] steps through. *)
Definition table_sheet (cnames : list cstring) (rows : list (list sql_value)) : worksheet :=
  let col_count := Z.of_nat (length cnames) in
  let r_idx := 2 + Z.of_nat (length rows) in
  {| header_row := header_cells 0 cnames;
     rows_written := data_rows (length cnames) 2 rows;
     autofilter :=
       if 0 <? col_count
       then Some (int_to_col 0 ++ lit "1:" ++ int_to_col (col_count - 1) ++ fmt_d (r_idx - 1))
       else None |}.

End GeminiExport.

(** ** The gemini exporter's worksheet as handler calls *)

Module GeminiDocument.
Import CStr Xml Escapes GeminiExport.

Section Chunks.

(** How the parser cuts a text into calls of the character-data
    handler. *)
Variable split : cstring -> list cstring.

Definition text_events (t : cstring) : list xml_event := map CharacterData (split t).

Definition spaces (n : nat) : cstring := replicate n " "%char.

(** The white space between two tags: a line feed and the indentation
    of the next tag. *)
Definition indent (n : nat) : list xml_event := text_events (chr 10 :: spaces n).

(** The text of a number has no markup and no line end; the text of an
    inline string arrives with its line ends normalised and its entity
    references replaced. *)
Definition cell_events (c : cell) : list xml_event :=
  match c with
  | HeaderCell ref t =>
      [StartElement (lit "c") [(lit "r", ref); (lit "t", lit "inlineStr"); (lit "s", lit "1")];
       StartElement (lit "is") []; StartElement (lit "t") []]
      ++ text_events (chardata t)
      ++ [EndElement (lit "t"); EndElement (lit "is"); EndElement (lit "c")]
  | NumberCell ref v =>
      [StartElement (lit "c") [(lit "r", ref); (lit "t", lit "n")];
       StartElement (lit "v") []]
      ++ text_events v
      ++ [EndElement (lit "v"); EndElement (lit "c")]
  | TextCell ref t =>
      [StartElement (lit "c") [(lit "r", ref); (lit "t", lit "inlineStr")];
       StartElement (lit "is") []; StartElement (lit "t") []]
      ++ text_events (chardata t)
      ++ [EndElement (lit "t"); EndElement (lit "is"); EndElement (lit "c")]
  end.

Definition row_events (r_idx : Z) (cells : list cell) : list xml_event :=
  indent 4
  ++ StartElement (lit "row") [(lit "r", fmt_d r_idx)]
  :: concat (map (fun c => indent 6 ++ cell_events c) cells)
  ++ indent 4 ++ [EndElement (lit "row")].

(** The handler calls for the worksheet part of a table, when the
    parser accepts it. *)
Definition worksheet_events (w : worksheet) : list xml_event :=
  StartElement (lit "worksheet")
    [(lit "xmlns", lit "http://schemas.openxmlformats.org/spreadsheetml/2006/main")]
  :: indent 2 ++ [StartElement (lit "sheetData") []]
  ++ row_events 1 (header_row w)
  ++ concat (map (fun r => row_events (fst r) (snd r)) (rows_written w))
  ++ indent 2 ++ [EndElement (lit "sheetData")]
  ++ match autofilter w with
     | Some ref =>
         indent 2 ++ [StartElement (lit "autoFilter") [(lit "ref", ref)];
                      EndElement (lit "autoFilter")]
     | None => []
     end
  ++ text_events [chr 10] ++ [EndElement (lit "worksheet")].

(** The part has the tags the exporter writes and, between them, the
    texts of its cells: a number as SQLite prints it, a name or a text
    as [strbuf_append_xml_escaped] left it (its markup characters are
    entity references then, every other byte is as it was in the
    table).  The parser accepts the part when these texts are made of
    characters it accepts. *)
Definition cell_accepted (c : cell) : bool :=
  match c with
  | HeaderCell _ t | TextCell _ t => xml_chars t
  | NumberCell _ v => plain v
  end.

Definition well_formed (w : worksheet) : bool :=
  forallb cell_accepted (header_row w)
  && forallb (fun r => forallb cell_accepted (snd r)) (rows_written w).

(** [XML_Parse] on the worksheet part: the handler calls for the whole
    part, [None] when the parser stops with an error (the calls it made
    before are not followed then). *)
Definition XML_Parse (w : worksheet) : option (list xml_event) :=
  if well_formed w then Some (worksheet_events w) else None.

End Chunks.

(** The reference and the character data of a written cell. *)
Definition ref_of (c : cell) : cstring :=
  match c with
  | HeaderCell ref _ | NumberCell ref _ | TextCell ref _ => ref
  end.

Definition payload (c : cell) : cstring :=
  match c with
  | HeaderCell _ t | TextCell _ t => chardata t
  | NumberCell _ v => v
  end.

(** The same cell as the opus exporter would write it: the two
    exporters differ in the [t="n"] of a number. *)
Definition as_opus (c : cell) : OpusExport.cell :=
  match c with
  | HeaderCell ref t => OpusExport.InlineStrCell ref true t
  | NumberCell ref v => OpusExport.NumberCell ref v
  | TextCell ref t => OpusExport.InlineStrCell ref false t
  end.

(** *** The statements a table should come back as *)

Import OpusExport (sql_value, SqlInteger, SqlFloat, SqlText, SqlBlob, SqlNull).

(** The text a value is exported as. *)
Definition value_text (v : sql_value) : cstring :=
  match v with
  | SqlInteger i => fmt_d i
  | SqlFloat printed => printed
  | SqlNull => []
  | _ => line_ends (CopilotExport.column_text v)
  end.

(** The value a reader of the worksheet should find: the text of an
    integer or a float as printed, a text with its line ends as line
    feeds; nothing for a NULL. *)
Definition read_back (v : sql_value) : option cstring :=
  match v with
  | SqlInteger i => Some (fmt_d i)
  | SqlFloat printed => match printed with [] => None | _ => Some printed end
  | SqlNull => None
  | _ => Some (line_ends (CopilotExport.column_text v))
  end.

Definition is_null (v : sql_value) : bool :=
  match v with
  | SqlNull => true
  | _ => false
  end.

(** The items of a list, with [", "] between them. *)
Fixpoint joined (items : list cstring) : cstring :=
  match items with
  | [] => []
  | [x] => x
  | x :: rest => x ++ lit ", " ++ joined rest
  end.

(** The value list the importer builds for the values of a row, read
    off its handlers: [nulls] NULLs are pending, and [started] tells
    whether a value was written before.  Pending NULLs are written as
    ["NULL, "] before the next value, which gets a [", "] of its own
    when anything was written before it; at the end they are written
    as [", NULL"]. *)
Fixpoint values_sql (started : bool) (nulls : nat) (vals : list sql_value) : cstring :=
  match vals with
  | [] => concat (replicate nulls (lit ", NULL"))
  | v :: rest =>
      if is_null v then values_sql started (S nulls) rest
      else
        concat (replicate nulls (lit "NULL, "))
        ++ (if started || (0 <? nulls)%nat then lit ", " else [])
        ++ GeminiSheet.sql_quote (value_text v)
        ++ values_sql true 0 rest
  end.

End GeminiDocument.

(** ** The shared-string part of the copilot exporter *)

Module CopilotStrings.
Import CStr Xml Escapes Sst Documents.

(** copilot/xlsxexport.c, [build_sharedstrings_xml]: the text of every
    entry as it stands in the file, each in [<si><t>TEXT</t></si>]. *)
Definition build_sharedstrings_xml (s : sst) : list cstring := map copilot_xml_escape s.

Section Chunks.

(** How the parser cuts a text into calls of the character-data
    handler. *)
Variable split : cstring -> list cstring.

Definition spacing (t : cstring) : list xml_event := map CharacterData (split t).

(** The handler calls for the part, when the parser accepts it: the
    [sst] element with its counts, and one [si] with one [t] per entry,
    on a line of its own. *)
Definition sharedstrings_events (texts : list cstring) : list xml_event :=
  StartElement (lit "sst")
    [(lit "xmlns", lit "http://schemas.openxmlformats.org/spreadsheetml/2006/main");
     (lit "count", fmt_d (Z.of_nat (length texts)));
     (lit "uniqueCount", fmt_d (Z.of_nat (length texts)))]
  :: concat (map (fun t => spacing (chr 10 :: lit "  ") ++ si_events [split (chardata t)])
                 texts)
  ++ spacing [chr 10] ++ [EndElement (lit "sst")].

(** [XML_Parse] on the part: the parser accepts it when every entry, as
    [xml_escape] left it, is made of characters it accepts; [None] when
    it stops with an error (the calls it made before are not followed
    then). *)
Definition XML_Parse (texts : list cstring) : option (list xml_event) :=
  if forallb xml_chars texts then Some (sharedstrings_events texts) else None.

End Chunks.

(** The text of an entry after the export and the import: its line
    ends are line feeds, every control character is a space. *)
Definition read_back (t : cstring) : cstring :=
  map (fun c => if is_control c then " "%char else c) (line_ends t).

End CopilotStrings.

(* ================================================================== *)
(** * Properties *)
(* ================================================================== *)

Section ColumnLetters.
Import CStr ColLetters.

Lemma code_chr z : 0 <= z < 256 -> code (chr z) = z.
Proof.
  intros Hz. unfold code, chr.
  rewrite nat_ascii_embedding by lia. lia.
Qed.

Lemma letter_is_upper r : 0 <= r < 26 -> isupper (chr (65 + r)) = true.
Proof.
  intros Hr. unfold isupper. rewrite code_chr by lia.
  apply andb_true_iff. split; apply Z.leb_le; lia.
Qed.

Lemma toupper_letter r : 0 <= r < 26 -> toupper (chr (65 + r)) = 65 + r.
Proof.
  intros Hr. unfold toupper, islower. rewrite code_chr by lia.
  replace (97 <=? 65 + r) with false; [reflexivity|].
  symmetry. apply Z.leb_gt. lia.
Qed.

Lemma capacity_nonneg room : 0 <= capacity room.
Proof. induction room; simpl; lia. Qed.

Lemma letters_buf_upper room : forall v, Forall (fun c => isupper c = true) (letters_buf room v).
Proof.
  induction room as [|room IH]; intros v; simpl; [constructor|].
  destruct (0 <? v) eqn:Hv; [|constructor].
  apply Z.ltb_lt in Hv. constructor; [|apply IH].
  apply letter_is_upper.
  rewrite Z.rem_mod_nonneg by lia. apply Z.mod_pos_bound. lia.
Qed.

Lemma col_to_num_from_app l1 l2 num :
  Forall (fun c => isupper c = true) l1 ->
  col_to_num_from num (l1 ++ l2) = col_to_num_from (col_to_num_from num l1) l2.
Proof.
  intros H. revert num. induction H as [|c l1 Hc _ IH]; intros num; simpl; [reflexivity|].
  unfold isalpha. rewrite Hc. simpl. apply IH.
Qed.

Lemma letters_buf_decode room : forall v,
  0 <= v <= capacity room ->
  col_to_num_from 0 (rev (letters_buf room v)) = v.
Proof.
  induction room as [|room IH]; intros v Hv; simpl in *; [lia|].
  destruct (0 <? v) eqn:Hpos.
  - apply Z.ltb_lt in Hpos.
    assert (Hq : Z.quot (v - 1) 26 = (v - 1) / 26) by (apply Z.quot_div_nonneg; lia).
    assert (Hr : Z.rem (v - 1) 26 = (v - 1) mod 26) by (apply Z.rem_mod_nonneg; lia).
    assert (Hb : 0 <= (v - 1) mod 26 < 26) by (apply Z.mod_pos_bound; lia).
    assert (Hd : v - 1 = 26 * ((v - 1) / 26) + (v - 1) mod 26) by (apply Z.div_mod; lia).
    rewrite Hq, Hr. simpl.
    rewrite col_to_num_from_app.
    2:{ apply Forall_rev. apply letters_buf_upper. }
    rewrite IH.
    2:{ split; [apply Z.div_pos; lia|].
        assert ((v - 1) / 26 < capacity room + 1); [|lia].
        apply Z.div_lt_upper_bound; lia. }
    simpl. unfold isalpha. rewrite letter_is_upper by lia. simpl.
    rewrite toupper_letter by lia. lia.
  - apply Z.ltb_ge in Hpos. simpl. lia.
Qed.

Lemma letters_buf_length room : forall k v,
  v <= capacity k -> (length (letters_buf room v) <= k)%nat.
Proof.
  induction room as [|room IH]; intros k v Hv; simpl; [lia|].
  destruct (0 <? v) eqn:Hpos; [|simpl; lia].
  apply Z.ltb_lt in Hpos.
  destruct k as [|k]; simpl in Hv; [lia|].
  simpl. apply le_n_S. apply IH.
  rewrite Z.quot_div_nonneg by lia.
  assert ((v - 1) / 26 < capacity k + 1); [|lia].
  apply Z.div_lt_upper_bound; lia.
Qed.

Lemma capacity_7 : capacity 7 = 8353082582.
Proof. reflexivity. Qed.

Lemma capacity_mono a b : (a <= b)%nat -> capacity a <= capacity b.
Proof.
  induction 1 as [|b _ IH]; [lia|].
  simpl. pose proof (capacity_nonneg b). lia.
Qed.

(** Decoding what the exporter encodes gives the column back, for every
    column an [int] can hold and every output buffer of at least 8 bytes. *)
Lemma col_to_letters_decode (n : Z) (outsz : nat) :
  1 <= n <= 2147483647 -> (8 <= outsz)%nat ->
  col_to_num (col_to_letters (n - 1) outsz) = n.
Proof.
  intros Hn Hsz. unfold col_to_letters, col_to_num.
  replace (n - 1 + 1) with n by lia.
  assert (H7 : n <= capacity 7) by (rewrite capacity_7; lia).
  rewrite take_ge.
  - apply letters_buf_decode.
    pose proof (capacity_mono 7 15 ltac:(lia)). lia.
  - rewrite length_rev.
    pose proof (letters_buf_length 15 7 n H7) as H.
    lia.
Qed.

(** C2. Column-letter arithmetic is a bijective base-26 encoding without
    a zero digit: for every n in [1, 16384], [col_to_num] decodes the
    letters [col_to_letters] produces for column n (0-based argument
    n - 1, the 8-byte buffer of its callers) back to n; the fixtures
    Z=26, AA=27, AZ=52, BA=53, ZZ=702, AAA=703 hold in both directions;
    and each further letter contributes [value*26 + (letter-'A'+1)]. *)
Theorem column_letters_roundtrip :
  (forall n, 1 <= n <= 16384 -> col_to_num (col_to_letters (n - 1) 8) = n) /\
  (col_to_num (lit "Z") = 26 /\ col_to_num (lit "AA") = 27 /\
   col_to_num (lit "AZ") = 52 /\ col_to_num (lit "BA") = 53 /\
   col_to_num (lit "ZZ") = 702 /\ col_to_num (lit "AAA") = 703) /\
  (col_to_letters 25 8 = lit "Z" /\ col_to_letters 26 8 = lit "AA" /\
   col_to_letters 51 8 = lit "AZ" /\ col_to_letters 52 8 = lit "BA" /\
   col_to_letters 701 8 = lit "ZZ" /\ col_to_letters 702 8 = lit "AAA") /\
  (forall num c rest, isupper c = true ->
     col_to_num_from num (c :: rest) =
     col_to_num_from (num * 26 + (code c - 65 + 1)) rest).
Proof.
  split; [|split; [|split]].
  - intros n Hn. apply col_to_letters_decode; lia.
  - repeat split; reflexivity.
  - repeat split; reflexivity.
  - intros num c rest Hc. simpl. unfold isalpha. rewrite Hc. simpl.
    unfold toupper, islower.
    unfold isupper in Hc. apply andb_true_iff in Hc as [_ Hc]. apply Z.leb_le in Hc.
    replace (97 <=? code c) with false; [reflexivity|].
    symmetry. apply Z.leb_gt. lia.
Qed.

Lemma column_letters_roundtrip_witness :
  1 <= 16384 <= 16384 /\ col_to_num (col_to_letters (16384 - 1) 8) = 16384.
Proof.
  split; [lia|]. apply (proj1 column_letters_roundtrip 16384). lia.
Defined.

End ColumnLetters.

(** ** The shared-string table *)

Section SharedStringTable.
Import CStr Sst.

Lemma streq_true (a b : cstring) : streq a b = true <-> a = b.
Proof. unfold streq. apply bool_decide_eq_true. Qed.

Lemma streq_false (a b : cstring) : streq a b = false <-> a <> b.
Proof. unfold streq. apply bool_decide_eq_false. Qed.

Lemma streq_refl (a : cstring) : streq a a = true.
Proof. apply streq_true. reflexivity. Qed.

(** A hit of the search loop is the first position that holds the text. *)
Lemma sst_find_Some items : forall txt from k,
  sst_find items txt from = Some k ->
  (from <= k)%nat /\ items !! (k - from)%nat = Some txt /\
  forall j, (j < k - from)%nat -> items !! j <> Some txt.
Proof.
  induction items as [|it rest IH]; intros txt from k H; simpl in H; [discriminate|].
  destruct (streq it txt) eqn:E.
  - injection H as <-. apply streq_true in E. subst it.
    replace (from - from)%nat with 0%nat by lia.
    split; [lia|]. split; [reflexivity|]. intros j Hj. lia.
  - apply streq_false in E.
    apply IH in H as (Hle & Hk & Hmin).
    split; [lia|].
    replace (k - from)%nat with (S (k - S from)) by lia.
    split; [exact Hk|].
    intros [|j] Hj; simpl.
    + intros [= ->]. contradiction.
    + apply Hmin. lia.
Qed.

Lemma sst_find_None items : forall txt from,
  sst_find items txt from = None -> forall j, items !! j <> Some txt.
Proof.
  induction items as [|it rest IH]; intros txt from H j; simpl in H.
  - rewrite lookup_nil. discriminate.
  - destruct (streq it txt) eqn:E; [discriminate|].
    apply streq_false in E.
    destruct j as [|j]; simpl.
    + intros [= ->]. contradiction.
    + eapply IH. exact H.
Qed.

(** What every call of [sst_index] guarantees: the returned index holds
    the text, and the table only grows at its end. *)
Lemma sst_index_spec (s : sst) (t : cstring) :
  let r := sst_index s (Some t) in
  fst r !! snd r = Some t /\ exists ext, fst r = s ++ ext.
Proof.
  unfold sst_index. simpl.
  destruct (sst_find s t 0) as [k|] eqn:E; simpl.
  - apply sst_find_Some in E as (_ & Hk & _).
    replace (k - 0)%nat with k in Hk by lia.
    split; [exact Hk|]. exists []. rewrite app_nil_r. reflexivity.
  - split; [|eauto]. apply list_lookup_middle. reflexivity.
Qed.

Lemma sst_index_present (s : sst) (t : cstring) (i : nat) :
  s !! i = Some t ->
  exists j, sst_index s (Some t) = (s, j) /\ (j <= i)%nat /\ s !! j = Some t.
Proof.
  intros Hi. unfold sst_index. simpl.
  destruct (sst_find s t 0) as [k|] eqn:E.
  - apply sst_find_Some in E as (_ & Hk & Hmin).
    replace (k - 0)%nat with k in * by lia.
    exists k. split; [reflexivity|]. split; [|exact Hk].
    destruct (le_lt_dec k i) as [|Hlt]; [assumption|].
    exfalso. exact (Hmin i Hlt Hi).
  - exfalso. exact (sst_find_None _ _ _ E i Hi).
Qed.

(** The index returned is the first position of the text in the table
    returned. *)
Lemma sst_index_first (s : sst) (t : cstring) (j : nat) :
  fst (sst_index s (Some t)) !! j = Some t -> (snd (sst_index s (Some t)) <= j)%nat.
Proof.
  unfold sst_index. change (default [] (Some t)) with t.
  destruct (sst_find s t 0) as [k|] eqn:E; cbn [fst snd]; intros Hj.
  - apply sst_find_Some in E as (_ & _ & Hmin).
    replace (k - 0)%nat with k in * by lia.
    destruct (le_lt_dec k j) as [|Hlt]; [lia|].
    exfalso. exact (Hmin j Hlt Hj).
  - destruct (le_lt_dec (length s) j) as [|Hlt]; [lia|].
    exfalso. rewrite lookup_app_l in Hj by lia.
    exact (sst_find_None _ _ _ E j Hj).
Qed.

(** The tables the exporter builds hold no text twice. *)
Lemma sst_index_NoDup (s : sst) (t : option cstring) :
  NoDup s -> NoDup (fst (sst_index s t)).
Proof.
  intros Hnd. unfold sst_index.
  destruct (sst_find s (default [] t) 0) as [k|] eqn:E; simpl; [exact Hnd|].
  apply NoDup_app. split; [exact Hnd|]. split; [|apply NoDup_singleton].
  intros x Hx Hx'. apply list_elem_of_singleton in Hx'. subst x.
  apply list_elem_of_lookup in Hx as [j Hj].
  exact (sst_find_None _ _ _ E j Hj).
Qed.

(** C4. Interning in the shared-string table is idempotent and injective
    on distinct texts, from every table state [s]: a text already
    present at some index is answered with an index that holds it (the
    first one, which is that very index when the table has no
    duplicates) and the table is returned unchanged; interning the same
    text twice gives the same index twice; interning two distinct texts
    gives two distinct indices. *)
Theorem sst_index_idempotent_injective :
  (forall (s : sst) (t : cstring) (i : nat),
     s !! i = Some t ->
     fst (sst_index s (Some t)) = s /\
     s !! snd (sst_index s (Some t)) = Some t /\
     (snd (sst_index s (Some t)) <= i)%nat /\
     (NoDup s -> snd (sst_index s (Some t)) = i)) /\
  (forall (s : sst) (t : cstring),
     let first := sst_index s (Some t) in
     let second := sst_index (fst first) (Some t) in
     snd second = snd first /\ fst second = fst first) /\
  (forall (s : sst) (t1 t2 : cstring),
     t1 <> t2 ->
     let first := sst_index s (Some t1) in
     let second := sst_index (fst first) (Some t2) in
     snd first <> snd second).
Proof.
  split; [|split].
  - intros s t i Hi.
    destruct (sst_index_present s t i Hi) as (j & -> & Hle & Hj). simpl.
    split; [reflexivity|]. split; [exact Hj|]. split; [exact Hle|].
    intros Hnd. eapply NoDup_lookup; eauto.
  - intros s t first second.
    destruct (sst_index_spec s t) as (Hget & _). fold first in Hget.
    destruct (sst_index_present (fst first) t (snd first) Hget) as (j & Hj & Hle & Hj').
    subst second. rewrite Hj. cbn [fst snd]. split; [|reflexivity].
    pose proof (sst_index_first s t j Hj'). fold first in H. lia.
  - intros s t1 t2 Hne first second Heq.
    destruct (sst_index_spec s t1) as (Hget1 & _). fold first in Hget1.
    destruct (sst_index_spec (fst first) t2) as (Hget2 & ext & Hext). fold second in Hget2, Hext.
    rewrite Hext, <- Heq in Hget2.
    rewrite lookup_app_l in Hget2 by (eapply lookup_lt_Some; eauto).
    congruence.
Qed.

Lemma sst_index_idempotent_injective_witness :
  fst (sst_index [lit "a"; lit "b"] (Some (lit "b"))) = [lit "a"; lit "b"] /\
  snd (sst_index [lit "a"] (Some (lit "a"))) <>
  snd (sst_index (fst (sst_index [lit "a"] (Some (lit "a")))) (Some (lit "b"))).
Proof.
  split.
  - apply (proj1 sst_index_idempotent_injective [lit "a"; lit "b"] (lit "b") 1%nat).
    reflexivity.
  - apply (proj2 (proj2 sst_index_idempotent_injective) [lit "a"] (lit "a") (lit "b")).
    discriminate.
Defined.

End SharedStringTable.

(** ** Rows as sequences of declarations *)

Section GridFacts.
Import GridSpec.
Context {V W : Type}.
Variable null : W.
Variable mk : V -> W.

Lemma row_width_app (a b : list (nat * V)) :
  row_width (a ++ b) = Nat.max (row_width a) (row_width b).
Proof.
  induction a as [|d a IH]; simpl; [reflexivity|].
  unfold row_width in *. simpl. rewrite IH. lia.
Qed.

Lemma row_width_snoc (ds : list (nat * V)) c v :
  row_width (ds ++ [(c, v)]) = Nat.max (row_width ds) (S c).
Proof. rewrite row_width_app. unfold row_width at 2. simpl. lia. Qed.

Lemma last_decl_snoc (ds : list (nat * V)) c c0 v :
  last_decl c (ds ++ [(c0, v)]) = if (c0 =? c)%nat then Some v else last_decl c ds.
Proof. unfold last_decl. rewrite fold_left_app. reflexivity. Qed.

Lemma last_decl_lt (ds : list (nat * V)) c v :
  last_decl c ds = Some v -> (c < row_width ds)%nat.
Proof.
  revert v. induction ds as [|[c0 v0] ds IH] using rev_ind; intros v H.
  - discriminate.
  - rewrite last_decl_snoc in H. rewrite row_width_snoc. simpl in H.
    destruct (c0 =? c)%nat eqn:E.
    + apply Nat.eqb_eq in E. lia.
    + apply IH in H. lia.
Qed.

Lemma last_decl_ge (ds : list (nat * V)) c :
  (row_width ds <= c)%nat -> last_decl c ds = None.
Proof.
  intros H. destruct (last_decl c ds) eqn:E; [|reflexivity].
  apply last_decl_lt in E. lia.
Qed.

Lemma declared_row_length (ds : list (nat * V)) :
  length (declared_row null mk ds) = row_width ds.
Proof. unfold declared_row. rewrite length_map, length_seq. reflexivity. Qed.

Lemma declared_row_lookup (ds : list (nat * V)) i :
  (i < row_width ds)%nat ->
  declared_row null mk ds !! i = Some (declared_cell null mk ds i).
Proof.
  intros H. unfold declared_row.
  rewrite list_lookup_fmap, lookup_seq_lt by assumption. reflexivity.
Qed.

Lemma declared_row_lookup_ge (ds : list (nat * V)) i :
  (row_width ds <= i)%nat -> declared_row null mk ds !! i = None.
Proof.
  intros H. apply lookup_ge_None. rewrite declared_row_length. assumption.
Qed.

(** Declaring one more cell: pad the row with null cells up to the new
    column, then store the cell. *)
Lemma declared_row_snoc (ds : list (nat * V)) c v :
  declared_row null mk (ds ++ [(c, v)]) =
  <[c := mk v]> (declared_row null mk ds ++
                 replicate (S c - row_width ds) null).
Proof.
  apply list_eq. intros i.
  pose proof (declared_row_length ds) as Hlen.
  destruct (lt_dec i (Nat.max (row_width ds) (S c))) as [Hi|Hi].
  - rewrite declared_row_lookup by (rewrite row_width_snoc; exact Hi).
    unfold declared_cell. rewrite last_decl_snoc.
    destruct (c =? i)%nat eqn:E.
    + apply Nat.eqb_eq in E. subst i.
      rewrite list_lookup_insert_eq; [reflexivity|].
      rewrite length_app, length_replicate. lia.
    + apply Nat.eqb_neq in E.
      rewrite list_lookup_insert_ne by assumption.
      destruct (lt_dec i (row_width ds)) as [Hlt|Hge].
      * rewrite lookup_app_l by lia.
        rewrite declared_row_lookup by assumption. reflexivity.
      * rewrite lookup_app_r by lia.
        rewrite lookup_replicate_2 by lia.
        rewrite last_decl_ge by lia. reflexivity.
  - rewrite declared_row_lookup_ge by (rewrite row_width_snoc; lia).
    symmetry. apply lookup_ge_None.
    rewrite length_insert, length_app, length_replicate. lia.
Qed.

End GridFacts.

(** ** The row buffer of the copilot importer *)

Section CopilotGrid.
Import CStr ColLetters Xml GridSpec CopilotImport.

Lemma grow_cap_ge fuel : forall newcap cols,
  (1 <= newcap)%nat -> (cols <= newcap + fuel)%nat ->
  (cols <= grow_cap fuel newcap cols)%nat.
Proof.
  induction fuel as [|fuel IH]; intros newcap cols H1 H; simpl; [lia|].
  destruct (newcap <? cols)%nat eqn:E.
  - apply IH; lia.
  - apply Nat.ltb_ge in E. exact E.
Qed.

Lemma grow_cap_le fuel : forall newcap cols,
  (newcap <= grow_cap fuel newcap cols)%nat.
Proof.
  induction fuel as [|fuel IH]; intros newcap cols; simpl; [lia|].
  destruct (newcap <? cols)%nat; [|lia].
  specialize (IH (newcap * 2)%nat cols). lia.
Qed.

(** [ensure_rowcap] only appends NULL entries, and makes room for
    [cols] of them. *)
Lemma ensure_rowcap_ext (buf : list (option cstring)) (cols : nat) :
  exists k, ensure_rowcap buf cols = buf ++ replicate k None /\
            (cols <= length buf + k)%nat.
Proof.
  unfold ensure_rowcap.
  destruct (cols <=? length buf)%nat eqn:E.
  - apply Nat.leb_le in E. exists 0%nat. simpl. rewrite app_nil_r. split; [reflexivity|lia].
  - apply Nat.leb_gt in E.
    eexists. split; [reflexivity|].
    set (start := if (length buf =? 0)%nat then 16%nat else length buf).
    assert (Hs : (1 <= start)%nat /\ (length buf <= start)%nat).
    { unfold start. destruct (length buf =? 0)%nat eqn:E0.
      - apply Nat.eqb_eq in E0. lia.
      - apply Nat.eqb_neq in E0. lia. }
    pose proof (grow_cap_ge cols start cols). pose proof (grow_cap_le cols start cols).
    lia.
Qed.

Lemma row_inv_start (ctx : sheet_parser_ctx) atts :
  row_inv (sheet_start ctx (lit "row") atts) [].
Proof.
  unfold sheet_start. rewrite streq_refl. unfold row_inv. simpl.
  split; [reflexivity|]. split; [lia|].
  intros i Hi. unfold clear_rowbuf in *. rewrite length_replicate in Hi.
  apply lookup_replicate_2. exact Hi.
Qed.

(** A closing [c] stores its value in bounds and keeps the invariant. *)
Lemma row_inv_cell (ctx : sheet_parser_ctx) ds :
  row_inv ctx ds ->
  row_inv (sheet_end ctx (lit "c")) (ds ++ declared_by ctx (EndElement (lit "c"))).
Proof.
  intros (Hmax & Hcap & Hcells).
  unfold declared_by, sheet_end. rewrite streq_refl.
  set (k := Z.to_nat (colidx_of (cur_cell_ref ctx))).
  set (val := CopilotImport.cell_value (shared ctx) (cur_cell_type ctx) (cur_text ctx)).
  destruct (ensure_rowcap_ext (rowbuf ctx) (k + 1)) as (pad & -> & Hpad).
  unfold row_inv. cbn [maxcol rowbuf].
  rewrite row_width_snoc, length_insert, length_app, length_replicate.
  split; [|split].
  - rewrite Hmax. destruct (row_width ds <? k + 1)%nat eqn:E.
    + apply Nat.ltb_lt in E. lia.
    + apply Nat.ltb_ge in E. lia.
  - lia.
  - intros i Hi. rewrite last_decl_snoc.
    destruct (k =? i)%nat eqn:E.
    + apply Nat.eqb_eq in E. subst i.
      apply list_lookup_insert_eq. rewrite length_app, length_replicate. lia.
    + apply Nat.eqb_neq in E. rewrite list_lookup_insert_ne by assumption.
      destruct (lt_dec i (length (rowbuf ctx))) as [Hlt|Hge].
      * rewrite lookup_app_l by assumption. apply Hcells. assumption.
      * rewrite lookup_app_r by lia. rewrite lookup_replicate_2 by lia.
        rewrite last_decl_ge by lia. reflexivity.
Qed.

(** Handler calls other than the opening and closing of a row leave the
    collected rows and the row number alone. *)
Lemma sheet_step_in_row (ctx : sheet_parser_ctx) (e : xml_event) ds :
  is_row_event e = false ->
  row_inv ctx ds ->
  row_inv (sheet_step ctx e) (ds ++ declared_by ctx e) /\
  emitted (sheet_step ctx e) = emitted ctx /\
  current_row (sheet_step ctx e) = current_row ctx.
Proof.
  intros Hrow Hinv.
  destruct e as [name atts|name|s]; unfold is_row_event in Hrow.
  - simpl. rewrite app_nil_r. unfold sheet_start. rewrite Hrow.
    repeat (match goal with |- context [if ?b then _ else _] => destruct b end);
      (split; [exact Hinv|split; reflexivity]).
  - destruct (streq name (lit "c")) eqn:Ec.
    + apply streq_true in Ec. subst name. cbn [sheet_step].
      split; [apply row_inv_cell; exact Hinv|].
      unfold sheet_end. rewrite streq_refl. split; reflexivity.
    + cbn [sheet_step declared_by]. rewrite Ec, app_nil_r. unfold sheet_end. rewrite Ec, Hrow.
      repeat (match goal with |- context [if ?b then _ else _] => destruct b end);
        (split; [exact Hinv|split; reflexivity]).
  - simpl. rewrite app_nil_r. unfold sheet_char.
    destruct (in_v ctx || in_t ctx); (split; [exact Hinv|split; reflexivity]).
Qed.

Lemma sheet_steps_in_row (body : list xml_event) : forall ctx ds,
  forallb (fun e => negb (is_row_event e)) body = true ->
  row_inv ctx ds ->
  row_inv (fold_left sheet_step body ctx) (ds ++ row_decls ctx body) /\
  emitted (fold_left sheet_step body ctx) = emitted ctx /\
  current_row (fold_left sheet_step body ctx) = current_row ctx.
Proof.
  induction body as [|e body IH]; intros ctx ds Hbody Hinv; simpl.
  - rewrite app_nil_r. auto.
  - simpl in Hbody. apply andb_true_iff in Hbody as [He Hbody].
    apply negb_true_iff in He.
    destruct (sheet_step_in_row ctx e ds He Hinv) as (Hinv' & Hem & Hrow).
    destruct (IH _ _ Hbody Hinv') as (Hinv'' & Hem' & Hrow').
    rewrite <- app_assoc in Hinv''.
    split; [exact Hinv''|]. split; congruence.
Qed.

(** The row the importer emits for a [row] element is the declared row:
    as wide as the largest declared column, each cell the last value
    declared for its column, NULL where none was declared. *)
Lemma copilot_row_grid (ctx : sheet_parser_ctx) atts (body : list xml_event) :
  forallb (fun e => negb (is_row_event e)) body = true ->
  let ctx0 := sheet_step ctx (StartElement (lit "row") atts) in
  emitted (fold_left sheet_step (body ++ [EndElement (lit "row")]) ctx0) =
  emitted ctx ++
  [{| rownum := last_att (lit "r") atoi 0 atts;
      cols := declared_row None Some (row_decls ctx0 body) |}].
Proof.
  intros Hbody ctx0.
  assert (H0 : row_inv ctx0 []) by apply row_inv_start.
  destruct (sheet_steps_in_row body ctx0 [] Hbody H0) as ((Hmax & Hcap & Hcells) & Hem & Hrow).
  simpl in Hmax, Hcap, Hcells.
  rewrite fold_left_app. cbn [fold_left sheet_step].
  set (ctx1 := fold_left sheet_step body ctx0) in *.
  unfold sheet_end.
  replace (streq (lit "row") (lit "c")) with false by reflexivity.
  rewrite streq_refl. cbn [emitted]. unfold sheet_rows_emit.
  rewrite Hem, Hrow.
  assert (Hctx0 : emitted ctx0 = emitted ctx /\
                  current_row ctx0 = last_att (lit "r") atoi 0 atts).
  { unfold ctx0. cbn [sheet_step]. unfold sheet_start. rewrite streq_refl. split; reflexivity. }
  destruct Hctx0 as [-> ->].
  do 3 f_equal.
  apply list_eq. intros i.
  destruct (lt_dec i (row_width (row_decls ctx0 body))) as [Hi|Hi].
  - rewrite lookup_take_lt by lia.
    rewrite Hcells by lia.
    rewrite declared_row_lookup by assumption.
    unfold declared_cell. destruct (last_decl i (row_decls ctx0 body)); reflexivity.
  - rewrite lookup_take_ge by lia.
    rewrite declared_row_lookup_ge by lia. reflexivity.
Qed.

End CopilotGrid.

(** ** The worksheet grid of the opus importer *)

Section OpusGrid.
Import CStr ColLetters Xml GridSpec OpusImport.

Lemma sheet_height_snoc {V} (ds : list (nat * nat * V)) d :
  sheet_height (ds ++ [d]) = Nat.max (sheet_height ds) (S (fst (fst d))).
Proof.
  induction ds as [|d0 ds IH]; simpl.
  - unfold sheet_height. simpl. lia.
  - unfold sheet_height in *. simpl. rewrite IH. lia.
Qed.

Lemma in_row_snoc {V} (ds : list (nat * nat * V)) r r0 c0 (v : V) :
  in_row r (ds ++ [(r0, c0, v)]) =
  if (r0 =? r)%nat then in_row r ds ++ [(c0, v)] else in_row r ds.
Proof.
  unfold in_row. rewrite omap_app. simpl.
  destruct (r0 =? r)%nat; [reflexivity|apply app_nil_r].
Qed.

Lemma in_row_above {V} (ds : list (nat * nat * V)) r :
  (sheet_height ds <= r)%nat -> in_row r ds = [].
Proof.
  induction ds as [|[[r0 c0] v] ds IH]; intros H; [reflexivity|].
  unfold sheet_height in H. simpl in H. fold (sheet_height ds) in H.
  unfold in_row. simpl.
  destruct (r0 =? r)%nat eqn:E; [apply Nat.eqb_eq in E; lia|].
  apply IH. lia.
Qed.

Lemma declared_sheet_length {V W} (null : W) (mk : V -> W) ds :
  length (declared_sheet null mk ds) = sheet_height ds.
Proof. unfold declared_sheet. rewrite length_map, length_seq. reflexivity. Qed.

Lemma declared_sheet_lookup {V W} (null : W) (mk : V -> W) ds r :
  (r < sheet_height ds)%nat ->
  declared_sheet null mk ds !! r = Some (declared_row null mk (in_row r ds)).
Proof.
  intros H. unfold declared_sheet.
  rewrite list_lookup_fmap, lookup_seq_lt by assumption. reflexivity.
Qed.

(** [ws_set_cell] on the grid of the declarations [ds] gives the grid
    of [ds] followed by the new declaration. *)
Lemma ws_set_cell_declared (w : Worksheet) ds (row_num col_num : Z) v :
  0 < row_num -> 0 < col_num ->
  rows w = declared_sheet null_cell mk_cell ds ->
  exists w',
    ws_set_cell w row_num col_num v = Some w' /\
    rows w' = declared_sheet null_cell mk_cell
                (ds ++ [((Z.to_nat row_num - 1)%nat, (Z.to_nat col_num - 1)%nat, v)]).
Proof.
  intros Hr Hc Hrows. unfold ws_set_cell.
  replace ((row_num <=? 0) || (col_num <=? 0)) with false.
  2:{ symmetry. apply orb_false_iff. split; apply Z.leb_gt; assumption. }
  eexists. split; [reflexivity|]. cbn [rows].
  unfold ws_get_row. rewrite Hrows.
  change {| value := v; is_null := bool_decide (v = None) |} with (mk_cell v).
  set (r := (Z.to_nat row_num - 1)%nat). set (c := (Z.to_nat col_num - 1)%nat).
  replace (Z.to_nat row_num) with (S r) by (unfold r; lia).
  replace (Z.to_nat col_num) with (S c) by (unfold c; lia).
  set (R := declared_sheet null_cell mk_cell ds).
  assert (HR : length R = sheet_height ds) by apply declared_sheet_length.
  (* the row that is updated *)
  assert (Hrow : default [] ((R ++ replicate (S r - length R) []) !! r) =
                 declared_row null_cell mk_cell (in_row r ds)).
  { destruct (lt_dec r (sheet_height ds)) as [Hlt|Hge].
    - rewrite lookup_app_l by lia. unfold R.
      rewrite declared_sheet_lookup by assumption. reflexivity.
    - rewrite lookup_app_r by lia. rewrite lookup_replicate_2 by lia.
      rewrite in_row_above by lia. reflexivity. }
  rewrite Hrow. rewrite declared_row_length.
  rewrite <- (declared_row_snoc null_cell mk_cell (in_row r ds) c v).
  apply list_eq. intros i.
  destruct (lt_dec i (Nat.max (sheet_height ds) (S r))) as [Hi|Hi].
  - rewrite declared_sheet_lookup by (rewrite sheet_height_snoc; exact Hi).
    rewrite in_row_snoc.
    destruct (r =? i)%nat eqn:E.
    + apply Nat.eqb_eq in E. subst i.
      apply list_lookup_insert_eq. rewrite length_app, length_replicate. lia.
    + apply Nat.eqb_neq in E. rewrite list_lookup_insert_ne by assumption.
      destruct (lt_dec i (sheet_height ds)) as [Hlt|Hge].
      * rewrite lookup_app_l by lia. apply declared_sheet_lookup. assumption.
      * rewrite lookup_app_r by lia. rewrite lookup_replicate_2 by lia.
        rewrite in_row_above by lia. reflexivity.
  - rewrite (proj2 (lookup_ge_None _ _)).
    2:{ rewrite length_insert, length_app, length_replicate. lia. }
    symmetry. apply lookup_ge_None.
    rewrite declared_sheet_length, sheet_height_snoc. simpl. lia.
Qed.

Lemma ws_step_declared (wsp : WorksheetParser) (e : xml_event) ds :
  rows (ws wsp) = declared_sheet null_cell mk_cell ds ->
  rows (ws (ws_step wsp e)) =
  declared_sheet null_cell mk_cell (ds ++ declared_by wsp e).
Proof.
  intros Hrows.
  destruct e as [name atts|name|s]; cbn [ws_step declared_by].
  - rewrite app_nil_r. unfold ws_start_element.
    destruct (cell_atts atts) as [[col row] ty].
    repeat (match goal with |- context [if ?b then _ else _] => destruct b end);
      exact Hrows.
  - unfold ws_end_element.
    destruct (streq name (lit "c")) eqn:Ec; cbn [andb].
    + destruct ((0 <? cur_row wsp) && (0 <? cur_col wsp)) eqn:Epos.
      * apply andb_true_iff in Epos as [Hr Hc].
        apply Z.ltb_lt in Hr. apply Z.ltb_lt in Hc.
        destruct (ws_set_cell_declared (ws wsp) ds _ _ (OpusImport.cell_value wsp) Hr Hc Hrows)
          as (w' & -> & Hw').
        exact Hw'.
      * rewrite app_nil_r. exact Hrows.
    + rewrite app_nil_r.
      repeat (match goal with |- context [if ?b then _ else _] => destruct b end);
        exact Hrows.
  - rewrite app_nil_r. unfold ws_char_data.
    destruct (in_v wsp || in_t wsp); exact Hrows.
Qed.

Lemma ws_steps_declared (evs : list xml_event) : forall wsp ds,
  rows (ws wsp) = declared_sheet null_cell mk_cell ds ->
  rows (ws (fold_left ws_step evs wsp)) =
  declared_sheet null_cell mk_cell (ds ++ sheet_decls wsp evs).
Proof.
  induction evs as [|e evs IH]; intros wsp ds H; simpl.
  - rewrite app_nil_r. exact H.
  - rewrite app_assoc. apply IH. apply ws_step_declared. exact H.
Qed.

(** The worksheet the importer builds is the declared sheet: every row
    as wide as its largest declared column, each cell the last value
    declared for it, the null cell where none was declared. *)
Lemma opus_sheet_grid (doc : list xml_event) (s : SharedStrings) :
  rows (parse_worksheet doc s) =
  declared_sheet null_cell mk_cell (sheet_decls (wsp_init ws_init s) doc).
Proof.
  unfold parse_worksheet.
  apply (ws_steps_declared doc (wsp_init ws_init s) []). reflexivity.
Qed.

End OpusGrid.

(** ** Gaps, duplicates and references without letters *)

Section GridClaims.
Import CStr ColLetters Xml GridSpec Fixtures.

Lemma row_width_In {V} (ds : list (nat * V)) c v :
  In (c, v) ds -> (c < row_width ds)%nat.
Proof.
  induction ds as [|d ds IH]; intros H; [contradiction|].
  unfold row_width. simpl. fold (row_width ds).
  destruct H as [-> | H]; simpl; [lia|]. apply IH in H. lia.
Qed.

Lemma last_decl_undeclared {V} (ds : list (nat * V)) i :
  Forall (fun d => fst d <> i) ds -> last_decl i ds = None.
Proof.
  induction ds as [|[c v] ds IH] using rev_ind; intros H; [reflexivity|].
  apply Forall_app in H as [H1 H2]. rewrite last_decl_snoc.
  apply Forall_inv in H2. simpl in H2.
  destruct (c =? i)%nat eqn:E; [apply Nat.eqb_eq in E; contradiction|].
  apply IH. exact H1.
Qed.

Lemma last_decl_last {V} (ds1 ds2 : list (nat * V)) i v :
  Forall (fun d => fst d <> i) ds2 ->
  last_decl i (ds1 ++ (i, v) :: ds2) = Some v.
Proof.
  induction ds2 as [|[c w] ds2 IH] using rev_ind; intros H.
  - rewrite last_decl_snoc, Nat.eqb_refl. reflexivity.
  - apply Forall_app in H as [H1 H2]. apply Forall_inv in H2. simpl in H2.
    replace (ds1 ++ (i, v) :: ds2 ++ [(c, w)]) with ((ds1 ++ (i, v) :: ds2) ++ [(c, w)])
      by (rewrite <- app_assoc; reflexivity).
    rewrite last_decl_snoc.
    destruct (c =? i)%nat eqn:E; [apply Nat.eqb_eq in E; contradiction|].
    apply IH. exact H1.
Qed.

Lemma in_row_In {V} (ds : list (nat * nat * V)) r c v :
  In (r, c, v) ds -> In (c, v) (in_row r ds).
Proof.
  induction ds as [|[[r0 c0] v0] ds IH]; intros H; [contradiction|].
  unfold in_row. simpl. fold (in_row r ds).
  destruct H as [H | H].
  - injection H as -> -> ->. rewrite Nat.eqb_refl. left. reflexivity.
  - destruct (r0 =? r)%nat; [right|]; apply IH; exact H.
Qed.

Lemma in_row_undeclared {V} (ds : list (nat * nat * V)) r i :
  Forall (fun d => fst d <> (r, i)) ds -> Forall (fun d => fst d <> i) (in_row r ds).
Proof.
  induction 1 as [|[[r0 c0] v0] ds Hd _ IH]; [constructor|].
  unfold in_row. simpl. fold (in_row r ds).
  destruct (r0 =? r)%nat eqn:E; [|exact IH].
  apply Nat.eqb_eq in E. subst r0. constructor; [|exact IH].
  simpl in *. congruence.
Qed.

Lemma in_row_app {V} (a b : list (nat * nat * V)) r :
  in_row r (a ++ b) = in_row r a ++ in_row r b.
Proof. unfold in_row. apply omap_app. Qed.

Lemma sheet_height_In {V} (ds : list (nat * nat * V)) r c v :
  In (r, c, v) ds -> (r < sheet_height ds)%nat.
Proof.
  induction ds as [|d ds IH]; intros H; [contradiction|].
  unfold sheet_height. simpl. fold (sheet_height ds).
  destruct H as [-> | H]; simpl; [lia|]. apply IH in H. lia.
Qed.

(** C1. Grid reconstruction fills gaps with explicit nulls.  In the
    copilot importer, for every [row] element (whatever the parser state
    it is met in, and whatever handler calls [body] it contains), the row
    emitted has a cell for every column up to the largest declared one,
    and a column [i] below a declared column [c] that no cell of the row
    declared holds an explicit NULL.  In the opus importer the same holds
    for every row of the worksheet built from a whole stream ([null_cell]
    is its Null).  A row declaring only columns 1 and 4 gives the four
    cells value1, Null, Null, value4 in both. *)
Theorem gap_fill_explicit_nulls :
  (forall (ctx : CopilotImport.sheet_parser_ctx) atts body c v i,
     forallb (fun e => negb (CopilotImport.is_row_event e)) body = true ->
     let ctx0 := CopilotImport.sheet_step ctx (StartElement (lit "row") atts) in
     let ds := CopilotImport.row_decls ctx0 body in
     In (c, v) ds -> (i < c)%nat -> Forall (fun d => fst d <> i) ds ->
     exists row,
       CopilotImport.emitted
         (fold_left CopilotImport.sheet_step (body ++ [EndElement (lit "row")]) ctx0) =
       CopilotImport.emitted ctx ++ [row] /\
       length (CopilotImport.cols row) = row_width ds /\
       (c < length (CopilotImport.cols row))%nat /\
       CopilotImport.cols row !! i = Some None) /\
  (forall (doc : list xml_event) (s : list cstring) r c v i,
     let ds := OpusImport.sheet_decls (OpusImport.wsp_init OpusImport.ws_init s) doc in
     In (r, c, v) ds -> (i < c)%nat -> Forall (fun d => fst d <> (r, i)) ds ->
     exists row,
       OpusImport.rows (OpusImport.parse_worksheet doc s) !! r = Some row /\
       length row = row_width (in_row r ds) /\
       (c < length row)%nat /\
       row !! i = Some OpusImport.null_cell) /\
  CopilotImport.parse_sheet [] row_A_D =
    [{| CopilotImport.rownum := 1;
        CopilotImport.cols := [Some (lit "10"); None; None; Some (lit "40")] |}] /\
  OpusImport.rows (OpusImport.parse_worksheet row_A_D []) =
    [[OpusImport.mk_cell (Some (lit "10")); OpusImport.null_cell;
      OpusImport.null_cell; OpusImport.mk_cell (Some (lit "40"))]].
Proof.
  split; [|split; [|split]].
  - intros ctx atts body c v i Hbody ctx0 ds Hin Hlt Hundecl.
    eexists. split; [apply copilot_row_grid; exact Hbody|].
    cbn [CopilotImport.cols]. fold ctx0. fold ds.
    pose proof (row_width_In ds c v Hin) as Hw.
    rewrite declared_row_length.
    split; [reflexivity|]. split; [exact Hw|].
    rewrite declared_row_lookup by lia.
    unfold declared_cell. rewrite last_decl_undeclared by assumption. reflexivity.
  - intros doc s r c v i ds Hin Hlt Hundecl.
    rewrite opus_sheet_grid. fold ds.
    rewrite declared_sheet_lookup by (eapply sheet_height_In; eauto).
    eexists. split; [reflexivity|].
    pose proof (row_width_In (in_row r ds) c v (in_row_In ds r c v Hin)) as Hw.
    rewrite declared_row_length.
    split; [reflexivity|]. split; [exact Hw|].
    rewrite declared_row_lookup by lia.
    unfold declared_cell.
    rewrite last_decl_undeclared by (apply in_row_undeclared; assumption).
    reflexivity.
  - vm_compute. reflexivity.
  - vm_compute. reflexivity.
Qed.

Lemma gap_fill_explicit_nulls_witness :
  exists row,
    OpusImport.rows (OpusImport.parse_worksheet row_A_D []) !! 0%nat = Some row /\
    row !! 1%nat = Some OpusImport.null_cell.
Proof.
  destruct (proj1 (proj2 gap_fill_explicit_nulls) row_A_D [] 0%nat 3%nat (Some (lit "40")) 1%nat)
    as (row & Hrow & _ & _ & Hnull).
  - vm_compute. right. left. reflexivity.
  - lia.
  - vm_compute. repeat constructor; discriminate.
  - exists row. split; assumption.
Defined.

(** C10. Duplicate cell declarations resolve last-write-wins.  Whenever
    the cells declared in a row are [ds1], then a cell for column [i] with
    value [v], then cells [ds2] none of which is for column [i], the row
    holds exactly [v] at column [i], whatever [ds1] declared there.  This
    holds for the row the copilot importer emits and for the worksheet of
    the opus importer (position (r, i)). *)
Theorem duplicate_cells_last_write_wins :
  (forall (ctx : CopilotImport.sheet_parser_ctx) atts body ds1 ds2 i v,
     forallb (fun e => negb (CopilotImport.is_row_event e)) body = true ->
     let ctx0 := CopilotImport.sheet_step ctx (StartElement (lit "row") atts) in
     CopilotImport.row_decls ctx0 body = ds1 ++ (i, v) :: ds2 ->
     Forall (fun d => fst d <> i) ds2 ->
     exists row,
       CopilotImport.emitted
         (fold_left CopilotImport.sheet_step (body ++ [EndElement (lit "row")]) ctx0) =
       CopilotImport.emitted ctx ++ [row] /\
       CopilotImport.cols row !! i = Some (Some v)) /\
  (forall (doc : list xml_event) (s : list cstring) ds1 ds2 r i v,
     OpusImport.sheet_decls (OpusImport.wsp_init OpusImport.ws_init s) doc =
       ds1 ++ (r, i, v) :: ds2 ->
     Forall (fun d => fst d <> (r, i)) ds2 ->
     exists row,
       OpusImport.rows (OpusImport.parse_worksheet doc s) !! r = Some row /\
       row !! i = Some (OpusImport.mk_cell v)) /\
  CopilotImport.parse_sheet [] row_B_twice =
    [{| CopilotImport.rownum := 1;
        CopilotImport.cols := [None; Some (lit "second")] |}] /\
  OpusImport.rows (OpusImport.parse_worksheet row_B_twice []) =
    [[OpusImport.null_cell; OpusImport.mk_cell (Some (lit "second"))]].
Proof.
  split; [|split; [|split]].
  - intros ctx atts body ds1 ds2 i v Hbody ctx0 Hds Hlast.
    eexists. split; [apply copilot_row_grid; exact Hbody|].
    cbn [CopilotImport.cols]. fold ctx0. rewrite Hds.
    assert (Hw : (i < row_width (ds1 ++ (i, v) :: ds2))%nat).
    { eapply row_width_In. apply in_elt. }
    rewrite declared_row_lookup by exact Hw.
    unfold declared_cell. rewrite last_decl_last by assumption. reflexivity.
  - intros doc s ds1 ds2 r i v Hds Hlast.
    rewrite opus_sheet_grid, Hds.
    rewrite declared_sheet_lookup by (eapply sheet_height_In; apply in_elt).
    eexists. split; [reflexivity|].
    assert (Hrow : in_row r (ds1 ++ (r, i, v) :: ds2) =
                   in_row r ds1 ++ (i, v) :: in_row r ds2).
    { rewrite in_row_app. f_equal. unfold in_row. simpl. rewrite Nat.eqb_refl. reflexivity. }
    rewrite Hrow.
    rewrite declared_row_lookup by (eapply row_width_In; apply in_elt).
    unfold declared_cell.
    rewrite last_decl_last by (apply in_row_undeclared; assumption).
    reflexivity.
  - vm_compute. reflexivity.
  - vm_compute. reflexivity.
Qed.

Lemma duplicate_cells_last_write_wins_witness :
  exists row,
    OpusImport.rows (OpusImport.parse_worksheet row_B_twice []) !! 0%nat = Some row /\
    row !! 1%nat = Some (OpusImport.mk_cell (Some (lit "second"))).
Proof.
  apply (proj1 (proj2 duplicate_cells_last_write_wins) row_B_twice []
           [(0%nat, 1%nat, Some (lit "first"))] [] 0%nat 1%nat (Some (lit "second"))).
  - vm_compute. reflexivity.
  - constructor.
Defined.

End GridClaims.

(** ** Cells of the copilot parser: references and shared strings *)

Section CopilotCells.
Import CStr ColLetters Xml GridSpec Fixtures CopilotImport.

(** Every closing [c] stores its value inside the row buffer, at the
    column computed from the reference. *)
Lemma sheet_end_cell_stored (ctx : sheet_parser_ctx) :
  let k := Z.to_nat (colidx_of (cur_cell_ref ctx)) in
  let ctx' := sheet_end ctx (lit "c") in
  (k < length (rowbuf ctx'))%nat /\
  rowbuf ctx' !! k =
    Some (Some (cell_value (shared ctx) (cur_cell_type ctx) (cur_text ctx))) /\
  (k < maxcol ctx')%nat.
Proof.
  intros k ctx'. unfold ctx', sheet_end. rewrite streq_refl. cbn [rowbuf maxcol].
  fold k.
  destruct (ensure_rowcap_ext (rowbuf ctx) (k + 1)) as (pad & -> & Hpad).
  rewrite length_insert, length_app, length_replicate.
  split; [lia|]. split.
  - apply list_lookup_insert_eq. rewrite length_app, length_replicate. lia.
  - destruct (maxcol ctx <? k + 1)%nat eqn:E.
    + lia.
    + apply Nat.ltb_ge in E. lia.
Qed.

Lemma colletters_no_letter (ref : cstring) :
  match ref with c :: _ => isalpha c | [] => false end = false ->
  colname_to_index (colletters_of ref) = -1.
Proof.
  destruct ref as [|c rest]; intros H; [reflexivity|].
  unfold colletters_of. simpl.
  destruct (negb (isdigit c)); [|reflexivity].
  simpl. unfold colname_to_index. simpl.
  unfold isalpha in H. apply orb_false_iff in H as [-> ->]. reflexivity.
Qed.

(** C9. Cell-reference handling is total.  A declared cell whose
    reference does not start with a column letter makes the column
    decoder return -1; the importer clamps it to column index 0 and
    stores the cell's value there, inside the row buffer.  For every
    reference at all, the store lands inside the buffer
    [ensure_rowcap] has grown, and [sheet_end] has no failing case. *)
Theorem cell_without_letters_goes_to_column_0 :
  (forall ctx : sheet_parser_ctx,
     match cur_cell_ref ctx with c :: _ => isalpha c | [] => false end = false ->
     let ctx' := sheet_end ctx (lit "c") in
     colname_to_index (colletters_of (cur_cell_ref ctx)) = -1 /\
     colidx_of (cur_cell_ref ctx) = 0 /\
     rowbuf ctx' !! 0%nat =
       Some (Some (cell_value (shared ctx) (cur_cell_type ctx) (cur_text ctx))) /\
     (1 <= maxcol ctx')%nat /\ (1 <= length (rowbuf ctx'))%nat) /\
  (forall ctx : sheet_parser_ctx,
     let k := Z.to_nat (colidx_of (cur_cell_ref ctx)) in
     let ctx' := sheet_end ctx (lit "c") in
     (k < length (rowbuf ctx'))%nat /\
     rowbuf ctx' !! k =
       Some (Some (cell_value (shared ctx) (cur_cell_type ctx) (cur_text ctx)))) /\
  parse_sheet [] row_no_letters =
    [{| rownum := 1; cols := [Some (lit "x")] |}].
Proof.
  split; [|split].
  - intros ctx Href ctx'.
    pose proof (colletters_no_letter _ Href) as Hidx.
    assert (Hcol : colidx_of (cur_cell_ref ctx) = 0).
    { unfold colidx_of. rewrite Hidx. reflexivity. }
    destruct (sheet_end_cell_stored ctx) as (Hlen & Hget & Hmax).
    rewrite Hcol in Hlen, Hget, Hmax. change (Z.to_nat 0) with 0%nat in Hlen, Hget, Hmax.
    split; [exact Hidx|]. split; [exact Hcol|]. split; [exact Hget|].
    unfold ctx'. split; lia.
  - intros ctx k ctx'.
    destruct (sheet_end_cell_stored ctx) as (Hlen & Hget & _).
    split; assumption.
  - vm_compute. reflexivity.
Qed.

Lemma cell_without_letters_goes_to_column_0_witness :
  rowbuf (sheet_end
            (fold_left sheet_step
               [StartElement (lit "c") [(lit "r", lit "17")];
                StartElement (lit "v") []; CharacterData (lit "x")]
               (sheet_parser_init []))
            (lit "c")) !! 0%nat = Some (Some (lit "x")).
Proof.
  apply (proj1 cell_without_letters_goes_to_column_0
           (fold_left sheet_step
              [StartElement (lit "c") [(lit "r", lit "17")];
               StartElement (lit "v") []; CharacterData (lit "x")]
              (sheet_parser_init []))).
  vm_compute. reflexivity.
Defined.

End CopilotCells.

(** ** Numbers read into a C [int] *)

Section CIntegers.
Import CStr.

Lemma to_int_small z : -2147483648 <= z <= 2147483647 -> to_int z = z.
Proof.
  intros H. unfold to_int. rewrite Z.mod_small by lia. lia.
Qed.

Lemma to_int_range z : -2147483648 <= to_int z <= 2147483647.
Proof.
  unfold to_int.
  pose proof (Z.mod_pos_bound (z + 2147483648) 4294967296 eq_refl). lia.
Qed.

Lemma atoi_small s :
  -2147483648 <= strtol_value s <= 2147483647 -> atoi s = strtol_value s.
Proof.
  intros H. unfold atoi, strtol.
  rewrite Z.min_r, Z.max_r by lia. apply to_int_small. exact H.
Qed.

(** A number beyond the range of [int] is read by its low 32 bits. *)
Lemma atoi_beyond_int : atoi (lit "4294967297") = 1 /\ atoi (lit "2147483648") = -2147483648.
Proof. split; vm_compute; reflexivity. Qed.

End CIntegers.

(** ** Shared-string indices outside the table *)

Section SharedStringLookup.
Import CStr ColLetters Xml GridSpec Fixtures.

(** The cell [ws_set_cell] writes can be read back. *)
Lemma ws_set_cell_lookup (w : OpusImport.Worksheet) (row_num col_num : Z) v :
  0 < row_num -> 0 < col_num ->
  exists w' row,
    OpusImport.ws_set_cell w row_num col_num v = Some w' /\
    OpusImport.rows w' !! (Z.to_nat row_num - 1)%nat = Some row /\
    row !! (Z.to_nat col_num - 1)%nat = Some (OpusImport.mk_cell v).
Proof.
  intros Hr Hc. unfold OpusImport.ws_set_cell.
  replace ((row_num <=? 0) || (col_num <=? 0)) with false.
  2:{ symmetry. apply orb_false_iff. split; apply Z.leb_gt; assumption. }
  do 2 eexists. split; [reflexivity|]. cbn [OpusImport.rows].
  split.
  - apply list_lookup_insert_eq. unfold OpusImport.ws_get_row.
    rewrite length_app, length_replicate. lia.
  - apply list_lookup_insert_eq. rewrite length_app, length_replicate. lia.
Qed.

(** In the opus importer a shared-string cell whose index is outside the
    table is stored as the Null cell, not as the empty string. *)
Lemma shared_string_out_of_range_is_null_in_opus :
  OpusImport.rows (OpusImport.parse_worksheet row_bad_index two_strings) =
    [[OpusImport.null_cell]] /\
  OpusImport.value OpusImport.null_cell <> Some [].
Proof. split; [vm_compute; reflexivity|discriminate]. Qed.

(** Both importers read the index with [atoi], so a declared index that
    does not fit an [int] is looked up by its low 32 bits: index
    4294967297 of a two-entry table is entry 1. *)
Lemma shared_string_index_beyond_int :
  CopilotImport.parse_sheet two_strings
    (row_events "1" [cell_events "A1" (Some "s") "4294967297"]) =
    [{| CopilotImport.rownum := 1; CopilotImport.cols := [Some (lit "one")] |}] /\
  OpusImport.rows
    (OpusImport.parse_worksheet
       (row_events "1" [cell_events "A1" (Some "s") "4294967297"]) two_strings) =
    [[OpusImport.mk_cell (Some (lit "one"))]].
Proof. split; vm_compute; reflexivity. Qed.

(** C5, as the importers have it.  A cell of shared-string type whose
    index, as [atoi] reads it into an [int], is not a valid index of the
    table never stops the parse: the copilot importer stores the empty
    string for it, the opus importer stores its Null cell (value NULL,
    [is_null] set); in both the cells that follow are imported as
    usual. *)
Theorem shared_string_index_out_of_range :
  (forall ctx : CopilotImport.sheet_parser_ctx,
     CopilotImport.cur_cell_type ctx = lit "s" ->
     ~ (0 <= atoi (CopilotImport.cur_text ctx)
          < Z.of_nat (length (CopilotImport.shared ctx))) ->
     let k := Z.to_nat (CopilotImport.colidx_of (CopilotImport.cur_cell_ref ctx)) in
     CopilotImport.rowbuf (CopilotImport.sheet_end ctx (lit "c")) !! k = Some (Some [])) /\
  (forall (wsp : OpusImport.WorksheetParser) t,
     OpusImport.cur_type wsp = "s"%char ->
     OpusImport.text wsp = Some t ->
     ~ (0 <= atoi t < Z.of_nat (length (OpusImport.ss wsp))) ->
     0 < OpusImport.cur_row wsp -> 0 < OpusImport.cur_col wsp ->
     exists row,
       OpusImport.rows (OpusImport.ws (OpusImport.ws_end_element wsp (lit "c")))
         !! (Z.to_nat (OpusImport.cur_row wsp) - 1)%nat = Some row /\
       row !! (Z.to_nat (OpusImport.cur_col wsp) - 1)%nat = Some OpusImport.null_cell) /\
  CopilotImport.parse_sheet two_strings sheet_bad_then_good =
    [{| CopilotImport.rownum := 1; CopilotImport.cols := [Some []] |};
     {| CopilotImport.rownum := 2; CopilotImport.cols := [Some (lit "one")] |}] /\
  OpusImport.rows (OpusImport.parse_worksheet sheet_bad_then_good two_strings) =
    [[OpusImport.null_cell]; [OpusImport.mk_cell (Some (lit "one"))]].
Proof.
  split; [|split; [|split]].
  - intros ctx Hty Hbad k.
    destruct (sheet_end_cell_stored ctx) as (_ & Hget & _). subst k.
    rewrite Hget. do 2 f_equal.
    unfold CopilotImport.cell_value. rewrite Hty.
    change (lit "s") with ["s"%char]. cbn [ch_eqb Ascii.eqb].
    change (ch_eqb "s" "s") with true. cbn [andb].
    destruct (0 <? length (CopilotImport.cur_text ctx))%nat eqn:Elen.
    + destruct ((0 <=? atoi (CopilotImport.cur_text ctx)) &&
                (atoi (CopilotImport.cur_text ctx) <?
                 Z.of_nat (length (CopilotImport.shared ctx)))) eqn:E; [|reflexivity].
      apply andb_true_iff in E as [E1 E2].
      apply Z.leb_le in E1. apply Z.ltb_lt in E2. exfalso. apply Hbad. lia.
    + apply Nat.ltb_ge in Elen.
      destruct (CopilotImport.cur_text ctx); [reflexivity|simpl in Elen; lia].
  - intros wsp t Hty Htext Hbad Hr Hc.
    assert (Hval : OpusImport.cell_value wsp = None).
    { unfold OpusImport.cell_value. rewrite Htext, Hty.
      change (ch_eqb "s" "s") with true. cbn iota.
      destruct ((0 <=? atoi t) && (atoi t <? Z.of_nat (length (OpusImport.ss wsp)))) eqn:E;
        [|reflexivity].
      apply andb_true_iff in E as [E1 E2].
      apply Z.leb_le in E1. apply Z.ltb_lt in E2. exfalso. apply Hbad. lia. }
    destruct (ws_set_cell_lookup (OpusImport.ws wsp) _ _ (OpusImport.cell_value wsp) Hr Hc)
      as (w' & row & Hset & Hrow & Hcell).
    exists row. unfold OpusImport.ws_end_element. rewrite streq_refl.
    replace ((0 <? OpusImport.cur_row wsp) && (0 <? OpusImport.cur_col wsp)) with true.
    2:{ symmetry. apply andb_true_iff. split; apply Z.ltb_lt; assumption. }
    rewrite Hset. cbn [OpusImport.ws].
    split; [exact Hrow|]. rewrite Hcell, Hval. reflexivity.
  - vm_compute. reflexivity.
  - vm_compute. reflexivity.
Qed.

Lemma shared_string_index_out_of_range_witness :
  CopilotImport.rowbuf
    (CopilotImport.sheet_end
       (fold_left CopilotImport.sheet_step
          [StartElement (lit "c") [(lit "r", lit "B3"); (lit "t", lit "s")];
           StartElement (lit "v") []; CharacterData (lit "7")]
          (CopilotImport.sheet_parser_init two_strings))
       (lit "c")) !! 1%nat = Some (Some []).
Proof.
  apply (proj1 shared_string_index_out_of_range
           (fold_left CopilotImport.sheet_step
              [StartElement (lit "c") [(lit "r", lit "B3"); (lit "t", lit "s")];
               StartElement (lit "v") []; CharacterData (lit "7")]
              (CopilotImport.sheet_parser_init two_strings))).
  - vm_compute. reflexivity.
  - vm_compute. intros [_ H]. discriminate H.
Defined.

End SharedStringLookup.

(** ** Sheet selection and the import drivers *)

Section ImportDrivers.
Import CStr Xml.

Variable db : Type.
Variable create_empty_table : db -> cstring -> option db.
Variable create_table : db -> cstring -> list cstring -> option db.
Variable prepare_insert : db -> cstring -> list cstring -> bool.
Variable insert_row : db -> cstring -> list cstring -> list (option cstring) -> db.
Variable run_sheet : db -> cstring -> option (list xml_event) -> list xml_event -> db.
Variable archive : cstring -> option (list xml_event).

Let import_loop :=
  CopilotImport.import_loop db create_empty_table create_table prepare_insert insert_row archive.
Let import_xlsx_to_db :=
  CopilotImport.import_xlsx_to_db db create_empty_table create_table prepare_insert
    insert_row archive.

Lemma selector_matches_spec (wb : CopilotImport.wb_parser_ctx) si sheetId sel :
  CopilotImport.selector_matches wb si sheetId (Some sel) = true <->
  if CopilotImport.is_integer_string sel
  then atoi sel = sheetId \/ atoi sel = to_int (Z.of_nat si + 1)
  else CopilotImport.names wb !! si = Some sel.
Proof.
  unfold CopilotImport.selector_matches.
  destruct (CopilotImport.is_integer_string sel).
  - rewrite orb_true_iff, !Z.eqb_eq. reflexivity.
  - destruct (CopilotImport.names wb !! si) as [nm|].
    + rewrite streq_true. split; congruence.
    + split; discriminate.
Qed.

Lemma should_import_sheet_spec (wb : CopilotImport.wb_parser_ctx) si sheetId selectors :
  CopilotImport.should_import_sheet wb si sheetId selectors = true <->
  selectors = [] \/
  exists sel, In (Some sel) selectors /\
    if CopilotImport.is_integer_string sel
    then atoi sel = sheetId \/ atoi sel = to_int (Z.of_nat si + 1)
    else CopilotImport.names wb !! si = Some sel.
Proof.
  unfold CopilotImport.should_import_sheet.
  destruct selectors as [|s0 rest]; [split; auto|].
  rewrite existsb_exists. split.
  - intros ([sel|] & Hin & Hm); [|discriminate].
    right. exists sel. split; [exact Hin|]. apply selector_matches_spec. exact Hm.
  - intros [H|(sel & Hin & Hm)]; [discriminate|].
    exists (Some sel). split; [exact Hin|]. apply selector_matches_spec. exact Hm.
Qed.

Lemma gemini_should_import_spec selectors sheet_idx sheet_name :
  GeminiImport.should_import selectors sheet_idx sheet_name = true <->
  selectors = [] \/
  (exists i, In (GeminiImport.ValInteger i) selectors /\ to_int i = sheet_idx + 1) \/
  In (GeminiImport.ValText sheet_name) selectors.
Proof.
  unfold GeminiImport.should_import, GeminiImport.sqlite3_value_int.
  destruct selectors as [|s0 rest]; [split; auto|].
  rewrite existsb_exists. split.
  - intros ([i|t|] & Hin & Hm); [| |discriminate].
    + apply Z.eqb_eq in Hm. right. left. exists i. auto.
    + apply streq_true in Hm. subst t. auto.
  - intros [H|[(i & H & Hi)|H]]; [discriminate| |].
    + eexists. split; [exact H|]. apply Z.eqb_eq. exact Hi.
    + eexists. split; [exact H|]. apply streq_refl.
Qed.

(** A selector beyond the range of [int] counts by its low 32 bits. *)
Lemma selector_beyond_int :
  atoi (lit "4294967297") = 1 /\
  CopilotImport.should_import_sheet
    {| CopilotImport.names := [lit "A"]; CopilotImport.sheetIds := [1] |}
    0 1 [Some (lit "4294967297")] = true /\
  GeminiImport.should_import [GeminiImport.ValInteger 4294967297] 0 (lit "A") = true.
Proof. repeat split; vm_compute; reflexivity. Qed.

(** When no remaining sheet is selected the loop changes nothing. *)
Lemma import_loop_none_selected fuel ss wb selectors : forall sheets si d n,
  (forall k nm sid, sheets !! k = Some (nm, sid) ->
     CopilotImport.should_import_sheet wb (si + k) sid selectors = false) ->
  import_loop fuel ss wb selectors sheets si d n = Some (d, n).
Proof.
  induction sheets as [|[nm sid] rest IH]; intros si d n H; [reflexivity|].
  unfold import_loop in *. simpl.
  unfold CopilotImport.import_sheet.
  pose proof (H 0%nat nm sid eq_refl) as H0.
  rewrite Nat.add_0_r in H0. rewrite H0. simpl.
  apply IH. intros k nm' sid' Hk.
  replace (S si + k)%nat with (si + S k)%nat by lia. apply (H (S k) nm' sid'). exact Hk.
Qed.

Lemma gemini_loop_none_selected selectors : forall sheets i d n,
  (forall k sh, sheets !! k = Some sh ->
     GeminiImport.should_import selectors (i + Z.of_nat k) (GeminiImport.name sh) = false) ->
  GeminiImport.import_loop db archive run_sheet selectors sheets i d n = (d, n).
Proof.
  induction sheets as [|sh rest IH]; intros i d n H; [reflexivity|].
  simpl. pose proof (H 0%nat sh eq_refl) as H0.
  rewrite Z.add_0_r in H0. rewrite H0.
  apply IH. intros k sh' Hk.
  replace (i + 1 + Z.of_nat k) with (i + Z.of_nat (S k)) by lia. apply (H (S k) sh'). exact Hk.
Qed.

(** With no selectors the selection test passes for every sheet: each
    sheet whose stream is read under its declared id goes through
    [import_rows], in manifest order. *)
Lemma import_loop_no_selectors fuel ss wb : forall sheets docs si d n,
  Forall2 (fun sh sdoc => archive (CopilotImport.sheet_path (snd sh)) = Some sdoc)
          sheets docs ->
  import_loop fuel ss wb [] sheets si d n =
  fold_left (fun st shdoc =>
      match st with
      | None => None
      | Some (d0, n0) =>
          match CopilotImport.import_rows db create_empty_table create_table
                  prepare_insert insert_row fuel d0 (fst (fst shdoc))
                  (CopilotImport.parse_sheet ss (snd shdoc)) with
          | None => None
          | Some (d', created) => Some (d', if created then n0 + 1 else n0)
          end
      end) (combine sheets docs) (Some (d, n)).
Proof.
  intros sheets docs si d n H. revert si d n.
  induction H as [|[nm sid] sdoc sheets docs Hdoc _ IH]; intros si d n; [reflexivity|].
  unfold import_loop in *. cbn [CopilotImport.import_loop combine fold_left fst snd].
  unfold CopilotImport.import_sheet.
  cbn [CopilotImport.should_import_sheet negb snd] in *. rewrite Hdoc.
  destruct (CopilotImport.import_rows db create_empty_table create_table prepare_insert
              insert_row fuel d nm (CopilotImport.parse_sheet ss sdoc)) as [[d' created]|].
  - apply IH.
  - clear. induction (combine sheets docs) as [|x l IHl]; [reflexivity|exact IHl].
Qed.

Lemma gemini_loop_no_selectors : forall sheets docs i d n,
  Forall2 (fun k sdoc =>
             archive (lit "xl/worksheets/sheet" ++ fmt_d (i + Z.of_nat k + 1) ++ lit ".xml")
             = Some sdoc) (seq 0 (length sheets)) docs ->
  GeminiImport.import_loop db archive run_sheet [] sheets i d n =
  (fold_left (fun acc shdoc =>
                run_sheet acc (GeminiImport.name (fst shdoc))
                  (archive (lit "xl/sharedStrings.xml")) (snd shdoc))
             (combine sheets docs) d,
   n + Z.of_nat (length sheets)).
Proof.
  induction sheets as [|sh rest IH]; intros docs i d n H.
  - cbn. f_equal. lia.
  - cbn [length seq] in H. inversion H as [|k sdoc ks docs' Hdoc Hrest]; subst.
    cbn [GeminiImport.import_loop GeminiImport.should_import combine fold_left fst snd].
    rewrite Z.add_0_r in Hdoc. rewrite Hdoc.
    rewrite (IH docs' (i + 1)).
    + f_equal. cbn [length]. lia.
    + rewrite <- (fmap_S_seq 0) in Hrest. apply Forall2_fmap_l in Hrest.
      eapply Forall2_impl; [exact Hrest|].
      intros k sdoc' Hk. cbn in Hk. rewrite <- Hk. do 4 f_equal. lia.
Qed.

(** In the gemini importer a sheet is not selected by its declared id:
    the sheet declared with [sheetId="5"] at position 1 gets id 1, and
    selector 5 does not select it. *)
Lemma gemini_selector_ignores_declared_id :
  fold_left GeminiImport.workbook_step
    [StartElement (lit "sheet") [(lit "name", lit "Data"); (lit "sheetId", lit "5")]] [] =
    [{| GeminiImport.name := lit "Data"; GeminiImport.id := 1 |}] /\
  GeminiImport.should_import [GeminiImport.ValInteger 5] 0 (lit "Data") = false.
Proof. split; vm_compute; reflexivity. Qed.

(** In the copilot importer the two integer tests are applied to every
    sheet: with sheets A (declared id 2) and B (declared id 5), selector
    [2] selects B by position and A by declared id.  A selector is an
    integer by its spelling, so the sheet named [2] (position 1, id 7)
    is not selected by the text [2]. *)
Lemma copilot_integer_selector_tests :
  let wb := {| CopilotImport.names := [lit "A"; lit "B"];
               CopilotImport.sheetIds := [2; 5] |} in
  CopilotImport.should_import_sheet wb 0 2 [Some (lit "2")] = true /\
  CopilotImport.should_import_sheet wb 1 5 [Some (lit "2")] = true /\
  CopilotImport.should_import_sheet
    {| CopilotImport.names := [lit "2"]; CopilotImport.sheetIds := [7] |}
    0 7 [Some (lit "2")] = false.
Proof. repeat split; reflexivity. Qed.

(** C6, as the importers have it.  With no selectors every sheet is
    imported, in manifest order: in the copilot importer each sheet
    whose stream is read under its declared id goes through the table
    creation of [import_rows], in the gemini importer each sheet whose
    stream is read is parsed into its table and counted.  The copilot
    importer reads every selector as text: a selector that is an
    optionally signed digit string is an integer, read by [atoi] into
    an [int], and selects each sheet whose declared id or whose 1-based
    position equals it (selector 2 selects the second sheet even if its
    declared id is 5); any other selector selects by exact,
    case-sensitive equality with the display name.  The gemini importer
    selects by position only for an SQL integer, read by
    [sqlite3_value_int] into an [int], and by exact name equality for
    an SQL text.  In both, selectors that select no sheet leave the
    database unchanged and the call returns 0 tables, not an error. *)
Theorem import_selector_semantics :
  (forall fuel d doc docs,
     archive (lit "xl/workbook.xml") = Some doc ->
     let wb := CopilotImport.parse_workbook doc in
     let sheets := combine (CopilotImport.names wb) (CopilotImport.sheetIds wb) in
     let ss := match archive (lit "xl/sharedStrings.xml") with
               | Some sdoc => CopilotImport.parse_shared_strings sdoc
               | None => []
               end in
     Forall2 (fun sh sdoc => archive (CopilotImport.sheet_path (snd sh)) = Some sdoc)
             sheets docs ->
     import_xlsx_to_db fuel d [] =
     match fold_left (fun st shdoc =>
               match st with
               | None => None
               | Some (d0, n0) =>
                   match CopilotImport.import_rows db create_empty_table create_table
                           prepare_insert insert_row fuel d0 (fst (fst shdoc))
                           (CopilotImport.parse_sheet ss (snd shdoc)) with
                   | None => None
                   | Some (d', created) => Some (d', if created then n0 + 1 else n0)
                   end
               end) (combine sheets docs) (Some (d, 0)) with
     | None => None
     | Some (d', n) => Some (CopilotImport.ImportCount n, d')
     end) /\
  (forall d docs,
     let wb := match archive (lit "xl/workbook.xml") with
               | Some doc => fold_left GeminiImport.workbook_step doc []
               | None => []
               end in
     Forall2 (fun k sdoc =>
                archive (lit "xl/worksheets/sheet" ++ fmt_d (Z.of_nat k + 1) ++ lit ".xml")
                = Some sdoc) (seq 0 (length wb)) docs ->
     GeminiImport.xlsx_import_func db archive run_sheet [] d =
     (fold_left (fun acc shdoc =>
                   run_sheet acc (GeminiImport.name (fst shdoc))
                     (archive (lit "xl/sharedStrings.xml")) (snd shdoc))
                (combine wb docs) d,
      Z.of_nat (length wb))) /\
  (forall (wb : CopilotImport.wb_parser_ctx) si sheetId selectors,
     CopilotImport.should_import_sheet wb si sheetId selectors = true <->
     selectors = [] \/
     exists sel, In (Some sel) selectors /\
       if CopilotImport.is_integer_string sel
       then atoi sel = sheetId \/ atoi sel = to_int (Z.of_nat si + 1)
       else CopilotImport.names wb !! si = Some sel) /\
  (forall selectors sheet_idx sheet_name,
     GeminiImport.should_import selectors sheet_idx sheet_name = true <->
     selectors = [] \/
     (exists i, In (GeminiImport.ValInteger i) selectors /\
                GeminiImport.sqlite3_value_int i = sheet_idx + 1) \/
     In (GeminiImport.ValText sheet_name) selectors) /\
  (forall wb, CopilotImport.should_import_sheet wb 1 5 [Some (lit "2")] = true) /\
  (CopilotImport.should_import_sheet
     {| CopilotImport.names := [lit "Sheet1"]; CopilotImport.sheetIds := [1] |}
     0 1 [Some (lit "sheet1"); Some (lit "Sheet")] = false) /\
  (forall fuel d selectors doc,
     archive (lit "xl/workbook.xml") = Some doc ->
     (forall k nm sid,
        combine (CopilotImport.names (CopilotImport.parse_workbook doc))
                (CopilotImport.sheetIds (CopilotImport.parse_workbook doc)) !! k
          = Some (nm, sid) ->
        CopilotImport.should_import_sheet (CopilotImport.parse_workbook doc) k sid selectors
          = false) ->
     import_xlsx_to_db fuel d selectors = Some (CopilotImport.ImportCount 0, d)) /\
  (forall d selectors,
     (forall k sh,
        match archive (lit "xl/workbook.xml") with
        | Some doc => fold_left GeminiImport.workbook_step doc []
        | None => []
        end !! k = Some sh ->
        GeminiImport.should_import selectors (Z.of_nat k) (GeminiImport.name sh) = false) ->
     GeminiImport.xlsx_import_func db archive run_sheet selectors d = (d, 0)).
Proof.
  split; [|split; [|split; [|split; [|split; [|split; [|split]]]]]].
  - intros fuel d doc docs Hwb wb sheets ss Hdocs.
    unfold import_xlsx_to_db, CopilotImport.import_xlsx_to_db. rewrite Hwb.
    fold import_loop. fold wb. fold ss. fold sheets.
    rewrite (import_loop_no_selectors fuel ss wb sheets docs 0 d 0 Hdocs).
    reflexivity.
  - intros d docs wb Hdocs. unfold GeminiImport.xlsx_import_func. fold wb.
    rewrite (gemini_loop_no_selectors wb docs 0 d 0).
    + reflexivity.
    + eapply Forall2_impl; [exact Hdocs|]. intros k sdoc Hk. exact Hk.
  - apply should_import_sheet_spec.
  - apply gemini_should_import_spec.
  - intros wb. reflexivity.
  - reflexivity.
  - intros fuel d selectors doc Hwb Hnone.
    unfold import_xlsx_to_db, CopilotImport.import_xlsx_to_db. rewrite Hwb.
    fold import_loop. rewrite import_loop_none_selected; [reflexivity|].
    intros k nm sid Hk. apply (Hnone k nm sid). exact Hk.
  - intros d selectors Hnone. unfold GeminiImport.xlsx_import_func.
    apply gemini_loop_none_selected. intros k sh Hk. apply Hnone. exact Hk.
Qed.


End ImportDrivers.

Section ImportDriverWitnesses.
Import CStr Xml Fixtures.

Lemma import_selector_semantics_witness :
  CopilotImport.import_xlsx_to_db tables_db tables_create_empty tables_create
    tables_prepare tables_insert archive_two_sheets 4 [] [] =
  Some (CopilotImport.ImportCount 2, [(lit "First", [lit "two"]); (lit "Second", [lit "one"])]) /\
  CopilotImport.import_xlsx_to_db no_db no_create_empty no_create no_prepare no_insert
    archive_without_sheets 0 tt [Some (lit "Nope")] =
  Some (CopilotImport.ImportCount 0, tt).
Proof.
  split.
  - etransitivity.
    + apply (proj1 (import_selector_semantics tables_db tables_create_empty tables_create
                      tables_prepare tables_insert (fun d _ _ _ => d) archive_two_sheets)
               4%nat [] workbook_two_sheets [sheet_one_cell "two"; sheet_one_cell "one"]).
      * reflexivity.
      * repeat constructor.
    + vm_compute. reflexivity.
  - apply (proj1 (proj2 (proj2 (proj2 (proj2 (proj2 (proj2
             (import_selector_semantics no_db no_create_empty no_create no_prepare
                no_insert no_run archive_without_sheets)))))))
             0%nat tt [Some (lit "Nope")] workbook_one_sheet).
    + reflexivity.
    + intros [|k] nm sid H.
      * vm_compute in H. injection H as <- <-. vm_compute. reflexivity.
      * vm_compute in H. destruct k; discriminate H.
Defined.


End ImportDriverWitnesses.

(** ** The cell-size limit of the opus exporter *)

Section CellSizeLimit.
Import CStr ColLetters Fixtures OpusExport.

Lemma track_warning_count (w : ExportWarnings) table row col :
  cells_truncated (track_warning w table row col) = cells_truncated w + 1.
Proof. unfold track_warning. destruct (cells_truncated w + 1 =? 1); reflexivity. Qed.

(** The first truncation of an export is the one reported. *)
Lemma track_warning_first (w : ExportWarnings) table row col :
  cells_truncated w = 0 ->
  track_warning w table row col =
  {| cells_truncated := 1; first_truncated_row := row;
     first_truncated_col := col + 1; first_truncated_table := Some table |}.
Proof. intros H. unfold track_warning. rewrite H. reflexivity. Qed.

Lemma track_warning_later (w : ExportWarnings) table row col :
  0 < cells_truncated w ->
  first_truncated_row (track_warning w table row col) = first_truncated_row w /\
  first_truncated_col (track_warning w table row col) = first_truncated_col w /\
  first_truncated_table (track_warning w table row col) = first_truncated_table w.
Proof.
  intros H. unfold track_warning.
  destruct (cells_truncated w + 1 =? 1) eqn:E; [apply Z.eqb_eq in E; lia|].
  repeat split.
Qed.

(** A data text longer than the limit is written as its first 32,767
    characters, and counted. *)
Lemma data_text_truncated_and_counted table row col text rest w :
  EXCEL_MAX_CELL_SIZE < Z.of_nat (length text) ->
  gen_cells table row col (SqlText text :: rest) w =
  (InlineStrCell (cell_ref col row) false
     (xml_escape (take (Z.to_nat EXCEL_MAX_CELL_SIZE) text))
   :: fst (gen_cells table row (col + 1) rest (track_warning w table row col)),
   snd (gen_cells table row (col + 1) rest (track_warning w table row col))).
Proof.
  intros H. simpl. apply Z.ltb_lt in H. rewrite H.
  destruct (gen_cells table row (col + 1) rest (track_warning w table row col)).
  reflexivity.
Qed.

(** One warning per truncated cell. *)
Lemma gen_cells_count table row : forall vals col w,
  cells_truncated (snd (gen_cells table row col vals w)) =
  cells_truncated w + Z.of_nat (length (List.filter oversized vals)).
Proof.
  induction vals as [|v vals IH]; intros col w; [simpl; lia|].
  simpl.
  destruct v as [i|printed|text|blob|]; simpl.
  - specialize (IH (col + 1) w). destruct (gen_cells table row (col + 1) vals w). simpl in *. lia.
  - specialize (IH (col + 1) w). destruct (gen_cells table row (col + 1) vals w). simpl in *. lia.
  - destruct (EXCEL_MAX_CELL_SIZE <? Z.of_nat (length text)).
    + specialize (IH (col + 1) (track_warning w table row col)).
      destruct (gen_cells table row (col + 1) vals (track_warning w table row col)).
      simpl in *. rewrite track_warning_count in IH. lia.
    + specialize (IH (col + 1) w). destruct (gen_cells table row (col + 1) vals w).
      simpl in *. lia.
  - destruct (EXCEL_MAX_CELL_SIZE <? Z.of_nat (length blob) * 2).
    + specialize (IH (col + 1) (track_warning w table row col)).
      destruct (gen_cells table row (col + 1) vals (track_warning w table row col)).
      simpl in *. rewrite track_warning_count in IH. lia.
    + specialize (IH (col + 1) w). destruct (gen_cells table row (col + 1) vals w).
      simpl in *. lia.
  - specialize (IH (col + 1) w). destruct (gen_cells table row (col + 1) vals w). simpl in *. lia.
Qed.

Lemma gen_rows_count table : forall rs row w,
  cells_truncated (snd (gen_rows table row rs w)) =
  cells_truncated w + Z.of_nat (length (List.filter oversized (concat rs))).
Proof.
  induction rs as [|r rs IH]; intros row w; [simpl; lia|].
  simpl. pose proof (gen_cells_count table row r 0 w) as Hr.
  destruct (gen_cells table row 0 r w) as [cs w1]. simpl in Hr.
  specialize (IH (row + 1) w1).
  destruct (gen_rows table (row + 1) rs w1) as [more w2]. simpl in *.
  rewrite List.filter_app, length_app. lia.
Qed.

(** The header loop writes every column name in full. *)
Lemma gen_header_untruncated : forall names col,
  map (fun c => match c with
                | InlineStrCell _ _ t => t
                | NumberCell _ v => v
                end) (gen_header col names) = map xml_escape names.
Proof.
  induction names as [|n names IH]; intros col; [reflexivity|].
  simpl. rewrite IH. reflexivity.
Qed.

Lemma xml_escape_plain (s : cstring) :
  Forall (fun c => 63 < code c) s -> xml_escape s = s.
Proof.
  induction 1 as [|c s Hc _ IH]; [reflexivity|].
  simpl. rewrite IH.
  assert (Hn : forall z, z <= 63 -> ch_eqb c (chr z) = false).
  { intros z Hz. unfold ch_eqb. apply Ascii.eqb_neq. intros ->.
    destruct (Z_le_gt_dec 0 z).
    - rewrite code_chr in Hc by lia. lia.
    - unfold chr in Hc. replace (Z.to_nat z) with 0%nat in Hc by lia.
      vm_compute in Hc. discriminate. }
  change "&"%char with (chr 38). change "<"%char with (chr 60).
  change ">"%char with (chr 62). change "'"%char with (chr 39).
  rewrite !Hn by lia.
  replace (code c =? 34) with false by (symmetry; apply Z.eqb_neq; lia).
  replace (code c <? 32) with false by (symmetry; apply Z.ltb_ge; lia).
  reflexivity.
Qed.

Lemma long_text_length : Z.of_nat (length long_text) = 40000.
Proof. unfold long_text. rewrite length_replicate. lia. Qed.

Lemma long_text_plain : xml_escape long_text = long_text.
Proof.
  apply xml_escape_plain. unfold long_text. apply Forall_replicate.
  vm_compute. reflexivity.
Qed.

Lemma long_text_cut :
  xml_escape (take (Z.to_nat EXCEL_MAX_CELL_SIZE) long_text) =
  replicate (Z.to_nat 32767) "a"%char.
Proof.
  unfold long_text, EXCEL_MAX_CELL_SIZE. rewrite take_replicate.
  replace (Z.to_nat 32767 `min` Z.to_nat 40000)%nat with (Z.to_nat 32767) by lia.
  apply xml_escape_plain. apply Forall_replicate. vm_compute. reflexivity.
Qed.

(** The worksheet of a one-column table without rows. *)
Lemma gen_worksheet_header_only (name : cstring) :
  gen_worksheet (db_one_column name []) (lit "t") no_warnings =
    (inr {| header_row := [InlineStrCell (lit "A1") true (xml_escape name)];
            data_rows := [];
            autofilter := Some (lit "A1:A1") |},
     no_warnings).
Proof. reflexivity. Qed.

Lemma export_header_only (name filename : cstring) :
  xlsx_export_func (db_one_column name []) zip_ok [Some filename; Some (lit "t")] =
  inr filename.
Proof. reflexivity. Qed.

(** The worksheet of a one-column table with one oversized text. *)
Lemma gen_worksheet_one_long_text (name text : cstring) :
  EXCEL_MAX_CELL_SIZE < Z.of_nat (length text) ->
  gen_worksheet (db_one_column name [[SqlText text]]) (lit "t") no_warnings =
    (inr {| header_row := [InlineStrCell (lit "A1") true (xml_escape name)];
            data_rows := [(2, [InlineStrCell (lit "A2") false
                                 (xml_escape (take (Z.to_nat EXCEL_MAX_CELL_SIZE) text))])];
            autofilter := Some (lit "A1:A2") |},
     {| cells_truncated := 1; first_truncated_row := 2; first_truncated_col := 1;
        first_truncated_table := Some (lit "t") |}).
Proof.
  intros H. apply Z.ltb_lt in H.
  unfold gen_worksheet, db_one_column.
  change (streq (lit "t") (lit "t")) with true.
  cbn [column_names scan_rows scan_done gen_rows gen_cells].
  rewrite H. reflexivity.
Qed.

(** A data text of 40,000 [a] is written as exactly 32,767 [a], and the
    call returns its file name followed by the warning for one cell, at
    table [t], row 2, column 1. *)
Lemma long_value_truncated_with_warning :
  gen_worksheet db_long_value (lit "t") no_warnings =
    (inr {| header_row := [InlineStrCell (lit "A1") true (lit "note")];
            data_rows := [(2, [InlineStrCell (lit "A2") false
                                 (replicate (Z.to_nat 32767) "a"%char)])];
            autofilter := Some (lit "A1:A2") |},
     {| cells_truncated := 1; first_truncated_row := 2; first_truncated_col := 1;
        first_truncated_table := Some (lit "t") |}) /\
  xlsx_export_func db_long_value zip_ok [Some (lit "out.xlsx"); Some (lit "t")] =
    inr (lit ("out.xlsx (WARNING: 1 cell(s) exceeded Excel's 32767 character limit " ++
              "and were truncated. First occurrence: table 't', row 2, column 1)")).
Proof.
  assert (Hlen : EXCEL_MAX_CELL_SIZE < Z.of_nat (length long_text)).
  { rewrite long_text_length. reflexivity. }
  pose proof (gen_worksheet_one_long_text (lit "note") long_text Hlen) as Hw.
  rewrite long_text_cut in Hw.
  split; [exact Hw|].
  unfold xlsx_export_func. cbn [all_text option_map gen_all].
  fold db_long_value in Hw. rewrite Hw. reflexivity.
Qed.

(** C3, where the code departs from it.  The table [t] has one column
    whose name is 40,000 characters long.  The header cell is written
    with all 40,000 characters, no truncation is counted, and the call
    returns the bare file name: no warning. *)
Theorem long_header_exported_in_full_without_warning :
  gen_worksheet db_long_header (lit "t") no_warnings =
    (inr {| header_row := [InlineStrCell (lit "A1") true long_text];
            data_rows := [];
            autofilter := Some (lit "A1:A1") |},
     no_warnings) /\
  Z.of_nat (length long_text) = 40000 /\
  xlsx_export_func db_long_header zip_ok [Some (lit "out.xlsx"); Some (lit "t")] =
    inr (lit "out.xlsx").
Proof.
  split; [|split].
  - pose proof (gen_worksheet_header_only long_text) as H.
    rewrite long_text_plain in H. exact H.
  - exact long_text_length.
  - exact (export_header_only long_text (lit "out.xlsx")).
Qed.

End CellSizeLimit.

(** ** Sheet names *)

Section SheetNames.
Import CStr Fixtures SheetName.

Lemma with_suffix_length tmp suffix : (length (with_suffix tmp suffix) <= 31)%nat.
Proof. unfold with_suffix, EXCEL_SHEETNAME_MAX. rewrite length_take. lia. Qed.

Lemma sanitize_base_length name idx : (length (sanitize_base name idx) <= 31)%nat.
Proof. unfold sanitize_base, EXCEL_SHEETNAME_MAX. rewrite length_take. lia. Qed.

(** What the uniqueness loop returns is not among the existing names
    and is no longer than what it started from allows. *)
Lemma ensure_unique_fresh fuel existing : forall tmp suffix n,
  ensure_unique fuel existing tmp suffix = Some n ->
  ~ In n existing /\ ((length tmp <= 31)%nat -> (length n <= 31)%nat).
Proof.
  induction fuel as [|fuel IH]; intros tmp suffix n H; simpl in H; [discriminate|].
  destruct (existsb (fun e => streq e tmp) existing) eqn:E.
  - apply IH in H as [Hfresh Hlen]. split; [exact Hfresh|].
    intros _. apply Hlen. apply with_suffix_length.
  - injection H as <-. split; [|auto].
    intros Hin.
    assert (existsb (fun e => streq e tmp) existing = true); [|congruence].
    apply existsb_exists. exists tmp. split; [exact Hin|apply streq_refl].
Qed.

(** Whenever the exporter gets through its naming loop, the sheet names
    are pairwise distinct and at most 31 characters long. *)
Lemma sheet_names_from_distinct fuel : forall raw done l,
  NoDup done -> Forall (fun n => (length n <= 31)%nat) done ->
  sheet_names_from fuel raw done = Some l ->
  NoDup l /\ Forall (fun n => (length n <= 31)%nat) l.
Proof.
  induction raw as [|r raw IH]; intros done l Hnd Hlen H; simpl in H.
  - injection H as <-. auto.
  - destruct (sanitize_sheet_name fuel r (Z.of_nat (length done)) done) as [n|] eqn:E;
      [|discriminate].
    unfold sanitize_sheet_name in E.
    apply ensure_unique_fresh in E as [Hfresh Hn].
    apply (IH (done ++ [n]) l); [| |exact H].
    + apply NoDup_app. split; [exact Hnd|]. split; [|apply NoDup_singleton].
      intros x Hx Hx'. apply list_elem_of_singleton in Hx'. subst x.
      apply Hfresh. apply list_elem_of_In. exact Hx.
    + apply Forall_app. split; [exact Hlen|].
      constructor; [|constructor]. apply Hn. apply sanitize_base_length.
Qed.

Lemma sheet_names_distinct fuel raw l :
  sheet_names fuel raw = Some l ->
  NoDup l /\ Forall (fun n => (length n <= 31)%nat) l.
Proof.
  apply sheet_names_from_distinct; [apply NoDup_nil_2|constructor].
Qed.

(** The fixtures of the design text. *)
Lemma sheet_name_fixtures :
  sanitize_sheet_name 1 (lit "Sales/Q1:2024[final]") 0 [] = Some (lit "SalesQ12024final") /\
  sheet_names 2 [lit "Data"; lit "Data"] = Some [lit "Data"; lit "Data (1)"] /\
  sanitize_sheet_name 1 (lit "[]") 3 [] = Some (lit "Sheet4") /\
  gemini_sanitize_sheet_name (lit "Sales/Q1:2024[final]") = lit "SalesQ12024final".
Proof. repeat split; vm_compute; reflexivity. Qed.

(** A 31-character name cannot take a suffix: the cut gives it back. *)
Lemma with_suffix_name31 suffix : with_suffix name31 suffix = name31.
Proof.
  unfold with_suffix, EXCEL_SHEETNAME_MAX.
  rewrite take_take. change (31 `min` 127)%nat with 31%nat.
  rewrite take_app_le by (unfold name31; rewrite length_replicate; lia).
  apply take_ge. unfold name31. rewrite length_replicate. lia.
Qed.

Lemma ensure_unique_name31 fuel : forall suffix,
  ensure_unique fuel [name31] name31 suffix = None.
Proof.
  induction fuel as [|fuel IH]; intros suffix; cbn [ensure_unique existsb]; [reflexivity|].
  rewrite streq_refl. cbn [orb]. rewrite with_suffix_name31. apply IH.
Qed.

(** C7, where the code departs from it (copilot exporter).  Only one
    leading apostrophe is removed, so [''Data] becomes ['Data]; the cut
    at 31 characters comes after the apostrophes are trimmed and can
    leave one at the end; and for two tables with the same 31-character
    name the uniqueness loop never returns, whatever the number of turns
    it is given: the suffix is cut off again each time. *)
Theorem sheet_name_apostrophe_and_collision_slips :
  (forall fuel, sanitize_sheet_name (S fuel) (lit "''Data") 0 [] = Some (lit "'Data")) /\
  (forall fuel, sanitize_sheet_name (S fuel) name_quote_at_31 0 [] =
                Some (replicate 30 "a"%char ++ lit "'")) /\
  (forall fuel, sheet_names fuel [name31; name31] = None).
Proof.
  split; [|split].
  - intros fuel. reflexivity.
  - intros fuel. reflexivity.
  - intros [|fuel]; [reflexivity|].
    unfold sheet_names. cbn [sheet_names_from].
    assert (Hbase : sanitize_base name31 (Z.of_nat 0) = name31) by reflexivity.
    unfold sanitize_sheet_name at 1. cbn [length]. rewrite Hbase.
    cbn [ensure_unique existsb app].
    unfold sanitize_sheet_name. cbn [length app].
    assert (Hbase1 : sanitize_base name31 (Z.of_nat 1) = name31) by reflexivity.
    rewrite Hbase1. rewrite ensure_unique_name31. reflexivity.
Qed.

Lemma digit_not_forbidden r : 0 <= r < 10 -> forbidden (chr (48 + r)) = false.
Proof.
  intros H.
  assert (Hr : r = 0 \/ r = 1 \/ r = 2 \/ r = 3 \/ r = 4 \/ r = 5 \/ r = 6 \/ r = 7 \/
               r = 8 \/ r = 9) by lia.
  repeat (destruct Hr as [-> | Hr]; [reflexivity|]). subst r. reflexivity.
Qed.

Lemma dec_digits_not_forbidden fuel : forall n acc,
  Forall (fun c => forbidden c = false) acc ->
  Forall (fun c => forbidden c = false) (dec_digits fuel n acc).
Proof.
  induction fuel as [|fuel IH]; intros n acc Hacc; simpl; [exact Hacc|].
  assert (Hd : forbidden (chr (48 + n mod 10)) = false).
  { apply digit_not_forbidden. apply Z.mod_pos_bound. lia. }
  destruct (n <? 10); [constructor; assumption|].
  apply IH. constructor; assumption.
Qed.

Lemma fmt_d_not_forbidden n : Forall (fun c => forbidden c = false) (fmt_d n).
Proof.
  unfold fmt_d. destruct (n <? 0).
  - constructor; [reflexivity|]. apply dec_digits_not_forbidden. constructor.
  - apply dec_digits_not_forbidden. constructor.
Qed.

Lemma Forall_take_keeps {A} (P : A -> Prop) n (l : list A) :
  Forall P l -> Forall P (take n l).
Proof. intros H. apply Forall_take. exact H. Qed.

Lemma sanitize_base_not_forbidden name idx :
  Forall (fun c => forbidden c = false) (sanitize_base name idx).
Proof.
  unfold sanitize_base. apply Forall_take_keeps.
  set (stripped := List.filter (fun c => negb (forbidden c))
                     (trim_right isspace (drop_while isspace name))).
  assert (Hs : Forall (fun c => forbidden c = false) stripped).
  { apply List.Forall_forall. intros c Hc. apply List.filter_In in Hc as [_ Hc].
    apply negb_true_iff in Hc. exact Hc. }
  assert (Hl : Forall (fun c => forbidden c = false) (strip_leading_quote stripped)).
  { unfold strip_leading_quote. destruct stripped as [|c rest]; [constructor|].
    destruct (ch_eqb c apostrophe); [|exact Hs]. inversion Hs; assumption. }
  assert (Ht : Forall (fun c => forbidden c = false)
                 (strip_trailing_quote (strip_leading_quote stripped))).
  { unfold strip_trailing_quote.
    destruct (rev (strip_leading_quote stripped)) as [|c rest] eqn:E; [constructor|].
    destruct (ch_eqb c apostrophe); [|exact Hl].
    apply Forall_rev. apply Forall_rev in Hl. rewrite E in Hl. inversion Hl; assumption. }
  destruct (strip_trailing_quote (strip_leading_quote stripped)); [|exact Ht].
  apply Forall_app. split; [repeat constructor|apply fmt_d_not_forbidden].
Qed.

(** Whatever the loop returns holds none of the characters
    [: \ / ? * [ ]]. *)
Lemma sanitize_sheet_name_not_forbidden fuel : forall name idx existing n,
  sanitize_sheet_name fuel name idx existing = Some n ->
  Forall (fun c => forbidden c = false) n.
Proof.
  intros name idx existing n. unfold sanitize_sheet_name.
  generalize (sanitize_base_not_forbidden name idx).
  generalize (sanitize_base name idx) as tmp. generalize 1 as suffix.
  induction fuel as [|fuel IH]; intros suffix tmp Htmp H; simpl in H; [discriminate|].
  destruct (existsb (fun e => streq e tmp) existing).
  - apply IH in H; [exact H|].
    unfold with_suffix. do 2 apply Forall_take_keeps.
    apply Forall_app. split; [exact Htmp|].
    apply Forall_app. split; [repeat constructor|].
    apply Forall_app. split; [apply fmt_d_not_forbidden|repeat constructor].
  - injection H as <-. exact Htmp.
Qed.

(** The gemini exporter strips and cuts, nothing more: apostrophes stay,
    an empty result stays empty, and two tables can get the same sheet
    name. *)
Lemma gemini_sheet_name_gaps :
  gemini_sanitize_sheet_name (lit "'Data'") = lit "'Data'" /\
  gemini_sanitize_sheet_name (lit "[]") = [] /\
  gemini_sanitize_sheet_name (lit "a/b") = gemini_sanitize_sheet_name (lit "ab").
Proof. repeat split; reflexivity. Qed.

End SheetNames.

(* ================================================================== *)
(** * Further properties of the code *)
(* ================================================================== *)

(** ** Decimal numbers: [printf("%d")] read back by [atoi] *)

Section Decimal.
Import CStr.

Lemma digit_chr r : 0 <= r < 10 -> isdigit (chr (48 + r)) = true /\ code (chr (48 + r)) - 48 = r.
Proof.
  intros H. unfold isdigit. rewrite code_chr by lia.
  split; [|lia]. apply andb_true_iff. split; apply Z.leb_le; lia.
Qed.

(** What the digit loop writes: one or more digits, and [atoi]'s digit
    loop reads the number back from them. *)
Lemma dec_digits_spec fuel : forall n acc,
  0 <= n < 10 ^ Z.of_nat (S fuel) ->
  exists ds,
    dec_digits (S fuel) n acc = ds ++ acc /\
    ds <> [] /\ Forall (fun c => isdigit c = true) ds /\
    forall a rest, atoi_digits a (ds ++ rest) =
                   atoi_digits (a * 10 ^ Z.of_nat (length ds) + n) rest.
Proof.
  induction fuel as [|fuel IH]; intros n acc Hn.
  - change (10 ^ Z.of_nat 1) with 10 in Hn.
    exists [chr (48 + n mod 10)].
    assert (Hd : n mod 10 = n) by (apply Z.mod_small; lia).
    destruct (digit_chr n ltac:(lia)) as [Hdig Hval].
    simpl. replace (n <? 10) with true by (symmetry; apply Z.ltb_lt; lia).
    rewrite Hd. split; [reflexivity|]. split; [discriminate|].
    split; [repeat constructor; exact Hdig|].
    intros a rest. simpl. rewrite Hdig, Hval. f_equal; lia.
  - assert (Hb : 0 <= n mod 10 < 10) by (apply Z.mod_pos_bound; lia).
    destruct (digit_chr (n mod 10) Hb) as [Hdig Hval].
    change (dec_digits (S (S fuel)) n acc) with
      (let acc' := chr (48 + n mod 10) :: acc in
       if n <? 10 then acc' else dec_digits (S fuel) (n / 10) acc').
    cbn zeta. destruct (n <? 10) eqn:E.
    + apply Z.ltb_lt in E. exists [chr (48 + n mod 10)].
      assert (Hd : n mod 10 = n) by (apply Z.mod_small; lia).
      split; [reflexivity|]. split; [discriminate|].
      split; [repeat constructor; exact Hdig|].
      intros a rest. simpl. rewrite Hdig, Hval, Hd. f_equal; lia.
    + apply Z.ltb_ge in E.
      assert (Hq : 0 <= n / 10 < 10 ^ Z.of_nat (S fuel)).
      { split; [apply Z.div_pos; lia|].
        apply Z.div_lt_upper_bound; [lia|].
        replace (Z.of_nat (S (S fuel))) with (Z.succ (Z.of_nat (S fuel))) in Hn by lia.
        rewrite Z.pow_succ_r in Hn by lia. lia. }
      destruct (IH (n / 10) (chr (48 + n mod 10) :: acc) Hq) as (ds & Heq & Hne & Hdigs & Hread).
      exists (ds ++ [chr (48 + n mod 10)]).
      split; [rewrite Heq, <- app_assoc; reflexivity|].
      split; [destruct ds; discriminate|].
      split; [apply Forall_app; split; [exact Hdigs|repeat constructor; exact Hdig]|].
      intros a rest. rewrite <- app_assoc. simpl.
      rewrite Hread. simpl. rewrite Hdig, Hval.
      f_equal. rewrite length_app. simpl.
      replace (Z.of_nat (length ds + 1)) with (Z.succ (Z.of_nat (length ds))) by lia.
      rewrite Z.pow_succ_r by lia.
      pose proof (Z.div_mod n 10 ltac:(lia)). lia.
Qed.

Lemma pow_10_20 : 10 ^ Z.of_nat 20 = 100000000000000000000.
Proof. reflexivity. Qed.

(** A non-negative number is printed as digits only. *)
Lemma fmt_d_digits n :
  0 <= n < 10 ^ 20 ->
  fmt_d n <> [] /\ Forall (fun c => isdigit c = true) (fmt_d n) /\
  forall a rest, atoi_digits a (fmt_d n ++ rest) =
                 atoi_digits (a * 10 ^ Z.of_nat (length (fmt_d n)) + n) rest.
Proof.
  intros Hn. unfold fmt_d.
  replace (n <? 0) with false by (symmetry; apply Z.ltb_ge; lia).
  destruct (dec_digits_spec 19 n []) as (ds & Heq & Hne & Hdigs & Hread).
  { rewrite pow_10_20. lia. }
  rewrite app_nil_r in Heq. rewrite Heq. auto.
Qed.

Lemma atoi_digits_stop a rest :
  match rest with c :: _ => isdigit c = false | [] => True end ->
  atoi_digits a rest = a.
Proof. destruct rest as [|c r]; simpl; [reflexivity|]. intros ->. reflexivity. Qed.

Lemma digit_not_space_or_sign c :
  isdigit c = true ->
  isspace c = false /\ ch_eqb c "-" = false /\ ch_eqb c "+" = false /\ isalpha c = false.
Proof.
  unfold isdigit, isspace, isalpha, isupper, islower. intros H.
  apply andb_true_iff in H as [H1 H2]. apply Z.leb_le in H1. apply Z.leb_le in H2.
  assert (Hne : forall z, (z < 48 \/ 57 < z) -> 0 <= z < 256 -> ch_eqb c (chr z) = false).
  { intros z Hz Hr. unfold ch_eqb. apply Ascii.eqb_neq. intros ->.
    rewrite code_chr in H1, H2 by lia. lia. }
  repeat split.
  - apply orb_false_iff. split; [apply Z.eqb_neq; lia|].
    apply andb_false_iff. right. apply Z.leb_gt. lia.
  - apply (Hne 45); lia.
  - apply (Hne 43); lia.
  - apply orb_false_iff. split; apply andb_false_iff; left; apply Z.leb_gt; lia.
Qed.

Lemma strtol_value_digit_start c r :
  isdigit c = true -> strtol_value (c :: r) = atoi_digits 0 (c :: r).
Proof.
  intros H. destruct (digit_not_space_or_sign c H) as (Hs & Hm & Hp & _).
  unfold strtol_value. cbn [drop_while]. rewrite Hs, Hm, Hp. reflexivity.
Qed.

(** The number [strtol] finds in what [%d] prints, whatever follows the
    digits. *)
Lemma strtol_value_fmt_d n rest :
  - 10 ^ 20 < n < 10 ^ 20 ->
  match rest with c :: _ => isdigit c = false | [] => True end ->
  strtol_value (fmt_d n ++ rest) = n.
Proof.
  intros Hn Hrest. destruct (Z_lt_ge_dec n 0) as [Hneg|Hpos].
  - unfold fmt_d. replace (n <? 0) with true by (symmetry; apply Z.ltb_lt; lia).
    destruct (dec_digits_spec 19 (- n) []) as (ds & Heq & Hne & Hdigs & Hread).
    { rewrite pow_10_20. lia. }
    rewrite app_nil_r in Heq. rewrite Heq.
    unfold strtol_value. simpl. rewrite Hread, atoi_digits_stop by assumption. lia.
  - destruct (fmt_d_digits n ltac:(lia)) as (Hne & Hdigs & Hread).
    destruct (fmt_d n) as [|c r] eqn:E; [contradiction|].
    apply Forall_inv in Hdigs.
    change ((c :: r) ++ rest) with (c :: (r ++ rest)).
    rewrite (strtol_value_digit_start c (r ++ rest) Hdigs).
    change (c :: r ++ rest) with ((c :: r) ++ rest).
    rewrite Hread, atoi_digits_stop by assumption. lia.
Qed.

(** [atoi] reads back what [%d] prints for an [int], whatever follows
    the digits. *)
Lemma atoi_fmt_d n rest :
  -2147483648 <= n <= 2147483647 ->
  match rest with c :: _ => isdigit c = false | [] => True end ->
  atoi (fmt_d n ++ rest) = n.
Proof.
  intros Hn Hrest.
  assert (Hv : strtol_value (fmt_d n ++ rest) = n).
  { apply strtol_value_fmt_d; [|exact Hrest]. change (10 ^ 20) with 100000000000000000000. lia. }
  rewrite atoi_small; rewrite Hv; [reflexivity|exact Hn].
Qed.

End Decimal.

(** ** Cell references: what the exporters write, the importers read back *)

Section CellReferences.
Import CStr ColLetters.

Lemma letter_temp_letters_buf fuel : forall v, letter_temp fuel v = letters_buf fuel v.
Proof.
  induction fuel as [|fuel IH]; intros v; simpl; [reflexivity|].
  destruct (0 <? v); [|reflexivity]. rewrite IH. reflexivity.
Qed.

(** The letters do not depend on the size of the buffer once they fit. *)
Lemma letters_buf_fuel k : forall room v,
  v <= capacity k -> (k <= room)%nat -> letters_buf room v = letters_buf k v.
Proof.
  induction k as [|k IH]; intros room v Hv Hk.
  - simpl in Hv. destruct room; simpl; [reflexivity|].
    replace (0 <? v) with false; [reflexivity|]. symmetry. apply Z.ltb_ge. lia.
  - destruct room as [|room]; [lia|]. simpl.
    destruct (0 <? v) eqn:Hpos; [|reflexivity].
    apply Z.ltb_lt in Hpos. f_equal. apply IH; [|lia].
    rewrite Z.quot_div_nonneg by lia. simpl in Hv.
    apply Z.lt_succ_r. apply Z.div_lt_upper_bound; lia.
Qed.

Lemma col_to_letters_eq col outsz :
  0 <= col <= 2147483646 -> (8 <= outsz)%nat ->
  col_to_letters col outsz = rev (letters_buf 7 (col + 1)).
Proof.
  intros Hc Hsz. unfold col_to_letters.
  assert (H7 : col + 1 <= capacity 7) by (rewrite capacity_7; lia).
  rewrite (letters_buf_fuel 7 15) by (auto; lia).
  apply take_ge. rewrite length_rev.
  pose proof (letters_buf_length 7 7 (col + 1) H7). lia.
Qed.

Lemma col_to_letter_eq col :
  0 <= col <= 2147483646 -> col_to_letter col = rev (letters_buf 7 (col + 1)).
Proof.
  intros Hc. unfold col_to_letter. rewrite letter_temp_letters_buf.
  rewrite (letters_buf_fuel 7 16); [reflexivity| |lia].
  rewrite capacity_7. lia.
Qed.

Lemma letters_upper col : Forall (fun c => isupper c = true) (rev (letters_buf 7 (col + 1))).
Proof. apply Forall_rev, letters_buf_upper. Qed.

Lemma letters_length col : (length (rev (letters_buf 7 (col + 1))) <= 7)%nat.
Proof.
  rewrite length_rev. destruct (Z_le_gt_dec (col + 1) (capacity 7)) as [H|H].
  - apply letters_buf_length. exact H.
  - clear H. generalize (col + 1). generalize 7%nat.
    induction n as [|n IH]; intros v; simpl; [lia|].
    destruct (0 <? v); simpl; [|lia]. apply le_n_S, IH.
Qed.

Lemma letters_value col :
  0 <= col <= 2147483646 -> col_to_num_from 0 (rev (letters_buf 7 (col + 1))) = col + 1.
Proof. intros Hc. apply letters_buf_decode. rewrite capacity_7. lia. Qed.

Lemma upper_alpha c : isupper c = true -> isalpha c = true /\ isdigit c = false.
Proof.
  unfold isalpha, isupper, isdigit. intros H. rewrite H. split; [reflexivity|].
  apply andb_true_iff in H as [H1 H2]. apply Z.leb_le in H1.
  apply andb_false_iff. right. apply Z.leb_gt. lia.
Qed.

(** The two scanning loops on a reference made of capital letters
    followed by something that starts with no letter. *)
Lemma drop_while_alpha l rest :
  Forall (fun c => isupper c = true) l ->
  match rest with c :: _ => isalpha c = false | [] => True end ->
  drop_while isalpha (l ++ rest) = rest.
Proof.
  intros Hl Hrest. induction Hl as [|c l Hc _ IH]; simpl.
  - destruct rest as [|c r]; simpl; [reflexivity|]. rewrite Hrest. reflexivity.
  - destruct (upper_alpha c Hc) as [-> _]. exact IH.
Qed.

Lemma take_while_not_digit l rest :
  Forall (fun c => isupper c = true) l ->
  match rest with c :: _ => isdigit c = true | [] => True end ->
  take_while (fun c => negb (isdigit c)) (l ++ rest) = l.
Proof.
  intros Hl Hrest. induction Hl as [|c l Hc _ IH]; simpl.
  - destruct rest as [|c r]; simpl; [reflexivity|]. rewrite Hrest. reflexivity.
  - destruct (upper_alpha c Hc) as [_ ->]. simpl. f_equal. exact IH.
Qed.

Lemma col_to_num_from_stop num rest :
  match rest with c :: _ => isalpha c = false | [] => True end ->
  col_to_num_from num rest = num.
Proof. destruct rest as [|c r]; simpl; [reflexivity|]. intros ->. reflexivity. Qed.

(** The copilot decoder and the opus decoder read the same number from
    every string: the case split of the one is the [toupper] of the
    other. *)
Lemma colname_to_index_from_eq s : forall n,
  colname_to_index_from n s = col_to_num_from n s.
Proof.
  induction s as [|c s IH]; intros n; simpl; [reflexivity|].
  unfold isalpha, toupper.
  destruct (isupper c) eqn:Hu; simpl.
  - assert (Hl : islower c = false).
    { unfold isupper, islower in *. apply andb_true_iff in Hu as [_ H2].
      apply Z.leb_le in H2. apply andb_false_iff. left. apply Z.leb_gt. lia. }
    rewrite Hl. apply IH.
  - destruct (islower c) eqn:Hl; [|reflexivity].
    rewrite IH. f_equal. lia.
Qed.

Lemma printed_row_starts_with_digit row :
  0 <= row <= 2147483647 ->
  match fmt_d row with
  | c :: _ => isdigit c = true /\ isalpha c = false
  | [] => False
  end.
Proof.
  intros Hr. destruct (fmt_d_digits row) as (Hne & Hdigs & _); [lia|].
  destruct (fmt_d row) as [|c r]; [contradiction|].
  apply Forall_inv in Hdigs. split; [exact Hdigs|].
  apply (digit_not_space_or_sign c Hdigs).
Qed.

(** X1: a cell reference written by the opus exporter ([col_to_letter]
    of a 0-based column followed by the row number printed with [%d])
    is read by [parse_cell_ref] of the opus importer as that row and the
    corresponding 1-based column, for every column and row a C [int]
    holds. *)
Theorem opus_cell_ref_roundtrip (col row : Z) :
  0 <= col <= 2147483646 -> 0 <= row <= 2147483647 ->
  OpusImport.parse_cell_ref (OpusExport.cell_ref col row) = (col + 1, row).
Proof.
  intros Hc Hr. unfold OpusImport.parse_cell_ref, OpusExport.cell_ref, col_to_num.
  rewrite col_to_letter_eq by exact Hc.
  pose proof (printed_row_starts_with_digit row Hr) as Hd.
  assert (Hstop : match fmt_d row with c :: _ => isalpha c = false | [] => True end).
  { destruct (fmt_d row); [exact I|]. apply Hd. }
  rewrite col_to_num_from_app by apply letters_upper.
  rewrite letters_value by exact Hc.
  rewrite col_to_num_from_stop by exact Hstop.
  rewrite drop_while_alpha by (auto using letters_upper).
  f_equal. rewrite <- (app_nil_r (fmt_d row)). apply atoi_fmt_d; [lia|exact I].
Qed.

Lemma opus_cell_ref_roundtrip_witness :
  OpusImport.parse_cell_ref (OpusExport.cell_ref 16383 1048576) = (16383 + 1, 1048576).
Proof. apply opus_cell_ref_roundtrip; lia. Defined.

(** X2: the copilot importer's column index ([colidx_of], the letters
    loop of [sheet_end] followed by [colname_to_index]) of a reference
    written by the copilot exporter ([col_to_letters] into an 8-byte
    buffer, then the row number) is the exporter's 0-based column. *)
Theorem copilot_cell_ref_roundtrip (col row : Z) :
  0 <= col <= 2147483646 -> 0 <= row <= 2147483647 ->
  CopilotImport.colidx_of (col_to_letters col 8 ++ fmt_d row) = col.
Proof.
  intros Hc Hr. unfold CopilotImport.colidx_of, CopilotImport.colletters_of, colname_to_index.
  rewrite col_to_letters_eq by (auto; lia).
  pose proof (printed_row_starts_with_digit row Hr) as Hd.
  rewrite take_while_not_digit; [|apply letters_upper|destruct (fmt_d row); [exact I|apply Hd]].
  rewrite take_ge by (pose proof (letters_length col); lia).
  rewrite colname_to_index_from_eq, letters_value by exact Hc.
  replace (col + 1 - 1 <? 0) with false; [lia|].
  symmetry. apply Z.ltb_ge. lia.
Qed.

Lemma copilot_cell_ref_roundtrip_witness :
  CopilotImport.colidx_of (col_to_letters 16383 8 ++ fmt_d 1048576) = 16383.
Proof. apply copilot_cell_ref_roundtrip; lia. Defined.

(** X3: [extract_col_row] of the gemini importer reads a reference
    written by the gemini exporter ([int_to_col] of a 0-based column
    followed by the row number) as the 1-based column and the row. *)
Theorem gemini_cell_ref_roundtrip (col row : Z) :
  0 <= col <= 2147483646 -> 0 <= row <= 2147483647 ->
  GeminiLetters.extract_col_row (GeminiLetters.int_to_col col ++ fmt_d row) = (col + 1, row).
Proof.
  intros Hc Hr. unfold GeminiLetters.extract_col_row, GeminiLetters.int_to_col.
  change (rev (letter_temp 16 (col + 1))) with (col_to_letter col).
  rewrite col_to_letter_eq by exact Hc.
  pose proof (printed_row_starts_with_digit row Hr) as Hd.
  rewrite drop_while_alpha; [|apply letters_upper|destruct (fmt_d row); [exact I|apply Hd]].
  cbn zeta. rewrite length_app.
  replace (length (rev (letters_buf 7 (col + 1))) + length (fmt_d row) - length (fmt_d row))%nat
    with (length (rev (letters_buf 7 (col + 1)))) by lia.
  pose proof (letters_length col) as Hlen.
  replace (16 <=? length (rev (letters_buf 7 (col + 1))))%nat with false
    by (symmetry; apply Nat.leb_gt; lia).
  rewrite take_app_length. f_equal.
  - unfold GeminiLetters.col_to_int.
    transitivity (col_to_num_from 0 (rev (letters_buf 7 (col + 1)))); [|apply letters_value; exact Hc].
    generalize 0. generalize (rev (letters_buf 7 (col + 1))).
    induction l as [|c l IH]; intros n; simpl; [reflexivity|].
    destruct (isalpha c); [apply IH|reflexivity].
  - rewrite <- (app_nil_r (fmt_d row)). apply atoi_fmt_d; [lia|exact I].
Qed.

Lemma gemini_cell_ref_roundtrip_witness :
  GeminiLetters.extract_col_row (GeminiLetters.int_to_col 16383 ++ fmt_d 1048576)
  = (16383 + 1, 1048576).
Proof. apply gemini_cell_ref_roundtrip; lia. Defined.

(** Every letter adds to the accumulator, so the partial values of the
    loop never exceed its result. *)
Lemma col_to_num_from_ge s : forall n, 0 <= n -> n <= col_to_num_from n s.
Proof.
  induction s as [|c s IH]; intros n Hn; cbn [col_to_num_from]; [lia|].
  destruct (isalpha c) eqn:E; [|lia].
  assert (Hc : 1 <= toupper c - 65 + 1).
  { unfold isalpha, toupper, isupper, islower in *.
    destruct ((97 <=? code c) && (code c <=? 122)) eqn:El.
    - apply andb_true_iff in El as [H1 H2]. apply Z.leb_le in H1. lia.
    - rewrite orb_false_r in E. apply andb_true_iff in E as [H1 H2].
      apply Z.leb_le in H1. lia. }
  specialize (IH (n * 26 + (toupper c - 65 + 1)) ltac:(lia)). lia.
Qed.

(** X4: the three exporters write the same letters for every column a C
    [int] holds, and the three importers read the same column number
    from every string whose letters denote a number that fits a C
    [int] (no accumulator of the three loops overflows then): the files
    of one implementation are read by the others with the columns in
    place. *)
Theorem column_codecs_agree :
  (forall col, 0 <= col <= 2147483646 ->
     col_to_letter col = col_to_letters col 8 /\
     GeminiLetters.int_to_col col = col_to_letters col 8) /\
  (forall s, col_to_num s <= 2147483647 ->
     GeminiLetters.col_to_int s = col_to_num s /\
     colname_to_index s = col_to_num s - 1 /\
     -1 <= colname_to_index s < 2147483647).
Proof.
  split.
  - intros col Hc. rewrite col_to_letters_eq by (auto; lia).
    split; [apply col_to_letter_eq; exact Hc|].
    unfold GeminiLetters.int_to_col.
    change (rev (letter_temp 16 (col + 1))) with (col_to_letter col).
    apply col_to_letter_eq; exact Hc.
  - intros s Hs.
    assert (Hidx : colname_to_index s = col_to_num s - 1).
    { unfold colname_to_index, col_to_num. rewrite colname_to_index_from_eq. reflexivity. }
    split; [|split; [exact Hidx|]].
    + clear Hs Hidx. unfold GeminiLetters.col_to_int, col_to_num. generalize 0.
      induction s as [|c s IH]; intros n; simpl; [reflexivity|].
      destruct (isalpha c); [apply IH|reflexivity].
    + rewrite Hidx. pose proof (col_to_num_from_ge s 0 ltac:(lia)). unfold col_to_num in *. lia.
Qed.

Lemma column_codecs_agree_witness :
  (col_to_letter 16383 = col_to_letters 16383 8 /\
   GeminiLetters.int_to_col 16383 = col_to_letters 16383 8) /\
  (GeminiLetters.col_to_int (lit "XFD") = col_to_num (lit "XFD") /\
   colname_to_index (lit "XFD") = col_to_num (lit "XFD") - 1 /\
   -1 <= colname_to_index (lit "XFD") < 2147483647).
Proof.
  split.
  - apply (proj1 column_codecs_agree 16383). lia.
  - apply (proj2 column_codecs_agree (lit "XFD")). vm_compute. discriminate.
Defined.

End CellReferences.

(** ** The three shared-string parsers *)

Section SharedStringParsers.
Import CStr Xml Documents.

Lemma fold_chunks {S} (step : S -> xml_event -> S) (app : S -> cstring -> S) chunks :
  (forall s c, step s (CharacterData c) = app s c) ->
  forall s, fold_left step (map CharacterData chunks) s = fold_left app chunks s.
Proof.
  intros H. induction chunks as [|c chunks IH]; intros s; simpl; [reflexivity|].
  rewrite H. apply IH.
Qed.

(** *** copilot: one string per item, the runs joined *)

Lemma copilot_t_events chunks ss0 cur0 :
  fold_left CopilotImport.ss_step (t_events chunks)
    {| CopilotImport.ss := ss0; CopilotImport.in_si := true;
       CopilotImport.ss_in_t := false; CopilotImport.cur := cur0 |}
  = {| CopilotImport.ss := ss0; CopilotImport.in_si := true;
       CopilotImport.ss_in_t := false; CopilotImport.cur := cur0 ++ concat chunks |}.
Proof.
  unfold t_events. cbn [fold_left CopilotImport.ss_step].
  rewrite fold_left_app.
  change (CopilotImport.ss_start _ (lit "t")) with
    {| CopilotImport.ss := ss0; CopilotImport.in_si := true;
       CopilotImport.ss_in_t := true; CopilotImport.cur := cur0 |}.
  assert (H : forall chunks cur1,
    fold_left CopilotImport.ss_step (map CharacterData chunks)
      {| CopilotImport.ss := ss0; CopilotImport.in_si := true;
         CopilotImport.ss_in_t := true; CopilotImport.cur := cur1 |}
    = {| CopilotImport.ss := ss0; CopilotImport.in_si := true;
         CopilotImport.ss_in_t := true; CopilotImport.cur := cur1 ++ concat chunks |}).
  { clear. induction chunks as [|c chunks IH]; intros cur1; simpl.
    - rewrite app_nil_r. reflexivity.
    - unfold CopilotImport.ss_char at 1. cbn. rewrite IH, <- app_assoc. reflexivity. }
  rewrite H. reflexivity.
Qed.

Lemma copilot_si_events runs ss0 cur0 :
  fold_left CopilotImport.ss_step (si_events runs)
    {| CopilotImport.ss := ss0; CopilotImport.in_si := false;
       CopilotImport.ss_in_t := false; CopilotImport.cur := cur0 |}
  = {| CopilotImport.ss := ss0 ++ [concat (concat runs)]; CopilotImport.in_si := false;
       CopilotImport.ss_in_t := false; CopilotImport.cur := concat (concat runs) |}.
Proof.
  unfold si_events. cbn [fold_left CopilotImport.ss_step].
  rewrite fold_left_app.
  change (CopilotImport.ss_start _ (lit "si")) with
    {| CopilotImport.ss := ss0; CopilotImport.in_si := true;
       CopilotImport.ss_in_t := false; CopilotImport.cur := [] |}.
  assert (H : forall runs cur1,
    fold_left CopilotImport.ss_step (concat (map t_events runs))
      {| CopilotImport.ss := ss0; CopilotImport.in_si := true;
         CopilotImport.ss_in_t := false; CopilotImport.cur := cur1 |}
    = {| CopilotImport.ss := ss0; CopilotImport.in_si := true;
         CopilotImport.ss_in_t := false; CopilotImport.cur := cur1 ++ concat (concat runs) |}).
  { clear. induction runs as [|r runs IH]; intros cur1; cbn [map concat].
    - rewrite app_nil_r. reflexivity.
    - rewrite fold_left_app, copilot_t_events, IH.
      rewrite concat_app, <- app_assoc. reflexivity. }
  rewrite H. reflexivity.
Qed.

Lemma copilot_items items : forall ss0 cur0, exists cur1,
  fold_left CopilotImport.ss_step (concat (map si_events items))
    {| CopilotImport.ss := ss0; CopilotImport.in_si := false;
       CopilotImport.ss_in_t := false; CopilotImport.cur := cur0 |}
  = {| CopilotImport.ss := ss0 ++ map (fun runs => concat (concat runs)) items;
       CopilotImport.in_si := false; CopilotImport.ss_in_t := false;
       CopilotImport.cur := cur1 |}.
Proof.
  induction items as [|runs items IH]; intros ss0 cur0; cbn [map concat].
  - exists cur0. rewrite app_nil_r. reflexivity.
  - rewrite fold_left_app, copilot_si_events.
    destruct (IH (ss0 ++ [concat (concat runs)]) (concat (concat runs))) as [cur1 ->].
    exists cur1. rewrite <- app_assoc. reflexivity.
Qed.

(** *** opus: one string per item, the text of its last run *)

Lemma opus_t_events chunks ss0 cur0 :
  fold_left OpusStrings.ss_step (t_events chunks)
    {| OpusStrings.strings := ss0; OpusStrings.in_t := false; OpusStrings.current := cur0 |}
  = {| OpusStrings.strings := ss0; OpusStrings.in_t := false;
       OpusStrings.current := concat chunks |}.
Proof.
  unfold t_events. cbn [fold_left OpusStrings.ss_step].
  rewrite fold_left_app.
  change (OpusStrings.ss_start_element _ (lit "t")) with
    {| OpusStrings.strings := ss0; OpusStrings.in_t := true; OpusStrings.current := [] |}.
  assert (H : forall chunks cur1,
    fold_left OpusStrings.ss_step (map CharacterData chunks)
      {| OpusStrings.strings := ss0; OpusStrings.in_t := true; OpusStrings.current := cur1 |}
    = {| OpusStrings.strings := ss0; OpusStrings.in_t := true;
         OpusStrings.current := cur1 ++ concat chunks |}).
  { clear. induction chunks as [|c chunks IH]; intros cur1;
      cbn [map fold_left OpusStrings.ss_step concat].
    - rewrite app_nil_r. reflexivity.
    - change (OpusStrings.ss_char_data _ c) with
        {| OpusStrings.strings := ss0; OpusStrings.in_t := true;
           OpusStrings.current := cur1 ++ c |}.
      rewrite IH, <- app_assoc. reflexivity. }
  rewrite H. reflexivity.
Qed.

Lemma opus_runs runs : forall ss0 cur0,
  fold_left OpusStrings.ss_step (concat (map t_events runs))
    {| OpusStrings.strings := ss0; OpusStrings.in_t := false; OpusStrings.current := cur0 |}
  = {| OpusStrings.strings := ss0; OpusStrings.in_t := false;
       OpusStrings.current := match last runs with Some r => concat r | None => cur0 end |}.
Proof.
  induction runs as [|r runs IH]; intros ss0 cur0; cbn [map concat]; [reflexivity|].
  rewrite fold_left_app, opus_t_events, IH.
  rewrite last_cons. destruct (last runs); reflexivity.
Qed.

Lemma opus_si_events runs ss0 :
  fold_left OpusStrings.ss_step (si_events runs)
    {| OpusStrings.strings := ss0; OpusStrings.in_t := false; OpusStrings.current := [] |}
  = {| OpusStrings.strings := ss0 ++ [last_run runs]; OpusStrings.in_t := false;
       OpusStrings.current := [] |}.
Proof.
  unfold si_events. cbn [fold_left OpusStrings.ss_step].
  rewrite fold_left_app.
  change (OpusStrings.ss_start_element _ (lit "si")) with
    {| OpusStrings.strings := ss0; OpusStrings.in_t := false; OpusStrings.current := [] |}.
  rewrite opus_runs. unfold last_run. destruct (last runs); reflexivity.
Qed.

Lemma opus_items items : forall ss0,
  fold_left OpusStrings.ss_step (concat (map si_events items))
    {| OpusStrings.strings := ss0; OpusStrings.in_t := false; OpusStrings.current := [] |}
  = {| OpusStrings.strings := ss0 ++ map last_run items; OpusStrings.in_t := false;
       OpusStrings.current := [] |}.
Proof.
  induction items as [|runs items IH]; intros ss0; cbn [map concat].
  - rewrite app_nil_r. reflexivity.
  - rewrite fold_left_app, opus_si_events, IH, <- app_assoc. reflexivity.
Qed.

(** *** gemini: one entry per run *)

Lemma gemini_t_events chunks ss0 cur0 :
  fold_left GeminiStrings.shared_strings_step (t_events chunks)
    {| GeminiStrings.strings := ss0; GeminiStrings.in_t_tag := false;
       GeminiStrings.current_str := cur0 |}
  = {| GeminiStrings.strings := ss0 ++ [run_entry chunks]; GeminiStrings.in_t_tag := false;
       GeminiStrings.current_str := run_entry chunks |}.
Proof.
  unfold t_events. cbn [fold_left GeminiStrings.shared_strings_step].
  rewrite fold_left_app.
  change (GeminiStrings.shared_strings_start _ (lit "t")) with
    {| GeminiStrings.strings := ss0; GeminiStrings.in_t_tag := true;
       GeminiStrings.current_str := None |}.
  assert (H : forall chunks cur1,
    fold_left GeminiStrings.shared_strings_step (map CharacterData chunks)
      {| GeminiStrings.strings := ss0; GeminiStrings.in_t_tag := true;
         GeminiStrings.current_str := Some cur1 |}
    = {| GeminiStrings.strings := ss0; GeminiStrings.in_t_tag := true;
         GeminiStrings.current_str := Some (cur1 ++ concat chunks) |}).
  { clear. induction chunks as [|c chunks IH]; intros cur1;
      cbn [map fold_left GeminiStrings.shared_strings_step concat].
    - rewrite app_nil_r. reflexivity.
    - change (GeminiStrings.shared_strings_char _ c) with
        {| GeminiStrings.strings := ss0; GeminiStrings.in_t_tag := true;
           GeminiStrings.current_str := Some (cur1 ++ c) |}.
      rewrite IH, <- app_assoc. reflexivity. }
  destruct chunks as [|c chunks]; [reflexivity|].
  cbn [map fold_left GeminiStrings.shared_strings_step].
  change (GeminiStrings.shared_strings_char _ c) with
    {| GeminiStrings.strings := ss0; GeminiStrings.in_t_tag := true;
       GeminiStrings.current_str := Some ([] ++ c) |}.
  rewrite H. reflexivity.
Qed.

Lemma gemini_runs runs : forall ss0 cur0, exists cur1,
  fold_left GeminiStrings.shared_strings_step (concat (map t_events runs))
    {| GeminiStrings.strings := ss0; GeminiStrings.in_t_tag := false;
       GeminiStrings.current_str := cur0 |}
  = {| GeminiStrings.strings := ss0 ++ map run_entry runs; GeminiStrings.in_t_tag := false;
       GeminiStrings.current_str := cur1 |}.
Proof.
  induction runs as [|r runs IH]; intros ss0 cur0; cbn [map concat].
  - exists cur0. rewrite app_nil_r. reflexivity.
  - rewrite fold_left_app, gemini_t_events.
    destruct (IH (ss0 ++ [run_entry r]) (run_entry r)) as [cur1 ->].
    exists cur1. rewrite <- app_assoc. reflexivity.
Qed.

Lemma gemini_si_events runs ss0 cur0 : exists cur1,
  fold_left GeminiStrings.shared_strings_step (si_events runs)
    {| GeminiStrings.strings := ss0; GeminiStrings.in_t_tag := false;
       GeminiStrings.current_str := cur0 |}
  = {| GeminiStrings.strings := ss0 ++ map run_entry runs; GeminiStrings.in_t_tag := false;
       GeminiStrings.current_str := cur1 |}.
Proof.
  destruct (gemini_runs runs ss0 cur0) as [cur1 H]. exists cur1.
  unfold si_events. cbn [fold_left GeminiStrings.shared_strings_step].
  rewrite fold_left_app.
  change (GeminiStrings.shared_strings_start _ (lit "si")) with
    {| GeminiStrings.strings := ss0; GeminiStrings.in_t_tag := false;
       GeminiStrings.current_str := cur0 |}.
  rewrite H. reflexivity.
Qed.

Lemma gemini_items items : forall ss0 cur0, exists cur1,
  fold_left GeminiStrings.shared_strings_step (concat (map si_events items))
    {| GeminiStrings.strings := ss0; GeminiStrings.in_t_tag := false;
       GeminiStrings.current_str := cur0 |}
  = {| GeminiStrings.strings := ss0 ++ concat (map (map run_entry) items);
       GeminiStrings.in_t_tag := false; GeminiStrings.current_str := cur1 |}.
Proof.
  induction items as [|runs items IH]; intros ss0 cur0; cbn [map concat].
  - exists cur0. rewrite app_nil_r. reflexivity.
  - rewrite fold_left_app.
    destruct (gemini_si_events runs ss0 cur0) as [cur1 ->].
    destruct (IH (ss0 ++ map run_entry runs) cur1) as [cur2 ->].
    exists cur2. rewrite <- app_assoc. reflexivity.
Qed.

(** X5: the copilot importer's shared-string table has one string per
    [si] item, in document order: the texts of all [t] runs of the item
    joined, whatever the chunks expat delivers them in. *)
Theorem copilot_shared_strings_join_runs (items : list (list (list cstring))) :
  CopilotImport.parse_shared_strings (sst_events items)
  = map (fun runs => concat (concat runs)) items.
Proof.
  unfold CopilotImport.parse_shared_strings, sst_events.
  cbn [fold_left CopilotImport.ss_step].
  rewrite fold_left_app.
  change (CopilotImport.ss_start _ (lit "sst")) with
    {| CopilotImport.ss := []; CopilotImport.in_si := false;
       CopilotImport.ss_in_t := false; CopilotImport.cur := [] |}.
  destruct (copilot_items items [] []) as [cur1 ->].
  reflexivity.
Qed.

(** X6: the opus importer's table also has one string per [si] item,
    but [ss_start_element] empties the buffer at every [t]: an item of
    several runs is stored as the text of its last run only (the empty
    string when it has none). *)
Theorem opus_shared_strings_keep_last_run (items : list (list (list cstring))) :
  OpusStrings.parse_shared_strings (sst_events items) = map last_run items /\
  forall first second : list cstring,
    OpusStrings.parse_shared_strings (sst_events [[first; second]]) = [concat second].
Proof.
  assert (H : forall items,
    OpusStrings.parse_shared_strings (sst_events items) = map last_run items).
  { clear. intros items. unfold OpusStrings.parse_shared_strings, sst_events.
    cbn [fold_left OpusStrings.ss_step]. rewrite fold_left_app.
    change (OpusStrings.ss_start_element OpusStrings.ss_init (lit "sst")) with
      {| OpusStrings.strings := []; OpusStrings.in_t := false; OpusStrings.current := [] |}.
    rewrite opus_items. reflexivity. }
  split; [apply H|]. intros first second. rewrite H. reflexivity.
Qed.

(** X7: the gemini importer adds an entry at every closing [t], not at
    every [si]: its table has one entry per run (NULL for a run without
    text), so an item of several runs shifts the index of all the
    strings after it. *)
Theorem gemini_shared_strings_one_entry_per_run (items : list (list (list cstring))) :
  GeminiStrings.parse_shared_strings (sst_events items)
  = concat (map (map run_entry) items) /\
  length (GeminiStrings.parse_shared_strings (sst_events items))
  = sum_list (map length items).
Proof.
  assert (H : GeminiStrings.parse_shared_strings (sst_events items)
              = concat (map (map run_entry) items)).
  { unfold GeminiStrings.parse_shared_strings, sst_events.
    cbn [fold_left GeminiStrings.shared_strings_step]. rewrite fold_left_app.
    change (GeminiStrings.shared_strings_start GeminiStrings.ss_zero (lit "sst")) with
      {| GeminiStrings.strings := []; GeminiStrings.in_t_tag := false;
         GeminiStrings.current_str := None |}.
    destruct (gemini_items items [] None) as [cur1 ->]. reflexivity. }
  split; [exact H|]. rewrite H. clear H.
  induction items as [|runs items IH]; [reflexivity|].
  cbn [map concat]. rewrite length_app, length_map, IH. reflexivity.
Qed.

(** X8: on a table of plain strings (every item a single run with
    text) the three parsers agree: the same strings at the same
    indices. *)
Theorem shared_string_parsers_agree_on_plain_tables (texts : list (list cstring)) :
  Forall (fun chunks => chunks <> []) texts ->
  let doc := sst_events (map (fun chunks => [chunks]) texts) in
  CopilotImport.parse_shared_strings doc = map (fun chunks => concat chunks) texts /\
  OpusStrings.parse_shared_strings doc = map (fun chunks => concat chunks) texts /\
  GeminiStrings.parse_shared_strings doc = map (fun t => Some t) (map (fun chunks => concat chunks) texts).
Proof.
  intros Hne doc. subst doc. unfold sst_events.
  unfold CopilotImport.parse_shared_strings, OpusStrings.parse_shared_strings,
    GeminiStrings.parse_shared_strings.
  cbn [fold_left CopilotImport.ss_step OpusStrings.ss_step GeminiStrings.shared_strings_step].
  rewrite !fold_left_app.
  change (CopilotImport.ss_start _ (lit "sst")) with
    {| CopilotImport.ss := []; CopilotImport.in_si := false;
       CopilotImport.ss_in_t := false; CopilotImport.cur := [] |}.
  change (OpusStrings.ss_start_element OpusStrings.ss_init (lit "sst")) with
    {| OpusStrings.strings := []; OpusStrings.in_t := false; OpusStrings.current := [] |}.
  change (GeminiStrings.shared_strings_start GeminiStrings.ss_zero (lit "sst")) with
    {| GeminiStrings.strings := []; GeminiStrings.in_t_tag := false;
       GeminiStrings.current_str := None |}.
  destruct (copilot_items (map (fun chunks => [chunks]) texts) [] []) as [cur1 ->].
  rewrite opus_items.
  destruct (gemini_items (map (fun chunks => [chunks]) texts) [] None) as [cur2 ->].
  cbn [fold_left CopilotImport.ss_step OpusStrings.ss_step GeminiStrings.shared_strings_step].
  change (CopilotImport.ss (CopilotImport.ss_end ?c (lit "sst"))) with (CopilotImport.ss c).
  cbn [CopilotImport.ss app].
  repeat split.
  - rewrite map_map. apply map_ext. intros chunks. cbn. rewrite app_nil_r. reflexivity.
  - change (OpusStrings.ss_end_element ?c (lit "sst")) with c.
    cbn [OpusStrings.strings app]. rewrite map_map. apply map_ext.
    intros chunks. reflexivity.
  - change (GeminiStrings.shared_strings_end ?c (lit "sst")) with c.
    cbn [GeminiStrings.strings app].
    induction Hne as [|chunks texts Hc _ IH]; [reflexivity|].
    cbn [map concat app]. rewrite IH.
    destruct chunks; [contradiction|reflexivity].
Qed.

Lemma shared_string_parsers_agree_on_plain_tables_witness :
  let doc := sst_events (map (fun chunks => [chunks]) [[lit "id"]; [lit "na"; lit "me"]]) in
  CopilotImport.parse_shared_strings doc = map (fun chunks => concat chunks) [[lit "id"]; [lit "na"; lit "me"]] /\
  OpusStrings.parse_shared_strings doc = map (fun chunks => concat chunks) [[lit "id"]; [lit "na"; lit "me"]] /\
  GeminiStrings.parse_shared_strings doc
  = map (fun t => Some t) (map (fun chunks => concat chunks) [[lit "id"]; [lit "na"; lit "me"]]).
Proof.
  apply shared_string_parsers_agree_on_plain_tables.
  repeat constructor; discriminate.
Defined.

End SharedStringParsers.

(** ** Escaping and quoting *)

Section EscapeFacts.
Import CStr Escapes.

Lemma chr_code c : chr (code c) = c.
Proof. unfold chr, code. rewrite Nat2Z.id. apply ascii_nat_embedding. Qed.


Lemma ch_eqb_code c d : ch_eqb c d = (code c =? code d).
Proof.
  unfold ch_eqb. destruct (Ascii.eqb c d) eqn:E.
  - apply Ascii.eqb_eq in E. subst. symmetry. apply Z.eqb_refl.
  - symmetry. apply Z.eqb_neq. intros H. apply Ascii.eqb_neq in E. apply E.
    rewrite <- (chr_code c), <- (chr_code d), H. reflexivity.
Qed.


(** The character written for one input character by each exporter. *)
Lemma opus_xml_escape_cons c r :
  OpusExport.xml_escape (c :: r) =
  (if ch_eqb c "&" then lit "&amp;"
   else if ch_eqb c "<" then lit "&lt;"
   else if ch_eqb c ">" then lit "&gt;"
   else if code c =? 34 then lit "&quot;"
   else if ch_eqb c "'" then lit "&apos;"
   else if is_control c then [] else [c]) ++ OpusExport.xml_escape r.
Proof. reflexivity. Qed.

Lemma copilot_xml_escape_cons c r :
  copilot_xml_escape (c :: r) =
  (if ch_eqb c "&" then lit "&amp;"
   else if ch_eqb c "<" then lit "&lt;"
   else if ch_eqb c ">" then lit "&gt;"
   else if code c =? 34 then lit "&quot;"
   else if ch_eqb c "'" then lit "&apos;"
   else if is_control c then [" "%char] else [c]) ++ copilot_xml_escape r.
Proof. reflexivity. Qed.

Lemma strbuf_append_xml_escaped_app s : forall sb,
  strbuf_append_xml_escaped sb s = sb ++ flat_map gemini_piece s.
Proof.
  induction s as [|c s IH]; intros sb; cbn [strbuf_append_xml_escaped flat_map].
  - rewrite app_nil_r. reflexivity.
  - rewrite IH, <- app_assoc. reflexivity.
Qed.

Lemma entity_decode_other c r :
  ch_eqb c "&" = false -> entity_decode (c :: r) = c :: entity_decode r.
Proof. intros H. cbn [entity_decode]. rewrite H. reflexivity. Qed.

Lemma entity_decode_entities r :
  entity_decode (lit "&amp;" ++ r) = "&"%char :: entity_decode r /\
  entity_decode (lit "&lt;" ++ r) = "<"%char :: entity_decode r /\
  entity_decode (lit "&gt;" ++ r) = ">"%char :: entity_decode r /\
  entity_decode (lit "&quot;" ++ r) = dquote :: entity_decode r /\
  entity_decode (lit "&apos;" ++ r) = "'"%char :: entity_decode r.
Proof. repeat split; reflexivity. Qed.

Lemma ch_eqb_true c d : ch_eqb c d = true -> c = d.
Proof. apply Ascii.eqb_eq. Qed.

Lemma code_34 c : (code c =? 34) = true -> c = dquote.
Proof.
  intros H. apply Z.eqb_eq in H. unfold dquote. rewrite <- H. symmetry. apply chr_code.
Qed.

Lemma control_not_amp c : is_control c = true -> ch_eqb c "&" = false.
Proof.
  unfold is_control. intros H. rewrite ch_eqb_code.
  apply andb_true_iff in H as [H _]. apply andb_true_iff in H as [H _].
  apply andb_true_iff in H as [H _]. apply Z.ltb_lt in H.
  apply Z.eqb_neq. change (code "&") with 38. lia.
Qed.

(** X9: undoing the escaping, that is replacing the five predefined
    entity references by their characters.  The gemini exporter's
    escaping loses nothing; the opus exporter drops the control
    characters (other than tab, line feed and carriage return) and
    nothing else; the copilot exporter turns each of them into a space
    and changes nothing else. *)
Theorem xml_escape_read_back (s : cstring) :
  entity_decode (strbuf_append_xml_escaped [] s) = s /\
  entity_decode (OpusExport.xml_escape s)
    = List.filter (fun c => negb (is_control c)) s /\
  entity_decode (copilot_xml_escape s)
    = map (fun c => if is_control c then " "%char else c) s.
Proof.
  rewrite strbuf_append_xml_escaped_app. cbn [app].
  induction s as [|c s (IHg & IHo & IHc)]; [repeat split|].
  rewrite opus_xml_escape_cons, copilot_xml_escape_cons.
  cbn [flat_map List.filter map]. unfold gemini_piece at 1.
  destruct (entity_decode_entities (flat_map gemini_piece s)) as (Ga & Gl & Gg & Gq & Gp).
  destruct (entity_decode_entities (OpusExport.xml_escape s)) as (Oa & Ol & Og & Oq & Op).
  destruct (entity_decode_entities (copilot_xml_escape s)) as (Ca & Cl & Cg & Cq & Cp).
  assert (Hnc : forall d, (d = "&" \/ d = "<" \/ d = ">" \/ d = dquote \/ d = "'")%char ->
                          is_control d = false).
  { intros d [-> | [-> | [-> | [-> | ->]]]]; reflexivity. }
  destruct (ch_eqb c "&") eqn:Ea.
  { apply ch_eqb_true in Ea. subst c. rewrite Hnc by auto.
    change (ch_eqb "&" "<") with false. change (ch_eqb "&" ">") with false. cbn [negb].
    rewrite Ga, Oa, Ca, IHg, IHo, IHc. repeat split. }
  destruct (ch_eqb c "<") eqn:El.
  { apply ch_eqb_true in El. subst c. rewrite Hnc by auto. cbn [negb].
    rewrite Gl, Ol, Cl, IHg, IHo, IHc. repeat split. }
  destruct (ch_eqb c ">") eqn:Eg.
  { apply ch_eqb_true in Eg. subst c. rewrite Hnc by auto. cbn [negb].
    rewrite Gg, Og, Cg, IHg, IHo, IHc. repeat split. }
  destruct (code c =? 34) eqn:Eq.
  { apply code_34 in Eq. subst c. rewrite Hnc by auto. cbn [negb].
    rewrite Gq, Oq, Cq, IHg, IHo, IHc. repeat split. }
  destruct (ch_eqb c "'") eqn:Ep.
  { apply ch_eqb_true in Ep. subst c. rewrite Hnc by auto. cbn [negb].
    rewrite Gp, Op, Cp, IHg, IHo, IHc. repeat split. }
  cbn [app]. rewrite (entity_decode_other c _ Ea), IHg.
  destruct (is_control c) eqn:Ec; cbn [negb app].
  - rewrite IHo. rewrite (entity_decode_other " " _ eq_refl), IHc. repeat split.
  - rewrite !(entity_decode_other c _ Ea), IHo, IHc. repeat split.
Qed.

(** X10: the text the three exporters put between tags or quotes holds
    none of the characters [<], [>], double quote and apostrophe, and
    the copilot exporter's output fits the [len * 6 + 1] bytes it
    allocates for it. *)
Theorem xml_escape_output (s : cstring) :
  markup_free (OpusExport.xml_escape s) /\
  markup_free (copilot_xml_escape s) /\
  markup_free (strbuf_append_xml_escaped [] s) /\
  (length (copilot_xml_escape s) + 1 <= length s * 6 + 1)%nat.
Proof.
  rewrite strbuf_append_xml_escaped_app. cbn [app]. unfold markup_free.
  induction s as [|c s (IHo & IHc & IHg & IHlen)].
  { repeat split; constructor. }
  rewrite opus_xml_escape_cons, copilot_xml_escape_cons.
  cbn [flat_map length]. unfold gemini_piece at 1.
  assert (Hent : forall e, In e [lit "&amp;"; lit "&lt;"; lit "&gt;"; lit "&quot;"; lit "&apos;"] ->
    Forall (fun c => c <> "<"%char /\ c <> ">"%char /\ c <> dquote /\ c <> "'"%char) e /\
    (length e <= 6)%nat).
  { intros e He. simpl in He.
    repeat (destruct He as [<- | He];
            [split; [repeat constructor; discriminate|simpl; lia]|]).
    contradiction. }
  assert (Hsp : " "%char <> "<"%char /\ " "%char <> ">"%char /\ " "%char <> dquote /\
                " "%char <> "'"%char) by (repeat split; discriminate).
  rewrite !length_app.
  destruct (ch_eqb c "&") eqn:Ea.
  { apply ch_eqb_true in Ea. subst c.
    change (ch_eqb "&" "<") with false. change (ch_eqb "&" ">") with false. cbv iota.
    destruct (Hent (lit "&amp;")) as [H1 H2]; [simpl; auto|].
    repeat split; try (apply Forall_app; split; assumption). lia. }
  destruct (ch_eqb c "<") eqn:El.
  { destruct (Hent (lit "&lt;")) as [H1 H2]; [simpl; auto|].
    repeat split; try (apply Forall_app; split; assumption). lia. }
  destruct (ch_eqb c ">") eqn:Eg.
  { destruct (Hent (lit "&gt;")) as [H1 H2]; [simpl; auto|].
    repeat split; try (apply Forall_app; split; assumption). lia. }
  destruct (code c =? 34) eqn:Eq.
  { destruct (Hent (lit "&quot;")) as [H1 H2]; [simpl; auto 10|].
    repeat split; try (apply Forall_app; split; assumption). lia. }
  destruct (ch_eqb c "'") eqn:Ep.
  { destruct (Hent (lit "&apos;")) as [H1 H2]; [simpl; auto 10|].
    repeat split; try (apply Forall_app; split; assumption). lia. }
  assert (Hc : c <> "<"%char /\ c <> ">"%char /\ c <> dquote /\ c <> "'"%char).
  { repeat split; intros ->.
    - discriminate El.
    - discriminate Eg.
    - discriminate Eq.
    - discriminate Ep. }
  destruct (is_control c); cbn [app length];
    repeat split; try (constructor; assumption); try assumption; lia.
Qed.

(** *** Identifiers *)

Lemma quoted_body_quote_identifier s : forall rest,
  match rest with c :: _ => (code c =? 34) = false | [] => True end ->
  quoted_body (flat_map (fun q => if code q =? 34 then [dquote; dquote] else [q]) s
               ++ dquote :: rest) = Some (s, rest).
Proof.
  induction s as [|c s IH]; intros rest Hrest; cbn [flat_map app].
  - cbn [quoted_body]. change (code dquote =? 34) with true. cbv iota.
    destruct rest as [|c r]; [reflexivity|]. rewrite Hrest. reflexivity.
  - destruct (code c =? 34) eqn:E.
    + apply code_34 in E. subst c. cbn [app quoted_body].
      change (code dquote =? 34) with true. cbv iota.
      rewrite (IH rest Hrest). reflexivity.
    + cbn [app quoted_body]. rewrite E, (IH rest Hrest). reflexivity.
Qed.

Lemma quote_pieces_length s :
  (length (flat_map (fun q => if (code q =? 34)%Z then [dquote; dquote] else [q]) s)
   <= 2 * length s)%nat.
Proof.
  induction s as [|c s IH]; cbn [flat_map length]; [lia|].
  rewrite length_app. destruct (code c =? 34); simpl; lia.
Qed.

(** X11: SQLite reads back the very name from the identifier
    [quote_identifier] writes, whatever follows it in the statement, so
    two different names never give the same identifier; the result fits
    the [len * 2 + 3] bytes allocated for it; and the opus importer's
    [escape_identifier] writes the same identifier for every name but
    the empty one, which it calls [unnamed]. *)
Theorem quote_identifier_read_back (s rest : cstring) :
  match rest with c :: _ => (code c =? 34) = false | [] => True end ->
  quoted_identifier (quote_identifier (Some s) ++ rest) = Some (s, rest) /\
  (length (quote_identifier (Some s)) + 1 <= length s * 2 + 3)%nat /\
  (s <> [] -> escape_identifier (Some s) = quote_identifier (Some s)) /\
  escape_identifier (Some []) = escape_identifier (Some (lit "unnamed")).
Proof.
  intros Hrest. unfold quote_identifier, quoted_identifier.
  change (default [] (Some s)) with s.
  split; [|split; [|split]].
  - cbn [app]. change (code dquote =? 34) with true. cbv iota.
    rewrite <- app_assoc. cbn [app]. apply quoted_body_quote_identifier. exact Hrest.
  - cbn [length]. rewrite length_app. cbn [length].
    pose proof (quote_pieces_length s). lia.
  - intros Hne. unfold escape_identifier. destruct s as [|c s]; [contradiction|].
    f_equal. f_equal. apply flat_map_ext. intros a.
    destruct (code a =? 34) eqn:E; [|reflexivity].
    apply code_34 in E. subst a. reflexivity.
  - reflexivity.
Qed.

Lemma quote_identifier_read_back_witness :
  quoted_identifier (quote_identifier (Some (lit "my col")) ++ lit " TEXT")
  = Some (lit "my col", lit " TEXT").
Proof. apply (quote_identifier_read_back (lit "my col") (lit " TEXT")). reflexivity. Defined.

End EscapeFacts.

(** ** Identifiers and sheet names: what the sanitizers guarantee *)

Section Sanitizers.
Import CStr SheetName Escapes.

Lemma sanitize_loop_spec s : forall out_rev,
  Forall (fun c => is_ident_char c = true) out_rev ->
  Forall (fun c => is_ident_char c = true) (sanitize_loop s out_rev) /\
  (length (sanitize_loop s out_rev) <= length out_rev + length s)%nat /\
  (out_rev <> [] -> sanitize_loop s out_rev <> []) /\
  (s <> [] -> sanitize_loop s out_rev <> []).
Proof.
  induction s as [|c s IH]; intros out_rev Hout; cbn [sanitize_loop length].
  - repeat split; [exact Hout|lia|auto|congruence].
  - assert (Hu : is_ident_char "_" = true) by reflexivity.
    destruct (is_ident_char c) eqn:Ec.
    + destruct (IH (c :: out_rev)) as (H1 & H2 & H3 & _); [constructor; assumption|].
      cbn [length] in H2. repeat split; [exact H1|lia|intros _; apply H3; discriminate
                                        |intros _; apply H3; discriminate].
    + destruct out_rev as [|l out_rev].
      * destruct (IH ["_"%char]) as (H1 & H2 & H3 & _); [repeat constructor|].
        cbn [length] in H2.
        repeat split; [exact H1|lia|congruence|intros _; apply H3; discriminate].
      * destruct (ch_eqb l "_").
        -- destruct (IH (l :: out_rev) Hout) as (H1 & H2 & H3 & _).
           cbn [length] in *.
           repeat split; [exact H1|lia|intros _; apply H3; discriminate
                         |intros _; apply H3; discriminate].
        -- destruct (IH ("_"%char :: l :: out_rev)) as (H1 & H2 & H3 & _);
             [constructor; assumption|].
           cbn [length] in *.
           repeat split; [exact H1|lia|intros _; apply H3; discriminate
                         |intros _; apply H3; discriminate].
Qed.

(** On a text made of identifier characters the loop copies. *)
Lemma sanitize_loop_ident s : forall out_rev,
  Forall (fun c => is_ident_char c = true) s ->
  sanitize_loop s out_rev = rev s ++ out_rev.
Proof.
  induction s as [|c s IH]; intros out_rev Hs; [reflexivity|].
  inversion Hs as [|? ? Hc Hs']; subst.
  cbn [sanitize_loop rev]. rewrite Hc, (IH _ Hs'), <- app_assoc. reflexivity.
Qed.

Lemma sanitize_identifier_fixed out :
  out <> [] -> Forall (fun c => is_ident_char c = true) out ->
  (forall c, head out = Some c -> isdigit c = false) ->
  sanitize_identifier (Some out) = out.
Proof.
  intros Hne Hid Hd. unfold sanitize_identifier.
  rewrite sanitize_loop_ident by exact Hid.
  rewrite app_nil_r, rev_involutive.
  destruct out as [|c out]; [contradiction|].
  rewrite (Hd c eq_refl). reflexivity.
Qed.

Lemma sanitize_identifier_shape (s : cstring) :
  sanitize_identifier (Some s) <> [] /\
  Forall (fun c => is_ident_char c = true) (sanitize_identifier (Some s)) /\
  (forall c, head (sanitize_identifier (Some s)) = Some c -> isdigit c = false) /\
  (length (sanitize_identifier (Some s)) <= length s + 3)%nat.
Proof.
  unfold sanitize_identifier.
  destruct (sanitize_loop_spec s []) as (Hid & Hlen & _ & Hne); [constructor|].
  cbn [length] in Hlen.
  set (raw := rev (sanitize_loop s [])) in *.
  assert (Hraw : Forall (fun c => is_ident_char c = true) raw)
    by (apply Forall_rev; exact Hid).
  assert (Hrl : (length raw <= length s)%nat) by (unfold raw; rewrite length_rev; lia).
  set (out := match raw with [] => ["_"%char] | _ => raw end).
  assert (Hout : out <> [] /\ Forall (fun c => is_ident_char c = true) out /\
                 (length out <= length s + 1)%nat).
  { unfold out. destruct raw as [|c r].
    - repeat split; [discriminate|repeat constructor|simpl; lia].
    - repeat split; [discriminate|exact Hraw|lia]. }
  destruct Hout as (Hone & Hoid & Holen).
  destruct out as [|c rest] eqn:Eout; [contradiction|].
  destruct (isdigit c) eqn:Ed.
  - split; [discriminate|].
    split; [apply Forall_app; split; [repeat constructor|exact Hoid]|].
    split; [intros c0 Hc0; injection Hc0 as <-; reflexivity|].
    rewrite length_app. change (length (lit "c_")) with 2%nat. lia.
  - split; [discriminate|]. split; [exact Hoid|].
    split; [intros c0 Hc0; injection Hc0 as <-; exact Ed|lia].
Qed.

(** X12: [sanitize_identifier] always returns a non-empty name made of
    letters, digits and underscores that does not start with a digit;
    it is at most three characters longer than the input (the buffers
    of [n*2 + 16] and [strlen(out) + 4] bytes are never overrun); and a
    name that is already of that form is returned unchanged, so
    sanitizing twice changes nothing. *)
Theorem sanitize_identifier_valid (s : cstring) :
  let out := sanitize_identifier (Some s) in
  out <> [] /\
  Forall (fun c => is_ident_char c = true) out /\
  (forall c, head out = Some c -> isdigit c = false) /\
  (length out <= length s + 3)%nat /\
  sanitize_identifier (Some out) = out.
Proof.
  cbv zeta.
  destruct (sanitize_identifier_shape s) as (Hne & Hid & Hd & Hlen).
  repeat split; try assumption.
  apply sanitize_identifier_fixed; assumption.
Qed.


(** *** Sheet names of the opus exporter *)

Lemma fix_leading_spec (P : ascii -> Prop) r :
  P "_"%char -> Forall P r ->
  Forall P (OpusSheetName.fix_leading r) /\
  length (OpusSheetName.fix_leading r) = length r /\
  head (OpusSheetName.fix_leading r) <> Some apostrophe.
Proof.
  intros Hu Hr. unfold OpusSheetName.fix_leading.
  destruct r as [|c r]; [repeat split; [constructor|discriminate]|].
  destruct (ch_eqb c apostrophe) eqn:E.
  - inversion Hr; subst. repeat split; [constructor; assumption|discriminate].
  - repeat split; [exact Hr|]. cbn [head]. intros H. injection H as ->.
    discriminate E.
Qed.

Lemma fix_trailing_spec (P : ascii -> Prop) r :
  P "_"%char -> Forall P r -> head r <> Some apostrophe ->
  Forall P (OpusSheetName.fix_trailing r) /\
  length (OpusSheetName.fix_trailing r) = length r /\
  head (OpusSheetName.fix_trailing r) <> Some apostrophe /\
  last (OpusSheetName.fix_trailing r) <> Some apostrophe.
Proof.
  intros Hu Hr Hh. unfold OpusSheetName.fix_trailing.
  destruct (rev r) as [|c rest] eqn:E.
  { repeat split; [constructor| |discriminate|discriminate].
    apply (f_equal (@length ascii)) in E. rewrite length_rev in E. exact (eq_sym E). }
  assert (Er : r = rev rest ++ [c]).
  { rewrite <- (rev_involutive r), E. reflexivity. }
  destruct (ch_eqb c apostrophe) eqn:Ec.
  - cbn [rev]. subst r. apply Forall_app in Hr as [Hrest _].
    repeat split.
    + apply Forall_app. split; [exact Hrest|repeat constructor; exact Hu].
    + rewrite !length_app. reflexivity.
    + destruct (rev rest) as [|x xs]; [discriminate|exact Hh].
    + rewrite last_snoc. discriminate.
  - repeat split; [exact Hr|exact Hh|].
    rewrite Er, last_snoc. intros H. injection H as ->. discriminate Ec.
Qed.

Lemma toupper_inv c k :
  toupper c = k -> 65 <= k <= 90 -> code c = k \/ code c = k + 32.
Proof.
  unfold toupper. destruct (islower c); intros H _; lia.
Qed.

Lemma toupper_either c (u l : ascii) :
  code l = code u + 32 -> 65 <= code u <= 90 ->
  (toupper c = code u <-> ch_eqb c u || ch_eqb c l = true).
Proof.
  intros Hl Hu. rewrite !ch_eqb_code. split.
  - intros H. destruct (toupper_inv c _ H Hu) as [H' | H'].
    + rewrite H', Z.eqb_refl. reflexivity.
    + apply orb_true_iff. right. apply Z.eqb_eq. lia.
  - intros H. apply orb_true_iff in H as [H | H]; apply Z.eqb_eq in H;
      unfold toupper, islower; rewrite H.
    + replace (97 <=? code u) with false by (symmetry; apply Z.leb_gt; lia). reflexivity.
    + replace ((97 <=? code l) && (code l <=? 122)) with true; [lia|].
      symmetry. apply andb_true_iff. split; apply Z.leb_le; lia.
Qed.

(** The reserved-name test of the code is the comparison with
    [HISTORY] without regard to case. *)
Lemma is_history_spec r :
  OpusSheetName.is_history r = true <-> map toupper r = map code (lit "HISTORY").
Proof.
  unfold OpusSheetName.is_history.
  destruct r as [|h [|i [|s [|t [|o [|r [|y [|z rest]]]]]]]];
    try (split; [discriminate|intros H; discriminate H]).
  change (map code (lit "HISTORY")) with
    [code "H"; code "I"; code "S"; code "T"; code "O"; code "R"; code "Y"]%char.
  cbn [map].
  rewrite !andb_true_iff.
  rewrite <- (toupper_either h "H" "h"), <- (toupper_either i "I" "i"),
          <- (toupper_either s "S" "s"), <- (toupper_either t "T" "t"),
          <- (toupper_either o "O" "o"), <- (toupper_either r "R" "r"),
          <- (toupper_either y "Y" "y") by (vm_compute; intuition congruence).
  split.
  - intros [[[[[[-> ->] ->] ->] ->] ->] ->]. reflexivity.
  - intros H. injection H as -> -> -> -> -> -> ->. repeat split.
Qed.

Lemma opus_sanitize_conforms name : OpusSheetName.conforms (OpusSheetName.sanitize_sheet_name name).
Proof.
  assert (Hsheet : OpusSheetName.conforms (lit "Sheet")).
  { unfold OpusSheetName.conforms. repeat split; try discriminate; [simpl; lia|repeat constructor]. }
  assert (Hhist : OpusSheetName.conforms (lit "History_")).
  { unfold OpusSheetName.conforms. repeat split; try discriminate; [simpl; lia|repeat constructor]. }
  unfold OpusSheetName.sanitize_sheet_name.
  destruct name as [[|c name]|]; [exact Hsheet| |exact Hsheet].
  set (copied := map (fun c0 => if forbidden c0 then "_"%char else c0)
                     (take OpusSheetName.EXCEL_MAX_SHEET_NAME_LEN (c :: name))).
  assert (Hc : Forall (fun c0 => forbidden c0 = false) copied /\ (length copied <= 31)%nat).
  { unfold copied. split.
    - apply List.Forall_forall. intros x Hx. apply List.in_map_iff in Hx as (y & <- & _).
      destruct (forbidden y) eqn:E; [reflexivity|exact E].
    - rewrite length_map, length_take. unfold OpusSheetName.EXCEL_MAX_SHEET_NAME_LEN. lia. }
  destruct Hc as [Hc Hlen].
  destruct (fix_leading_spec (fun c0 => forbidden c0 = false) copied eq_refl Hc)
    as (Hl & Hll & Hlh).
  destruct (fix_trailing_spec (fun c0 => forbidden c0 = false) _ eq_refl Hl Hlh)
    as (Ht & Htl & Hth & Htt).
  destruct (OpusSheetName.fix_trailing (OpusSheetName.fix_leading copied))
    as [|x rest] eqn:E; [exact Hsheet|].
  destruct (OpusSheetName.is_history (x :: rest)) eqn:Eh; [exact Hhist|].
  unfold OpusSheetName.conforms. repeat split; try assumption; [discriminate|lia|].
  intros H. apply is_history_spec in H. congruence.
Qed.

Lemma opus_sanitize_fixed r : OpusSheetName.conforms r -> OpusSheetName.sanitize_sheet_name (Some r) = r.
Proof.
  intros (Hne & Hlen & Hf & Hh & Hl & Hhist).
  unfold OpusSheetName.sanitize_sheet_name.
  destruct r as [|c r]; [contradiction|].
  rewrite take_ge by (unfold OpusSheetName.EXCEL_MAX_SHEET_NAME_LEN; lia).
  assert (Hmap : map (fun c0 => if forbidden c0 then "_"%char else c0) (c :: r) = c :: r).
  { clear -Hf. induction Hf as [|x l Hx _ IH]; [reflexivity|].
    cbn [map]. rewrite Hx, IH. reflexivity. }
  rewrite Hmap.
  assert (Hlead : OpusSheetName.fix_leading (c :: r) = c :: r).
  { unfold OpusSheetName.fix_leading. destruct (ch_eqb c apostrophe) eqn:E; [|reflexivity].
    apply ch_eqb_true in E. subst c. contradiction Hh. reflexivity. }
  rewrite Hlead.
  assert (Htrail : OpusSheetName.fix_trailing (c :: r) = c :: r).
  { unfold OpusSheetName.fix_trailing. destruct (rev (c :: r)) as [|x rest] eqn:E; [|].
    - apply (f_equal (@length ascii)) in E. rewrite length_rev in E. discriminate E.
    - destruct (ch_eqb x apostrophe) eqn:Ex; [|reflexivity].
      apply ch_eqb_true in Ex. subst x. exfalso. apply Hl.
      rewrite <- (rev_involutive (c :: r)), E. cbn [rev]. apply last_snoc. }
  rewrite Htrail.
  destruct (OpusSheetName.is_history (c :: r)) eqn:Eh; [|reflexivity].
  apply is_history_spec in Eh. contradiction.
Qed.

(** X13: the opus exporter's [sanitize_sheet_name] returns, for every
    table name (NULL included), a sheet name that meets the five
    restrictions its comment lists: not empty, at most 31 characters,
    none of [\ / ? * [ ] :], no apostrophe at either end, and not
    [History] in any case; a name that meets them is returned as it is. *)
Theorem opus_sheet_name_conforms (name : option cstring) :
  let r := OpusSheetName.sanitize_sheet_name name in
  r <> [] /\ (length r <= 31)%nat /\
  Forall (fun c => forbidden c = false) r /\
  head r <> Some apostrophe /\ last r <> Some apostrophe /\
  map toupper r <> map code (lit "HISTORY") /\
  OpusSheetName.sanitize_sheet_name (Some r) = r.
Proof.
  cbv zeta. pose proof (opus_sanitize_conforms name) as H.
  pose proof (opus_sanitize_fixed _ H) as Hfix.
  destruct H as (H1 & H2 & H3 & H4 & H5 & H6).
  repeat split; assumption.
Qed.

End Sanitizers.

(** ** Sheet names of the copilot exporter, libxlsxwriter variant *)

Section LxwSheetNames.
Import CStr SheetName.

Lemma dec_digits_length fuel : forall n acc,
  (length (dec_digits fuel n acc) <= fuel + length acc)%nat.
Proof.
  induction fuel as [|fuel IH]; intros n acc; cbn [dec_digits]; [lia|].
  cbv zeta. destruct (n <? 10); cbn [length]; [lia|].
  specialize (IH (n / 10) (chr (48 + n mod 10) :: acc)). cbn [length] in IH. lia.
Qed.

Lemma fmt_d_length n : (length (fmt_d n) <= 21)%nat.
Proof.
  unfold fmt_d. destruct (n <? 0); cbn [length];
    [pose proof (dec_digits_length 20 (- n) [])|pose proof (dec_digits_length 20 n [])];
    cbn [length] in *; lia.
Qed.

Lemma dec_digits_printable fuel : forall n acc,
  Forall (fun c => 32 <= code c) acc ->
  Forall (fun c => 32 <= code c) (dec_digits fuel n acc).
Proof.
  induction fuel as [|fuel IH]; intros n acc Hacc; cbn [dec_digits]; [exact Hacc|].
  cbv zeta.
  assert (Hd : 32 <= code (chr (48 + n mod 10))).
  { pose proof (Z.mod_pos_bound n 10 ltac:(lia)). rewrite code_chr; lia. }
  destruct (n <? 10); [constructor; assumption|].
  apply IH. constructor; assumption.
Qed.

Lemma fmt_d_printable n : Forall (fun c => 32 <= code c) (fmt_d n).
Proof.
  unfold fmt_d. destruct (n <? 0).
  - constructor; [vm_compute; discriminate|]. apply dec_digits_printable. constructor.
  - apply dec_digits_printable. constructor.
Qed.

Lemma drop_while_suffix p (s : cstring) : exists t, s = t ++ drop_while p s.
Proof.
  induction s as [|c s [t IH]]; [exists []; reflexivity|].
  cbn [drop_while]. destruct (p c).
  - exists (c :: t). cbn [app]. f_equal. exact IH.
  - exists []. reflexivity.
Qed.

Lemma drop_while_head p (s : cstring) c :
  head (drop_while p s) = Some c -> p c = false.
Proof.
  induction s as [|x s IH]; cbn [drop_while]; [discriminate|].
  destruct (p x) eqn:E; [exact IH|].
  cbn [head]. intros H. injection H as <-. exact E.
Qed.

Lemma trim_right_prefix p (s : cstring) : exists t, s = trim_right p s ++ t.
Proof.
  unfold trim_right. destruct (drop_while_suffix p (rev s)) as [t Ht].
  exists (rev t). rewrite <- rev_app_distr, <- Ht, rev_involutive. reflexivity.
Qed.

Lemma Forall_drop_while (P : ascii -> Prop) p s : Forall P s -> Forall P (drop_while p s).
Proof.
  intros H. destruct (drop_while_suffix p s) as [t Ht]. rewrite Ht in H.
  apply Forall_app in H. apply H.
Qed.

Lemma Forall_trim_right (P : ascii -> Prop) p s : Forall P s -> Forall P (trim_right p s).
Proof.
  intros H. destruct (trim_right_prefix p s) as [t Ht]. rewrite Ht in H.
  apply Forall_app in H. apply H.
Qed.

Lemma head_prefix (a b : cstring) c : head a = Some c -> head (a ++ b) = Some c.
Proof. destruct a; [discriminate|exact id]. Qed.

Lemma lxw_sanitize_spec name_in index :
  CopilotLxw.sanitize_sheet_name name_in index <> [] /\
  (length (CopilotLxw.sanitize_sheet_name name_in index) <= 31)%nat /\
  Forall (fun c => forbidden c = false /\ 32 <= code c)
         (CopilotLxw.sanitize_sheet_name name_in index) /\
  head (CopilotLxw.sanitize_sheet_name name_in index) <> Some apostrophe.
Proof.
  unfold CopilotLxw.sanitize_sheet_name.
  set (tmp := List.filter _ (default [] name_in)).
  assert (Htmp : Forall (fun c => forbidden c = false /\ 32 <= code c) tmp).
  { apply List.Forall_forall. intros c Hc. apply List.filter_In in Hc as [_ Hc].
    apply andb_true_iff in Hc as [H1 H2].
    apply negb_true_iff in H1. apply negb_true_iff in H2. apply Z.ltb_ge in H2. auto. }
  set (trimmed := trim_right isspace (drop_while isspace tmp)).
  assert (Htr : Forall (fun c => forbidden c = false /\ 32 <= code c) trimmed)
    by (apply Forall_trim_right, Forall_drop_while, Htmp).
  set (unq := drop_while (fun c => ch_eqb c apostrophe) trimmed).
  set (core := trim_right (fun c => ch_eqb c apostrophe) unq).
  assert (Hcore : Forall (fun c => forbidden c = false /\ 32 <= code c) core)
    by (apply Forall_trim_right, Forall_drop_while, Htr).
  destruct (take 31 core) as [|c out] eqn:E.
  - split; [destruct (fmt_d (index + 1)); discriminate|].
    split; [rewrite length_app; pose proof (fmt_d_length (index + 1));
            change (length (lit "Sheet")) with 5%nat; lia|].
    split; [|discriminate].
    apply Forall_app. split; [repeat constructor; vm_compute; discriminate|].
    pose proof (fmt_d_not_forbidden (index + 1)) as H1.
    pose proof (fmt_d_printable (index + 1)) as H2.
    apply List.Forall_forall. intros x Hx.
    rewrite List.Forall_forall in H1, H2. auto.
  - split; [discriminate|].
    split; [rewrite <- E, length_take; lia|].
    split; [rewrite <- E; apply Forall_take; exact Hcore|].
    cbn [head]. intros H. injection H as ->.
    assert (Hhead : head core = Some apostrophe).
    { destruct core as [|x core']; [discriminate E|].
      cbn in E. injection E as -> _. reflexivity. }
    destruct (trim_right_prefix (fun c => ch_eqb c apostrophe) unq) as [t Ht].
    fold core in Ht.
    assert (Hu : head unq = Some apostrophe) by (rewrite Ht; apply head_prefix, Hhead).
    apply drop_while_head in Hu. discriminate Hu.
Qed.

(** X14: the libxlsxwriter exporter's [sanitize_sheet_name] returns,
    for every table name and index, a non-empty name of at most 31
    characters with none of [: \ / ? * [ ]], no control character and no
    apostrophe in front. *)
Theorem lxw_sheet_name_valid (name_in : option cstring) (index : Z) :
  let r := CopilotLxw.sanitize_sheet_name name_in index in
  r <> [] /\ (length r <= 31)%nat /\
  Forall (fun c => forbidden c = false /\ 32 <= code c) r /\
  head r <> Some apostrophe.
Proof.
  cbv zeta. destruct (lxw_sanitize_spec name_in index) as (H1 & H2 & H3 & H4).
  repeat split; assumption.
Qed.


Lemma suffixed_full candidate suffix :
  (length candidate <= 31)%nat ->
  CopilotLxw.suffixed candidate suffix = candidate ++ lit "(" ++ fmt_d suffix ++ lit ")".
Proof.
  intros H. unfold CopilotLxw.suffixed. apply take_ge.
  rewrite !length_app. pose proof (fmt_d_length suffix).
  change (length (lit "(")) with 1%nat. change (length (lit ")")) with 1%nat. lia.
Qed.

(** Different suffixes give different names. *)
Lemma suffixed_inj candidate k k' :
  (length candidate <= 31)%nat ->
  - 10 ^ 20 < k < 10 ^ 20 -> - 10 ^ 20 < k' < 10 ^ 20 ->
  CopilotLxw.suffixed candidate k = CopilotLxw.suffixed candidate k' -> k = k'.
Proof.
  intros Hlen Hk Hk' H. rewrite !suffixed_full in H by exact Hlen.
  apply app_inv_head in H. injection H as H.
  rewrite <- (strtol_value_fmt_d k (lit ")")), <- (strtol_value_fmt_d k' (lit ")")), H by (auto; reflexivity).
  reflexivity.
Qed.

Lemma unique_loop_None fuel existing candidate : forall suffix,
  CopilotLxw.unique_loop fuel existing candidate suffix = None ->
  forall i, (i < fuel)%nat ->
            In (CopilotLxw.suffixed candidate (suffix + Z.of_nat i)) existing.
Proof.
  induction fuel as [|fuel IH]; intros suffix H i Hi; [lia|].
  cbn [CopilotLxw.unique_loop] in H. cbv zeta in H.
  destruct (existsb _ existing) eqn:E; [|discriminate].
  destruct i as [|i].
  - apply existsb_exists in E as (e & He & Heq). apply streq_true in Heq. subst e.
    replace (suffix + Z.of_nat 0) with suffix by lia. exact He.
  - replace (suffix + Z.of_nat (S i)) with (suffix + 1 + Z.of_nat i) by lia.
    apply IH; [exact H|lia].
Qed.

Lemma unique_loop_Some fuel existing candidate : forall suffix r,
  CopilotLxw.unique_loop fuel existing candidate suffix = Some r -> ~ In r existing.
Proof.
  induction fuel as [|fuel IH]; intros suffix r H; [discriminate|].
  cbn [CopilotLxw.unique_loop] in H. cbv zeta in H.
  destruct (existsb _ existing) eqn:E; [exact (IH _ _ H)|].
  injection H as <-. intros Hin.
  assert (existsb (fun e => streq e (CopilotLxw.suffixed candidate suffix)) existing = true);
    [|congruence].
  apply existsb_exists. eexists. split; [exact Hin|apply streq_refl].
Qed.

(** The loop cannot run for more turns than there are existing names:
    the names it tries are all different. *)
Lemma unique_loop_ends fuel existing candidate suffix :
  (length candidate <= 31)%nat -> (length existing < fuel)%nat ->
  0 <= suffix -> suffix + Z.of_nat fuel < 10 ^ 20 ->
  exists r, CopilotLxw.unique_loop fuel existing candidate suffix = Some r.
Proof.
  intros Hlen Hfuel Hs Hb.
  destruct (CopilotLxw.unique_loop fuel existing candidate suffix) as [r|] eqn:E;
    [exists r; reflexivity|exfalso].
  pose proof (unique_loop_None _ _ _ _ E) as Hall.
  set (tried := map (fun i => CopilotLxw.suffixed candidate (suffix + Z.of_nat i))
                    (seq 0 fuel)).
  assert (Hnd : NoDup tried).
  { unfold tried. apply NoDup_fmap_2_strong; [|apply NoDup_seq].
    intros i j Hi Hj Heq.
    apply list_elem_of_In, in_seq in Hi. apply list_elem_of_In, in_seq in Hj.
    apply suffixed_inj in Heq; [lia|exact Hlen|lia|lia]. }
  assert (Hincl : incl tried existing).
  { intros x Hx. unfold tried in Hx. apply List.in_map_iff in Hx as (i & <- & Hi).
    apply in_seq in Hi. apply Hall. lia. }
  apply NoDup_ListNoDup in Hnd.
  pose proof (List.NoDup_incl_length Hnd Hincl) as Hle.
  unfold tried in Hle. rewrite length_map, length_seq in Hle. lia.
Qed.

Lemma ensure_unique_name_ends fuel existing candidate :
  (length candidate <= 31)%nat -> (length existing < fuel)%nat ->
  Z.of_nat fuel <= 2147483647 ->
  exists r, CopilotLxw.ensure_unique_name fuel existing candidate = Some r /\
            ~ In r existing.
Proof.
  intros Hlen Hfuel Hb. unfold CopilotLxw.ensure_unique_name.
  destruct (existsb (fun e => streq e candidate) existing) eqn:E.
  - destruct (unique_loop_ends fuel existing candidate 1 Hlen Hfuel) as [r Hr]; [lia|lia|].
    exists r. split; [exact Hr|]. exact (unique_loop_Some _ _ _ _ _ Hr).
  - exists candidate. split; [reflexivity|]. intros Hin.
    assert (existsb (fun e => streq e candidate) existing = true); [|congruence].
    apply existsb_exists. exists candidate. split; [exact Hin|apply streq_refl].
Qed.

Lemma lxw_sheet_names_from fuel tables : forall done,
  NoDup done -> (length done + length tables <= fuel)%nat ->
  Z.of_nat fuel <= 2147483647 ->
  exists names, CopilotLxw.sheet_names_from fuel tables done = Some names /\
                length names = (length done + length tables)%nat /\ NoDup names.
Proof.
  induction tables as [|t tables IH]; intros done Hnd Hfuel Hb;
    cbn [CopilotLxw.sheet_names_from length].
  - exists done. repeat split; [lia|exact Hnd].
  - cbv zeta. cbn [length] in Hfuel.
    set (san := CopilotLxw.sanitize_sheet_name (Some t) (Z.of_nat (length done))).
    destruct (lxw_sanitize_spec (Some t) (Z.of_nat (length done))) as (_ & Hlen & _).
    destruct (ensure_unique_name_ends fuel done san Hlen) as (r & -> & Hfresh); [lia|exact Hb|].
    destruct (IH (done ++ [r])) as (names & Hn & Hl & Hd).
    + apply NoDup_app. split; [exact Hnd|]. split; [|apply NoDup_singleton].
      intros x Hx Hx'. apply list_elem_of_singleton in Hx'. subst x.
      apply Hfresh, list_elem_of_In, Hx.
    + rewrite length_app. cbn [length]. lia.
    + exact Hb.
    + exists names. rewrite length_app in Hl. cbn [length] in Hl.
      repeat split; [exact Hn|lia|exact Hd].
Qed.

(** X15: the naming loop of the libxlsxwriter exporter always ends, each
    uniqueness loop within as many turns as there are tables, and gives
    every table a sheet name of its own: as many names as tables, no
    two of them equal. *)
Theorem lxw_sheet_names_distinct (tables : list cstring) :
  Z.of_nat (length tables) <= 2147483647 ->
  exists names, CopilotLxw.sheet_names (length tables) tables = Some names /\
                length names = length tables /\ NoDup names.
Proof.
  intros Hb. unfold CopilotLxw.sheet_names.
  destruct (lxw_sheet_names_from (length tables) tables []) as (names & Hn & Hl & Hd);
    [apply NoDup_nil_2|simpl; lia|exact Hb|].
  exists names. repeat split; assumption.
Qed.

Lemma lxw_sheet_names_distinct_witness :
  exists names, CopilotLxw.sheet_names 3 [lit "Data"; lit "Data"; lit "Data(1)"] = Some names /\
                length names = 3%nat /\ NoDup names.
Proof. apply (lxw_sheet_names_distinct [lit "Data"; lit "Data"; lit "Data(1)"]). simpl. lia. Defined.

End LxwSheetNames.

(** ** Column names of an imported sheet (copilot importer) *)

Section HeaderNames.
Import CStr CopilotImport.

Lemma unique_colname_Some fuel prev : forall candidate suffix r,
  unique_colname fuel prev candidate suffix = Some r -> ~ In r prev.
Proof.
  induction fuel as [|fuel IH]; intros candidate suffix r H; [discriminate|].
  cbn [unique_colname] in H.
  destruct (existsb (fun p => streq p candidate) prev) eqn:E; [exact (IH _ _ _ H)|].
  injection H as <-. intros Hin.
  assert (existsb (fun p => streq p candidate) prev = true); [|congruence].
  apply existsb_exists. exists candidate. split; [exact Hin|apply streq_refl].
Qed.

(** While the buffer of 1024 bytes is not filled, every turn makes the
    candidate longer: the candidates tried are all different. *)
Lemma unique_colname_None fuel prev : forall candidate suffix,
  (length candidate + 22 * fuel <= 1023)%nat ->
  unique_colname fuel prev candidate suffix = None ->
  exists tried, length tried = fuel /\ NoDup tried /\ incl tried prev /\
                Forall (fun t => (length candidate <= length t)%nat) tried.
Proof.
  induction fuel as [|fuel IH]; intros candidate suffix Hlen H.
  - exists []. repeat split; [apply NoDup_nil_2|intros x []|constructor].
  - cbn [unique_colname] in H.
    destruct (existsb (fun p => streq p candidate) prev) eqn:E; [|discriminate].
    apply existsb_exists in E as (e & He & Heq). apply streq_true in Heq. subst e.
    assert (Hnext : take 1023 (candidate ++ lit "_" ++ fmt_d suffix)
                    = candidate ++ lit "_" ++ fmt_d suffix).
    { apply take_ge. rewrite !length_app. pose proof (fmt_d_length suffix).
      change (length (lit "_")) with 1%nat. lia. }
    rewrite Hnext in H.
    destruct (IH (candidate ++ lit "_" ++ fmt_d suffix) (suffix + 1)) as
      (tried & Hn & Hnd & Hincl & Hlong); [|exact H|].
    { rewrite !length_app. pose proof (fmt_d_length suffix).
      change (length (lit "_")) with 1%nat. lia. }
    exists (candidate :: tried). repeat split.
    + cbn [length]. lia.
    + apply NoDup_cons. split; [|exact Hnd].
      intros Hin. rewrite Forall_forall in Hlong. apply Hlong in Hin.
      rewrite !length_app in Hin. change (length (lit "_")) with 1%nat in Hin. lia.
    + intros x [<- | Hx]; [exact He|exact (Hincl x Hx)].
    + constructor; [lia|].
      eapply Forall_impl; [exact Hlong|].
      intros t Ht. cbn beta in Ht. rewrite length_app in Ht. lia.
Qed.

Lemma unique_colname_ends fuel prev candidate suffix :
  (length prev < fuel)%nat -> (length candidate + 22 * fuel <= 1023)%nat ->
  exists r, unique_colname fuel prev candidate suffix = Some r /\ ~ In r prev.
Proof.
  intros Hfuel Hlen.
  destruct (unique_colname fuel prev candidate suffix) as [r|] eqn:E.
  - exists r. split; [reflexivity|]. exact (unique_colname_Some _ _ _ _ _ E).
  - exfalso. destruct (unique_colname_None _ _ _ _ Hlen E) as (tried & Hn & Hnd & Hincl & _).
    apply NoDup_ListNoDup in Hnd.
    pose proof (List.NoDup_incl_length Hnd Hincl). lia.
Qed.

Lemma colnames_from_ends fuel header : forall colnames,
  NoDup colnames -> (length colnames + length header <= fuel)%nat ->
  Forall (fun raw => (length (default [] raw) + 22 * fuel <= 1023)%nat) header ->
  exists names, colnames_from fuel header colnames = Some names /\
                length names = (length colnames + length header)%nat /\ NoDup names.
Proof.
  induction header as [|raw header IH]; intros colnames Hnd Hfuel Hlen;
    cbn [colnames_from length].
  - exists colnames. repeat split; [lia|exact Hnd].
  - cbn [length] in Hfuel. inversion Hlen as [|? ? Hraw Hrest]; subst.
    destruct (unique_colname_ends fuel colnames (default [] raw) 1) as (r & -> & Hfresh);
      [lia|exact Hraw|].
    destruct (IH (colnames ++ [r])) as (names & Hn & Hl & Hd).
    + apply NoDup_app. split; [exact Hnd|]. split; [|apply NoDup_singleton].
      intros x Hx Hx'. apply list_elem_of_singleton in Hx'. subst x.
      apply Hfresh, list_elem_of_In, Hx.
    + rewrite length_app. cbn [length]. lia.
    + exact Hrest.
    + exists names. rewrite length_app in Hl. cbn [length] in Hl.
      repeat split; [exact Hn|lia|exact Hd].
Qed.

(** X16: for a header row whose cells leave room for the suffixes in
    the 1024-byte buffer, the importer's naming loop ends, every
    uniqueness loop within as many turns as the header has cells, and
    the table gets one column name per header cell, no two of them
    equal (empty and repeated header cells included). *)
Theorem copilot_header_names_distinct (header : list (option cstring)) :
  Forall (fun raw => (length (default [] raw) + 22 * length header <= 1023)%nat) header ->
  exists colnames, colnames_from (length header) header [] = Some colnames /\
                   length colnames = length header /\ NoDup colnames.
Proof.
  intros Hlen.
  destruct (colnames_from_ends (length header) header []) as (names & Hn & Hl & Hd);
    [apply NoDup_nil_2|simpl; lia|exact Hlen|].
  exists names. repeat split; assumption.
Qed.

Lemma copilot_header_names_distinct_witness :
  exists colnames,
    colnames_from 3 [Some (lit "id"); None; Some (lit "id")] [] = Some colnames /\
    length colnames = 3%nat /\ NoDup colnames.
Proof.
  apply (copilot_header_names_distinct [Some (lit "id"); None; Some (lit "id")]).
  repeat (constructor; [simpl; lia|]). constructor.
Defined.

End HeaderNames.

(** ** The copilot exporter: shared strings of a workbook *)

Section CopilotWorkbook.
Import CStr ColLetters Sst Xml CopilotExport.

Lemma truncated_length raw : Z.of_nat (length (truncated raw)) <= EXCEL_CELL_CHAR_LIMIT.
Proof.
  unfold truncated. destruct (EXCEL_CELL_CHAR_LIMIT <? Z.of_nat (length raw)) eqn:E.
  - rewrite length_take. unfold EXCEL_CELL_CHAR_LIMIT. lia.
  - apply Z.ltb_ge in E. exact E.
Qed.


Lemma grows_refl s : grows s s.
Proof. split; [exists []; rewrite app_nil_r; reflexivity|auto]. Qed.

Lemma grows_trans s1 s2 s3 : grows s1 s2 -> grows s2 s3 -> grows s1 s3.
Proof.
  intros ([e1 ->] & Hn1 & Hs1) ([e2 ->] & Hn2 & Hs2).
  split; [exists (e1 ++ e2); rewrite app_assoc; reflexivity|auto].
Qed.

Lemma grows_denotes s s' c txt : grows s s' -> cell_denotes s c txt -> cell_denotes s' c txt.
Proof.
  intros ([ext ->] & _) H. destruct c as [ref style idx|ref v|ref]; [|exact H|exact H].
  cbn [cell_denotes] in *. apply lookup_app_l_Some. exact H.
Qed.

(** Interning a text that respects the limit. *)
Lemma sst_index_grows s txt :
  Z.of_nat (length txt) <= EXCEL_CELL_CHAR_LIMIT ->
  grows s (fst (sst_index s (Some txt))) /\
  fst (sst_index s (Some txt)) !! snd (sst_index s (Some txt)) = Some txt.
Proof.
  intros Hlen. destruct (sst_index_spec s txt) as [Hlook Hext].
  split; [|exact Hlook]. split; [exact Hext|]. split.
  - apply sst_index_NoDup.
  - intros Hs. unfold sst_index. change (default [] (Some txt)) with txt.
    destruct (sst_find s txt 0); cbn [fst]; [exact Hs|].
    apply Forall_app. split; [exact Hs|]. constructor; [exact Hlen|constructor].
Qed.

Lemma header_cells_spec style colnames : forall c s,
  grows s (snd (header_cells style c colnames s)) /\
  Forall2 (cell_denotes (snd (header_cells style c colnames s)))
          (fst (header_cells style c colnames s)) (map truncated colnames).
Proof.
  induction colnames as [|raw rest IH]; intros c s; cbn [header_cells map].
  - split; [apply grows_refl|constructor].
  - cbv zeta.
    destruct (sst_index_grows s (truncated raw) (truncated_length raw)) as [Hg Hlook].
    destruct (sst_index s (Some (truncated raw))) as [s1 idx]. cbn [fst snd] in Hg, Hlook.
    destruct (IH (c + 1) s1) as [Hg' Hcells].
    destruct (header_cells style (c + 1) rest s1) as [cs s2]. cbn [fst snd] in *.
    split; [exact (grows_trans _ _ _ Hg Hg')|].
    constructor; [|exact Hcells].
    apply (grows_denotes s1 s2 (SharedCell _ _ idx)); [exact Hg'|exact Hlook].
Qed.

Lemma data_cells_spec rownum vals : forall c s,
  grows s (snd (data_cells rownum c vals s)) /\
  Forall2 (cell_denotes (snd (data_cells rownum c vals s)))
          (fst (data_cells rownum c vals s)) (map value_text vals).
Proof.
  induction vals as [|v rest IH]; intros c s; cbn [data_cells map].
  - split; [apply grows_refl|constructor].
  - cbv zeta.
    set (ref := cellref c (fmt_d rownum)).
    assert (Hone : exists cl s1,
      match v with
      | OpusExport.SqlInteger i => (NumberCell ref (fmt_d i), s)
      | OpusExport.SqlFloat printed => (NumberCell ref printed, s)
      | OpusExport.SqlNull => (EmptyCell ref, s)
      | _ => let '(s1, idx) := sst_index s (Some (truncated (column_text v))) in
             (SharedCell ref None idx, s1)
      end = (cl, s1) /\ grows s s1 /\ cell_denotes s1 cl (value_text v)).
    { destruct v as [i|printed|text|blob|];
        try (eexists _, _; split; [reflexivity|split; [apply grows_refl|reflexivity]]).
      - destruct (sst_index_grows s (truncated text) (truncated_length text)) as [Hg Hlook].
        change (column_text (OpusExport.SqlText text)) with text.
        destruct (sst_index s (Some (truncated text))) as [s1 idx].
        eexists _, _. split; [reflexivity|]. split; [exact Hg|exact Hlook].
      - set (t := column_text (OpusExport.SqlBlob blob)).
        destruct (sst_index_grows s (truncated t) (truncated_length t)) as [Hg Hlook].
        destruct (sst_index s (Some (truncated t))) as [s1 idx].
        eexists _, _. split; [reflexivity|]. split; [exact Hg|exact Hlook]. }
    destruct Hone as (cl & s1 & -> & Hg & Hden).
    destruct (IH (c + 1) s1) as [Hg' Hcells].
    destruct (data_cells rownum (c + 1) rest s1) as [cs s2]. cbn [fst snd] in *.
    split; [exact (grows_trans _ _ _ Hg Hg')|].
    constructor; [exact (grows_denotes _ _ _ _ Hg' Hden)|exact Hcells].
Qed.

Lemma Forall2_denotes_grows s s' cells txts :
  grows s s' -> Forall2 (cell_denotes s) cells txts -> Forall2 (cell_denotes s') cells txts.
Proof.
  intros Hg H. eapply Forall2_impl; [exact H|].
  intros c txt. apply grows_denotes. exact Hg.
Qed.

Lemma data_rows_from_spec rows : forall rownum s,
  grows s (snd (data_rows_from rownum rows s)) /\
  Forall2 (fun r vals =>
             Forall2 (cell_denotes (snd (data_rows_from rownum rows s)))
                     (snd r) (map value_text vals))
          (fst (data_rows_from rownum rows s)) rows.
Proof.
  induction rows as [|r rest IH]; intros rownum s; cbn [data_rows_from].
  - split; [apply grows_refl|constructor].
  - destruct (data_cells_spec rownum r 0 s) as [Hg Hcells].
    destruct (data_cells rownum 0 r s) as [cs s1]. cbn [fst snd] in *.
    destruct (IH (rownum + 1) s1) as [Hg' Hrows].
    destruct (data_rows_from (rownum + 1) rest s1) as [more s2]. cbn [fst snd] in *.
    split; [exact (grows_trans _ _ _ Hg Hg')|].
    constructor; [|exact Hrows].
    cbn [snd]. exact (Forall2_denotes_grows _ _ _ _ Hg' Hcells).
Qed.

Lemma sheet_denotes_grows s s' ws table :
  grows s s' -> sheet_denotes s ws table -> sheet_denotes s' ws table.
Proof.
  intros Hg. destruct ws as [w|]; [|exact id].
  intros [Hh Hr]. split; [exact (Forall2_denotes_grows _ _ _ _ Hg Hh)|].
  eapply Forall2_impl; [exact Hr|].
  intros r vals. apply Forall2_denotes_grows. exact Hg.
Qed.

Lemma write_sheet_spec colnames rows style s :
  grows s (snd (write_sheet colnames rows style s)) /\
  sheet_denotes (snd (write_sheet colnames rows style s))
                (fst (write_sheet colnames rows style s))
                (colnames, rows).
Proof.
  unfold write_sheet.
  destruct colnames as [|raw rest]; [split; [apply grows_refl|reflexivity]|].
  destruct (header_cells_spec style (raw :: rest) 0 s) as [Hg Hh].
  destruct (header_cells style 0 (raw :: rest) s) as [hdr s1]. cbn [fst snd] in *.
  destruct (data_rows_from_spec rows 2 s1) as [Hg' Hr].
  destruct (data_rows_from 2 rows s1) as [rs s2]. cbn [fst snd] in *.
  split; [exact (grows_trans _ _ _ Hg Hg')|].
  split; [exact (Forall2_denotes_grows _ _ _ _ Hg' Hh)|exact Hr].
Qed.

Section Db.

Variable table_info : cstring -> option (list cstring * bool).
Variable select : cstring -> option (list (list OpusExport.sql_value)).

Lemma build_worksheet_spec table style s ws s1 :
  build_worksheet_xml_with_sst table_info select table style s = Some (ws, s1) ->
  grows s s1 /\ sheet_denotes s1 ws (statement_rows table_info select table).
Proof.
  unfold build_worksheet_xml_with_sst, statement_rows.
  destruct (table_info (pragma_sql table)) as [[colnames done]|]; [|discriminate].
  destruct done; [|discriminate]. cbn [negb].
  destruct colnames as [|raw rest].
  - intros H. injection H as <- <-. split; [apply grows_refl|reflexivity].
  - destruct (select (select_sql table (raw :: rest))) as [rows|]; [|discriminate].
    pose proof (write_sheet_spec (raw :: rest)
                  (map (column_values (length (raw :: rest))) rows) style s) as Hspec.
    destruct (write_sheet (raw :: rest)
                (map (column_values (length (raw :: rest))) rows) style s) as [ws' s'].
    intros H. injection H as <- <-. exact Hspec.
Qed.

Lemma build_worksheets_spec tables : forall s sheets shared,
  build_worksheets table_info select tables s = Some (sheets, shared) ->
  grows s shared /\
  Forall2 (sheet_denotes shared) sheets (map (statement_rows table_info select) tables).
Proof.
  induction tables as [|table rest IH]; intros s sheets shared; cbn [build_worksheets map].
  - intros H. injection H as <- <-. split; [apply grows_refl|constructor].
  - destruct (build_worksheet_xml_with_sst table_info select table 1 s) as [[ws s1]|] eqn:E;
      [|discriminate].
    destruct (build_worksheets table_info select rest s1) as [[more s2]|] eqn:E';
      [|discriminate].
    intros H. injection H as <- <-.
    destruct (build_worksheet_spec _ _ _ _ _ E) as [Hg Hd].
    destruct (IH _ _ _ E') as [Hg' Hrest].
    split; [exact (grows_trans _ _ _ Hg Hg')|].
    constructor; [exact (sheet_denotes_grows _ _ _ _ Hg' Hd)|exact Hrest].
Qed.

(** The SELECT statement names every column as the string literal of
    its name: when nothing is cut off by the two buffers, it is
    [SELECT 'c1', 'c2', ... FROM table]. *)
Lemma select_sql_fixture :
  pragma_sql (lit "t") = lit "PRAGMA table_info('t');" /\
  select_sql (lit "t") [lit "id"; lit "name"] = lit "SELECT 'id', 'name' FROM t".
Proof. split; vm_compute; reflexivity. Qed.

(** X17: the shared-string table of a workbook exported by the copilot
    exporter.  When every worksheet is built, the table has no two equal
    entries and no entry longer than 32767 characters, and every cell of
    every worksheet denotes what the two statements of the builder
    returned for it: a header cell the column name, a data cell the
    text of the value in its row of the SELECT statement, each cut at
    that limit.  The index written into a cell still points at its text
    after the later sheets have added theirs. *)
Theorem copilot_workbook_shared_strings
    (tables : list cstring) (sheets : list (option worksheet)) (shared : sst) :
  build_worksheets table_info select tables sst_init = Some (sheets, shared) ->
  NoDup shared /\
  Forall (fun t => Z.of_nat (length t) <= EXCEL_CELL_CHAR_LIMIT) shared /\
  Forall2 (sheet_denotes shared) sheets (map (statement_rows table_info select) tables).
Proof.
  intros H. destruct (build_worksheets_spec tables sst_init sheets shared H)
    as [(_ & Hnd & Hshort) Hall].
  split; [apply Hnd, NoDup_nil_2|]. split; [apply Hshort; constructor|exact Hall].
Qed.

End Db.

Lemma copilot_workbook_shared_strings_witness :
  let shared := [lit "id"; lit "name"] in
  NoDup shared /\
  Forall (fun t => Z.of_nat (length t) <= EXCEL_CELL_CHAR_LIMIT) shared /\
  Forall2 (sheet_denotes shared)
    [Some {| header_row := [SharedCell (lit "A1") (Some 1) 0; SharedCell (lit "B1") (Some 1) 1];
             autofilter := lit "A1:B1";
             data_rows := [(2, [SharedCell (lit "A2") None 0; SharedCell (lit "B2") None 1]);
                           (3, [SharedCell (lit "A3") None 0; SharedCell (lit "B3") None 1])] |}]
    (map (statement_rows table_t_info table_t_select) [lit "t"]).
Proof.
  apply (copilot_workbook_shared_strings table_t_info table_t_select [lit "t"]).
  vm_compute. reflexivity.
Defined.

End CopilotWorkbook.

(** ** Export, then import: the copilot pair *)

Section CopilotRoundTrip.
Import CStr ColLetters Sst Xml GridSpec CopilotImport CopilotExport RoundTrip.

(** *** Handler calls, one at a time *)

Lemma shared_step ctx e : shared (sheet_step ctx e) = shared ctx.
Proof.
  destruct e as [name atts|name|s]; cbn [sheet_step];
    unfold sheet_start, sheet_end, sheet_char;
    repeat (match goal with |- context [if ?b then _ else _] => destruct b end);
    reflexivity.
Qed.

Lemma shared_steps evs : forall ctx, shared (fold_left sheet_step evs ctx) = shared ctx.
Proof.
  induction evs as [|e evs IH]; intros ctx; cbn [fold_left]; [reflexivity|].
  rewrite IH. apply shared_step.
Qed.

Lemma emitted_step_other ctx e :
  is_row_event e = false -> emitted (sheet_step ctx e) = emitted ctx.
Proof.
  destruct e as [name atts|name|s]; cbn [sheet_step is_row_event]; intros H;
    unfold sheet_start, sheet_end, sheet_char; rewrite ?H;
    repeat (match goal with |- context [if ?b then _ else _] => destruct b end);
    reflexivity.
Qed.

Lemma row_decls_app a : forall ctx b,
  row_decls ctx (a ++ b) = row_decls ctx a ++ row_decls (fold_left sheet_step a ctx) b.
Proof.
  induction a as [|e a IH]; intros ctx b; cbn [app row_decls fold_left]; [reflexivity|].
  rewrite IH, app_assoc. reflexivity.
Qed.

(** The declaration a written cell makes, in any parser state. *)
Lemma cell_events_decl ctx c :
  row_decls ctx (cell_events c) =
  [(Z.to_nat (colidx_of (strncpy 63 (cell_ref_of c))),
    match c with
    | SharedCell _ _ idx =>
        CopilotImport.cell_value (shared ctx) (lit "s") (fmt_d (Z.of_nat idx))
    | NumberCell _ v => v
    | EmptyCell _ => []
    end)].
Proof.
  destruct c as [ref [style|] idx|ref v|ref]; reflexivity.
Qed.


Lemma cell_events_not_row c :
  forallb (fun e => negb (is_row_event e)) (cell_events c) = true.
Proof. destruct c as [ref [style|] idx|ref v|ref]; reflexivity. Qed.

Lemma cells_events_not_row cells :
  forallb (fun e => negb (is_row_event e)) (concat (map cell_events cells)) = true.
Proof.
  induction cells as [|c cells IH]; [reflexivity|].
  cbn [map concat]. rewrite forallb_app, cell_events_not_row, IH. reflexivity.
Qed.

(** A shared-string cell is resolved to the entry its index names. *)
Lemma shared_cell_value (table : sstrings) idx txt :
  table !! idx = Some txt -> Z.of_nat (length table) <= 2147483647 ->
  CopilotImport.cell_value table (lit "s") (fmt_d (Z.of_nat idx)) = txt.
Proof.
  intros Hlook Hb. pose proof (lookup_lt_Some _ _ _ Hlook) as Hlt.
  destruct (fmt_d_digits (Z.of_nat idx)) as (Hne & _ & _); [lia|].
  assert (Hatoi : atoi (fmt_d (Z.of_nat idx)) = Z.of_nat idx).
  { rewrite <- (app_nil_r (fmt_d (Z.of_nat idx))). apply atoi_fmt_d; [lia|exact I]. }
  unfold CopilotImport.cell_value. change (lit "s") with ["s"%char].
  change (ch_eqb "s" "s") with true.
  replace (0 <? length (fmt_d (Z.of_nat idx)))%nat with true
    by (symmetry; apply Nat.ltb_lt; destruct (fmt_d (Z.of_nat idx)); [contradiction|simpl; lia]).
  cbn [andb]. cbv zeta. rewrite Hatoi.
  replace (0 <=? Z.of_nat idx) with true by (symmetry; apply Z.leb_le; lia).
  replace (Z.of_nat idx <? Z.of_nat (length table)) with true
    by (symmetry; apply Z.ltb_lt; lia).
  cbn [andb]. rewrite Nat2Z.id, Hlook. reflexivity.
Qed.

(** The column the importer stores a written cell in. *)
Lemma colidx_of_cellref c row :
  0 <= c <= 2147483646 -> (length row <= 21)%nat ->
  match row with d :: _ => isdigit d = true | [] => True end ->
  colidx_of (strncpy 63 (cellref c row)) = c.
Proof.
  intros Hc Hlen Hrow. unfold cellref, strncpy.
  rewrite col_to_letters_eq by (auto; lia).
  pose proof (letters_length c) as Hll.
  rewrite !take_ge by (rewrite ?take_ge; rewrite length_app; lia).
  unfold colidx_of, colletters_of, colname_to_index.
  rewrite take_while_not_digit; [|apply letters_upper|exact Hrow].
  rewrite take_ge by lia.
  rewrite colname_to_index_from_eq, letters_value by exact Hc.
  replace (c + 1 - 1 <? 0) with false; [lia|]. symmetry. apply Z.ltb_ge. lia.
Qed.

(** The cells of a written row declare consecutive columns. *)
Lemma row_cells_decls row cells : forall txts c ctx,
  refs_from row c cells ->
  Forall2 (cell_denotes (shared ctx)) cells txts ->
  0 <= c -> c + Z.of_nat (length cells) <= 2147483647 ->
  (length row <= 21)%nat ->
  match row with d :: _ => isdigit d = true | [] => True end ->
  Z.of_nat (length (shared ctx)) <= 2147483647 ->
  row_decls ctx (concat (map cell_events cells))
  = combine (seq (Z.to_nat c) (length txts)) txts.
Proof.
  induction cells as [|x cells IH]; intros txts c ctx Hrefs Hden Hc Hn Hlen Hrow Hb.
  - inversion Hden; subst. reflexivity.
  - inversion Hden as [|? txt ? txts' Hx Hrest]; subst.
    destruct Hrefs as [Hxref Hrefs]. cbn [length] in Hn.
    cbn [map concat]. rewrite row_decls_app, cell_events_decl.
    rewrite Hxref, colidx_of_cellref by (auto; lia).
    rewrite (IH txts' (c + 1)); try assumption; try lia;
      [|rewrite shared_steps; exact Hrest|rewrite shared_steps; exact Hb].
    cbn [length seq combine app].
    replace (Z.to_nat (c + 1)) with (S (Z.to_nat c)) by lia.
    f_equal. f_equal.
    destruct x as [ref style idx|ref v|ref]; cbn [cell_denotes] in Hx.
    + apply shared_cell_value; assumption.
    + exact Hx.
    + symmetry. exact Hx.
Qed.

Lemma combine_snoc {A B} (l : list A) : forall (k : list B) a b,
  length l = length k -> combine (l ++ [a]) (k ++ [b]) = combine l k ++ [(a, b)].
Proof.
  induction l as [|x l IH]; intros [|y k] a b H; try discriminate H; [reflexivity|].
  cbn [app combine]. rewrite IH by (injection H; auto). reflexivity.
Qed.

(** A row that declares its columns one after the other. *)
Lemma declared_row_dense (txts : list cstring) :
  declared_row None Some (combine (seq 0 (length txts)) txts) = map Some txts.
Proof.
  induction txts as [|t txts IH] using rev_ind; [reflexivity|].
  rewrite length_app. cbn [length]. rewrite seq_app. cbn [seq Nat.add].
  rewrite combine_snoc by (rewrite length_seq; reflexivity).
  rewrite declared_row_snoc, IH.
  pose proof (declared_row_length (W := option cstring) None Some
                (combine (seq 0 (length txts)) txts)) as Hw.
  rewrite IH, length_map in Hw. rewrite <- Hw.
  replace (S (length txts) - length txts)%nat with 1%nat by lia.
  cbn [replicate]. rewrite map_app. cbn [map].
  replace (length txts) with (length (map Some txts) + 0)%nat at 1
    by (rewrite length_map; lia).
  rewrite insert_app_r. reflexivity.
Qed.

(** One written row, from [<row>] to [</row>]. *)
Lemma row_block ctx atts body :
  forallb (fun e => negb (is_row_event e)) body = true ->
  emitted (fold_left sheet_step
             (StartElement (lit "row") atts :: body ++ [EndElement (lit "row")]) ctx)
  = emitted ctx ++
    [{| rownum := last_att (lit "r") atoi 0 atts;
        cols := declared_row None Some
                  (row_decls (sheet_step ctx (StartElement (lit "row") atts)) body) |}].
Proof.
  intros Hbody. cbn [fold_left]. apply (copilot_row_grid ctx atts body Hbody).
Qed.


Lemma emitted_steps_other evs : forall ctx,
  forallb (fun e => negb (is_row_event e)) evs = true ->
  emitted (fold_left sheet_step evs ctx) = emitted ctx.
Proof.
  induction evs as [|e evs IH]; intros ctx H; cbn [fold_left]; [reflexivity|].
  cbn [forallb] in H. apply andb_true_iff in H as [He H].
  rewrite (IH _ H). apply emitted_step_other. apply negb_true_iff. exact He.
Qed.

Lemma denotes_app s ext c txt : cell_denotes s c txt -> cell_denotes (s ++ ext) c txt.
Proof.
  destruct c as [ref style idx|ref v|ref]; [|exact id|exact id].
  cbn [cell_denotes]. apply lookup_app_l_Some.
Qed.

Lemma Forall2_denotes_app s ext cells txts :
  Forall2 (cell_denotes s) cells txts -> Forall2 (cell_denotes (s ++ ext)) cells txts.
Proof.
  intros H. eapply Forall2_impl; [exact H|]. intros c txt. apply denotes_app.
Qed.

(** *** The shape of what the builder writes *)

Lemma header_cells_refs style colnames : forall c s,
  refs_from (lit "1") c (fst (header_cells style c colnames s)) /\
  length (fst (header_cells style c colnames s)) = length colnames.
Proof.
  induction colnames as [|raw rest IH]; intros c s; cbn [header_cells]; [split; [exact I|reflexivity]|].
  cbv zeta. destruct (sst_index s (Some (truncated raw))) as [s1 idx].
  destruct (IH (c + 1) s1) as [Hr Hl].
  destruct (header_cells style (c + 1) rest s1) as [cs s2]. cbn [fst] in *.
  split; [split; [reflexivity|exact Hr]|cbn [length]; rewrite Hl; reflexivity].
Qed.

Lemma data_cells_refs rownum vals : forall c s,
  refs_from (fmt_d rownum) c (fst (data_cells rownum c vals s)) /\
  length (fst (data_cells rownum c vals s)) = length vals.
Proof.
  induction vals as [|v rest IH]; intros c s; cbn [data_cells]; [split; [exact I|reflexivity]|].
  cbv zeta.
  assert (Hone : exists cl s1,
    match v with
    | OpusExport.SqlInteger i => (NumberCell (cellref c (fmt_d rownum)) (fmt_d i), s)
    | OpusExport.SqlFloat printed => (NumberCell (cellref c (fmt_d rownum)) printed, s)
    | OpusExport.SqlNull => (EmptyCell (cellref c (fmt_d rownum)), s)
    | _ => let '(s1, idx) := sst_index s (Some (truncated (column_text v))) in
           (SharedCell (cellref c (fmt_d rownum)) None idx, s1)
    end = (cl, s1) /\ cell_ref_of cl = cellref c (fmt_d rownum)).
  { destruct v as [i|printed|text|blob|];
      try (eexists _, _; split; reflexivity).
    - destruct (sst_index s (Some (truncated (column_text (OpusExport.SqlText text)))))
        as [s1 idx]. eexists _, _; split; reflexivity.
    - destruct (sst_index s (Some (truncated (column_text (OpusExport.SqlBlob blob)))))
        as [s1 idx]. eexists _, _; split; reflexivity. }
  destruct Hone as (cl & s1 & -> & Href).
  destruct (IH (c + 1) s1) as [Hr Hl].
  destruct (data_cells rownum (c + 1) rest s1) as [cs s2]. cbn [fst] in *.
  split; [split; [exact Href|exact Hr]|cbn [length]; rewrite Hl; reflexivity].
Qed.

Lemma printed_row_short row :
  0 <= row <= 2147483647 ->
  (length (fmt_d row) <= 21)%nat /\
  match fmt_d row with d :: _ => isdigit d = true | [] => True end.
Proof.
  intros Hr. split; [apply fmt_d_length|].
  pose proof (printed_row_starts_with_digit row Hr) as H.
  destruct (fmt_d row); [exact I|apply H].
Qed.

(** The data rows, read back one after the other. *)
Lemma data_rows_read_back rows : forall rownum s ctx ext,
  shared ctx = snd (data_rows_from rownum rows s) ++ ext ->
  0 <= rownum -> rownum + Z.of_nat (length rows) <= 2147483648 ->
  Forall (fun vals => Z.of_nat (length vals) <= 2147483647) rows ->
  Z.of_nat (length (shared ctx)) <= 2147483647 ->
  emitted (fold_left sheet_step
             (concat (map data_row_events (fst (data_rows_from rownum rows s)))) ctx)
  = emitted ctx ++ imported_rows_from rownum rows.
Proof.
  induction rows as [|vals rest IH]; intros rownum s ctx ext Hsh Hr Hn Hw Hb;
    cbn [data_rows_from].
  - cbn. rewrite app_nil_r. reflexivity.
  - cbn [data_rows_from] in Hsh. cbn [length] in Hn.
    inversion Hw as [|? ? Hvals Hrest]; subst.
    destruct (data_cells_spec rownum vals 0 s) as [_ Hden].
    destruct (data_cells_refs rownum vals 0 s) as [Hrefs Hlen].
    destruct (data_cells rownum 0 vals s) as [cs s1]. cbn [fst snd] in *.
    destruct (data_rows_from_spec rest (rownum + 1) s1) as [([ext1 Hext1] & _) _].
    specialize (IH (rownum + 1) s1).
    destruct (data_rows_from (rownum + 1) rest s1) as [more s2]. cbn [fst snd] in *.
    subst s2.
    cbn [map concat imported_rows_from].
    unfold data_row_events at 1. cbn [fst snd].
    set (atts := [(lit "r", fmt_d rownum)]).
    set (body := concat (map cell_events cs)).
    change (StartElement (lit "row") atts :: body ++ [EndElement (lit "row"); CharacterData nl])
      with (StartElement (lit "row") atts :: body ++ [EndElement (lit "row")] ++ [CharacterData nl]).
    rewrite app_assoc, app_comm_cons, <- app_assoc, fold_left_app, fold_left_app.
    set (ctxr := fold_left sheet_step
                   (StartElement (lit "row") atts :: body ++ [EndElement (lit "row")]) ctx).
    set (ctx1 := fold_left sheet_step [CharacterData nl] ctxr).
    assert (Hsh1 : shared ctx1 = shared ctx)
      by (unfold ctx1, ctxr; rewrite !shared_steps; reflexivity).
    assert (Hem1 : emitted ctx1 = emitted ctx ++
              [{| rownum := rownum; cols := map (fun v => Some (value_text v)) vals |}]).
    { unfold ctx1. cbn [fold_left]. rewrite emitted_step_other by reflexivity.
      unfold ctxr. rewrite (row_block ctx atts body (cells_events_not_row cs)).
      f_equal. f_equal.
      destruct (printed_row_short rownum) as [Hshort Hdig]; [lia|].
      f_equal.
      - unfold atts, last_att. cbn [fold_left fst snd]. rewrite streq_refl.
        rewrite <- (app_nil_r (fmt_d rownum)). apply atoi_fmt_d; [lia|exact I].
      - rewrite (row_cells_decls (fmt_d rownum) cs (map value_text vals) 0);
          try assumption; try lia.
        + rewrite length_map. change (Z.to_nat 0) with 0%nat.
          rewrite <- (length_map value_text), declared_row_dense, map_map. reflexivity.
        + rewrite shared_step, Hsh, <- app_assoc. apply Forall2_denotes_app. exact Hden. }
    rewrite (IH ctx1 ext); [|rewrite Hsh1; exact Hsh|lia|lia|exact Hrest|rewrite Hsh1; exact Hb].
    rewrite Hem1, <- app_assoc. reflexivity.
Qed.

(** A worksheet written by the exporter and parsed by the importer
    with the exporter's shared-string table (as it is after this sheet
    or after any later one): row 1 with the column names, then one row
    per table row, every cell the text of its value, in its column. *)
Lemma copilot_sheet_read_back
    (colnames : list cstring) (rows : list (list OpusExport.sql_value)) (s ext : sst) :
  colnames <> [] ->
  Z.of_nat (length colnames) <= 2147483647 ->
  Forall (fun vals => length vals = length colnames) rows ->
  Z.of_nat (length rows) + 1 <= 2147483647 ->
  Z.of_nat (length (snd (write_sheet colnames rows 1 s) ++ ext))
    <= 2147483647 ->
  exists w,
    fst (write_sheet colnames rows 1 s) = Some w /\
    parse_sheet (snd (write_sheet colnames rows 1 s) ++ ext)
                (worksheet_events w)
    = {| rownum := 1; cols := map (fun n => Some (truncated n)) colnames |}
      :: imported_rows_from 2 rows.
Proof.
  intros Hne Hcols Hrows Hnrows Hb.
  unfold write_sheet in *.
  destruct colnames as [|raw rest]; [contradiction|].
  set (colnames := raw :: rest) in *.
  destruct (header_cells_spec 1 colnames 0 s) as [_ Hden].
  destruct (header_cells_refs 1 colnames 0 s) as [Hrefs Hlen].
  destruct (header_cells 1 0 colnames s) as [hdr s1]. cbn [fst snd] in *.
  destruct (data_rows_from_spec rows 2 s1) as [([ext1 Hext1] & _) _].
  pose proof (data_rows_read_back rows 2 s1) as Hdata.
  destruct (data_rows_from 2 rows s1) as [rs s2]. cbn [fst snd] in *.
  eexists. split; [reflexivity|].
  set (table := s2 ++ ext) in *.
  unfold parse_sheet, worksheet_events. cbn [header_row autofilter data_rows].
  set (pre := [StartElement (lit "worksheet") []; CharacterData nl;
               StartElement (lit "sheetData") []; CharacterData nl]).
  set (atts := [(lit "r", lit "1")]).
  set (body := CharacterData nl :: concat (map cell_events hdr) ++ [CharacterData nl]).
  set (mid := [CharacterData nl; StartElement (lit "autoFilter") _;
               EndElement (lit "autoFilter"); CharacterData nl]).
  set (tail := [EndElement (lit "sheetData"); CharacterData nl; EndElement (lit "worksheet")]).
  match goal with |- emitted (fold_left sheet_step ?evs _) = _ =>
    replace evs with
      (pre ++ (StartElement (lit "row") atts :: body ++ [EndElement (lit "row")])
           ++ mid ++ concat (map data_row_events rs) ++ tail)
      by (unfold pre, body, mid; cbn [app]; rewrite <- !app_assoc; reflexivity)
  end.
  rewrite !fold_left_app.
  set (ctx0 := fold_left sheet_step pre (sheet_parser_init table)).
  assert (Hs0 : shared ctx0 = table) by apply shared_steps.
  assert (He0 : emitted ctx0 = []) by reflexivity.
  set (ctx1 := fold_left sheet_step _ ctx0).
  assert (Hs1 : shared ctx1 = table) by (unfold ctx1; rewrite shared_steps; exact Hs0).
  assert (Hbody : forallb (fun e => negb (is_row_event e)) body = true).
  { unfold body. cbn [forallb is_row_event negb andb].
    rewrite forallb_app, cells_events_not_row. reflexivity. }
  assert (He1 : emitted ctx1 =
            [{| rownum := 1; cols := map (fun n => Some (truncated n)) colnames |}]).
  { unfold ctx1. rewrite (row_block ctx0 atts body Hbody), He0. cbn [app].
    f_equal. f_equal.
    unfold body. cbn [row_decls declared_by app].
    rewrite row_decls_app. cbn [row_decls declared_by]. rewrite app_nil_r.
    rewrite (row_cells_decls (lit "1") hdr (map truncated colnames) 0);
      try lia; try assumption.
    - rewrite length_map. change (Z.to_nat 0) with 0%nat.
      rewrite <- (length_map truncated), declared_row_dense, map_map. reflexivity.
    - rewrite !shared_step, Hs0. unfold table. subst s2. rewrite <- app_assoc.
      apply Forall2_denotes_app. exact Hden.
    - simpl. lia.
    - reflexivity. }
  set (ctx2 := fold_left sheet_step mid ctx1).
  assert (Hs2 : shared ctx2 = table) by (unfold ctx2; rewrite shared_steps; exact Hs1).
  assert (He2 : emitted ctx2 = emitted ctx1) by (apply emitted_steps_other; reflexivity).
  rewrite emitted_steps_other by reflexivity.
  rewrite (Hdata ctx2 ext); [| |lia|lia| |].
  - rewrite He2, He1. reflexivity.
  - rewrite Hs2. reflexivity.
  - eapply Forall_impl; [exact Hrows|]. intros vals Hv. cbn beta in Hv. rewrite Hv. lia.
  - rewrite Hs2. exact Hb.
Qed.

(** *** The table the importer creates *)

Lemma imported_rows_from_above rows : forall k,
  Forall (fun r => k <= rownum r) (imported_rows_from k rows).
Proof.
  induction rows as [|vals rows IH]; intros k; cbn [imported_rows_from]; constructor.
  - cbn [rownum]. lia.
  - eapply Forall_impl; [apply IH|]. intros r Hr. cbn beta in Hr. lia.
Qed.

Lemma min_rownum_header first rest :
  Forall (fun r => rownum first <= rownum r) rest ->
  min_rownum first rest = rownum first.
Proof.
  unfold min_rownum. generalize (rownum first) as m.
  induction rest as [|r rest IH]; intros m H; cbn [fold_left]; [reflexivity|].
  inversion H as [|? ? Hr Hrest]; subst.
  replace (rownum r <? m) with false by (symmetry; apply Z.ltb_ge; exact Hr).
  apply IH. exact Hrest.
Qed.

(** Header texts that are pairwise different are taken as they are. *)
Lemma colnames_from_distinct fuel names : forall prev,
  NoDup (prev ++ names) ->
  colnames_from (S fuel) (map Some names) prev = Some (prev ++ names).
Proof.
  induction names as [|n names IH]; intros prev Hnd; cbn [map colnames_from].
  - rewrite app_nil_r. reflexivity.
  - change (default [] (Some n)) with n. cbn [unique_colname].
    assert (Hfresh : existsb (fun p => streq p n) prev = false).
    { destruct (existsb (fun p => streq p n) prev) eqn:E; [|reflexivity].
      apply existsb_exists in E as (p & Hp & Heq). apply streq_true in Heq. subst p.
      apply NoDup_app in Hnd as (_ & Hdisj & _).
      exfalso. apply (Hdisj n); [apply list_elem_of_In; exact Hp|left]. }
    rewrite Hfresh. rewrite IH by (rewrite <- app_assoc; exact Hnd).
    rewrite <- app_assoc. reflexivity.
Qed.

Lemma row_values_full (txts : list cstring) k :
  row_values (length txts) {| rownum := k; cols := map Some txts |} = map Some txts.
Proof.
  unfold row_values. cbn [cols]. apply list_eq. intros i.
  rewrite list_lookup_fmap.
  destruct (le_lt_dec (length txts) i) as [Hge|Hlt].
  - rewrite (lookup_ge_None_2 (seq 0 (length txts))) by (rewrite length_seq; exact Hge).
    rewrite lookup_ge_None_2 by (rewrite length_map; exact Hge). reflexivity.
  - rewrite lookup_seq_lt by exact Hlt. cbn [fmap option_fmap option_map Nat.add].
    destruct (map Some txts !! i) as [[t|]|] eqn:E; cbn; [reflexivity| |].
    + rewrite list_lookup_fmap in E. destruct (txts !! i); discriminate E.
    + apply lookup_ge_None in E. rewrite length_map in E. lia.
Qed.

Section Pipeline.

Variable db : Type.
Variable create_empty_table : db -> cstring -> option db.
Variable create_table : db -> cstring -> list cstring -> option db.
Variable prepare_insert : db -> cstring -> list cstring -> bool.
Variable insert_row : db -> cstring -> list cstring -> list (option cstring) -> db.

Lemma insert_imported_rows name colnames min rows : forall k d,
  min < k -> Forall (fun vals => length vals = length colnames) rows ->
  fold_left (fun acc r =>
               if rownum r =? min then acc
               else insert_row acc name colnames (row_values (length colnames) r))
            (imported_rows_from k rows) d
  = fold_left (fun acc vals =>
                 insert_row acc name colnames (map (fun v => Some (value_text v)) vals))
              rows d.
Proof.
  induction rows as [|vals rows IH]; intros k d Hk Hlen; [reflexivity|].
  inversion Hlen as [|? ? Hv Hrest]; subst.
  cbn [imported_rows_from fold_left rownum].
  replace (k =? min) with false by (symmetry; apply Z.eqb_neq; lia).
  rewrite <- Hv, <- (length_map value_text), <- (map_map value_text Some).
  rewrite row_values_full. rewrite length_map, Hv.
  apply IH; [lia|exact Hrest].
Qed.

(** The written sheet, imported: the table has the column names and
    one row for each row written. *)
Lemma written_sheet_imported
    (colnames : list cstring) (rows : list (list OpusExport.sql_value)) (s ext : sst)
    (fuel : nat) (d d1 : db) (name : cstring) :
  colnames <> [] ->
  Z.of_nat (length colnames) <= 2147483647 ->
  NoDup (map truncated colnames) ->
  Forall (fun vals => length vals = length colnames) rows ->
  Z.of_nat (length rows) + 1 <= 2147483647 ->
  Z.of_nat (length (snd (write_sheet colnames rows 1 s) ++ ext))
    <= 2147483647 ->
  create_table d name (map truncated colnames) = Some d1 ->
  prepare_insert d1 name (map truncated colnames) = true ->
  exists w,
    fst (write_sheet colnames rows 1 s) = Some w /\
    import_rows db create_empty_table create_table prepare_insert insert_row
      (S fuel) d name
      (parse_sheet (snd (write_sheet colnames rows 1 s) ++ ext)
                   (worksheet_events w))
    = Some (fold_left (fun acc vals =>
                         insert_row acc name (map truncated colnames)
                           (map (fun v => Some (value_text v)) vals))
                      rows d1, true).
Proof.
  intros Hne Hcols Hnd Hrows Hnrows Hb Hcreate Hprep.
  destruct (copilot_sheet_read_back colnames rows s ext Hne Hcols Hrows Hnrows Hb)
    as (w & Hw & Hparse).
  exists w. split; [exact Hw|]. rewrite Hparse.
  set (hdr := {| rownum := 1; cols := map (fun n => Some (truncated n)) colnames |}).
  unfold import_rows.
  assert (Hmin : min_rownum hdr (imported_rows_from 2 rows) = 1).
  { apply min_rownum_header. eapply Forall_impl; [apply imported_rows_from_above|].
    intros r Hr. cbn beta in Hr. cbn [hdr rownum]. lia. }
  rewrite Hmin. cbn [List.find rownum hdr]. change (1 =? 1) with true. cbv iota.
  change (default hdr (Some hdr)) with hdr. cbv zeta. cbn [cols hdr].
  rewrite <- (map_map truncated Some).
  rewrite (colnames_from_distinct fuel (map truncated colnames) []) by exact Hnd.
  cbn [app]. rewrite Hcreate, Hprep. f_equal. f_equal.
  cbn [fold_left rownum]. change (1 =? 1) with true. cbv iota.
  rewrite !length_map.
  assert (Hlen : Forall (fun vals => length vals = length (map truncated colnames)) rows)
    by (rewrite length_map; exact Hrows).
  pose proof (insert_imported_rows name (map truncated colnames) 1 rows 2 d1
                ltac:(lia) Hlen) as Hins.
  rewrite length_map in Hins. exact Hins.
Qed.

Variable table_info : cstring -> option (list cstring * bool).
Variable select : cstring -> option (list (list OpusExport.sql_value)).

(** X18: a worksheet built by the copilot exporter for a table with
    columns and imported again by the copilot importer (with the
    exporter's shared-string table, as it is after this sheet or after
    any later one).  The importer creates the table with the column
    names the PRAGMA statement returned (cut at 32767 characters) and
    inserts one row for each row the exporter's SELECT statement
    returned, in order, each with one value per column: integers and
    floats as the text printed for them, texts cut at 32767 characters,
    and the empty string for a NULL.  The SELECT statement is the one
    [select_sql] builds, which names the columns as string literals. *)
Theorem copilot_export_import_round_trip
    (table : cstring) (s s1 ext : sst) (w : worksheet)
    (fuel : nat) (d d1 : db) (name : cstring) :
  let colnames := fst (statement_rows table_info select table) in
  let rows := snd (statement_rows table_info select table) in
  build_worksheet_xml_with_sst table_info select table 1 s = Some (Some w, s1) ->
  Z.of_nat (length colnames) <= 2147483647 ->
  NoDup (map truncated colnames) ->
  Z.of_nat (length rows) + 1 <= 2147483647 ->
  Z.of_nat (length (s1 ++ ext)) <= 2147483647 ->
  create_table d name (map truncated colnames) = Some d1 ->
  prepare_insert d1 name (map truncated colnames) = true ->
  import_rows db create_empty_table create_table prepare_insert insert_row
    (S fuel) d name (parse_sheet (s1 ++ ext) (worksheet_events w))
  = Some (fold_left (fun acc vals =>
                       insert_row acc name (map truncated colnames)
                         (map (fun v => Some (value_text v)) vals))
                    rows d1, true).
Proof.
  unfold build_worksheet_xml_with_sst, statement_rows.
  destruct (table_info (pragma_sql table)) as [[colnames done]|]; [|discriminate].
  destruct done; [|discriminate]. cbn [negb fst snd].
  destruct colnames as [|raw rest]; [discriminate|].
  destruct (select (select_sql table (raw :: rest))) as [rows|]; [|discriminate].
  set (colnames := raw :: rest).
  set (vals := map (column_values (length colnames)) rows).
  intros Hbuild Hcols Hnd Hnrows Hb Hcreate Hprep.
  assert (Hlen : Forall (fun r => length r = length colnames) vals).
  { apply Forall_forall. intros r Hr. apply list_elem_of_fmap in Hr as (r0 & -> & _).
    unfold column_values. rewrite length_map, length_seq. reflexivity. }
  assert (Hw : write_sheet colnames vals 1 s = (Some w, s1)) by congruence.
  destruct (written_sheet_imported colnames vals s ext fuel d d1 name)
    as (w' & Hw' & Himp); try assumption.
  - discriminate.
  - rewrite Hw. exact Hb.
  - rewrite Hw in Hw', Himp. cbn [fst snd] in Hw', Himp.
    injection Hw' as <-. exact Himp.
Qed.

End Pipeline.

Lemma copilot_export_import_round_trip_witness :
  exists w s1,
    build_worksheet_xml_with_sst table_t_info table_t_select (lit "t") 1 []
      = Some (Some w, s1) /\
    import_rows (list (list (option cstring)))
      (fun d _ => Some d) (fun d _ _ => Some d) (fun _ _ _ => true)
      (fun d _ _ vals => d ++ [vals]) 1 [] (lit "t")
      (parse_sheet (s1 ++ []) (worksheet_events w))
    = Some ([[Some (lit "id"); Some (lit "name")];
             [Some (lit "id"); Some (lit "name")]], true).
Proof.
  destruct (build_worksheet_xml_with_sst table_t_info table_t_select (lit "t") 1 [])
    as [[[w|] s1]|] eqn:E; try (vm_compute in E; discriminate E).
  exists w, s1. split; [reflexivity|].
  apply (copilot_export_import_round_trip (list (list (option cstring)))
           (fun d _ => Some d) (fun d _ _ => Some d) (fun _ _ _ => true)
           (fun d _ _ vals => d ++ [vals])
           table_t_info table_t_select (lit "t") [] s1 [] w 0 [] [] (lit "t")).
  - exact E.
  - vm_compute. discriminate.
  - apply (bool_decide_unpack _). vm_compute. exact I.
  - vm_compute. discriminate.
  - vm_compute in E. injection E as _ <-. vm_compute. discriminate.
  - reflexivity.
  - reflexivity.
Defined.

End CopilotRoundTrip.

(** ** The result of an export (opus exporter) *)

Section OpusExportResult.
Import CStr OpusExport OpusTables.

Variable database : cstring -> option table_scan.
Variable write_zip : cstring -> list worksheet -> bool.

Lemma all_text_Some tables : all_text (map Some tables) = Some tables.
Proof.
  induction tables as [|t tables IH]; [reflexivity|].
  cbn [map all_text]. rewrite IH. reflexivity.
Qed.

Lemma gen_worksheet_readable t scan w :
  readable database t scan ->
  exists sheet w',
    gen_worksheet database t w = (inr sheet, w') /\
    cells_truncated w' =
      cells_truncated w + Z.of_nat (length (List.filter oversized (concat (scan_rows scan)))).
Proof.
  intros [Hdb Hdone]. unfold gen_worksheet. rewrite Hdb. cbv zeta.
  pose proof (gen_rows_count t (scan_rows scan) 2 w) as Hcount.
  destruct (gen_rows t 2 (scan_rows scan) w) as [rs w']. cbn [snd] in Hcount.
  rewrite Hdone. eexists _, w'. split; [reflexivity|exact Hcount].
Qed.

Lemma gen_all_readable tables scans :
  Forall2 (readable database) tables scans ->
  forall w, exists sheets w',
    gen_all database tables w = (inr sheets, w') /\
    cells_truncated w' = cells_truncated w + oversized_count scans.
Proof.
  unfold oversized_count.
  induction 1 as [|t scan tables scans Ht _ IH]; intros w.
  - exists [], w. split; [reflexivity|]. simpl. lia.
  - destruct (gen_worksheet_readable t scan w Ht) as (sheet & w1 & Hs & Hc1).
    destruct (IH w1) as (sheets & w2 & Hrest & Hc2).
    exists (sheet :: sheets), w2. cbn [gen_all]. rewrite Hs, Hrest.
    split; [reflexivity|].
    cbn [flat_map]. rewrite concat_app, List.filter_app, length_app. lia.
Qed.

Lemma gen_all_stops good : forall bad rest w e,
  Forall (fun t => exists scan, readable database t scan) good ->
  (forall w0, exists w1, gen_worksheet database bad w0 = (inl e, w1)) ->
  exists w', gen_all database (good ++ bad :: rest) w = (inl e, w').
Proof.
  induction good as [|t good IH]; intros bad rest w e Hgood Hbad.
  - cbn [app gen_all]. destruct (Hbad w) as [w1 ->]. exists w1. reflexivity.
  - inversion Hgood as [|? ? [scan Ht] Hgood']; subst.
    destruct (gen_worksheet_readable t scan w Ht) as (sheet & w1 & Hs & _).
    destruct (IH bad rest w1 e Hgood' Hbad) as [w' Hrest].
    exists w'. cbn [app gen_all]. rewrite Hs, Hrest. reflexivity.
Qed.


(** X19: an export of tables that are all read to their end and whose
    archive is written returns the file name followed by a warning that
    counts exactly the text and blob values, over all the tables, that
    exceed the cell-size limit; it returns the bare file name exactly
    when there is none. *)
Theorem opus_export_counts_truncated_cells
    (filename : cstring) (tables : list cstring) (scans : list table_scan) :
  tables <> [] ->
  Forall2 (readable database) tables scans ->
  (forall sheets, write_zip filename sheets = true) ->
  exists w,
    xlsx_export_func database write_zip (Some filename :: map Some tables)
      = inr (result_text filename w) /\
    cells_truncated w = oversized_count scans /\
    (result_text filename w = filename <-> oversized_count scans = 0).
Proof.
  intros Hne Hread Hzip.
  destruct (gen_all_readable tables scans Hread no_warnings) as (sheets & w & Hall & Hcount).
  exists w. change (cells_truncated no_warnings) with 0 in Hcount.
  rewrite Z.add_0_l in Hcount.
  split; [|split; [lia|]].
  - destruct tables as [|t tables]; [contradiction|].
    cbn [map xlsx_export_func]. change (Some t :: map Some tables) with (map Some (t :: tables)).
    rewrite all_text_Some, Hall, Hzip. reflexivity.
  - assert (Hpos : 0 <= oversized_count scans) by (unfold oversized_count; lia).
    unfold result_text. rewrite Hcount. destruct (0 <? oversized_count scans) eqn:E.
    + apply Z.ltb_lt in E. split; [|lia]. intros H.
      rewrite <- (app_nil_r filename) in H at 2. apply app_inv_head in H.
      discriminate H.
    + apply Z.ltb_ge in E. split; [lia|reflexivity].
Qed.

(** X20: the export stops at the first table it cannot read.  When the
    SELECT on a table cannot be prepared, or does not step to its end,
    the call fails with the error for that table, whatever tables follow
    it and whether or not the archive could be written. *)
Theorem opus_export_stops_at_first_unreadable_table
    (filename : cstring) (good : list cstring) (bad : cstring) (rest : list cstring) :
  Forall (fun t => exists scan, readable database t scan) good ->
  (database bad = None ->
   xlsx_export_func database write_zip (Some filename :: map Some (good ++ bad :: rest))
     = inl (ErrPrepare bad)) /\
  (forall scan, database bad = Some scan -> scan_done scan = false ->
   xlsx_export_func database write_zip (Some filename :: map Some (good ++ bad :: rest))
     = inl (ErrRead bad)).
Proof.
  intros Hgood.
  assert (Hcall : forall e,
    (forall w0, exists w1, gen_worksheet database bad w0 = (inl e, w1)) ->
    xlsx_export_func database write_zip (Some filename :: map Some (good ++ bad :: rest))
      = inl e).
  { intros e Hbad.
    destruct (gen_all_stops good bad rest no_warnings e Hgood Hbad) as [w' Hall].
    destruct (good ++ bad :: rest) as [|t ts] eqn:E; [destruct good; discriminate E|].
    cbn [map xlsx_export_func]. change (Some t :: map Some ts) with (map Some (t :: ts)).
    rewrite all_text_Some, Hall. reflexivity. }
  split.
  - intros Hnone. apply Hcall. intros w0. exists w0.
    unfold gen_worksheet. rewrite Hnone. reflexivity.
  - intros scan Hsome Hdone. apply Hcall. intros w0.
    unfold gen_worksheet. rewrite Hsome. cbv zeta.
    destruct (gen_rows bad 2 (scan_rows scan) w0) as [rs w1].
    rewrite Hdone. exists w1. reflexivity.
Qed.

End OpusExportResult.

Section OpusExportWitnesses.
Import CStr OpusExport OpusTables Fixtures.

Lemma opus_export_counts_truncated_cells_witness :
  exists w,
    xlsx_export_func db_long_value zip_ok (Some (lit "out.xlsx") :: map Some [lit "t"])
      = inr (result_text (lit "out.xlsx") w) /\
    cells_truncated w
      = oversized_count [{| column_names := [lit "note"];
                            scan_rows := [[SqlText long_text]];
                            scan_done := true |}] /\
    (result_text (lit "out.xlsx") w = lit "out.xlsx" <->
     oversized_count [{| column_names := [lit "note"];
                         scan_rows := [[SqlText long_text]];
                         scan_done := true |}] = 0).
Proof.
  apply (opus_export_counts_truncated_cells db_long_value zip_ok).
  - discriminate.
  - constructor; [split; reflexivity|constructor].
  - reflexivity.
Defined.

Lemma opus_export_stops_at_first_unreadable_table_witness :
  (db_long_value (lit "missing") = None ->
   xlsx_export_func db_long_value zip_ok
     (Some (lit "out.xlsx") :: map Some ([lit "t"] ++ lit "missing" :: [lit "t"]))
     = inl (ErrPrepare (lit "missing"))) /\
  (forall scan, db_long_value (lit "missing") = Some scan -> scan_done scan = false ->
   xlsx_export_func db_long_value zip_ok
     (Some (lit "out.xlsx") :: map Some ([lit "t"] ++ lit "missing" :: [lit "t"]))
     = inl (ErrRead (lit "missing"))).
Proof.
  apply (opus_export_stops_at_first_unreadable_table db_long_value zip_ok).
  constructor; [|constructor]. eexists. split; reflexivity.
Defined.

End OpusExportWitnesses.

(** ** Line ends and entity references *)

Section LineEnds.
Import CStr Escapes.

Lemma line_ends_plain p : forall b r,
  p <> [] -> Forall (fun d => code d <> 13 /\ code d <> 10) p ->
  line_ends_from b (p ++ r) = p ++ line_ends_from false r.
Proof.
  induction p as [|d p IH]; intros b r Hne Hp; [contradiction|].
  inversion Hp as [|? ? [H13 H10] Hp']; subst.
  cbn [app line_ends_from].
  destruct (code d =? 13) eqn:E13; [apply Z.eqb_eq in E13; contradiction|].
  destruct (code d =? 10) eqn:E10; [apply Z.eqb_eq in E10; contradiction|].
  cbn [andb]. f_equal.
  destruct p as [|d' p]; [reflexivity|].
  apply IH; [discriminate|exact Hp'].
Qed.

(** Normalising the line ends of an escaped text is escaping the text
    with its line ends normalised, when the escaping leaves line ends
    alone and writes something without line ends for every other
    character. *)
Lemma line_ends_pieces (piece : ascii -> cstring) :
  (forall c, code c = 13 \/ code c = 10 -> piece c = [c]) ->
  forall u b,
  Forall (fun c => code c <> 13 -> code c <> 10 ->
                   piece c <> [] /\
                   Forall (fun d => code d <> 13 /\ code d <> 10) (piece c)) u ->
  line_ends_from b (flat_map piece u) = flat_map piece (line_ends_from b u).
Proof.
  intros Hcrlf u. induction u as [|c u IH]; intros b Hu; [reflexivity|].
  inversion Hu as [|? ? Hc Hu']; subst.
  assert (Hlf : piece (chr 10) = [chr 10]) by (apply Hcrlf; right; reflexivity).
  cbn [flat_map line_ends_from].
  destruct (code c =? 13) eqn:E13.
  - apply Z.eqb_eq in E13. rewrite (Hcrlf c) by (left; exact E13).
    cbn [app line_ends_from flat_map].
    rewrite (proj2 (Z.eqb_eq _ _) E13), Hlf. cbn [app]. f_equal. apply IH. exact Hu'.
  - apply Z.eqb_neq in E13. destruct (code c =? 10) eqn:E10.
    + apply Z.eqb_eq in E10. rewrite (Hcrlf c) by (right; exact E10).
      cbn [app line_ends_from].
      rewrite (proj2 (Z.eqb_neq _ _) E13), (proj2 (Z.eqb_eq _ _) E10).
      destruct b; cbn [andb flat_map].
      * apply IH. exact Hu'.
      * rewrite (Hcrlf c) by (right; exact E10). cbn [app]. f_equal. apply IH. exact Hu'.
    + apply Z.eqb_neq in E10. destruct (Hc E13 E10) as [Hne Hp].
      cbn [andb flat_map]. rewrite line_ends_plain by assumption.
      f_equal. apply IH. exact Hu'.
Qed.




Lemma code_char c n : code c = n -> c = chr n.
Proof. intros <-. symmetry. apply chr_code. Qed.

(** *** The opus exporter's escaping *)








(** *** The gemini exporter's escaping *)

Lemma gemini_pieces_decode u : entity_decode (flat_map gemini_piece u) = u.
Proof.
  induction u as [|c u IH]; [reflexivity|].
  cbn [flat_map]. unfold gemini_piece at 1.
  destruct (entity_decode_entities (flat_map gemini_piece u)) as (Ga & Gl & Gg & Gq & Gp).
  destruct (ch_eqb c "<") eqn:El.
  { apply ch_eqb_true in El. subst c. rewrite Gl, IH. reflexivity. }
  destruct (ch_eqb c ">") eqn:Eg.
  { apply ch_eqb_true in Eg. subst c. rewrite Gg, IH. reflexivity. }
  destruct (ch_eqb c "&") eqn:Ea.
  { apply ch_eqb_true in Ea. subst c. rewrite Ga, IH. reflexivity. }
  destruct (code c =? 34) eqn:Eq.
  { apply code_34 in Eq. subst c. rewrite Gq, IH. reflexivity. }
  destruct (ch_eqb c "'") eqn:Ep.
  { apply ch_eqb_true in Ep. subst c. rewrite Gp, IH. reflexivity. }
  cbn [app]. rewrite (entity_decode_other c _ Ea), IH. reflexivity.
Qed.

Lemma gemini_piece_line_end c : code c = 13 \/ code c = 10 -> gemini_piece c = [c].
Proof.
  intros [H | H]; apply code_char in H; subst c; reflexivity.
Qed.

Lemma gemini_piece_plain c :
  code c <> 13 -> code c <> 10 ->
  gemini_piece c <> [] /\ Forall (fun d => code d <> 13 /\ code d <> 10) (gemini_piece c).
Proof.
  intros H13 H10. unfold gemini_piece.
  repeat match goal with
         | |- context [if ?t then _ else _] =>
             destruct t;
               [split; [discriminate|
                        vm_compute; repeat (constructor; [split; discriminate|]); constructor]|]
         end.
  split; [discriminate|]. constructor; [split; assumption|constructor].
Qed.

(** What the parser delivers for a text the gemini exporter escaped:
    the text, its line ends as line feeds. *)
Lemma gemini_escape_chardata s :
  chardata (strbuf_append_xml_escaped [] s) = line_ends s.
Proof.
  unfold chardata, line_ends. rewrite strbuf_append_xml_escaped_app. cbn [app].
  rewrite (line_ends_pieces gemini_piece gemini_piece_line_end).
  - apply gemini_pieces_decode.
  - apply Forall_forall. intros c _. apply gemini_piece_plain.
Qed.

End LineEnds.

(** ** Export, then import: the opus pair *)

Section OpusRoundTrip.
Import CStr ColLetters Xml GridSpec Escapes OpusImport OpusExport OpusDocument OpusTable OpusSheet.

(** The parser never calls the character-data handler without
    characters. *)
Variable split : cstring -> list cstring.
Hypothesis split_concat : forall t, concat (split t) = t.
Hypothesis split_nonempty : forall t, Forall (fun chunk => chunk <> []) (split t).

(** The reference the exporter writes for a cell, as the importer
    reads it. *)
Lemma parse_cell_ref_written col row :
  0 <= col <= 2147483646 -> 0 <= row <= 2147483647 ->
  parse_cell_ref (cell_ref col row) = (col + 1, row).
Proof.
  intros Hc Hr. unfold parse_cell_ref, cell_ref, col_to_num.
  rewrite col_to_letter_eq by exact Hc.
  pose proof (printed_row_starts_with_digit row Hr) as Hd.
  assert (Hstop : match fmt_d row with c :: _ => isalpha c = false | [] => True end).
  { destruct (fmt_d row); [exact I|]. apply Hd. }
  rewrite col_to_num_from_app by apply letters_upper.
  rewrite letters_value by exact Hc.
  rewrite col_to_num_from_stop by exact Hstop.
  rewrite drop_while_alpha by (auto using letters_upper).
  f_equal. rewrite <- (app_nil_r (fmt_d row)). apply atoi_fmt_d; [lia|exact I].
Qed.

Lemma cell_atts_number ref :
  cell_atts [(lit "r", ref)] = (fst (parse_cell_ref ref), snd (parse_cell_ref ref), "n"%char).
Proof. unfold cell_atts. cbn [fold_left fst snd]. destruct (parse_cell_ref ref). reflexivity. Qed.

Lemma cell_atts_inline ref (bold : bool) :
  cell_atts ((lit "r", ref) :: (lit "t", lit "inlineStr")
             :: if bold then [(lit "s", lit "1")] else [])
  = (fst (parse_cell_ref ref), snd (parse_cell_ref ref), "i"%char).
Proof.
  unfold cell_atts. destruct bold; cbn [fold_left fst snd];
    destruct (parse_cell_ref ref); reflexivity.
Qed.

(** Evaluate the comparisons of element and attribute names. *)
Ltac eval_tests :=
  repeat match goal with
    | |- context [streq (lit ?a) (lit ?b)] =>
        let r := eval vm_compute in (streq (lit a) (lit b)) in
        change (streq (lit a) (lit b)) with r
    | |- context [ch_eqb ?a ?b] =>
        is_ground a; is_ground b;
        let r := eval vm_compute in (ch_eqb a b) in
        change (ch_eqb a b) with r
    end;
  cbn [andb orb negb].

(** *** Handler calls, one at a time *)

Lemma sheet_decls_cons wsp e rest :
  sheet_decls wsp (e :: rest) = declared_by wsp e ++ sheet_decls (ws_step wsp e) rest.
Proof. reflexivity. Qed.

Lemma fold_step_cons wsp e rest :
  fold_left ws_step (e :: rest) wsp = fold_left ws_step rest (ws_step wsp e).
Proof. reflexivity. Qed.

Lemma step_start_c w s cr cc ct iv it iis tx atts :
  ws_step {| ws := w; ss := s; cur_row := cr; cur_col := cc; cur_type := ct;
             in_v := iv; in_t := it; in_is := iis; text := tx |}
          (StartElement (lit "c") atts)
  = {| ws := w; ss := s; cur_row := snd (fst (cell_atts atts));
       cur_col := fst (fst (cell_atts atts)); cur_type := snd (cell_atts atts);
       in_v := iv; in_t := it; in_is := iis; text := reset_text tx |}.
Proof.
  cbn [ws_step]. unfold ws_start_element. eval_tests.
  destruct (cell_atts atts) as [[c r] t]. reflexivity.
Qed.

Lemma step_start_v w s cr cc ct iv it iis tx :
  ws_step {| ws := w; ss := s; cur_row := cr; cur_col := cc; cur_type := ct;
             in_v := iv; in_t := it; in_is := iis; text := tx |}
          (StartElement (lit "v") [])
  = {| ws := w; ss := s; cur_row := cr; cur_col := cc; cur_type := ct;
       in_v := true; in_t := it; in_is := iis; text := reset_text tx |}.
Proof. cbn [ws_step]. unfold ws_start_element. eval_tests. reflexivity. Qed.

Lemma step_start_is w s cr cc ct iv it iis tx :
  ws_step {| ws := w; ss := s; cur_row := cr; cur_col := cc; cur_type := ct;
             in_v := iv; in_t := it; in_is := iis; text := tx |}
          (StartElement (lit "is") [])
  = {| ws := w; ss := s; cur_row := cr; cur_col := cc; cur_type := ct;
       in_v := iv; in_t := it; in_is := true; text := tx |}.
Proof. cbn [ws_step]. unfold ws_start_element. eval_tests. reflexivity. Qed.

Lemma step_start_t w s cr cc ct iv it tx :
  ws_step {| ws := w; ss := s; cur_row := cr; cur_col := cc; cur_type := ct;
             in_v := iv; in_t := it; in_is := true; text := tx |}
          (StartElement (lit "t") [])
  = {| ws := w; ss := s; cur_row := cr; cur_col := cc; cur_type := ct;
       in_v := iv; in_t := true; in_is := true; text := reset_text tx |}.
Proof. cbn [ws_step]. unfold ws_start_element. eval_tests. reflexivity. Qed.

Lemma step_char_v w s cr cc ct it iis tx d :
  ws_step {| ws := w; ss := s; cur_row := cr; cur_col := cc; cur_type := ct;
             in_v := true; in_t := it; in_is := iis; text := tx |}
          (CharacterData d)
  = {| ws := w; ss := s; cur_row := cr; cur_col := cc; cur_type := ct;
       in_v := true; in_t := it; in_is := iis; text := wsp_append_text tx d |}.
Proof. reflexivity. Qed.

Lemma step_char_t w s cr cc ct iv iis tx d :
  ws_step {| ws := w; ss := s; cur_row := cr; cur_col := cc; cur_type := ct;
             in_v := iv; in_t := true; in_is := iis; text := tx |}
          (CharacterData d)
  = {| ws := w; ss := s; cur_row := cr; cur_col := cc; cur_type := ct;
       in_v := iv; in_t := true; in_is := iis; text := wsp_append_text tx d |}.
Proof. cbn [ws_step]. unfold ws_char_data. cbn [in_v in_t]. rewrite orb_true_r. reflexivity. Qed.

Lemma step_end_v w s cr cc ct iv it iis tx :
  ws_step {| ws := w; ss := s; cur_row := cr; cur_col := cc; cur_type := ct;
             in_v := iv; in_t := it; in_is := iis; text := tx |}
          (EndElement (lit "v"))
  = {| ws := w; ss := s; cur_row := cr; cur_col := cc; cur_type := ct;
       in_v := false; in_t := it; in_is := iis; text := tx |}.
Proof. cbn [ws_step]. unfold ws_end_element. eval_tests. reflexivity. Qed.

Lemma step_end_t w s cr cc ct iv it tx :
  ws_step {| ws := w; ss := s; cur_row := cr; cur_col := cc; cur_type := ct;
             in_v := iv; in_t := it; in_is := true; text := tx |}
          (EndElement (lit "t"))
  = {| ws := w; ss := s; cur_row := cr; cur_col := cc; cur_type := ct;
       in_v := iv; in_t := false; in_is := true; text := tx |}.
Proof. cbn [ws_step]. unfold ws_end_element. eval_tests. reflexivity. Qed.

Lemma step_end_is w s cr cc ct iv it iis tx :
  ws_step {| ws := w; ss := s; cur_row := cr; cur_col := cc; cur_type := ct;
             in_v := iv; in_t := it; in_is := iis; text := tx |}
          (EndElement (lit "is"))
  = {| ws := w; ss := s; cur_row := cr; cur_col := cc; cur_type := ct;
       in_v := iv; in_t := it; in_is := false; text := tx |}.
Proof. cbn [ws_step]. unfold ws_end_element. eval_tests. reflexivity. Qed.

Lemma step_end_c w s cr cc ct iv it iis tx w' :
  0 < cr -> 0 < cc ->
  let wsp := {| ws := w; ss := s; cur_row := cr; cur_col := cc; cur_type := ct;
                in_v := iv; in_t := it; in_is := iis; text := tx |} in
  ws_set_cell w cr cc (OpusImport.cell_value wsp) = Some w' ->
  ws_step wsp (EndElement (lit "c"))
  = {| ws := w'; ss := s; cur_row := cr; cur_col := cc; cur_type := ct;
       in_v := iv; in_t := it; in_is := iis; text := tx |} /\
  declared_by wsp (EndElement (lit "c"))
  = [((Z.to_nat cr - 1)%nat, (Z.to_nat cc - 1)%nat, OpusImport.cell_value wsp)].
Proof.
  intros Hr Hc wsp Hset. apply Z.ltb_lt in Hr. apply Z.ltb_lt in Hc.
  subst wsp. cbn [ws_step declared_by]. unfold ws_end_element. eval_tests.
  cbn [cur_row cur_col ws]. rewrite Hr, Hc. cbn [andb]. split; [|reflexivity].
  rewrite Hset. reflexivity.
Qed.

Lemma declared_by_other wsp e :
  match e with EndElement name => streq name (lit "c") = false | _ => True end ->
  declared_by wsp e = [].
Proof.
  destruct e as [name atts|name|d]; try reflexivity.
  intros H. cbn [declared_by]. rewrite H. reflexivity.
Qed.

Lemma ws_set_cell_ok w row col v :
  0 < row -> 0 < col -> exists w', ws_set_cell w row col v = Some w'.
Proof.
  intros Hr Hc. unfold ws_set_cell.
  replace ((row <=? 0) || (col <=? 0)) with false; [eexists; reflexivity|].
  symmetry. apply orb_false_iff. split; apply Z.leb_gt; assumption.
Qed.


Ltac run_steps :=
  rewrite ?sheet_decls_cons, ?fold_step_cons;
  rewrite ?step_start_c, ?cell_atts_number, ?cell_atts_inline;
  cbn [fst snd];
  rewrite ?step_start_v, ?step_start_is; rewrite ?step_start_t;
  rewrite ?step_char_v, ?step_char_t;
  rewrite ?step_end_v, ?step_end_t; rewrite ?step_end_is.

Lemma sheet_decls_app a : forall wsp b,
  sheet_decls wsp (a ++ b) = sheet_decls wsp a ++ sheet_decls (fold_left ws_step a wsp) b.
Proof.
  induction a as [|e a IH]; intros wsp b; [reflexivity|].
  cbn [app]. rewrite !sheet_decls_cons, fold_step_cons, IH, app_assoc. reflexivity.
Qed.

(** Character data inside [v] or [t] is collected, however it is cut. *)
Lemma chars_read chunks : forall w s cr cc ct iv it iis tx,
  iv || it = true ->
  sheet_decls {| ws := w; ss := s; cur_row := cr; cur_col := cc; cur_type := ct;
                 in_v := iv; in_t := it; in_is := iis; text := tx |}
              (map CharacterData chunks) = [] /\
  fold_left ws_step (map CharacterData chunks)
    {| ws := w; ss := s; cur_row := cr; cur_col := cc; cur_type := ct;
       in_v := iv; in_t := it; in_is := iis; text := tx |}
  = {| ws := w; ss := s; cur_row := cr; cur_col := cc; cur_type := ct;
       in_v := iv; in_t := it; in_is := iis;
       text := fold_left wsp_append_text chunks tx |}.
Proof.
  induction chunks as [|d chunks IH]; intros w s cr cc ct iv it iis tx H;
    [split; reflexivity|].
  cbn [map]. rewrite sheet_decls_cons, fold_step_cons.
  assert (Hstep : ws_step {| ws := w; ss := s; cur_row := cr; cur_col := cc; cur_type := ct;
                             in_v := iv; in_t := it; in_is := iis; text := tx |}
                          (CharacterData d)
                  = {| ws := w; ss := s; cur_row := cr; cur_col := cc; cur_type := ct;
                       in_v := iv; in_t := it; in_is := iis;
                       text := wsp_append_text tx d |}).
  { cbn [ws_step]. unfold ws_char_data. cbn [in_v in_t]. rewrite H. reflexivity. }
  rewrite Hstep. cbn [declared_by app fold_left]. apply IH. exact H.
Qed.

Lemma append_chunks chunks : forall tx,
  Forall (fun chunk => chunk <> []) chunks ->
  fold_left wsp_append_text chunks tx
  = match concat chunks with
    | [] => tx
    | d :: r => Some (default [] tx ++ d :: r)
    end.
Proof.
  induction chunks as [|c chunks IH]; intros tx H; [reflexivity|].
  inversion H as [|? ? Hc Hrest]; subst. cbn [fold_left concat].
  rewrite (IH _ Hrest). unfold wsp_append_text at 2. cbn [default from_option id].
  destruct c as [|c0 c]; [contradiction|]. cbn [app].
  destruct (concat chunks) as [|d r].
  - rewrite app_nil_r. reflexivity.
  - rewrite <- app_assoc. reflexivity.
Qed.

(** The text buffer after the character data of [t]. *)
Lemma text_read t tx :
  fold_left wsp_append_text (split t) tx
  = match t with
    | [] => tx
    | d :: r => Some (default [] tx ++ d :: r)
    end.
Proof. rewrite append_chunks by apply split_nonempty. rewrite split_concat. reflexivity. Qed.

(** One written cell, read in a state between two cells. *)
Lemma cell_step w s cr cc ct tx c col row :
  parse_cell_ref (cell_ref_of c) = (col, row) -> 0 < col -> 0 < row ->
  tx <> None \/ payload c <> [] ->
  exists w' ty tx',
    ws_set_cell w row col (cell_back c) = Some w' /\ tx' <> None /\
    sheet_decls {| ws := w; ss := s; cur_row := cr; cur_col := cc; cur_type := ct;
                   in_v := false; in_t := false; in_is := false; text := tx |}
                (cell_events split c)
      = [((Z.to_nat row - 1)%nat, (Z.to_nat col - 1)%nat, cell_back c)] /\
    fold_left ws_step (cell_events split c)
      {| ws := w; ss := s; cur_row := cr; cur_col := cc; cur_type := ct;
         in_v := false; in_t := false; in_is := false; text := tx |}
      = {| ws := w'; ss := s; cur_row := row; cur_col := col; cur_type := ty;
           in_v := false; in_t := false; in_is := false; text := tx' |}.
Proof.
  intros Hparse Hc Hr Htx.
  destruct (ws_set_cell_ok w row col (cell_back c) Hr Hc) as [w' Hset].
  exists w'.
  destruct c as [ref v|ref bold t]; cbn [cell_ref_of payload cell_back] in *.
  - exists "n"%char. unfold cell_events, text_events.
    cbn [app]. run_steps. rewrite Hparse. cbn [fst snd].
    rewrite sheet_decls_app, fold_left_app.
    destruct (chars_read (split v) w s row col "n" true false false
                (reset_text (reset_text tx)) eq_refl) as [-> ->].
    rewrite text_read. cbn [app]. run_steps.
    destruct v as [|v0 v].
    + destruct Htx as [Htx|Htx]; [|contradiction]. destruct tx as [tx|]; [|contradiction].
      exists (Some []). split; [exact Hset|]. split; [discriminate|].
      cbn [reset_text].
      destruct (step_end_c w s row col "n" false false false (Some []) w' Hr Hc) as [Hs Hd];
        [exact Hset|].
      rewrite Hs, Hd. rewrite !declared_by_other by (exact I || reflexivity).
      split; reflexivity.
    + exists (Some (v0 :: v)). split; [exact Hset|]. split; [discriminate|].
      assert (Htext : default [] (reset_text (reset_text tx)) ++ v0 :: v = v0 :: v)
        by (destruct tx; reflexivity).
      rewrite Htext.
      destruct (step_end_c w s row col "n" false false false (Some (v0 :: v)) w' Hr Hc)
        as [Hs Hd]; [exact Hset|].
      rewrite Hs, Hd. rewrite !declared_by_other by (exact I || reflexivity).
      split; reflexivity.
  - exists "i"%char. unfold cell_events, text_events.
    cbn [app]. run_steps. rewrite Hparse. cbn [fst snd].
    rewrite sheet_decls_app, fold_left_app.
    destruct (chars_read (split (chardata t)) w s row col "i" false true true
                (reset_text (reset_text tx)) eq_refl) as [-> ->].
    rewrite text_read. cbn [app]. run_steps.
    destruct (chardata t) as [|d0 d] eqn:Ed.
    + destruct Htx as [Htx|Htx]; [|contradiction]. destruct tx as [tx|]; [|contradiction].
      exists (Some []). split; [exact Hset|]. split; [discriminate|].
      cbn [reset_text].
      destruct (step_end_c w s row col "i" false false false (Some []) w' Hr Hc) as [Hs Hd];
        [exact Hset|].
      rewrite Hs, Hd. rewrite !declared_by_other by (exact I || reflexivity).
      split; reflexivity.
    + exists (Some (d0 :: d)). split; [exact Hset|]. split; [discriminate|].
      assert (Htext : default [] (reset_text (reset_text tx)) ++ d0 :: d = d0 :: d)
        by (destruct tx; reflexivity).
      rewrite Htext.
      destruct (step_end_c w s row col "i" false false false (Some (d0 :: d)) w' Hr Hc)
        as [Hs Hd]; [exact Hset|].
      rewrite Hs, Hd. rewrite !declared_by_other by (exact I || reflexivity).
      split; reflexivity.
Qed.

(** *** What the exporter writes *)



Lemma dec_digits_nonempty fuel : forall n acc, acc <> [] -> dec_digits fuel n acc <> [].
Proof.
  induction fuel as [|fuel IH]; intros n acc Hacc; cbn [dec_digits]; [exact Hacc|].
  cbv zeta. destruct (n <? 10); [discriminate|]. apply IH. discriminate.
Qed.

Lemma fmt_d_nonempty n : fmt_d n <> [].
Proof.
  unfold fmt_d. destruct (n <? 0); [discriminate|].
  change (dec_digits 20 n []) with
    (let acc' := chr (48 + n mod 10) :: [] in
     if n <? 10 then acc' else dec_digits 19 (n / 10) acc').
  cbv zeta. destruct (n <? 10); [discriminate|]. apply dec_digits_nonempty. discriminate.
Qed.





(** Writing a cell keeps track of the widest row. *)
Lemma ws_set_cell_max w row col v w' :
  ws_set_cell w row col v = Some w' -> max_col w' = Z.max (max_col w) col.
Proof.
  unfold ws_set_cell. destruct ((row <=? 0) || (col <=? 0)); [discriminate|].
  intros H. injection H as <-. cbn [max_col].
  destruct (max_col w <? col) eqn:E; [apply Z.ltb_lt in E|apply Z.ltb_ge in E]; lia.
Qed.


(** *** Rows of cells *)

Abbreviation between w s cr cc ct tx :=
  {| ws := w; ss := s; cur_row := cr; cur_col := cc; cur_type := ct;
     in_v := false; in_t := false; in_is := false; text := tx |}.







(** Elements the importer has no handler branch for. *)
Lemma step_start_other wsp name atts :
  streq name (lit "c") = false -> streq name (lit "v") = false ->
  streq name (lit "is") = false -> streq name (lit "t") = false ->
  ws_step wsp (StartElement name atts) = wsp.
Proof.
  intros Hc Hv His Ht. cbn [ws_step]. unfold ws_start_element.
  rewrite Hc, Hv, His, Ht. reflexivity.
Qed.

Lemma step_end_other wsp name :
  streq name (lit "c") = false -> streq name (lit "v") = false ->
  streq name (lit "is") = false -> streq name (lit "t") = false ->
  ws_step wsp (EndElement name) = wsp /\ declared_by wsp (EndElement name) = [].
Proof.
  intros Hc Hv His Ht. cbn [ws_step declared_by]. unfold ws_end_element.
  rewrite Hc, Hv, His, Ht. split; reflexivity.
Qed.




End OpusRoundTrip.

(** ** The grid and the table the opus importer makes of written rows *)

Section ValueGrid.
Import CStr ColLetters Xml GridSpec Escapes OpusImport OpusExport OpusTable OpusSheet.

(** What comes back for a value and for a column name; nothing comes
    back for a NULL. *)
Variable back : sql_value -> option cstring.
Variable head : cstring -> cstring.
Hypothesis back_null : back SqlNull = None.

Lemma in_row_value_decls r vals : forall c,
  in_row r (value_decls back r c vals) = value_cols back c vals.
Proof.
  induction vals as [|v vals IH]; intros c; [reflexivity|].
  cbn [value_decls value_cols]. rewrite in_row_app, IH.
  destruct v; unfold in_row; cbn [omap list_omap app fst snd]; rewrite ?Nat.eqb_refl; reflexivity.
Qed.

Lemma in_row_value_decls_other r r' vals : forall c,
  r <> r' -> in_row r' (value_decls back r c vals) = [].
Proof.
  induction vals as [|v vals IH]; intros c Hr; [reflexivity|].
  cbn [value_decls]. rewrite in_row_app, IH by assumption.
  apply Nat.eqb_neq in Hr.
  destruct v; unfold in_row; cbn [omap list_omap app fst snd]; rewrite ?Hr; reflexivity.
Qed.

Lemma in_row_header_decls names : forall c,
  in_row 0 (header_decls head c names) =
  combine (seq c (length names)) (map (fun n => Some (head n)) names).
Proof.
  induction names as [|n names IH]; intros c; [reflexivity|].
  cbn [header_decls length seq map combine].
  rewrite <- IH. reflexivity.
Qed.

Lemma in_row_header_decls_other names r : forall c,
  r <> 0%nat -> in_row r (header_decls head c names) = [].
Proof.
  induction names as [|n names IH]; intros c Hr; [reflexivity|].
  cbn [header_decls]. unfold in_row. cbn [omap list_omap fst snd].
  destruct r; [contradiction|]. cbn [Nat.eqb]. apply IH. assumption.
Qed.

Lemma in_row_data_decls_below rs : forall r0 r,
  (r < r0)%nat -> in_row r (data_decls back r0 rs) = [].
Proof.
  induction rs as [|vals rs IH]; intros r0 r Hr; [reflexivity|].
  cbn [data_decls]. rewrite in_row_app, in_row_value_decls_other by lia.
  apply IH. lia.
Qed.

Lemma in_row_data_decls rs : forall r0 i,
  in_row (r0 + i) (data_decls back r0 rs) =
  match rs !! i with
  | Some vals => value_cols back 0 vals
  | None => []
  end.
Proof.
  induction rs as [|vals rs IH]; intros r0 i; [reflexivity|].
  cbn [data_decls]. rewrite in_row_app.
  destruct i as [|i].
  - rewrite Nat.add_0_r, in_row_value_decls, in_row_data_decls_below by lia.
    rewrite app_nil_r. reflexivity.
  - rewrite in_row_value_decls_other by lia.
    replace (r0 + S i)%nat with (S r0 + i)%nat by lia. apply IH.
Qed.

Lemma sheet_height_le {V} (ds : list (nat * nat * V)) bound :
  Forall (fun d => (fst (fst d) < bound)%nat) ds -> (sheet_height ds <= bound)%nat.
Proof.
  induction 1 as [|d ds Hd _ IH]; unfold sheet_height; simpl; [lia|].
  fold (sheet_height ds). lia.
Qed.

Lemma value_decls_rows r vals : forall c,
  Forall (fun d => fst (fst d) = r) (value_decls back r c vals).
Proof.
  induction vals as [|v vals IH]; intros c; [constructor|].
  cbn [value_decls]. apply Forall_app. split; [|apply IH].
  destruct v; repeat constructor.
Qed.

Lemma data_decls_rows rs : forall r0,
  Forall (fun d => (fst (fst d) < r0 + length rs)%nat) (data_decls back r0 rs).
Proof.
  induction rs as [|vals rs IH]; intros r0; [constructor|].
  cbn [data_decls length]. apply Forall_app. split.
  - eapply Forall_impl; [apply value_decls_rows|]. intros d Hd. cbn beta in Hd. lia.
  - eapply Forall_impl; [apply (IH (S r0))|]. intros d Hd. cbn beta in Hd. lia.
Qed.

Lemma header_decls_rows names : forall c,
  Forall (fun d => fst (fst d) = 0%nat) (header_decls head c names).
Proof.
  induction names as [|n names IH]; intros c; constructor; [reflexivity|apply IH].
Qed.

(** *** One row of values *)

Lemma value_cols_cols vals : forall c,
  Forall (fun d => (c <= fst d < c + length vals)%nat) (value_cols back c vals).
Proof.
  induction vals as [|v vals IH]; intros c; [constructor|].
  cbn [value_cols length]. apply Forall_app. split.
  - destruct v; repeat constructor; simpl; lia.
  - eapply Forall_impl; [apply (IH (S c))|]. intros d Hd. cbn beta in Hd. lia.
Qed.

Lemma last_decl_cons_other {V} (ds : list (nat * V)) c v col :
  c <> col -> last_decl col ((c, v) :: ds) = last_decl col ds.
Proof.
  intros H. unfold last_decl. cbn [fold_left fst snd].
  apply Nat.eqb_neq in H. rewrite H. reflexivity.
Qed.

Lemma last_decl_value_cols vals : forall c i,
  last_decl (c + i) (value_cols back c vals) =
  match vals !! i with
  | Some v => if written v then Some (back v) else None
  | None => None
  end.
Proof.
  induction vals as [|v vals IH]; intros c i; [reflexivity|].
  cbn [value_cols].
  assert (Hrest : Forall (fun d => fst d <> c) (value_cols back (S c) vals)).
  { eapply Forall_impl; [apply value_cols_cols|]. intros d Hd. cbn beta in Hd. lia. }
  destruct i as [|i].
  - rewrite Nat.add_0_r. cbn [lookup list_lookup].
    destruct v; cbn [written app];
      try (apply (last_decl_last [] (value_cols back (S c) vals)); exact Hrest).
    apply last_decl_undeclared. exact Hrest.
  - replace (c + S i)%nat with (S c + i)%nat by lia.
    change ((v :: vals) !! S i) with (vals !! i). rewrite <- (IH (S c) i).
    destruct v; cbn [app]; try (apply last_decl_cons_other; lia). reflexivity.
Qed.

Lemma row_width_value_cols vals : forall c,
  (row_width (value_cols back c vals) <= c + length vals)%nat.
Proof.
  intros c. pose proof (value_cols_cols vals c) as H.
  induction H as [|d ds Hd _ IH]; unfold row_width; simpl; [lia|].
  fold (row_width ds). lia.
Qed.

Lemma value_cols_written vals : forall c,
  existsb written vals = false <-> value_cols back c vals = [].
Proof.
  induction vals as [|v vals IH]; intros c; [split; reflexivity|].
  cbn [existsb value_cols]. specialize (IH (S c)).
  destruct v; cbn [written orb app]; try (split; discriminate); exact IH.
Qed.

Lemma row_width_nil {V} (ds : list (nat * V)) : row_width ds = 0%nat -> ds = [].
Proof.
  destruct ds as [|d ds]; [reflexivity|]. unfold row_width. simpl. lia.
Qed.

Lemma value_cols_In vals : forall c i v,
  vals !! i = Some v -> written v = true -> In ((c + i)%nat, back v) (value_cols back c vals).
Proof.
  induction vals as [|v0 vals IH]; intros c i v Ev Ew; [discriminate Ev|].
  cbn [value_cols]. apply in_or_app. destruct i as [|i].
  - injection Ev as ->. left. rewrite Nat.add_0_r.
    destruct v; try discriminate Ew; left; reflexivity.
  - right. specialize (IH (S c) i v Ev Ew).
    replace (S c + i)%nat with (c + S i)%nat in IH by lia. exact IH.
Qed.

Lemma bound_cell (v : option cstring) :
  (if is_null (mk_cell v) then None else value (mk_cell v)) = v.
Proof.
  destruct v; reflexivity.
Qed.

(** The values bound for a row of the grid are the values read back. *)
Lemma bound_values_row n vals :
  length vals = n ->
  bound_values n (declared_row null_cell mk_cell (value_cols back 0 vals)) = map back vals.
Proof.
  intros Hn. unfold bound_values. apply list_eq. intros i.
  rewrite !list_lookup_fmap.
  destruct (lt_dec i n) as [Hi|Hi].
  - rewrite lookup_seq_lt by assumption. cbn [fmap option_fmap option_map].
    destruct (vals !! i) as [v|] eqn:Ev;
      [|apply lookup_ge_None in Ev; lia].
    cbn [fmap option_fmap option_map]. f_equal.
    pose proof (last_decl_value_cols vals 0 i) as Hl. rewrite Ev in Hl.
    destruct (lt_dec i (row_width (value_cols back 0 vals))) as [Hw|Hw].
    + rewrite declared_row_lookup by assumption. unfold declared_cell. rewrite Hl.
      destruct (written v) eqn:Ew; [apply bound_cell|].
      destruct v; try discriminate Ew. rewrite back_null. reflexivity.
    + rewrite declared_row_lookup_ge by lia.
      destruct (written v) eqn:Ew;
        [|destruct v; try discriminate Ew; rewrite back_null; reflexivity].
      exfalso. apply Hw.
      pose proof (value_cols_In vals 0 i v Ev Ew) as Hin.
      exact (row_width_In _ _ _ Hin).
  - rewrite lookup_seq_ge by lia.
    symmetry. cbn [fmap option_fmap option_map].
    rewrite (proj2 (lookup_ge_None vals i)) by lia. reflexivity.
Qed.


(** *** The row loop *)

Section Rows.
Context {db : Type}.
Variable step : db -> cstring -> list (option cstring) -> option db.
Variable ins : db -> list (option cstring) -> db.

Lemma insert_rows_grid sql n (rs : list (list sql_value)) :
  (forall d vals, step d sql vals = Some (ins d vals)) ->
  Forall (fun vals => length vals = n) rs ->
  forall d,
  insert_rows db step d sql n
    (map (fun vals => declared_row null_cell mk_cell (value_cols back 0 vals)) rs) =
  (true, fold_left ins (map (map back) (List.filter (existsb written) rs)) d).
Proof.
  intros Hstep Hlen. induction Hlen as [|vals rs Hv _ IH]; intros d; [reflexivity|].
  cbn [map insert_rows List.filter].
  destruct (existsb written vals) eqn:Ew.
  - assert (Hw : row_width (value_cols back 0 vals) <> 0%nat).
    { intros H. apply row_width_nil in H. apply value_cols_written in H. congruence. }
    rewrite declared_row_length.
    destruct (row_width (value_cols back 0 vals) =? 0)%nat eqn:E;
      [apply Nat.eqb_eq in E; contradiction|].
    rewrite andb_false_r, bound_values_row, Hstep by assumption.
    cbn [map fold_left]. apply IH.
  - apply (value_cols_written vals 0) in Ew. rewrite Ew. apply IH.
Qed.

(** Rows without cells at the end of the sheet insert nothing. *)
Lemma insert_rows_pad sql n m (rs : list Row) : forall d,
  insert_rows db step d sql n (rs ++ replicate m []) = insert_rows db step d sql n rs.
Proof.
  induction rs as [|row rs IH]; intros d.
  - cbn [app]. induction m as [|m IHm]; [reflexivity|exact IHm].
  - cbn [app insert_rows].
    destruct (negb (existsb (fun cell => negb (is_null cell)) row) && (length row =? 0)%nat);
      [apply IH|].
    destruct (step d sql (bound_values n row)); [apply IH|reflexivity].
Qed.

End Rows.

(** *** The grid of an exported worksheet *)

Lemma declared_row_filled {V W} (null : W) (mk : V -> W) (vs : list V) :
  declared_row null mk (combine (seq 0 (length vs)) vs) = map mk vs.
Proof.
  induction vs as [|v vs IH] using rev_ind; [reflexivity|].
  rewrite length_app. cbn [length]. rewrite seq_app. cbn [seq Nat.add].
  rewrite combine_snoc by (rewrite length_seq; reflexivity).
  rewrite declared_row_snoc, IH.
  pose proof (declared_row_length null mk (combine (seq 0 (length vs)) vs)) as Hw.
  rewrite IH, length_map in Hw. rewrite <- Hw.
  replace (S (length vs) - length vs)%nat with 1%nat by lia.
  cbn [replicate]. rewrite map_app. cbn [map].
  replace (length vs) with (length (map mk vs) + 0)%nat at 1
    by (rewrite length_map; lia).
  rewrite insert_app_r. reflexivity.
Qed.

(** The header row, then one row per table row up to the last one with
    a value; the rows after it have no cell. *)
Lemma exported_grid (names : list cstring) (rs : list (list sql_value)) :
  names <> [] ->
  exists data m,
    declared_sheet null_cell mk_cell (header_decls head 0 names ++ data_decls back 1 rs) =
      map (fun name => mk_cell (Some (head name))) names :: data /\
    data ++ replicate m [] =
      map (fun vals => declared_row null_cell mk_cell (value_cols back 0 vals)) rs.
Proof.
  intros Hnames.
  set (ds := header_decls head 0 names ++ data_decls back 1 rs).
  assert (Hlow : (1 <= sheet_height ds)%nat).
  { destruct names as [|n names]; [contradiction|].
    apply (sheet_height_In ds 0 0 (Some (head n))). left. reflexivity. }
  assert (Hhigh : (sheet_height ds <= 1 + length rs)%nat).
  { apply sheet_height_le. apply Forall_app. split.
    - eapply Forall_impl; [apply header_decls_rows|]. intros d Hd. cbn beta in Hd. lia.
    - apply data_decls_rows. }
  assert (Hrow : forall i,
    in_row (S i) ds = match rs !! i with Some vals => value_cols back 0 vals | None => [] end).
  { intros i. unfold ds. rewrite in_row_app, in_row_header_decls_other by lia.
    apply (in_row_data_decls rs 1 i). }
  exists (map (fun r => declared_row null_cell mk_cell (in_row r ds)) (seq 1 (sheet_height ds - 1))),
         (S (length rs) - sheet_height ds)%nat.
  split.
  - unfold declared_sheet.
    replace (sheet_height ds) with (S (sheet_height ds - 1)) at 1 by lia.
    cbn [seq map]. f_equal.
    unfold ds. rewrite in_row_app, in_row_header_decls, in_row_data_decls_below by lia.
    rewrite app_nil_r.
    rewrite <- (length_map (fun n => Some (head n)) names).
    rewrite declared_row_filled, map_map. reflexivity.
  - apply list_eq. intros i. rewrite list_lookup_fmap.
    destruct (lt_dec i (sheet_height ds - 1)) as [Hi|Hi].
    + rewrite lookup_app_l by (rewrite length_map, length_seq; assumption).
      rewrite list_lookup_fmap, lookup_seq_lt by assumption.
      cbn [fmap option_fmap option_map Nat.add]. rewrite Hrow.
      destruct (rs !! i) as [vals|] eqn:Ev; [reflexivity|].
      apply lookup_ge_None in Ev. lia.
    + rewrite lookup_app_r by (rewrite length_map, length_seq; lia).
      rewrite length_map, length_seq.
      destruct (rs !! i) as [vals|] eqn:Ev.
      * apply lookup_lt_Some in Ev as Hlt.
        rewrite lookup_replicate_2 by lia.
        cbn [fmap option_fmap option_map]. f_equal.
        pose proof (Hrow i) as Hr. rewrite Ev, in_row_above in Hr by lia.
        rewrite <- Hr. reflexivity.
      * apply lookup_ge_None in Ev.
        cbn [fmap option_fmap option_map]. apply lookup_ge_None.
        rewrite length_replicate. lia.
Qed.

End ValueGrid.

(** ** The table the opus importer creates from an exported worksheet *)

Section OpusTableRoundTrip.
Import CStr ColLetters Xml GridSpec Escapes OpusImport OpusExport OpusDocument OpusTable OpusSheet.

Section Table.
Context {db : Type}.
Variable exec : db -> cstring -> option db.
Variable prepare : db -> cstring -> bool.
Variable step : db -> cstring -> list (option cstring) -> option db.
Variable ins : db -> list (option cstring) -> db.

(** How the parser cuts the character data: never without characters. *)
Variable split : cstring -> list cstring.
Hypothesis split_concat : forall t, concat (split t) = t.
Hypothesis split_nonempty : forall t, Forall (fun chunk => chunk <> []) (split t).



End Table.

Lemma letters_concat t : concat (TableFixtures.letters t) = t.
Proof.
  unfold TableFixtures.letters. induction t as [|c t IH]; [reflexivity|].
  cbn [map concat app]. rewrite IH. reflexivity.
Qed.

Lemma letters_nonempty t : Forall (fun chunk => chunk <> []) (TableFixtures.letters t).
Proof.
  unfold TableFixtures.letters. induction t as [|c t IH]; constructor; [discriminate|exact IH].
Qed.


End OpusTableRoundTrip.

(** ** The gemini exporter's worksheet, read by the gemini importer *)

Section GeminiRoundTrip.
Import CStr Xml Escapes GeminiLetters GeminiStrings GeminiSheet GeminiExport GeminiDocument.
Import OpusExport (sql_value, SqlInteger, SqlFloat, SqlText, SqlBlob, SqlNull).

Variable split : cstring -> list cstring.
Hypothesis split_concat : forall t, concat (split t) = t.

Abbreviation ctx_of tn sh cr cc ir ic iv it ty cv sb hp hc nc ex :=
  {| table_name := tn; ss := sh; current_row := cr; current_col := cc;
     in_row := ir; in_c := ic; in_v := iv; in_t := it;
     cell_type := ty; cell_val := cv; sql_buf := sb;
     header_row_processed := hp; header_cols := hc; num_cols := nc; executed := ex |}.

(** The state between two elements of a cell. *)
Abbreviation idle tn sh cr cc ir ic ty sb hp hc nc ex :=
  (ctx_of tn sh cr cc ir ic false false ty None sb hp hc nc ex).

Ltac name_tests :=
  repeat match goal with
    | |- context [streq (lit ?a) (lit ?b)] =>
        let r := eval vm_compute in (streq (lit a) (lit b)) in
        change (streq (lit a) (lit b)) with r
    end;
  cbn [andb orb negb].

(** *** Handler calls, one at a time *)

Lemma step_cons ctx e rest :
  fold_left sheet_step (e :: rest) ctx = fold_left sheet_step rest (sheet_step ctx e).
Proof. reflexivity. Qed.

Lemma start_row tn sh cr cc ir ic ty sb hp hc nc ex rtxt :
  sheet_step (idle tn sh cr cc ir ic ty sb hp hc nc ex)
             (StartElement (lit "row") [(lit "r", rtxt)])
  = idle tn sh (atoi rtxt) 0 true ic ty
      (if hp then Some (lit "INSERT INTO " ++ chr 34 :: tn ++ chr 34 :: lit " VALUES (")
       else sb) hp hc nc ex.
Proof.
  unfold sheet_step, sheet_start, set_row, last_att. cbn [fold_left fst snd].
  name_tests. reflexivity.
Qed.

Lemma start_c tn sh cr cc ir ic ty sb hp hc nc ex ref t (bold : bool) :
  sheet_step (idle tn sh cr cc ir ic ty sb hp hc nc ex)
             (StartElement (lit "c")
                ((lit "r", ref) :: (lit "t", t)
                 :: if bold then [(lit "s", lit "1")] else []))
  = idle tn sh cr (fst (extract_col_row ref)) ir true (take 15 t)
      (if hp then fill_gaps cc nc (fst (extract_col_row ref)) sb else sb) hp hc nc ex.
Proof.
  unfold sheet_step, sheet_start. name_tests.
  destruct bold; cbn [fold_left]; unfold cell_att; cbn [fst snd]; name_tests;
    unfold set_cell, set_col, strncpy; cbn; reflexivity.
Qed.

Lemma start_other ctx name atts :
  streq name (lit "row") = false -> streq name (lit "c") = false ->
  streq name (lit "v") = false -> streq name (lit "t") = false ->
  sheet_step ctx (StartElement name atts) = ctx.
Proof.
  intros Hr Hc Hv Ht. unfold sheet_step, sheet_start. rewrite Hr, Hc, Hv, Ht. reflexivity.
Qed.

Lemma end_other ctx name :
  streq name (lit "row") = false -> streq name (lit "c") = false ->
  streq name (lit "v") = false -> streq name (lit "t") = false ->
  sheet_step ctx (EndElement name) = ctx.
Proof.
  intros Hr Hc Hv Ht. unfold sheet_step, sheet_end. rewrite Hr, Hc, Hv, Ht. reflexivity.
Qed.

Lemma start_t tn sh cr cc ir ic cv sb hp hc nc ex :
  sheet_step (ctx_of tn sh cr cc ir ic false false (lit "inlineStr") cv sb hp hc nc ex)
             (StartElement (lit "t") [])
  = ctx_of tn sh cr cc ir ic false true (lit "inlineStr") cv sb hp hc nc ex.
Proof.
  unfold sheet_step, sheet_start. name_tests. reflexivity.
Qed.

Lemma start_v tn sh cr cc ir ic ty cv sb hp hc nc ex :
  sheet_step (ctx_of tn sh cr cc ir ic false false ty cv sb hp hc nc ex)
             (StartElement (lit "v") [])
  = ctx_of tn sh cr cc ir ic true false ty cv sb hp hc nc ex.
Proof.
  unfold sheet_step, sheet_start. name_tests. reflexivity.
Qed.

Lemma end_t tn sh cr cc ir ic iv it ty cv sb hp hc nc ex :
  sheet_step (ctx_of tn sh cr cc ir ic iv it ty cv sb hp hc nc ex) (EndElement (lit "t"))
  = ctx_of tn sh cr cc ir ic iv false ty cv sb hp hc nc ex.
Proof.
  unfold sheet_step, sheet_end. name_tests. reflexivity.
Qed.

Lemma end_v tn sh cr cc ir ic iv it ty cv sb hp hc nc ex :
  sheet_step (ctx_of tn sh cr cc ir ic iv it ty cv sb hp hc nc ex) (EndElement (lit "v"))
  = ctx_of tn sh cr cc ir ic false it ty cv sb hp hc nc ex.
Proof.
  unfold sheet_step, sheet_end. name_tests. reflexivity.
Qed.

(** Character data outside [v] and [t] is ignored. *)
Lemma chars_ignored chunks : forall ctx,
  in_v ctx = false -> in_t ctx = false ->
  fold_left sheet_step (map CharacterData chunks) ctx = ctx.
Proof.
  induction chunks as [|s chunks IH]; intros ctx Hv Ht; [reflexivity|].
  cbn [map]. rewrite step_cons. unfold sheet_step at 2, sheet_char. rewrite Hv, Ht.
  cbn [orb]. apply IH; assumption.
Qed.

(** Character data inside [v] or [t] is collected, however it is cut. *)
Lemma chars_collected chunks : forall tn sh cr cc ir ic iv it ty cv sb hp hc nc ex,
  iv || it = true ->
  exists cv',
    fold_left sheet_step (map CharacterData chunks)
              (ctx_of tn sh cr cc ir ic iv it ty cv sb hp hc nc ex)
    = ctx_of tn sh cr cc ir ic iv it ty cv' sb hp hc nc ex /\
    default [] cv' = default [] cv ++ concat chunks.
Proof.
  induction chunks as [|s chunks IH]; intros tn sh cr cc ir ic iv it ty cv sb hp hc nc ex H.
  - exists cv. cbn [map fold_left concat]. rewrite app_nil_r. split; reflexivity.
  - cbn [map]. rewrite step_cons. unfold sheet_step at 2, sheet_char.
    cbn [in_v in_t]. rewrite H. unfold set_cell. cbn.
    destruct (IH tn sh cr cc ir ic iv it ty (strbuf_append cv s) sb hp hc nc ex H)
      as (cv' & -> & Hcv).
    exists cv'. split; [reflexivity|]. rewrite Hcv. unfold strbuf_append.
    cbn [default from_option concat id]. rewrite <- app_assoc. reflexivity.
Qed.


Lemma end_c_header tn sh cr cc ir ic ty cv sb hc nc ex :
  streq ty (lit "s") = false ->
  sheet_step (ctx_of tn sh cr cc ir ic false false ty cv sb false hc nc ex)
             (EndElement (lit "c"))
  = idle tn sh cr cc ir false ty sb false
      (Some (default [] hc ++ match default [] hc with [] => [] | _ => lit ", " end
             ++ chr 34 :: default [] cv ++ [chr 34]))
      (nc + 1) ex.
Proof.
  intros Hty. unfold sheet_step, sheet_end. name_tests.
  unfold final_val. cbn [cell_val cell_type header_row_processed negb header_cols num_cols].
  rewrite Hty. unfold set_header, set_cell, strbuf_append. cbn.
  f_equal. f_equal.
  destruct hc as [[|h hc]|]; destruct cv as [cv|]; cbn;
    rewrite <- ?app_assoc; cbn; rewrite <- ?app_assoc; reflexivity.
Qed.

Lemma end_c_data tn sh cr cc ir ic ty cv sb hc nc ex :
  streq ty (lit "s") = false ->
  sheet_step (ctx_of tn sh cr cc ir ic false false ty cv sb true hc nc ex)
             (EndElement (lit "c"))
  = idle tn sh cr cc ir false ty
      (Some (default [] sb ++ (if wants_comma sb then lit ", " else [])
             ++ sql_quote (default [] cv)))
      true hc nc ex.
Proof.
  intros Hty. unfold sheet_step, sheet_end. name_tests.
  unfold final_val. cbn [cell_val cell_type header_row_processed negb sql_buf].
  rewrite Hty. unfold set_sql, set_col, set_cell, strbuf_append. cbn.
  f_equal. f_equal.
  destruct (wants_comma sb); destruct cv as [cv|]; cbn;
    rewrite <- ?app_assoc; reflexivity.
Qed.

Lemma end_row_header tn sh cr cc ir ic ty sb hc nc ex :
  sheet_step (idle tn sh cr cc ir ic ty sb false hc nc ex) (EndElement (lit "row"))
  = idle tn sh cr cc false ic ty sb true hc nc
      (ex ++ [lit "CREATE TABLE " ++ chr 34 :: w_escape tn ++ chr 34 :: lit " ("
              ++ default [] hc ++ lit ");"]).
Proof.
  unfold sheet_step, sheet_end. name_tests. reflexivity.
Qed.

Lemma trailing_nulls n : forall sb,
  fold_left (fun sb (_ : nat) => strbuf_append sb (lit ", NULL")) (seq 0 n) (Some sb)
  = Some (sb ++ concat (replicate n (lit ", NULL"))).
Proof.
  generalize 0%nat as k.
  induction n as [|n IH]; intros k sb; cbn [seq fold_left replicate concat].
  - rewrite app_nil_r. reflexivity.
  - unfold strbuf_append at 2. cbn [default from_option id]. rewrite IH, <- app_assoc.
    reflexivity.
Qed.

Lemma end_row_data tn sh cr cc ir ic ty sb hc nc ex :
  sheet_step (idle tn sh cr cc ir ic ty (Some sb) true hc nc ex) (EndElement (lit "row"))
  = idle tn sh cr cc false ic ty None true hc nc
      (ex ++ [sb ++ concat (replicate (Z.to_nat (nc - cc)) (lit ", NULL")) ++ lit ");"]).
Proof.
  unfold sheet_step, sheet_end. name_tests.
  cbn [header_row_processed negb num_cols current_col sql_buf].
  rewrite trailing_nulls. unfold row_done, strbuf_append. cbn.
  rewrite <- app_assoc. reflexivity.
Qed.

(** *** Cells *)

Lemma fold_app (a b : list xml_event) ctx :
  fold_left sheet_step (a ++ b) ctx = fold_left sheet_step b (fold_left sheet_step a ctx).
Proof. apply fold_left_app. Qed.

Lemma indent_ignored n tn sh cr cc ir ic ty sb hp hc nc ex :
  fold_left sheet_step (indent split n) (idle tn sh cr cc ir ic ty sb hp hc nc ex)
  = idle tn sh cr cc ir ic ty sb hp hc nc ex.
Proof. apply chars_ignored; reflexivity. Qed.

(** A header cell adds its text, in double quotes, to the column list. *)
Lemma header_cell_read tn sh cr cc ir ic ty sb hc nc ex ref t :
  fold_left sheet_step (cell_events split (HeaderCell ref t))
            (idle tn sh cr cc ir ic ty sb false hc nc ex)
  = idle tn sh cr (fst (extract_col_row ref)) ir false (lit "inlineStr") sb false
      (Some (default [] hc ++ match default [] hc with [] => [] | _ => lit ", " end
             ++ chr 34 :: chardata t ++ [chr 34]))
      (nc + 1) ex.
Proof.
  unfold cell_events. rewrite !fold_app. cbn [fold_left].
  rewrite (start_c _ _ _ _ _ _ _ _ _ _ _ _ ref (lit "inlineStr") true).
  change (take 15 (lit "inlineStr")) with (lit "inlineStr").
  rewrite (start_other _ (lit "is")) by reflexivity. rewrite start_t.
  destruct (chars_collected (split (chardata t)) tn sh cr (fst (extract_col_row ref)) ir true
              false true (lit "inlineStr") None sb false hc nc ex eq_refl) as (cv' & Hf & Hcv).
  unfold text_events. rewrite Hf. cbn [fold_left].
  rewrite end_t, (end_other _ (lit "is")) by reflexivity.
  rewrite end_c_header by reflexivity.
  rewrite Hcv, split_concat. reflexivity.
Qed.

(** A data cell adds the NULLs of the gap before it and its quoted
    text to the statement. *)
Lemma data_cell_read tn sh cr cc ir ic ty sb hc nc ex c :
  (forall ref t, c <> HeaderCell ref t) ->
  exists ty',
  fold_left sheet_step (cell_events split c)
            (idle tn sh cr cc ir ic ty sb true hc nc ex)
  = idle tn sh cr (fst (extract_col_row (ref_of c))) ir false ty'
      (Some (default [] (fill_gaps cc nc (fst (extract_col_row (ref_of c))) sb)
             ++ (if wants_comma (fill_gaps cc nc (fst (extract_col_row (ref_of c))) sb)
                 then lit ", " else [])
             ++ sql_quote (payload c)))
      true hc nc ex.
Proof.
  intros Hc. destruct c as [ref t|ref v|ref t]; [exfalso; exact (Hc ref t eq_refl)| |];
    cbn [ref_of payload]; unfold cell_events; rewrite !fold_app; cbn [fold_left].
  - exists (lit "n").
    rewrite (start_c _ _ _ _ _ _ _ _ _ _ _ _ ref (lit "n") false).
    change (take 15 (lit "n")) with (lit "n"). rewrite start_v.
    destruct (chars_collected (split v) tn sh cr (fst (extract_col_row ref)) ir true
                true false (lit "n") None
                (fill_gaps cc nc (fst (extract_col_row ref)) sb) true hc nc ex eq_refl)
      as (cv' & Hf & Hcv).
    unfold text_events. rewrite Hf. cbn [fold_left].
    rewrite end_v. rewrite end_c_data by reflexivity.
    rewrite Hcv, split_concat. reflexivity.
  - exists (lit "inlineStr").
    rewrite (start_c _ _ _ _ _ _ _ _ _ _ _ _ ref (lit "inlineStr") false).
    change (take 15 (lit "inlineStr")) with (lit "inlineStr").
    rewrite (start_other _ (lit "is")) by reflexivity. rewrite start_t.
    destruct (chars_collected (split (chardata t)) tn sh cr (fst (extract_col_row ref)) ir true
                false true (lit "inlineStr") None
                (fill_gaps cc nc (fst (extract_col_row ref)) sb) true hc nc ex eq_refl)
      as (cv' & Hf & Hcv).
    unfold text_events. rewrite Hf. cbn [fold_left].
    rewrite end_t, (end_other _ (lit "is")) by reflexivity.
    rewrite end_c_data by reflexivity.
    rewrite Hcv, split_concat. reflexivity.
Qed.


(** *** References *)

Lemma extract_col_row_written col row :
  0 <= col <= 2147483646 -> 0 <= row <= 2147483647 ->
  extract_col_row (int_to_col col ++ fmt_d row) = (col + 1, row).
Proof.
  intros Hc Hr. unfold extract_col_row, int_to_col.
  change (rev (ColLetters.letter_temp 16 (col + 1))) with (ColLetters.col_to_letter col).
  rewrite col_to_letter_eq by exact Hc.
  pose proof (printed_row_starts_with_digit row Hr) as Hd.
  rewrite drop_while_alpha; [|apply letters_upper|destruct (fmt_d row); [exact I|apply Hd]].
  cbn zeta. rewrite length_app.
  replace (length (rev (ColLetters.letters_buf 7 (col + 1))) + length (fmt_d row)
           - length (fmt_d row))%nat
    with (length (rev (ColLetters.letters_buf 7 (col + 1)))) by lia.
  pose proof (letters_length col) as Hlen.
  replace (16 <=? length (rev (ColLetters.letters_buf 7 (col + 1))))%nat with false
    by (symmetry; apply Nat.leb_gt; lia).
  rewrite take_app_length. f_equal.
  - unfold col_to_int.
    transitivity (ColLetters.col_to_num_from 0 (rev (ColLetters.letters_buf 7 (col + 1))));
      [|apply letters_value; exact Hc].
    generalize 0. generalize (rev (ColLetters.letters_buf 7 (col + 1))).
    induction l as [|c l IH]; intros n; simpl; [reflexivity|].
    destruct (isalpha c); [apply IH|reflexivity].
  - rewrite <- (app_nil_r (fmt_d row)). apply atoi_fmt_d; [lia|exact I].
Qed.

(** *** The header row *)

Lemma joined_cons x l :
  joined (x :: l) = x ++ match l with [] => [] | _ => lit ", " ++ joined l end.
Proof. destruct l; cbn [joined]; [rewrite app_nil_r|]; reflexivity. Qed.

Lemma joined_snoc l x :
  joined (l ++ [x]) = joined l ++ match l with [] => [] | _ => lit ", " end ++ x.
Proof.
  induction l as [|y l IH]; [reflexivity|].
  cbn [app]. rewrite !joined_cons, IH.
  destruct l as [|z l]; cbn [app]; rewrite <- ?app_assoc; cbn [app];
    rewrite <- ?app_assoc; reflexivity.
Qed.

Lemma joined_quoted_nil (q : cstring -> cstring) l :
  (forall x, q x <> []) -> joined (map q l) = [] -> l = [].
Proof.
  intros Hq H. destruct l as [|x l]; [reflexivity|].
  cbn [map] in H. rewrite joined_cons in H. apply app_eq_nil in H as [H _].
  exfalso. exact (Hq x H).
Qed.

Lemma gemini_header_cells_read names : forall c done tn sh cr cc ir ic ty sb hc nc ex,
  0 <= c -> c + Z.of_nat (length names) <= 2147483647 ->
  default [] hc = joined (map (fun n => chr 34 :: line_ends n ++ [chr 34]) done) ->
  exists cc' ic' ty' hc',
    fold_left sheet_step
      (concat (map (fun c => indent split 6 ++ cell_events split c) (header_cells c names)))
      (idle tn sh cr cc ir ic ty sb false hc nc ex)
    = idle tn sh cr cc' ir ic' ty' sb false hc' (nc + Z.of_nat (length names)) ex /\
    default [] hc'
    = joined (map (fun n => chr 34 :: line_ends n ++ [chr 34]) (done ++ names)).
Proof.
  induction names as [|n names IH]; intros c done tn sh cr cc ir ic ty sb hc nc ex Hc Hlen Hhc.
  - exists cc, ic, ty, hc. cbn [header_cells map concat fold_left length].
    rewrite Z.add_0_r, app_nil_r. split; [reflexivity|exact Hhc].
  - cbn [length] in Hlen. cbn [header_cells map concat].
    rewrite !fold_app, indent_ignored, header_cell_read, gemini_escape_chardata.
    destruct (IH (c + 1) (done ++ [n]) tn sh cr
                (fst (extract_col_row (int_to_col c ++ lit "1"))) ir false (lit "inlineStr")
                sb
                (Some (default [] hc ++ match default [] hc with [] => [] | _ => lit ", " end
                       ++ chr 34 :: line_ends n ++ [chr 34]))
                (nc + 1) ex) as (cc' & ic' & ty' & hc' & Hf & Hhc'); [lia|lia| |].
    + cbn [default from_option id]. rewrite map_app. cbn [map]. rewrite joined_snoc, Hhc.
      f_equal. destruct done as [|d done]; [reflexivity|].
      destruct (joined (map (fun n => chr 34 :: line_ends n ++ [chr 34]) (d :: done))) eqn:E;
        [|reflexivity].
      apply joined_quoted_nil in E; [discriminate E|]. intros x. discriminate.
    + exists cc', ic', ty', hc'. rewrite Hf. rewrite <- app_assoc in Hhc'. cbn [app length] in *.
      split; [|exact Hhc']. f_equal. lia.
Qed.

(** *** Data rows *)

Lemma fill_gaps_all n : forall cc nc c sb,
  Z.of_nat n = (if cc =? 0 then c - 1 else c - cc - 1) ->
  0 <= cc -> cc + Z.of_nat n <= nc ->
  fill_gaps cc nc c (Some sb) = Some (sb ++ concat (replicate n (lit "NULL, "))).
Proof.
  intros cc nc c sb Hn Hcc Hnc. unfold fill_gaps. rewrite <- Hn, Nat2Z.id.
  assert (H : forall m k sb, (k + m <= n)%nat ->
    fold_left (fun sb k => if cc + Z.of_nat k + 1 <=? nc
                           then strbuf_append sb (lit "NULL, ") else sb)
              (seq k m) (Some sb)
    = Some (sb ++ concat (replicate m (lit "NULL, ")))).
  { induction m as [|m IH]; intros k sb' Hk; cbn [seq fold_left replicate concat].
    - rewrite app_nil_r. reflexivity.
    - replace (cc + Z.of_nat k + 1 <=? nc) with true by (symmetry; apply Z.leb_le; lia).
      unfold strbuf_append at 2. cbn [default from_option id].
      rewrite IH by lia. rewrite <- app_assoc. reflexivity. }
  apply H. lia.
Qed.

Lemma wants_comma_after s e n :
  wants_comma (Some ((s ++ [e]) ++ concat (replicate n (lit "NULL, "))))
  = negb (ch_eqb e "(") || (0 <? n)%nat.
Proof.
  unfold wants_comma. cbn [default from_option id].
  destruct n as [|n].
  - cbn [replicate concat]. rewrite app_nil_r, last_snoc, orb_false_r. reflexivity.
  - change (0 <? S n)%nat with true. rewrite orb_true_r.
    replace (S n) with (n + 1)%nat by lia.
    rewrite replicate_add, concat_app. cbn [replicate concat].
    change (lit "NULL, " ++ []) with (lit "NULL," ++ [" "%char]).
    rewrite !app_assoc, last_snoc. reflexivity.
Qed.

Lemma written_cell r c v :
  is_null v = false ->
  exists cl, data_cells r c [v] = [cl] /\ ref_of cl = int_to_col c ++ fmt_d r /\
             payload cl = value_text v /\ (forall ref t, cl <> HeaderCell ref t).
Proof.
  destruct v as [i|printed|text|blob|]; intros Hv; try discriminate Hv;
    cbn [data_cells app]; eexists; (split; [reflexivity|]); (split; [reflexivity|]);
    (split; [|discriminate]); cbn [payload value_text];
    try reflexivity; apply gemini_escape_chardata.
Qed.

Lemma data_cells_cons r c v rest :
  data_cells r c (v :: rest) = data_cells r c [v] ++ data_cells r (c + 1) rest.
Proof. cbn [data_cells]. rewrite app_nil_r. reflexivity. Qed.

(** The cells of a row, from column [c] on: [nulls] NULLs were skipped
    since the last value, if there was one ([started]). *)
Lemma row_cells_read tn sh hc nc ex r vals : forall c nulls (started : bool) s cr cc ir ic ty,
  0 <= r <= 2147483647 -> nc <= 2147483647 ->
  0 <= c -> c + Z.of_nat (length vals) = nc ->
  cc = (if started then c - Z.of_nat nulls else 0) ->
  (if started then 1 <= cc else Z.of_nat nulls = c) ->
  exists cc' ic' ty' s',
    fold_left sheet_step
      (concat (map (fun c => indent split 6 ++ cell_events split c) (data_cells r c vals)))
      (idle tn sh cr cc ir ic ty
            (Some (s ++ [if started then "'"%char else "("%char])) true hc nc ex)
    = idle tn sh cr cc' ir ic' ty' (Some s') true hc nc ex /\
    s' ++ concat (replicate (Z.to_nat (nc - cc')) (lit ", NULL"))
    = (s ++ [if started then "'"%char else "("%char]) ++ values_sql started nulls vals.
Proof.
  induction vals as [|v vals IH];
    intros c nulls started s cr cc ir ic ty Hr Hnc Hc Hlen Hcc Hst.
  - exists cc, ic, ty, (s ++ [if started then "'"%char else "("%char]).
    cbn [data_cells map concat fold_left values_sql]. split; [reflexivity|].
    cbn [length] in Hlen.
    replace (Z.to_nat (nc - cc)) with nulls by (destruct started; lia). reflexivity.
  - cbn [length] in Hlen. rewrite data_cells_cons. cbn [values_sql].
    destruct (is_null v) eqn:Hv.
    + destruct v; try discriminate Hv. cbn [data_cells app].
      apply (IH (c + 1) (S nulls) started s cr cc ir ic ty); try assumption; try lia.
      * destruct started; lia.
      * destruct started; lia.
    + destruct (written_cell r c v Hv) as (cl & -> & Href & Hpay & Hcl).
      cbn [map concat app]. rewrite !fold_app, indent_ignored.
      destruct (data_cell_read tn sh cr cc ir ic ty
                  (Some (s ++ [if started then "'"%char else "("%char]))
                  hc nc ex cl Hcl) as (ty1 & ->).
      rewrite Href, extract_col_row_written by lia. cbn [fst].
      assert (Hgaps : Z.of_nat nulls = (if cc =? 0 then c + 1 - 1 else c + 1 - cc - 1)).
      { destruct started.
        - replace (cc =? 0) with false by (symmetry; apply Z.eqb_neq; lia). lia.
        - subst cc. change (0 =? 0) with true. cbv iota. lia. }
      rewrite (fill_gaps_all nulls) by (try exact Hgaps; destruct started; lia).
      rewrite wants_comma_after. cbn [default from_option id]. rewrite Hpay.
      assert (Hcomma : negb (ch_eqb (if started then "'"%char else "("%char) "(")
                       = started) by (destruct started; reflexivity).
      rewrite Hcomma.
      set (body := flat_map (fun c => if ch_eqb c "'" then [c; c] else [c]) (value_text v)).
      destruct (IH (c + 1) 0%nat true
                  (((s ++ [if started then "'"%char else "("%char])
                    ++ concat (replicate nulls (lit "NULL, ")))
                   ++ (if started || (0 <? nulls)%nat then lit ", " else [])
                   ++ "'"%char :: body)
                  cr (c + 1) ir false ty1) as (cc' & ic' & ty' & s' & Hf & Hs');
        try assumption; try lia.
      exists cc', ic', ty', s'. split.
      * rewrite <- Hf. unfold sql_quote. fold body.
        rewrite <- ?app_assoc. cbn [app]. rewrite <- ?app_assoc. reflexivity.
      * rewrite Hs'. unfold sql_quote. fold body.
        rewrite <- ?app_assoc. cbn [app]. rewrite <- ?app_assoc. reflexivity.
Qed.


(** One data row: the statement executed at its end. *)
Lemma data_row_read tn sh hc nc ex r vals cr cc ir ic ty sb :
  0 <= r <= 2147483647 -> nc <= 2147483647 -> Z.of_nat (length vals) = nc ->
  exists cr' cc' ic' ty',
    fold_left sheet_step (row_events split r (data_cells r 0 vals))
              (idle tn sh cr cc ir ic ty sb true hc nc ex)
    = idle tn sh cr' cc' false ic' ty' None true hc nc
        (ex ++ [lit "INSERT INTO " ++ chr 34 :: tn ++ chr 34 :: lit " VALUES ("
                ++ values_sql false 0 vals ++ lit ");"]).
Proof.
  intros Hr Hnc Hlen. unfold row_events.
  rewrite fold_app, indent_ignored. rewrite step_cons, start_row.
  rewrite !fold_app.
  assert (Hpre : lit "INSERT INTO " ++ chr 34 :: tn ++ chr 34 :: lit " VALUES ("
                 = (lit "INSERT INTO " ++ chr 34 :: tn ++ chr 34 :: lit " VALUES ")
                   ++ ["("%char]).
  { change (lit " VALUES (") with (lit " VALUES " ++ ["("%char]).
    rewrite <- !app_assoc. cbn [app]. rewrite <- !app_assoc. reflexivity. }
  rewrite Hpre.
  destruct (row_cells_read tn sh hc nc ex r vals 0 0%nat false
              (lit "INSERT INTO " ++ chr 34 :: tn ++ chr 34 :: lit " VALUES ")
              (atoi (fmt_d r)) 0 true ic ty)
    as (cc' & ic' & ty' & s' & Hf & Hs'); try assumption; try lia; try reflexivity.
  rewrite Hf, indent_ignored. cbn [fold_left]. rewrite end_row_data.
  exists (atoi (fmt_d r)), cc', ic', ty'. f_equal. f_equal. f_equal.
  rewrite app_assoc, Hs', <- Hpre.
  rewrite <- ?app_assoc. cbn [app]. rewrite <- ?app_assoc. cbn [app].
  rewrite <- ?app_assoc. reflexivity.
Qed.

Lemma gemini_data_rows_read tn sh hc nc ex0 n rows : forall r ex cr cc ir ic ty sb,
  Z.of_nat n = nc -> nc <= 2147483647 ->
  0 <= r -> r + Z.of_nat (length rows) - 1 <= 2147483647 ->
  Forall (fun vals => length vals = n) rows ->
  exists cr' cc' ir' ic' ty' sb',
    fold_left sheet_step
      (concat (map (fun r => row_events split (fst r) (snd r)) (data_rows n r rows)))
      (idle tn sh cr cc ir ic ty sb true hc nc (ex0 ++ ex))
    = idle tn sh cr' cc' ir' ic' ty' sb' true hc nc
        (ex0 ++ ex ++
         map (fun vals => lit "INSERT INTO " ++ chr 34 :: tn ++ chr 34 :: lit " VALUES ("
                          ++ values_sql false 0 vals ++ lit ");") rows).
Proof.
  induction rows as [|vals rows IH]; intros r ex cr cc ir ic ty sb Hn Hnc Hr Hlast Hlen.
  - exists cr, cc, ir, ic, ty, sb. cbn [data_rows map concat fold_left].
    rewrite app_nil_r. reflexivity.
  - inversion Hlen as [|? ? Hv Hrest]; subst.
    cbn [length] in Hlast. cbn [data_rows map concat fst snd].
    rewrite fold_app, firstn_all.
    destruct (data_row_read tn sh hc (Z.of_nat (length vals)) (ex0 ++ ex) r vals cr cc ir ic ty sb)
      as (cr1 & cc1 & ic1 & ty1 & ->); [lia|assumption|reflexivity|].
    rewrite <- app_assoc.
    destruct (IH (r + 1)
                 (ex ++ [lit "INSERT INTO " ++ chr 34 :: tn ++ chr 34 :: lit " VALUES ("
                         ++ values_sql false 0 vals ++ lit ");"])
                 cr1 cc1 false ic1 ty1 None)
      as (cr' & cc' & ir' & ic' & ty' & sb' & ->); try assumption; try lia; try reflexivity.
    exists cr', cc', ir', ic', ty', sb'. cbn [map]. rewrite <- !app_assoc. reflexivity.
Qed.

(** The header row: the CREATE TABLE statement executed at its end. *)
Lemma header_row_read tn sh cnames cr cc ir ic ty sb :
  Z.of_nat (length cnames) <= 2147483647 ->
  exists cr' cc' ic' ty' hc',
    fold_left sheet_step (row_events split 1 (header_cells 0 cnames))
              (idle tn sh cr cc ir ic ty sb false None 0 [])
    = idle tn sh cr' cc' false ic' ty' sb true hc' (Z.of_nat (length cnames))
        [lit "CREATE TABLE " ++ chr 34 :: w_escape tn ++ chr 34 :: lit " ("
         ++ joined (map (fun n => chr 34 :: line_ends n ++ [chr 34]) cnames) ++ lit ");"].
Proof.
  intros Hcols. unfold row_events.
  rewrite fold_app, indent_ignored, step_cons, start_row. rewrite !fold_app.
  destruct (gemini_header_cells_read cnames 0 [] tn sh (atoi (fmt_d 1)) 0 true ic ty sb None 0 [])
    as (cc1 & ic1 & ty1 & hc1 & -> & Hhc); [lia|lia|reflexivity|].
  rewrite indent_ignored. cbn [fold_left]. rewrite end_row_header.
  cbn [app] in Hhc |- *. rewrite Hhc, Z.add_0_l.
  exists (atoi (fmt_d 1)), cc1, ic1, ty1, hc1. reflexivity.
Qed.

(** The whole worksheet: one CREATE TABLE for the header row and one
    INSERT for every data row. *)
Lemma sheet_statements tn sh cnames rows :
  Z.of_nat (length cnames) <= 2147483647 ->
  Z.of_nat (length rows) + 1 <= 2147483647 ->
  Forall (fun vals => length vals = length cnames) rows ->
  run_sheet tn sh (worksheet_events split (table_sheet cnames rows))
  = (lit "CREATE TABLE " ++ chr 34 :: w_escape tn ++ chr 34 :: lit " ("
     ++ joined (map (fun n => chr 34 :: line_ends n ++ [chr 34]) cnames) ++ lit ");")
    :: map (fun vals => lit "INSERT INTO " ++ chr 34 :: tn ++ chr 34 :: lit " VALUES ("
                        ++ values_sql false 0 vals ++ lit ");") rows.
Proof.
  intros Hcols Hrows Hlen.
  unfold run_sheet, worksheet_events, table_sheet, ctx_init.
  cbn [header_row rows_written autofilter].
  rewrite step_cons, start_other by reflexivity.
  rewrite !fold_app, indent_ignored. cbn [fold_left].
  rewrite (start_other _ (lit "sheetData")) by reflexivity.
  (* the header row *)
  destruct (header_row_read tn sh cnames 0 0 false false [] None) as
    (cr1 & cc1 & ic1 & ty1 & hc1 & ->); [lia|].
  (* the data rows *)
  destruct (gemini_data_rows_read tn sh hc1 (Z.of_nat (length cnames))
              [lit "CREATE TABLE " ++ chr 34 :: w_escape tn ++ chr 34 :: lit " ("
               ++ joined (map (fun n => chr 34 :: line_ends n ++ [chr 34]) cnames)
               ++ lit ");"]
              (length cnames) rows 2 [] cr1 cc1 false ic1 ty1 None)
    as (cr2 & cc2 & ir2 & ic2 & ty2 & sb2 & Hf); try assumption; try lia; try reflexivity.
  rewrite app_nil_r in Hf. cbn [app] in Hf |- *. rewrite Hf.
  rewrite indent_ignored. cbn [fold_left].
  rewrite (end_other _ (lit "sheetData")) by reflexivity.
  rewrite (end_other _ (lit "worksheet")) by reflexivity.
  destruct (0 <? Z.of_nat (length cnames)).
  - rewrite fold_app, indent_ignored. cbn [fold_left].
    rewrite (start_other _ (lit "autoFilter")) by reflexivity.
    rewrite (end_other _ (lit "autoFilter")) by reflexivity.
    unfold text_events. rewrite chars_ignored by reflexivity. reflexivity.
  - cbn [fold_left]. unfold text_events. rewrite chars_ignored by reflexivity. reflexivity.
Qed.


(** *** The value list of a row *)

Lemma values_sql_nulls k : forall started n,
  values_sql started n (replicate k SqlNull) = concat (replicate (n + k) (lit ", NULL")).
Proof.
  induction k as [|k IH]; intros started n; cbn [replicate values_sql is_null].
  - rewrite Nat.add_0_r. reflexivity.
  - rewrite IH. replace (S n + k)%nat with (n + S k)%nat by lia. reflexivity.
Qed.

Lemma joined_concat x l :
  joined (x :: l) = x ++ concat (map (fun y => lit ", " ++ y) l).
Proof.
  revert x. induction l as [|y l IH]; intros x.
  - cbn [joined map concat]. rewrite app_nil_r. reflexivity.
  - rewrite joined_cons, IH. cbn [map concat]. rewrite <- app_assoc. reflexivity.
Qed.

Lemma values_sql_live k live : forall started,
  Forall (fun v => is_null v = false) live ->
  values_sql started 0 (live ++ replicate k SqlNull)
  = (if started
     then concat (map (fun v => lit ", " ++ sql_quote (value_text v)) live)
     else joined (map (fun v => sql_quote (value_text v)) live))
    ++ concat (replicate k (lit ", NULL")).
Proof.
  induction live as [|v live IH]; intros started Hlive.
  - cbn [app map concat joined]. rewrite values_sql_nulls. destruct started; reflexivity.
  - inversion Hlive as [|? ? Hv Hrest]; subst. cbn [app values_sql]. rewrite Hv.
    cbn [replicate concat app]. change (0 <? 0)%nat with false. rewrite orb_false_r.
    rewrite (IH true Hrest). cbn [map].
    destruct started.
    + cbn [concat]. rewrite <- !app_assoc. reflexivity.
    + rewrite joined_concat, map_map. cbn [app]. rewrite <- !app_assoc. reflexivity.
Qed.

Lemma values_sql_gap pre v post : forall started nulls,
  is_null v = false ->
  exists a,
    values_sql started nulls (pre ++ SqlNull :: v :: post)
    = a ++ lit "NULL, , " ++ sql_quote (value_text v) ++ values_sql true 0 post.
Proof.
  induction pre as [|p pre IH]; intros started nulls Hv.
  - exists (concat (replicate nulls (lit "NULL, "))).
    cbn [app values_sql is_null]. rewrite Hv. change (0 <? S nulls)%nat with true.
    rewrite orb_true_r.
    replace (S nulls) with (nulls + 1)%nat by lia.
    rewrite replicate_add, concat_app. cbn [replicate concat].
    rewrite <- !app_assoc. reflexivity.
  - cbn [app values_sql]. destruct (is_null p).
    + apply IH. exact Hv.
    + destruct (IH true 0%nat Hv) as (a & ->).
      eexists. rewrite !app_assoc. reflexivity.
Qed.

Lemma filter_live k (live : list sql_value) :
  Forall (fun v => is_null v = false) live ->
  List.filter (fun v => negb (is_null v)) (live ++ replicate k SqlNull) = live /\
  length (List.filter is_null (live ++ replicate k SqlNull)) = k.
Proof.
  induction 1 as [|v live Hv _ [IH1 IH2]].
  - cbn [app]. induction k as [|k [IHa IHb]]; [split; reflexivity|].
    cbn [replicate List.filter is_null negb length]. rewrite IHa, IHb. split; reflexivity.
  - cbn [app List.filter]. rewrite Hv. cbn [negb]. rewrite IH1, IH2. split; reflexivity.
Qed.

(** *** The table that comes back *)

(** X22: a table exported by the gemini exporter and read by the gemini
    importer, when the names and texts the exporter wrote are made of
    characters the XML parser accepts (the exporter writes every byte
    of a text or blob as it is, control characters and bytes that are
    not UTF-8 included) and however the parser cuts the character
    data.  The parser accepts the part, and the importer executes one
    CREATE TABLE with the column names in double quotes, then one
    INSERT for every row, in order.  For a row that starts with a value
    and has its NULLs after its values, the INSERT lists every value as
    a quoted text (integers and floats as printed, every line end of a
    text a line feed) followed by one NULL for each NULL of the row. *)
Theorem gemini_export_import_round_trip (tn : cstring) (sh : list (option cstring))
    (cnames : list cstring) (rows : list (list sql_value)) :
  Z.of_nat (length cnames) <= 2147483647 ->
  Z.of_nat (length rows) + 1 <= 2147483647 ->
  well_formed (table_sheet cnames rows) = true ->
  Forall (fun vals =>
            length vals = length cnames /\
            exists live k,
              vals = live ++ replicate k SqlNull /\ live <> [] /\
              Forall (fun v => is_null v = false) live) rows ->
  exists evs,
    XML_Parse split (table_sheet cnames rows) = Some evs /\
    run_sheet tn sh evs
    = (lit "CREATE TABLE " ++ chr 34 :: w_escape tn ++ chr 34 :: lit " ("
       ++ joined (map (fun n => chr 34 :: line_ends n ++ [chr 34]) cnames) ++ lit ");")
      :: map (fun vals =>
                lit "INSERT INTO " ++ chr 34 :: tn ++ chr 34 :: lit " VALUES ("
                ++ joined (map (fun v => sql_quote (value_text v))
                               (List.filter (fun v => negb (is_null v)) vals))
                ++ concat (replicate (length (List.filter is_null vals)) (lit ", NULL"))
                ++ lit ");") rows.
Proof.
  intros Hcols Hrows Hwf Hshape.
  exists (worksheet_events split (table_sheet cnames rows)).
  split; [unfold XML_Parse; rewrite Hwf; reflexivity|].
  rewrite sheet_statements; try assumption.
  - f_equal. apply map_ext_in. intros vals Hin.
    rewrite List.Forall_forall in Hshape. destruct (Hshape vals Hin) as (_ & live & k & -> & _ & Hlive).
    destruct (filter_live k live Hlive) as [-> ->].
    rewrite (values_sql_live k live false Hlive). rewrite <- !app_assoc. reflexivity.
  - eapply Forall_impl; [exact Hshape|]. intros vals (H & _). exact H.
Qed.

(** X23: what the gemini importer makes of the gaps NULLs leave in a
    row written by the gemini exporter, when the parser accepts the
    part.  When a NULL comes directly before a value, the INSERT
    executed for the row has an empty item: the gap is written as
    [NULL, ] and the value after it gets a comma of its own.  When the
    row holds only NULLs, the list of the INSERT starts with a comma. *)
Theorem gemini_import_null_before_value (tn : cstring) (sh : list (option cstring))
    (cnames : list cstring) (rows : list (list sql_value)) :
  Z.of_nat (length cnames) <= 2147483647 ->
  Z.of_nat (length rows) + 1 <= 2147483647 ->
  well_formed (table_sheet cnames rows) = true ->
  Forall (fun vals => length vals = length cnames) rows ->
  exists evs,
    XML_Parse split (table_sheet cnames rows) = Some evs /\
    (forall i pre v post,
       rows !! i = Some (pre ++ SqlNull :: v :: post) -> is_null v = false ->
       exists a b,
         run_sheet tn sh evs !! S i
         = Some (lit "INSERT INTO " ++ chr 34 :: tn ++ chr 34 :: lit " VALUES ("
                 ++ a ++ lit "NULL, , " ++ sql_quote (value_text v) ++ b)) /\
    (forall i k,
       rows !! i = Some (replicate (S k) SqlNull) ->
       run_sheet tn sh evs !! S i
       = Some (lit "INSERT INTO " ++ chr 34 :: tn ++ chr 34 :: lit " VALUES ("
               ++ lit ", NULL" ++ concat (replicate k (lit ", NULL")) ++ lit ");")).
Proof.
  intros Hcols Hrows Hwf Hshape.
  exists (worksheet_events split (table_sheet cnames rows)).
  split; [unfold XML_Parse; rewrite Hwf; reflexivity|].
  rewrite sheet_statements; try assumption.
  split.
  - intros i pre v post Hi Hv. rewrite lookup_cons. cbv beta iota.
    rewrite list_lookup_fmap, Hi. cbn [fmap option_fmap option_map].
    destruct (values_sql_gap pre v post false 0%nat Hv) as (a & ->).
    exists a, (values_sql true 0 post ++ lit ");").
    rewrite <- !app_assoc. reflexivity.
  - intros i k Hi. rewrite lookup_cons. cbv beta iota.
    rewrite list_lookup_fmap, Hi. cbn [fmap option_fmap option_map].
    rewrite (values_sql_nulls (S k) false 0). cbn [Nat.add replicate concat].
    rewrite <- !app_assoc. reflexivity.
Qed.

End GeminiRoundTrip.

Lemma gemini_export_import_round_trip_witness :
  exists evs,
    GeminiDocument.XML_Parse TableFixtures.whole
      (GeminiExport.table_sheet [CStr.lit "id"; CStr.lit "note"]
         TableFixtures.rows_nulls_last) = Some evs /\
    GeminiSheet.run_sheet (CStr.lit "t") [] evs
    = [CStr.lit "CREATE TABLE " ++ TableFixtures.quoted (CStr.lit "t") ++ CStr.lit " ("
       ++ TableFixtures.quoted (CStr.lit "id") ++ CStr.lit ", "
       ++ TableFixtures.quoted (CStr.lit "note") ++ CStr.lit ");";
       CStr.lit "INSERT INTO " ++ TableFixtures.quoted (CStr.lit "t")
       ++ CStr.lit " VALUES ('1', 'it''s');";
       CStr.lit "INSERT INTO " ++ TableFixtures.quoted (CStr.lit "t")
       ++ CStr.lit " VALUES ('2.5', NULL);"].
Proof.
  apply (gemini_export_import_round_trip TableFixtures.whole).
  - intros t. apply app_nil_r.
  - simpl. lia.
  - simpl. lia.
  - vm_compute. reflexivity.
  - constructor; [|constructor; [|constructor]].
    + split; [reflexivity|].
      exists [OpusExport.SqlInteger 1; OpusExport.SqlText (CStr.lit "it's")], 0%nat.
      split; [reflexivity|]. split; [discriminate|]. repeat constructor.
    + split; [reflexivity|].
      exists [OpusExport.SqlFloat (CStr.lit "2.5")], 1%nat.
      split; [reflexivity|]. split; [discriminate|]. repeat constructor.
Defined.

Lemma gemini_import_null_before_value_witness :
  exists evs,
    GeminiDocument.XML_Parse TableFixtures.whole
      (GeminiExport.table_sheet [CStr.lit "id"; CStr.lit "note"]
         TableFixtures.rows_null_first) = Some evs /\
    (exists a b,
       GeminiSheet.run_sheet (CStr.lit "t") [] evs !! 1%nat
       = Some (CStr.lit "INSERT INTO " ++ TableFixtures.quoted (CStr.lit "t")
               ++ CStr.lit " VALUES (" ++ a ++ CStr.lit "NULL, , "
               ++ GeminiSheet.sql_quote (CStr.lit "x") ++ b)) /\
    GeminiSheet.run_sheet (CStr.lit "t") [] evs !! 2%nat
    = Some (CStr.lit "INSERT INTO " ++ TableFixtures.quoted (CStr.lit "t")
            ++ CStr.lit " VALUES (, NULL, NULL);").
Proof.
  destruct (gemini_import_null_before_value TableFixtures.whole
              (fun t => app_nil_r t) (CStr.lit "t") []
              [CStr.lit "id"; CStr.lit "note"] TableFixtures.rows_null_first)
    as (evs & Hparse & Hgap & Hnulls).
  - simpl. lia.
  - simpl. lia.
  - vm_compute. reflexivity.
  - repeat (constructor; [reflexivity|]). constructor.
  - exists evs. split; [exact Hparse|]. split.
    + destruct (Hgap 0%nat [] (OpusExport.SqlText (CStr.lit "x")) [] eq_refl eq_refl)
        as (a & b & H).
      exists a, b. exact H.
    + exact (Hnulls 1%nat 1%nat eq_refl).
Defined.

(** ** The copilot exporter's shared strings, read by the importers *)

Section CopilotStringsPart.
Import CStr Xml Escapes Sst Documents CopilotStrings.

Variable split : cstring -> list cstring.
Hypothesis split_concat : forall t, concat (split t) = t.

Lemma copilot_xml_escape_pieces s : copilot_xml_escape s = flat_map copilot_piece s.
Proof.
  induction s as [|c s IH]; [reflexivity|].
  rewrite copilot_xml_escape_cons, IH. reflexivity.
Qed.

Lemma copilot_pieces_decode u :
  entity_decode (flat_map copilot_piece u)
  = map (fun c => if is_control c then " "%char else c) u.
Proof.
  induction u as [|c u IH]; [reflexivity|].
  cbn [flat_map map]. unfold copilot_piece at 1.
  destruct (entity_decode_entities (flat_map copilot_piece u)) as (Ca & Cl & Cg & Cq & Cp).
  assert (Hnc : forall d, (d = "&" \/ d = "<" \/ d = ">" \/ d = dquote \/ d = "'")%char ->
                          is_control d = false).
  { intros d [-> | [-> | [-> | [-> | ->]]]]; reflexivity. }
  destruct (ch_eqb c "&") eqn:Ea.
  { apply ch_eqb_true in Ea. subst c. rewrite Hnc by auto. rewrite Ca, IH. reflexivity. }
  destruct (ch_eqb c "<") eqn:El.
  { apply ch_eqb_true in El. subst c. rewrite Hnc by auto. rewrite Cl, IH. reflexivity. }
  destruct (ch_eqb c ">") eqn:Eg.
  { apply ch_eqb_true in Eg. subst c. rewrite Hnc by auto. rewrite Cg, IH. reflexivity. }
  destruct (code c =? 34) eqn:Eq.
  { apply code_34 in Eq. subst c. rewrite Hnc by auto. rewrite Cq, IH. reflexivity. }
  destruct (ch_eqb c "'") eqn:Ep.
  { apply ch_eqb_true in Ep. subst c. rewrite Hnc by auto. rewrite Cp, IH. reflexivity. }
  destruct (is_control c) eqn:Ec; cbn [app].
  - rewrite (entity_decode_other " " _ eq_refl), IH. reflexivity.
  - rewrite (entity_decode_other c _ Ea), IH. reflexivity.
Qed.

Lemma copilot_piece_line_end c : code c = 13 \/ code c = 10 -> copilot_piece c = [c].
Proof.
  intros [H | H]; apply code_char in H; subst c; reflexivity.
Qed.

Lemma copilot_piece_plain c :
  code c <> 13 -> code c <> 10 ->
  copilot_piece c <> [] /\ Forall (fun d => code d <> 13 /\ code d <> 10) (copilot_piece c).
Proof.
  intros H13 H10. unfold copilot_piece.
  repeat match goal with
         | |- context [if ?t then _ else _] =>
             destruct t;
               [split; [discriminate|
                        vm_compute; repeat (constructor; [split; discriminate|]); constructor]|]
         end.
  split; [discriminate|]. constructor; [split; assumption|constructor].
Qed.

(** What the parser delivers for a text the copilot exporter escaped. *)
Lemma copilot_escape_chardata s : chardata (copilot_xml_escape s) = read_back s.
Proof.
  unfold chardata, read_back, line_ends. rewrite copilot_xml_escape_pieces.
  rewrite (line_ends_pieces copilot_piece copilot_piece_line_end).
  - apply copilot_pieces_decode.
  - apply Forall_forall. intros c _. apply copilot_piece_plain.
Qed.

Lemma entry_text t : concat (split (chardata (copilot_xml_escape t))) = read_back t.
Proof. rewrite split_concat. apply copilot_escape_chardata. Qed.

(** *** The three parsers *)

Lemma copilot_spacing chunks ss0 cur0 :
  fold_left CopilotImport.ss_step (map CharacterData chunks)
    {| CopilotImport.ss := ss0; CopilotImport.in_si := false;
       CopilotImport.ss_in_t := false; CopilotImport.cur := cur0 |}
  = {| CopilotImport.ss := ss0; CopilotImport.in_si := false;
       CopilotImport.ss_in_t := false; CopilotImport.cur := cur0 |}.
Proof. induction chunks as [|c chunks IH]; [reflexivity|exact IH]. Qed.

Lemma copilot_entries texts : forall ss0 cur0, exists cur1,
  fold_left CopilotImport.ss_step
    (concat (map (fun t => spacing split (chr 10 :: lit "  ")
                           ++ si_events [split (chardata t)])
                 (build_sharedstrings_xml texts)))
    {| CopilotImport.ss := ss0; CopilotImport.in_si := false;
       CopilotImport.ss_in_t := false; CopilotImport.cur := cur0 |}
  = {| CopilotImport.ss := ss0 ++ map read_back texts; CopilotImport.in_si := false;
       CopilotImport.ss_in_t := false; CopilotImport.cur := cur1 |}.
Proof.
  induction texts as [|t texts IH]; intros ss0 cur0; cbn [build_sharedstrings_xml map concat].
  - exists cur0. rewrite app_nil_r. reflexivity.
  - rewrite !fold_left_app. unfold spacing. rewrite copilot_spacing, copilot_si_events.
    cbn [concat]. rewrite app_nil_r, entry_text.
    destruct (IH (ss0 ++ [read_back t]) (read_back t)) as [cur1 H].
    exists cur1. unfold build_sharedstrings_xml, spacing in H. rewrite H, <- app_assoc.
    reflexivity.
Qed.

Lemma opus_spacing chunks ss0 cur0 :
  fold_left OpusStrings.ss_step (map CharacterData chunks)
    {| OpusStrings.strings := ss0; OpusStrings.in_t := false; OpusStrings.current := cur0 |}
  = {| OpusStrings.strings := ss0; OpusStrings.in_t := false; OpusStrings.current := cur0 |}.
Proof. induction chunks as [|c chunks IH]; [reflexivity|exact IH]. Qed.

Lemma opus_entries texts : forall ss0,
  fold_left OpusStrings.ss_step
    (concat (map (fun t => spacing split (chr 10 :: lit "  ")
                           ++ si_events [split (chardata t)])
                 (build_sharedstrings_xml texts)))
    {| OpusStrings.strings := ss0; OpusStrings.in_t := false; OpusStrings.current := [] |}
  = {| OpusStrings.strings := ss0 ++ map read_back texts; OpusStrings.in_t := false;
       OpusStrings.current := [] |}.
Proof.
  induction texts as [|t texts IH]; intros ss0; cbn [build_sharedstrings_xml map concat].
  - rewrite app_nil_r. reflexivity.
  - rewrite !fold_left_app. unfold spacing. rewrite opus_spacing, opus_si_events.
    unfold last_run. cbn [last default from_option id]. rewrite entry_text.
    unfold build_sharedstrings_xml, spacing in IH. rewrite IH, <- app_assoc. reflexivity.
Qed.

Lemma gemini_spacing chunks ss0 cur0 :
  fold_left GeminiStrings.shared_strings_step (map CharacterData chunks)
    {| GeminiStrings.strings := ss0; GeminiStrings.in_t_tag := false;
       GeminiStrings.current_str := cur0 |}
  = {| GeminiStrings.strings := ss0; GeminiStrings.in_t_tag := false;
       GeminiStrings.current_str := cur0 |}.
Proof. induction chunks as [|c chunks IH]; [reflexivity|exact IH]. Qed.

Lemma run_entry_text chunks : default [] (run_entry chunks) = concat chunks.
Proof. destruct chunks; reflexivity. Qed.

Lemma gemini_entries texts : forall ss0 cur0, exists cur1 entries,
  fold_left GeminiStrings.shared_strings_step
    (concat (map (fun t => spacing split (chr 10 :: lit "  ")
                           ++ si_events [split (chardata t)])
                 (build_sharedstrings_xml texts)))
    {| GeminiStrings.strings := ss0; GeminiStrings.in_t_tag := false;
       GeminiStrings.current_str := cur0 |}
  = {| GeminiStrings.strings := ss0 ++ entries; GeminiStrings.in_t_tag := false;
       GeminiStrings.current_str := cur1 |} /\
  map (default []) entries = map read_back texts.
Proof.
  induction texts as [|t texts IH]; intros ss0 cur0; cbn [build_sharedstrings_xml map concat].
  - exists cur0, []. rewrite app_nil_r. split; reflexivity.
  - rewrite !fold_left_app. unfold spacing. rewrite gemini_spacing.
    destruct (gemini_si_events [split (chardata (copilot_xml_escape t))] ss0 cur0)
      as [cur1 ->].
    cbn [map].
    destruct (IH (ss0 ++ [run_entry (split (chardata (copilot_xml_escape t)))]) cur1)
      as (cur2 & entries & H & Hentries).
    exists cur2, (run_entry (split (chardata (copilot_xml_escape t))) :: entries).
    unfold build_sharedstrings_xml, spacing in H. rewrite H, <- app_assoc.
    split; [reflexivity|].
    cbn [map]. rewrite run_entry_text, entry_text, Hentries. reflexivity.
Qed.

(** X24: the shared-string part the copilot exporter writes, when its
    entries are made of characters the XML parser accepts (UTF-8 that
    the cut at the cell limit has not broken), is accepted by the
    parser and read by the shared-string parsers of the three
    importers, however the parser cuts the character data, as a table
    with one entry per entry of the exporter's table, in the same
    order, so that the indices written into the cells point at the same
    entries.  The text of an entry comes back with its line ends as
    line feeds and every control character as a space (the gemini
    parser keeps NULL where the others keep an empty string). *)
Theorem copilot_shared_strings_part_read_back (s : sst) :
  forallb xml_chars (build_sharedstrings_xml s) = true ->
  exists evs,
    XML_Parse split (build_sharedstrings_xml s) = Some evs /\
    CopilotImport.parse_shared_strings evs = map read_back s /\
    OpusStrings.parse_shared_strings evs = map read_back s /\
    map (default []) (GeminiStrings.parse_shared_strings evs) = map read_back s.
Proof.
  intros Hwf. exists (sharedstrings_events split (build_sharedstrings_xml s)).
  split; [unfold XML_Parse; rewrite Hwf; reflexivity|].
  unfold CopilotImport.parse_shared_strings, OpusStrings.parse_shared_strings,
    GeminiStrings.parse_shared_strings, sharedstrings_events.
  repeat split.
  - cbn [fold_left CopilotImport.ss_step]. rewrite !fold_left_app.
    change (CopilotImport.ss_start _ (lit "sst")) with
      {| CopilotImport.ss := []; CopilotImport.in_si := false;
         CopilotImport.ss_in_t := false; CopilotImport.cur := [] |}.
    destruct (copilot_entries s [] []) as [cur1 ->].
    unfold spacing. rewrite copilot_spacing. reflexivity.
  - cbn [fold_left OpusStrings.ss_step]. rewrite !fold_left_app.
    change (OpusStrings.ss_start_element _ (lit "sst")) with
      {| OpusStrings.strings := []; OpusStrings.in_t := false; OpusStrings.current := [] |}.
    rewrite (opus_entries s []). unfold spacing. rewrite opus_spacing. reflexivity.
  - cbn [fold_left GeminiStrings.shared_strings_step]. rewrite !fold_left_app.
    change (GeminiStrings.shared_strings_start _ (lit "sst")) with
      {| GeminiStrings.strings := []; GeminiStrings.in_t_tag := false;
         GeminiStrings.current_str := None |}.
    destruct (gemini_entries s [] None) as (cur1 & entries & -> & Hentries).
    unfold spacing. rewrite gemini_spacing. exact Hentries.
Qed.

End CopilotStringsPart.

Lemma copilot_shared_strings_part_read_back_witness :
  exists evs,
    CopilotStrings.XML_Parse TableFixtures.whole
      (CopilotStrings.build_sharedstrings_xml
         [CStr.lit "a<b"; CStr.lit "x" ++ [CStr.chr 13; CStr.chr 10; CStr.chr 7] ++ CStr.lit "y"])
      = Some evs /\
    CopilotImport.parse_shared_strings evs
      = [CStr.lit "a<b"; CStr.lit "x" ++ [CStr.chr 10] ++ CStr.lit " y"].
Proof.
  destruct (copilot_shared_strings_part_read_back TableFixtures.whole (fun t => app_nil_r t)
              [CStr.lit "a<b"; CStr.lit "x" ++ [CStr.chr 13; CStr.chr 10; CStr.chr 7] ++ CStr.lit "y"])
    as (evs & Hparse & Hcopilot & _).
  - vm_compute. reflexivity.
  - exists evs. split; [exact Hparse|exact Hcopilot].
Defined.

(** ** The gemini exporter's worksheet, read by the opus importer *)

Section GeminiOpusRoundTrip.
Import CStr ColLetters Xml GridSpec Escapes OpusImport OpusTable OpusSheet.
Import OpusExport (sql_value, SqlInteger, SqlFloat, SqlText, SqlBlob, SqlNull).

(** The parser never calls the character-data handler without
    characters. *)
Variable split : cstring -> list cstring.
Hypothesis split_concat : forall t, concat (split t) = t.
Hypothesis split_nonempty : forall t, Forall (fun chunk => chunk <> []) (split t).

Abbreviation resting w s cr cc ct tx :=
  {| ws := w; ss := s; cur_row := cr; cur_col := cc; cur_type := ct;
     in_v := false; in_t := false; in_is := false; text := tx |}.

(** *** Cells *)

Lemma cell_atts_typed_number ref :
  cell_atts [(lit "r", ref); (lit "t", lit "n")] = cell_atts [(lit "r", ref)].
Proof.
  unfold cell_atts. cbn [fold_left fst snd].
  repeat match goal with
    | |- context [streq (lit ?a) (lit ?b)] =>
        let r := eval vm_compute in (streq (lit a) (lit b)) in
        change (streq (lit a) (lit b)) with r
    end.
  destruct (parse_cell_ref ref). reflexivity.
Qed.

(** The opus importer reads a cell of the gemini exporter as the cell
    the opus exporter would have written. *)
Lemma gemini_cell_as_opus c wsp :
  sheet_decls wsp (GeminiDocument.cell_events split c)
    = sheet_decls wsp (OpusDocument.cell_events split (GeminiDocument.as_opus c)) /\
  fold_left ws_step (GeminiDocument.cell_events split c) wsp
    = fold_left ws_step (OpusDocument.cell_events split (GeminiDocument.as_opus c)) wsp.
Proof.
  destruct c as [ref t|ref v|ref t]; [split; reflexivity| |split; reflexivity].
  cbn [GeminiDocument.as_opus].
  unfold GeminiDocument.cell_events, OpusDocument.cell_events. cbn [app].
  rewrite !sheet_decls_cons, !fold_step_cons.
  assert (H : ws_step wsp (StartElement (lit "c") [(lit "r", ref); (lit "t", lit "n")])
              = ws_step wsp (StartElement (lit "c") [(lit "r", ref)])).
  { cbn [ws_step]. unfold ws_start_element. rewrite cell_atts_typed_number. reflexivity. }
  rewrite H. split; reflexivity.
Qed.

Lemma gemini_cell_written row col v :
  GeminiDocument.is_null v = false ->
  exists cl,
    GeminiExport.data_cells row col [v] = [cl] /\
    cell_ref_of (GeminiDocument.as_opus cl) = OpusExport.cell_ref col row /\
    cell_back (GeminiDocument.as_opus cl) = GeminiDocument.read_back v.
Proof.
  destruct v as [i|printed|text|blob|]; intros Hv; try discriminate Hv;
    cbn [GeminiExport.data_cells app]; eexists; (split; [reflexivity|]);
    (split; [reflexivity|]);
    cbn [GeminiDocument.as_opus cell_back GeminiDocument.read_back].
  - pose proof (fmt_d_nonempty i). destruct (fmt_d i); [contradiction|reflexivity].
  - reflexivity.
  - rewrite gemini_escape_chardata. reflexivity.
  - rewrite gemini_escape_chardata. reflexivity.
Qed.

Lemma gemini_cells_cons row col v rest :
  GeminiExport.data_cells row col (v :: rest)
  = GeminiExport.data_cells row col [v] ++ GeminiExport.data_cells row (col + 1) rest.
Proof. cbn [GeminiExport.data_cells]. rewrite app_nil_r. reflexivity. Qed.

(** White space between the elements is not collected. *)
Lemma spacing_ignored chunks w s cr cc ct tx :
  sheet_decls (resting w s cr cc ct tx) (map CharacterData chunks) = [] /\
  fold_left ws_step (map CharacterData chunks) (resting w s cr cc ct tx)
  = resting w s cr cc ct tx.
Proof.
  induction chunks as [|d chunks [IHd IHf]]; [split; reflexivity|].
  cbn [map]. rewrite sheet_decls_cons, fold_step_cons.
  change (ws_step (resting w s cr cc ct tx) (CharacterData d)) with (resting w s cr cc ct tx).
  cbn [declared_by app]. split; assumption.
Qed.

Lemma indent_read n w s cr cc ct tx :
  sheet_decls (resting w s cr cc ct tx) (GeminiDocument.indent split n) = [] /\
  fold_left ws_step (GeminiDocument.indent split n) (resting w s cr cc ct tx)
  = resting w s cr cc ct tx.
Proof. apply spacing_ignored. Qed.

(** One cell with the white space before it. *)
Lemma gemini_cell_step w s cr cc ct tx c col row :
  parse_cell_ref (cell_ref_of (GeminiDocument.as_opus c)) = (col, row) ->
  0 < col -> 0 < row ->
  tx <> None \/ payload (GeminiDocument.as_opus c) <> [] ->
  exists w' ty tx',
    ws_set_cell w row col (cell_back (GeminiDocument.as_opus c)) = Some w' /\ tx' <> None /\
    sheet_decls (resting w s cr cc ct tx)
                (GeminiDocument.indent split 6 ++ GeminiDocument.cell_events split c)
      = [((Z.to_nat row - 1)%nat, (Z.to_nat col - 1)%nat,
          cell_back (GeminiDocument.as_opus c))] /\
    fold_left ws_step (GeminiDocument.indent split 6 ++ GeminiDocument.cell_events split c)
              (resting w s cr cc ct tx)
      = resting w' s row col ty tx'.
Proof.
  intros Hparse Hc Hr Htx.
  rewrite sheet_decls_app, fold_left_app.
  destruct (indent_read 6 w s cr cc ct tx) as [-> ->]. cbn [app].
  destruct (gemini_cell_as_opus c (resting w s cr cc ct tx)) as [-> ->].
  apply (cell_step split split_concat split_nonempty); assumption.
Qed.

(** *** Rows of cells *)

Lemma gemini_value_cells_read row vals : forall col w s cr cc ct tx,
  tx <> None -> 0 <= col -> col + Z.of_nat (length vals) <= 2147483647 ->
  1 <= row <= 2147483647 ->
  exists w' cr' cc' ct' tx',
    tx' <> None /\
    max_col w <= max_col w' <= Z.max (max_col w) (col + Z.of_nat (length vals)) /\
    sheet_decls (resting w s cr cc ct tx)
      (concat (map (fun c => GeminiDocument.indent split 6 ++ GeminiDocument.cell_events split c)
                   (GeminiExport.data_cells row col vals)))
      = value_decls GeminiDocument.read_back (Z.to_nat row - 1) (Z.to_nat col) vals /\
    fold_left ws_step
      (concat (map (fun c => GeminiDocument.indent split 6 ++ GeminiDocument.cell_events split c)
                   (GeminiExport.data_cells row col vals)))
      (resting w s cr cc ct tx)
      = resting w' s cr' cc' ct' tx'.
Proof.
  induction vals as [|v vals IH]; intros col w s cr cc ct tx Htx Hcol Hlen Hrow.
  - exists w, cr, cc, ct, tx. cbn [length] in *. repeat split; try assumption; try lia.
  - cbn [length] in Hlen |- *. rewrite gemini_cells_cons. cbn [value_decls].
    destruct (GeminiDocument.is_null v) eqn:Hw.
    + destruct v; try discriminate Hw. cbn [GeminiExport.data_cells app].
      destruct (IH (col + 1) w s cr cc ct tx Htx) as
        (w' & cr' & cc' & ct' & tx' & Htx' & Hmax & Hd & Hf); [lia|lia|exact Hrow|].
      exists w', cr', cc', ct', tx'.
      split; [exact Htx'|]. split; [lia|]. split; [|exact Hf].
      rewrite Hd. replace (Z.to_nat (col + 1)) with (S (Z.to_nat col)) by lia. reflexivity.
    + destruct (gemini_cell_written row col v Hw) as (c & -> & Href & Hback).
      cbn [map concat app].
      rewrite sheet_decls_app,
        (fold_left_app ws_step
           (GeminiDocument.indent split 6 ++ GeminiDocument.cell_events split c)).
      destruct (gemini_cell_step w s cr cc ct tx c (col + 1) row) as
        (w1 & ty & tx1 & Hset & Htx1 & Hdecl & Hfold);
        [rewrite Href; apply parse_cell_ref_written; lia|lia|lia|left; exact Htx|].
      rewrite Hdecl, Hfold.
      destruct (IH (col + 1) w1 s row (col + 1) ty tx1 Htx1) as
        (w' & cr' & cc' & ct' & tx' & Htx' & Hmax & Hd & Hf); [lia|lia|exact Hrow|].
      exists w', cr', cc', ct', tx'.
      apply ws_set_cell_max in Hset.
      split; [exact Htx'|]. split; [lia|]. split; [|exact Hf].
      rewrite Hd, Hback. replace (Z.to_nat (col + 1) - 1)%nat with (Z.to_nat col) by lia.
      replace (Z.to_nat (col + 1)) with (S (Z.to_nat col)) by lia.
      destruct v; try discriminate Hw; reflexivity.
Qed.

Lemma gemini_header_cells_decls names : forall col w s cr cc ct tx,
  tx <> None -> 0 <= col -> col + Z.of_nat (length names) <= 2147483647 ->
  exists w' cr' cc' ct' tx',
    tx' <> None /\
    max_col w' = match names with
                 | [] => max_col w
                 | _ => Z.max (max_col w) (col + Z.of_nat (length names))
                 end /\
    sheet_decls (resting w s cr cc ct tx)
      (concat (map (fun c => GeminiDocument.indent split 6 ++ GeminiDocument.cell_events split c)
                   (GeminiExport.header_cells col names)))
      = header_decls line_ends (Z.to_nat col) names /\
    fold_left ws_step
      (concat (map (fun c => GeminiDocument.indent split 6 ++ GeminiDocument.cell_events split c)
                   (GeminiExport.header_cells col names)))
      (resting w s cr cc ct tx)
      = resting w' s cr' cc' ct' tx'.
Proof.
  induction names as [|n names IH]; intros col w s cr cc ct tx Htx Hcol Hlen.
  - exists w, cr, cc, ct, tx. repeat split; assumption.
  - cbn [length] in Hlen |- *. cbn [GeminiExport.header_cells map concat header_decls].
    rewrite sheet_decls_app,
      (fold_left_app ws_step
         (GeminiDocument.indent split 6 ++ GeminiDocument.cell_events split _)).
    destruct (gemini_cell_step w s cr cc ct tx
                (GeminiExport.HeaderCell (GeminiLetters.int_to_col col ++ lit "1")
                   (strbuf_append_xml_escaped [] n)) (col + 1) 1) as
      (w1 & ty & tx1 & Hset & Htx1 & Hdecl & Hfold);
      [apply (parse_cell_ref_written col 1); lia|lia|lia|left; exact Htx|].
    rewrite Hdecl, Hfold.
    destruct (IH (col + 1) w1 s 1 (col + 1) ty tx1 Htx1) as
      (w' & cr' & cc' & ct' & tx' & Htx' & Hmax & Hd & Hf); [lia|lia|].
    exists w', cr', cc', ct', tx'.
    apply ws_set_cell_max in Hset.
    split; [exact Htx'|]. split; [|split; [|exact Hf]].
    + rewrite Hmax. destruct names; cbn [length]; lia.
    + rewrite Hd. cbn [GeminiDocument.as_opus cell_back]. rewrite gemini_escape_chardata.
      replace (Z.to_nat (col + 1) - 1)%nat with (Z.to_nat col) by lia.
      replace (Z.to_nat (col + 1)) with (S (Z.to_nat col)) by lia.
      reflexivity.
Qed.


Lemma line_ends_nonempty n : n <> [] -> line_ends n <> [].
Proof.
  destruct n as [|c n]; [contradiction|]. intros _. unfold line_ends. cbn [line_ends_from].
  destruct (code c =? 13); [discriminate|]. rewrite andb_false_r. discriminate.
Qed.

(** One row, with the white space around it. *)
Lemma gemini_row_frame r cells w s cr cc ct tx w' cr' cc' ct' tx' ds :
  sheet_decls (resting w s cr cc ct tx)
    (concat (map (fun c => GeminiDocument.indent split 6 ++ GeminiDocument.cell_events split c)
                 cells)) = ds ->
  fold_left ws_step
    (concat (map (fun c => GeminiDocument.indent split 6 ++ GeminiDocument.cell_events split c)
                 cells))
    (resting w s cr cc ct tx) = resting w' s cr' cc' ct' tx' ->
  sheet_decls (resting w s cr cc ct tx) (GeminiDocument.row_events split r cells) = ds /\
  fold_left ws_step (GeminiDocument.row_events split r cells) (resting w s cr cc ct tx)
  = resting w' s cr' cc' ct' tx'.
Proof.
  intros Hd Hf. unfold GeminiDocument.row_events.
  rewrite sheet_decls_app, (fold_left_app ws_step (GeminiDocument.indent split 4)).
  destruct (indent_read 4 w s cr cc ct tx) as [-> ->]. cbn [app].
  rewrite sheet_decls_cons, fold_step_cons, step_start_other by reflexivity.
  cbn [declared_by app].
  rewrite sheet_decls_app, fold_left_app, Hd, Hf.
  rewrite sheet_decls_app, (fold_left_app ws_step (GeminiDocument.indent split 4)).
  destruct (indent_read 4 w' s cr' cc' ct' tx') as [-> ->].
  cbn [app sheet_decls fold_left].
  destruct (step_end_other (resting w' s cr' cc' ct' tx') (lit "row")) as [Hs Hdd];
    try reflexivity.
  rewrite Hs, Hdd, !app_nil_r. split; reflexivity.
Qed.

Lemma gemini_rows_decls n rs : forall row w s cr cc ct tx,
  tx <> None -> 1 <= row -> row + Z.of_nat (length rs) <= 2147483648 ->
  Z.of_nat n <= 2147483647 ->
  Forall (fun vals => length vals = n) rs ->
  exists w' cr' cc' ct' tx',
    tx' <> None /\
    max_col w <= max_col w' <= Z.max (max_col w) (Z.of_nat n) /\
    sheet_decls (resting w s cr cc ct tx)
      (concat (map (fun r => GeminiDocument.row_events split (fst r) (snd r))
                   (GeminiExport.data_rows n row rs)))
      = data_decls GeminiDocument.read_back (Z.to_nat row - 1) rs /\
    fold_left ws_step
      (concat (map (fun r => GeminiDocument.row_events split (fst r) (snd r))
                   (GeminiExport.data_rows n row rs)))
      (resting w s cr cc ct tx)
      = resting w' s cr' cc' ct' tx'.
Proof.
  induction rs as [|vals rs IH]; intros row w s cr cc ct tx Htx Hrow Hn Hwidth Hw.
  - exists w, cr, cc, ct, tx. repeat split; try assumption; lia.
  - cbn [length] in Hn. inversion Hw as [|? ? Hv Hrest]; subst.
    cbn [GeminiExport.data_rows map concat data_decls fst snd].
    rewrite firstn_all.
    destruct (gemini_value_cells_read row vals 0 w s cr cc ct tx Htx) as
      (w1 & cr1 & cc1 & ct1 & tx1 & Htx1 & Hmax1 & Hd1 & Hf1); [lia|lia|lia|].
    destruct (gemini_row_frame row (GeminiExport.data_cells row 0 vals)
                w s cr cc ct tx w1 cr1 cc1 ct1 tx1 _ Hd1 Hf1) as [Hd1' Hf1'].
    rewrite sheet_decls_app,
      (fold_left_app ws_step
         (GeminiDocument.row_events split row (GeminiExport.data_cells row 0 vals))).
    rewrite Hd1', Hf1'.
    destruct (IH (row + 1) w1 s cr1 cc1 ct1 tx1 Htx1) as
      (w' & cr' & cc' & ct' & tx' & Htx' & Hmax & Hd & Hf); [lia|lia|exact Hwidth|exact Hrest|].
    exists w', cr', cc', ct', tx'.
    split; [exact Htx'|]. split; [lia|]. split; [|exact Hf].
    rewrite Hd. change (Z.to_nat 0) with 0%nat.
    replace (Z.to_nat (row + 1) - 1)%nat with (S (Z.to_nat row - 1)) by lia.
    reflexivity.
Qed.

(** The whole worksheet: the declarations the importer sees, and the
    width it records. *)
Lemma gemini_worksheet_read (n : cstring) (names : list cstring)
    (rs : list (list sql_value)) (s : SharedStrings) :
  n <> [] ->
  Z.of_nat (length (n :: names)) <= 2147483647 ->
  Z.of_nat (length rs) + 1 <= 2147483647 ->
  Forall (fun vals => length vals = length (n :: names)) rs ->
  sheet_decls (wsp_init ws_init s)
    (GeminiDocument.worksheet_events split (GeminiExport.table_sheet (n :: names) rs))
    = header_decls line_ends 0 (n :: names) ++ data_decls GeminiDocument.read_back 1 rs /\
  max_col (parse_worksheet
             (GeminiDocument.worksheet_events split
                (GeminiExport.table_sheet (n :: names) rs)) s)
    = Z.of_nat (length (n :: names)).
Proof.
  intros Hn Hcols Hrows Hlen.
  unfold parse_worksheet, GeminiDocument.worksheet_events, GeminiExport.table_sheet.
  cbn [GeminiExport.header_row GeminiExport.rows_written GeminiExport.autofilter].
  unfold wsp_init.
  rewrite sheet_decls_cons, fold_step_cons, step_start_other by reflexivity.
  cbn [declared_by app].
  rewrite sheet_decls_app, (fold_left_app ws_step (GeminiDocument.indent split 2)).
  destruct (indent_read 2 ws_init s 0 0 "n" None) as [-> ->]. cbn [app].
  rewrite sheet_decls_cons, fold_step_cons, step_start_other by reflexivity.
  cbn [declared_by app].
  (* the header row; its first cell creates the text buffer *)
  cbn [GeminiExport.header_cells].
  destruct (gemini_cell_step ws_init s 0 0 "n" None
              (GeminiExport.HeaderCell (GeminiLetters.int_to_col 0 ++ lit "1")
                 (strbuf_append_xml_escaped [] n)) 1 1) as
    (w1 & ty & tx1 & Hset & Htx1 & Hdecl1 & Hfold1);
    [apply (parse_cell_ref_written 0 1); lia|lia|lia| |].
  { right. cbn [GeminiDocument.as_opus payload]. rewrite gemini_escape_chardata.
    apply line_ends_nonempty. exact Hn. }
  cbn [length] in Hcols.
  destruct (gemini_header_cells_decls names 1 w1 s 1 1 ty tx1 Htx1) as
    (w2 & cr2 & cc2 & ct2 & tx2 & Htx2 & Hmax2 & Hd2 & Hf2); [lia|lia|].
  change (0 + 1) with 1.
  assert (Hhdr :
    sheet_decls (resting ws_init s 0 0 "n" None)
      (concat (map (fun c => GeminiDocument.indent split 6
                             ++ GeminiDocument.cell_events split c)
                   (GeminiExport.HeaderCell (GeminiLetters.int_to_col 0 ++ lit "1")
                      (strbuf_append_xml_escaped [] n)
                    :: GeminiExport.header_cells 1 names)))
    = header_decls line_ends 0 (n :: names) /\
    fold_left ws_step
      (concat (map (fun c => GeminiDocument.indent split 6
                             ++ GeminiDocument.cell_events split c)
                   (GeminiExport.HeaderCell (GeminiLetters.int_to_col 0 ++ lit "1")
                      (strbuf_append_xml_escaped [] n)
                    :: GeminiExport.header_cells 1 names)))
      (resting ws_init s 0 0 "n" None)
    = resting w2 s cr2 cc2 ct2 tx2).
  { cbn [map concat header_decls].
    rewrite sheet_decls_app,
      (fold_left_app ws_step
         (GeminiDocument.indent split 6 ++ GeminiDocument.cell_events split _)).
    rewrite Hdecl1, Hfold1, Hd2, Hf2.
    cbn [GeminiDocument.as_opus cell_back]. rewrite gemini_escape_chardata.
    split; reflexivity. }
  destruct Hhdr as [Hhd Hhf].
  destruct (gemini_row_frame 1 _ ws_init s 0 0 "n"%char None w2 cr2 cc2 ct2 tx2 _ Hhd Hhf)
    as [Hrd Hrf].
  rewrite sheet_decls_app,
    (fold_left_app ws_step (GeminiDocument.row_events split 1 _)).
  rewrite Hrd, Hrf.
  (* the data rows *)
  destruct (gemini_rows_decls (S (length names)) rs 2 w2 s cr2 cc2 ct2 tx2 Htx2) as
    (w3 & cr3 & cc3 & ct3 & tx3 & Htx3 & Hmax3 & Hd3 & Hf3); [lia|lia|lia|exact Hlen|].
  cbn [length].
  rewrite sheet_decls_app,
    (fold_left_app ws_step
       (concat (map (fun r => GeminiDocument.row_events split (fst r) (snd r)) _))).
  rewrite Hd3, Hf3.
  apply ws_set_cell_max in Hset. change (max_col ws_init) with 0 in Hset.
  assert (Hw2 : max_col w2 = Z.of_nat (S (length names))).
  { rewrite Hmax2. destruct names; cbn [length]; lia. }
  assert (Hw3 : max_col w3 = Z.of_nat (S (length names))) by lia.
  (* what is left changes nothing *)
  assert (Htail : forall evs,
    Forall (fun e => match e with
                     | StartElement name _ | EndElement name =>
                         streq name (lit "c") = false /\ streq name (lit "v") = false /\
                         streq name (lit "is") = false /\ streq name (lit "t") = false
                     | CharacterData _ => True
                     end) evs ->
    sheet_decls (resting w3 s cr3 cc3 ct3 tx3) evs = [] /\
    fold_left ws_step evs (resting w3 s cr3 cc3 ct3 tx3) = resting w3 s cr3 cc3 ct3 tx3).
  { induction 1 as [|e evs He _ [IHd IHf]]; [split; reflexivity|].
    rewrite sheet_decls_cons, fold_step_cons.
    destruct e as [name atts|name|d].
    - destruct He as (Hc & Hv & His & Ht).
      rewrite step_start_other by assumption. cbn [declared_by app]. split; assumption.
    - destruct He as (Hc & Hv & His & Ht).
      destruct (step_end_other (resting w3 s cr3 cc3 ct3 tx3) name Hc Hv His Ht) as [-> ->].
      cbn [app]. split; assumption.
    - change (ws_step (resting w3 s cr3 cc3 ct3 tx3) (CharacterData d))
        with (resting w3 s cr3 cc3 ct3 tx3).
      cbn [declared_by app]. split; assumption. }
  match goal with
  | |- context [sheet_decls (resting w3 s cr3 cc3 ct3 tx3) ?evs] =>
      destruct (Htail evs) as [Ht1 Ht2]
  end.
  { assert (Hchars : forall chunks,
      Forall (fun e => match e with
                       | StartElement name _ | EndElement name =>
                           streq name (lit "c") = false /\ streq name (lit "v") = false /\
                           streq name (lit "is") = false /\ streq name (lit "t") = false
                       | CharacterData _ => True
                       end) (map CharacterData chunks)).
    { intros chunks. apply List.Forall_forall. intros e He.
      apply in_map_iff in He as (d & <- & _). exact I. }
    apply Forall_app. split; [apply Hchars|].
    constructor; [repeat split; reflexivity|].
    apply Forall_app. split.
    - destruct (0 <? Z.of_nat (S (length names))); [|constructor].
      apply Forall_app. split; [apply Hchars|repeat constructor].
    - apply Forall_app. split; [apply Hchars|repeat constructor]. }
  rewrite Ht1, Ht2. cbn [ws]. split; [|exact Hw3].
  rewrite app_nil_r. reflexivity.
Qed.


(** *** The table *)

Section Table.
Context {db : Type}.
Variable exec : db -> cstring -> option db.
Variable prepare : db -> cstring -> bool.
Variable step : db -> cstring -> list (option cstring) -> option db.
Variable ins : db -> list (option cstring) -> db.

(** X25: a table exported by the gemini exporter and read by the opus
    importer, when the names and texts the exporter wrote are made of
    characters the XML parser accepts and however the parser cuts the
    character data.  The table has a first column with a name, its row
    and column counts fit an [int], and the database accepts the
    statements.  Then the parser accepts the part, and the opus
    importer creates the table from the header names and inserts, in
    order, one row for every table row that has a value other than
    NULL: an integer or a float as printed, a text with every line end
    a line feed, and NULL where the table held NULL, whatever its place
    in the row.  A row that holds only NULLs is not inserted. *)
Theorem gemini_export_opus_import_round_trip
    (target : cstring) (n : cstring) (names : list cstring)
    (rows : list (list sql_value)) (s : SharedStrings) (d d1 : db) :
  n <> [] ->
  Z.of_nat (length (n :: names)) <= 2147483647 ->
  Z.of_nat (length rows) + 1 <= 2147483647 ->
  GeminiDocument.well_formed (GeminiExport.table_sheet (n :: names) rows) = true ->
  Forall (fun vals => length vals = length (n :: names)) rows ->
  exec d (create_sql target
            (map (fun name => mk_cell (Some (line_ends name))) (n :: names))
            (length (n :: names))) = Some d1 ->
  prepare d1 (insert_sql target (length (n :: names))) = true ->
  (forall d' vals,
     step d' (insert_sql target (length (n :: names))) vals = Some (ins d' vals)) ->
  exists evs,
    GeminiDocument.XML_Parse split (GeminiExport.table_sheet (n :: names) rows) = Some evs /\
    create_table_from_worksheet db exec prepare step d target (parse_worksheet evs s)
    = (true,
       fold_left ins
         (map (map GeminiDocument.read_back) (List.filter (existsb written) rows)) d1).
Proof.
  intros Hn Hwidth Hheight Hwf Hlen Hexec Hprep Hstep.
  exists (GeminiDocument.worksheet_events split (GeminiExport.table_sheet (n :: names) rows)).
  split; [unfold GeminiDocument.XML_Parse; rewrite Hwf; reflexivity|].
  destruct (gemini_worksheet_read n names rows s Hn Hwidth Hheight Hlen) as [Hdecls Hmax].
  destruct (exported_grid GeminiDocument.read_back line_ends (n :: names) rows)
    as (data & m & Hgrid & Hdata); [discriminate|].
  unfold create_table_from_worksheet.
  rewrite opus_sheet_grid, Hdecls, Hgrid, Hmax.
  cbn [length Nat.eqb orb]. rewrite Nat2Z.id.
  destruct (Z.of_nat (S (length names)) =? 0) eqn:E; [apply Z.eqb_eq in E; lia|].
  change ((map (fun name => mk_cell (Some (line_ends name))) (n :: names) :: data) !! 0%nat)
    with (Some (map (fun name => mk_cell (Some (line_ends name))) (n :: names))).
  cbn [default tail from_option id]. cbn [length] in Hexec, Hprep, Hstep.
  rewrite Hexec, Hprep.
  rewrite <- (insert_rows_pad step _ _ m data), Hdata.
  apply (insert_rows_grid GeminiDocument.read_back); [reflexivity|assumption|assumption].
Qed.

End Table.

End GeminiOpusRoundTrip.

Lemma gemini_export_opus_import_round_trip_witness :
  exists evs,
    GeminiDocument.XML_Parse TableFixtures.letters
      (GeminiExport.table_sheet [CStr.lit "id"; CStr.lit "note"]
         TableFixtures.rows_null_first) = Some evs /\
    OpusTable.create_table_from_worksheet TableFixtures.log TableFixtures.log_exec
      TableFixtures.log_prepare TableFixtures.log_step [] (CStr.lit "copy")
      (OpusImport.parse_worksheet evs [])
    = (true, [[None; Some (CStr.lit "x")]]).
Proof.
  apply (gemini_export_opus_import_round_trip TableFixtures.letters
           letters_concat letters_nonempty
           TableFixtures.log_exec TableFixtures.log_prepare TableFixtures.log_step
           TableFixtures.log_ins (CStr.lit "copy") (CStr.lit "id") [CStr.lit "note"]
           TableFixtures.rows_null_first [] [] []).
  - discriminate.
  - simpl. lia.
  - simpl. lia.
  - vm_compute. reflexivity.
  - repeat (constructor; [reflexivity|]). constructor.
  - reflexivity.
  - reflexivity.
  - reflexivity.
Defined.
